(** * EFT_xsec: the two scan drivers [scan_mll_bins.py] and
    [scan_mll_bins_cxx.py], embedded and verified.

    Conventions of the embedding.
    - A Python [str] is a [string]; its characters are code points below 256
      and the character classes are CPython's, restricted to that range.
    - The content of a file is the text that a text-mode read returns; a
      directory tree is a finite map from resolved paths to such texts.
    - A Python float is carried as the exact decimal expansion of its
      binary64 value (sign, digits, power of ten): [float(s)] rounds the
      decimal it reads to the nearest binary64, ties to even, and the
      formats round the exact value.  Every float literal of the two
      scripts is a small integer, which binary64 holds exactly.
    - The event generator is an opaque collaborator: a function from the
      state it is started in and its argument list to an exit status and the
      text it prints; it does not touch the files the drivers own. *)

From Stdlib Require Import ZArith NArith Lia Bool Ascii String List.
From Stdlib Require Import Numbers.DecimalString Numbers.DecimalN.
From stdpp Require Import base option list gmap strings.
Import ListNotations.

Local Open Scope string_scope.
Local Open Scope list_scope.
Local Open Scope stdpp_scope.

(* ===================================================================== *)
(** * Python text primitives *)
(* ===================================================================== *)

Module PyStr.

Definition code (c : ascii) : N := N_of_ascii c.

Definition between (lo hi : N) (c : ascii) : bool :=
  ((lo <=? code c) && (code c <=? hi))%N.

(** [str.isspace] on one character, which is also the class [\s] of [re]
    for [str] patterns. *)
Definition isspace (c : ascii) : bool :=
  between 9 13 c || between 28 32 c || (code c =? 133)%N || (code c =? 160)%N.

(** The class [\d] of [re]: the decimal digits. *)
Definition isdigit (c : ascii) : bool := between 48 57 c.

(** The class [\w] of [re]: alphanumerics and the underscore. *)
Definition isword (c : ascii) : bool :=
  between 48 57 c || between 65 90 c || (code c =? 95)%N || between 97 122 c
  || (code c =? 170)%N || between 178 179 c || (code c =? 181)%N
  || between 185 186 c || between 188 190 c || between 192 214 c
  || between 216 246 c || between 248 255 c.

Definition nl : ascii := "010"%char.

Definition is_nl (c : ascii) : bool := Ascii.eqb c nl.

Fixpoint all (p : ascii -> bool) (s : string) : bool :=
  match s with
  | EmptyString => true
  | String c t => p c && all p t
  end.

Fixpoint startswith (pre s : string) : bool :=
  match pre, s with
  | EmptyString, _ => true
  | String a p', String b s' => Ascii.eqb a b && startswith p' s'
  | String _ _, EmptyString => false
  end.

(** [sub in s] for strings. *)
Fixpoint contains (sub s : string) : bool :=
  startswith sub s ||
  match s with
  | EmptyString => false
  | String _ t => contains sub t
  end.

Fixpoint drop (n : nat) (s : string) : string :=
  match n, s with
  | O, _ => s
  | S k, String _ t => drop k t
  | S _, EmptyString => EmptyString
  end.

Fixpoint take (n : nat) (s : string) : string :=
  match n, s with
  | O, _ => EmptyString
  | S k, String c t => String c (take k t)
  | S _, EmptyString => EmptyString
  end.

Fixpoint dropwhile (p : ascii -> bool) (s : string) : string :=
  match s with
  | String c t => if p c then dropwhile p t else s
  | EmptyString => EmptyString
  end.

Fixpoint takewhile (p : ascii -> bool) (s : string) : string :=
  match s with
  | String c t => if p c then String c (takewhile p t) else EmptyString
  | EmptyString => EmptyString
  end.

(** The lines a text-mode file object yields when it is iterated: each
    line keeps its terminating newline, the last one may lack it. *)
Fixpoint lines_go (cur : string) (s : string) : list string :=
  match s with
  | EmptyString => match cur with EmptyString => [] | _ => [String.rev cur] end
  | String c t =>
      if is_nl c then String.rev (String c cur) :: lines_go EmptyString t
      else lines_go (String c cur) t
  end.

Definition lines (s : string) : list string := lines_go EmptyString s.

(** [s.split()] with no argument: the maximal runs of non-whitespace. *)
Fixpoint split_go (cur : string) (s : string) : list string :=
  match s with
  | EmptyString => match cur with EmptyString => [] | _ => [String.rev cur] end
  | String c t =>
      if isspace c
      then match cur with
           | EmptyString => split_go EmptyString t
           | _ => String.rev cur :: split_go EmptyString t
           end
      else split_go (String c cur) t
  end.

Definition split (s : string) : list string := split_go EmptyString s.

(** [s.strip()] with no argument. *)
Definition strip (s : string) : string :=
  String.rev (dropwhile isspace (String.rev (dropwhile isspace s))).

(** [s.replace(old, new)], all non-overlapping occurrences from the left
    ([old] is not empty at any call site). *)
Fixpoint replace_go (old new : string) (skip : nat) (s : string) : string :=
  match s with
  | EmptyString => EmptyString
  | String c t =>
      match skip with
      | S k => replace_go old new k t
      | O =>
          if startswith old s
          then new +:+ replace_go old new (String.length old - 1) t
          else String c (replace_go old new O t)
      end
  end.

Definition replace (old new s : string) : string := replace_go old new O s.

(** [s.split(sep)] for a one-character separator: the pieces between
    the separators, empty ones included. *)
Fixpoint split_on_go (sep : ascii) (cur : string) (s : string) : list string :=
  match s with
  | EmptyString => [String.rev cur]
  | String c t =>
      if Ascii.eqb c sep then String.rev cur :: split_on_go sep EmptyString t
      else split_on_go sep (String c cur) t
  end.

Definition split_on (sep : ascii) (s : string) : list string :=
  split_on_go sep EmptyString s.

(** [sep.join(parts)]. *)
Fixpoint join (sep : string) (parts : list string) : string :=
  match parts with
  | [] => EmptyString
  | [x] => x
  | x :: rest => x +:+ sep +:+ join sep rest
  end.

Fixpoint repeat_char (c : ascii) (n : nat) : string :=
  match n with
  | O => EmptyString
  | S k => String c (repeat_char c k)
  end.

(** Right alignment in a field of [width] characters, the default for
    numbers in a format specification. *)
Definition rjust (width : nat) (s : string) : string :=
  repeat_char " " (width - String.length s) +:+ s.

End PyStr.


(* ===================================================================== *)
(** * Python numbers: [int], [float], their parsing and formatting *)
(* ===================================================================== *)

Module PyNum.
Import PyStr.

(** A float: [(-1)^neg * m * 10^e], an infinity or the not-a-number. *)
Inductive float :=
| Finite (neg : bool) (m : N) (e : Z)
| Inf (neg : bool)
| NaN.

(** The float that a literal such as [15.0] or an [int] denotes. *)
Definition float_of_int (z : Z) : float := Finite (z <? 0)%Z (Z.abs_N z) 0.

Definition N_str (n : N) : string := NilZero.string_of_uint (N.to_uint n).

(** [str(z)] for an [int]. *)
Definition int_str (z : Z) : string :=
  if (z <? 0)%Z then "-" +:+ N_str (Z.abs_N z) else N_str (Z.abs_N z).

(** [int(x)]: truncation towards zero; [None] where Python raises
    ([OverflowError] on an infinity, [ValueError] on the not-a-number). *)
Definition int_of_float (x : float) : option Z :=
  match x with
  | Finite neg m e =>
      let a := if (0 <=? e)%Z then (m * 10 ^ Z.to_N e)%N
               else (m / 10 ^ Z.to_N (- e))%N in
      Some (if neg then (- Z.of_N a)%Z else Z.of_N a)
  | _ => None
  end.

(** ** [float(s)] *)

Definition digit_val (c : ascii) : N := (code c - 48)%N.

Definition lower (c : ascii) : ascii :=
  if between 65 90 c then ascii_of_N (code c + 32) else c.

Fixpoint lower_str (s : string) : string :=
  match s with
  | EmptyString => EmptyString
  | String c t => String (lower c) (lower_str t)
  end.

(** The rest of a digit part, [(["_"] digit)*], after its first digit:
    the value so far, the number of digits read and the unread text. *)
Fixpoint digits_more (acc : N) (cnt : nat) (s : string) : N * nat * string :=
  match s with
  | String c t =>
      if isdigit c then digits_more (acc * 10 + digit_val c) (S cnt) t
      else if Ascii.eqb c "_" then
        match t with
        | String d t' =>
            if isdigit d then digits_more (acc * 10 + digit_val d) (S cnt) t'
            else (acc, cnt, s)
        | EmptyString => (acc, cnt, s)
        end
      else (acc, cnt, s)
  | EmptyString => (acc, cnt, s)
  end.

Definition digitpart (acc : N) (s : string) : option (N * nat * string) :=
  match s with
  | String c t =>
      if isdigit c then Some (digits_more (acc * 10 + digit_val c) 1 t) else None
  | EmptyString => None
  end.

Definition sign (s : string) : bool * string :=
  match s with
  | String c t =>
      if Ascii.eqb c "-" then (true, t)
      else if Ascii.eqb c "+" then (false, t) else (false, s)
  | EmptyString => (false, s)
  end.

(** The optional exponent, which has to reach the end of the text. *)
Definition exponent (s : string) : option Z :=
  match s with
  | EmptyString => Some 0%Z
  | String c t =>
      if Ascii.eqb (lower c) "e" then
        let '(neg, t') := sign t in
        match digitpart 0 t' with
        | Some (n, _, EmptyString) => Some (if neg then - Z.of_N n else Z.of_N n)%Z
        | _ => None
        end
      else None
  end.

Definition with_exponent (neg : bool) (m : N) (frac : nat) (rest : string)
  : option float :=
  match exponent rest with
  | Some x => Some (Finite neg m (x - Z.of_nat frac))
  | None => None
  end.

(** The decimal a text spells, before any rounding. *)
Definition floatnumber (neg : bool) (s : string) : option float :=
  match s with
  | String c t =>
      if Ascii.eqb c "." then
        match digitpart 0 t with
        | Some (m, k, r) => with_exponent neg m k r
        | None => None
        end
      else
        match digitpart 0 s with
        | Some (m, _, String d r) =>
            if Ascii.eqb d "." then
              match digitpart m r with
              | Some (m', k, r') => with_exponent neg m' k r'
              | None => with_exponent neg m 0 r
              end
            else with_exponent neg m 0 (String d r)
        | Some (m, _, EmptyString) => Some (Finite neg m 0)
        | None => None
        end
  | EmptyString => None
  end.

(** ** Rounding to binary64 *)

(** [m / d] rounded to the nearest integer, ties to even. *)
Definition round_div (m d : N) : N :=
  let q := (m / d)%N in
  let r := (m mod d)%N in
  if (d <? 2 * r)%N then (q + 1)%N
  else if (2 * r =? d)%N && N.odd q then (q + 1)%N else q.

Definition ndigits (m : N) : nat := String.length (N_str m).

(** [num / den / 2^E] rounded to the nearest integer, ties to even. *)
Definition round_shift (num den : N) (E : Z) : N :=
  if (0 <=? E)%Z then round_div num (N.shiftl den (Z.to_N E))
  else round_div (N.shiftl num (Z.to_N (- E))) den.

(** Whether [2^k <= num / den]. *)
Definition pow2_le (k : Z) (num den : N) : bool :=
  if (0 <=? k)%Z then (N.shiftl den (Z.to_N k) <=? num)%N
  else (den <=? N.shiftl num (Z.to_N (- k)))%N.

(** The binary64 nearest to [m * 10^e], ties to even: a multiple [q * 2^E]
    with [q] of at most 53 bits and [E] the exponent of the binade of the
    value less 52, not below -1074 (where the subnormals lie); an infinity
    from [2^1024 - 2^970] on.  The two tests on the number of digits only
    spare the computation for values far beyond either end of the range. *)
Definition binary64 (neg : bool) (m : N) (e : Z) : float :=
  if (m =? 0)%N then Finite neg 0 0
  else
    let d := Z.of_nat (ndigits m) in
    if (310 <? d + e)%Z then Inf neg
    else if (d + e <? -330)%Z then Finite neg 0 0
    else
      let num := if (0 <=? e)%Z then (m * 10 ^ Z.to_N e)%N else m in
      let den := if (0 <=? e)%Z then 1%N else (10 ^ Z.to_N (- e))%N in
      let k := (Z.of_N (N.log2 num) - Z.of_N (N.log2 den))%Z in
      let p := if pow2_le k num den then k else (k - 1)%Z in
      let E := Z.max (p - 52) (-1074) in
      let q := round_shift num den E in
      if (971 <? E)%Z || ((E =? 971)%Z && (2 ^ 53 <=? q)%N) then Inf neg
      else if (0 <=? E)%Z then Finite neg (N.shiftl q (Z.to_N E)) 0
      else Finite neg (q * 5 ^ Z.to_N (- E)) E.

(** [float(s)]: [None] where Python raises [ValueError]. *)
Definition float_of_string (s : string) : option float :=
  let '(neg, u) := sign (strip s) in
  let l := lower_str u in
  if String.eqb l "inf" || String.eqb l "infinity" then Some (Inf neg)
  else if String.eqb l "nan" then Some NaN
  else
    match floatnumber neg u with
    | Some (Finite n m e) => Some (binary64 n m e)
    | r => r
    end.

(** ** Formatting *)

Inductive presentation := Pe | Pf | Pg.

(** [m * 10^s] as an integer, rounded when [s] is negative. *)
Definition scale (m : N) (s : Z) : N :=
  if (0 <=? s)%Z then (m * 10 ^ Z.to_N s)%N else round_div m (10 ^ Z.to_N (- s)).

Definition zpad (w : nat) (s : string) : string :=
  repeat_char "0" (w - String.length s) +:+ s.

Definition with_point (int_digits : nat) (ds : string) : string :=
  match drop int_digits ds with
  | EmptyString => ds
  | frac => take int_digits ds +:+ "." +:+ frac
  end.

(** Fixed notation with [p] digits after the point, unsigned. *)
Definition fixed (m : N) (e : Z) (p : nat) : string :=
  let ds := zpad (S p) (N_str (scale m (e + Z.of_nat p))) in
  with_point (String.length ds - p) ds.

(** The [p + 1] significant digits of [m * 10^e] and its decimal
    exponent, after rounding; [m] is not zero. *)
Definition sci_parts (m : N) (e : Z) (p : nat) : N * Z :=
  let n := ndigits m in
  let v := scale m (Z.of_nat p - (Z.of_nat n - 1)) in
  let x := (Z.of_nat n - 1 + e)%Z in
  if (ndigits v =? p + 2)%nat then ((v / 10)%N, (x + 1)%Z) else (v, x).

Definition exp_str (x : Z) : string :=
  "e" +:+ (if (x <? 0)%Z then "-" else "+") +:+ zpad 2 (N_str (Z.abs_N x)).

(** Removal of the trailing zeros of a fraction, and of a point left
    bare, as the [g] presentation does. *)
Definition strip_zeros (s : string) : string :=
  if contains "." s then
    match dropwhile (Ascii.eqb "0") (String.rev s) with
    | String c t => if Ascii.eqb c "." then String.rev t else String.rev (String c t)
    | EmptyString => EmptyString
    end
  else s.

Definition sci (m : N) (e : Z) (p : nat) : string :=
  if (m =? 0)%N then with_point 1 (repeat_char "0" (S p)) +:+ exp_str 0
  else let '(v, x) := sci_parts m e p in with_point 1 (N_str v) +:+ exp_str x.

Definition general (m : N) (e : Z) (prec : nat) : string :=
  let P := Nat.max 1 prec in
  if (m =? 0)%N then "0"
  else
    let '(v, x) := sci_parts m e (P - 1) in
    if ((-4 <=? x) && (x <? Z.of_nat P))%Z
    then strip_zeros (fixed m e (Z.to_nat (Z.of_nat P - 1 - x)))
    else strip_zeros (with_point 1 (N_str v)) +:+ exp_str x.

Definition sign_str (neg : bool) : string := if neg then "-" else "".

(** [format(x, "<width>.<prec><ty>")]. *)
Definition format_float (width prec : nat) (ty : presentation) (x : float) : string :=
  rjust width
    match x with
    | Finite neg m e =>
        sign_str neg +:+
        match ty with
        | Pe => sci m e prec
        | Pf => fixed m e prec
        | Pg => general m e prec
        end
    | Inf neg => sign_str neg +:+ "inf"
    | NaN => "nan"
    end.

(** The significant digits of [m] without its trailing zeros, and the
    matching exponent. *)
Fixpoint normalize (fuel : nat) (m : N) (e : Z) : N * Z :=
  match fuel with
  | O => (m, e)
  | S k => if (m mod 10 =? 0)%N then normalize k (m / 10)%N (e + 1)%Z else (m, e)
  end.

(** Whether [m1 * 10^e1] and [m2 * 10^e2] are the same number. *)
Definition same_value (m1 : N) (e1 : Z) (m2 : N) (e2 : Z) : bool :=
  if (e1 <=? e2)%Z then (m1 =? m2 * 10 ^ Z.to_N (e2 - e1))%N
  else (m1 * 10 ^ Z.to_N (e1 - e2) =? m2)%N.

(** The fewest significant digits that read back as [m * 10^e]: the
    value rounded to [p + 1] digits for the first [p] at which [float]
    returns the value itself; 17 digits do for every binary64. *)
Fixpoint shortest (fuel p : nat) (m : N) (e : Z) : N * Z :=
  match fuel with
  | O => (m, e)
  | S k =>
      let '(v, x) := sci_parts m e p in
      match binary64 false v (x - Z.of_nat p) with
      | Finite _ m2 e2 =>
          if same_value m e m2 e2 then (v, (x - Z.of_nat p)%Z)
          else shortest k (S p) m e
      | _ => shortest k (S p) m e
      end
  end.

(** [str(x)], the shortest text that reads back as [x]. *)
Definition float_str (x : float) : string :=
  match x with
  | Finite neg m e =>
      sign_str neg +:+
      if (m =? 0)%N then "0.0"
      else
        let '(m0, e0) := shortest 17 0 m e in
        let '(m', e') := normalize (ndigits m0) m0 e0 in
        let ds := N_str m' in
        let n := Z.of_nat (String.length ds) in
        let decpt := (n + e')%Z in
        if ((-4 <? decpt) && (decpt <=? 16))%Z then
          if (decpt <=? 0)%Z
          then "0." +:+ repeat_char "0" (Z.to_nat (- decpt)) +:+ ds
          else if (n <=? decpt)%Z
          then ds +:+ repeat_char "0" (Z.to_nat (decpt - n)) +:+ ".0"
          else with_point (Z.to_nat decpt) ds
        else with_point 1 ds +:+ exp_str (decpt - 1)
  | Inf neg => sign_str neg +:+ "inf"
  | NaN => "nan"
  end.

End PyNum.

(* ===================================================================== *)
(** * The fragment of [re] the scripts use *)
(* ===================================================================== *)

Module Re.
Import PyStr.

(** A pattern is a sequence of atoms; quantifiers apply to one-character
    classes, which is all the scripts' patterns need. *)
Inductive atom :=
| Bol                          (* ^ under re.MULTILINE *)
| Star (p : ascii -> bool)     (* class*, greedy *)
| Plus (p : ascii -> bool)     (* class+, greedy *)
| Opt (p : ascii -> bool)      (* class?, greedy *)
| Lit (s : string)             (* literal text *)
| WordB                        (* \b *)
| GOpen                        (* ( *)
| GClose.                      (* ) *)

Definition pattern := list atom.

(** The offsets, from the start of the match, of the group parentheses in
    the order they were crossed, and the offset of the end of the match. *)
Definition found : Type := list nat * nat.

Definition at_bol (prev : option ascii) : bool :=
  match prev with
  | None => true
  | Some c => is_nl c
  end.

Definition word_before (prev : option ascii) : bool :=
  match prev with
  | None => false
  | Some c => isword c
  end.

Definition word_after (s : string) : bool :=
  match s with
  | EmptyString => false
  | String c _ => isword c
  end.

Definition at_wordb (prev : option ascii) (s : string) : bool :=
  xorb (word_before prev) (word_after s).

Fixpoint last_char (prev : option ascii) (s : string) : option ascii :=
  match s with
  | EmptyString => prev
  | String c t => last_char (Some c) t
  end.

(** Greedy repetition of a class with backtracking: the longest run
    first, then shorter ones, until the continuation [k] succeeds. *)
Fixpoint star (p : ascii -> bool)
    (k : option ascii -> nat -> string -> option found)
    (prev : option ascii) (pos : nat) (s : string) : option found :=
  match s with
  | String c t =>
      if p c then
        match star p k (Some c) (S pos) t with
        | Some r => Some r
        | None => k prev pos s
        end
      else k prev pos s
  | EmptyString => k prev pos s
  end.

(** The backtracking matcher: [run ps prev pos marks s] matches [ps] against
    [s], which starts [pos] characters into the match and is preceded by
    the character [prev] (none at the start of the text). *)
Fixpoint run (ps : pattern) (prev : option ascii) (pos : nat)
    (marks : list nat) (s : string) : option found :=
  match ps with
  | [] => Some (List.rev marks, pos)
  | Bol :: ps' => if at_bol prev then run ps' prev pos marks s else None
  | WordB :: ps' => if at_wordb prev s then run ps' prev pos marks s else None
  | GOpen :: ps' => run ps' prev pos (pos :: marks) s
  | GClose :: ps' => run ps' prev pos (pos :: marks) s
  | Lit l :: ps' =>
      if startswith l s
      then run ps' (last_char prev l) (pos + String.length l) marks
             (drop (String.length l) s)
      else None
  | Star p :: ps' => star p (fun prev' pos' s' => run ps' prev' pos' marks s') prev pos s
  | Plus p :: ps' =>
      match s with
      | String c t =>
          if p c
          then star p (fun prev' pos' s' => run ps' prev' pos' marks s') (Some c) (S pos) t
          else None
      | EmptyString => None
      end
  | Opt p :: ps' =>
      match s with
      | String c t =>
          if p c then
            match run ps' (Some c) (S pos) marks t with
            | Some r => Some r
            | None => run ps' prev pos marks s
            end
          else run ps' prev pos marks s
      | EmptyString => run ps' prev pos marks s
      end
  end.

(** [pattern.match] at a position of the text. *)
Definition match_at (ps : pattern) (prev : option ascii) (s : string) : option found :=
  run ps prev 0 [] s.

(** [m.group(i)], for groups that do not nest; [s] is the text from the
    start of the match. *)
Definition group (s : string) (marks : list nat) (i : nat) : string :=
  let a := nth (2 * (i - 1)) marks 0 in
  let b := nth (2 * (i - 1) + 1) marks 0 in
  take (b - a) (drop a s).

(** [re.subn(pattern, repl, text, flags=re.MULTILINE)]: the matches are
    searched from left to right and do not overlap; [repl] gives the
    replacement of a match from the text at its start and its groups.
    [skip] counts the characters of the current match still to pass. *)
Fixpoint subn_go (ps : pattern) (repl : string -> list nat -> string)
    (prev : option ascii) (skip : nat) (s : string) : string * nat :=
  match s with
  | EmptyString =>
      match skip, match_at ps prev s with
      | O, Some (marks, _) => (repl s marks, 1)
      | _, _ => (EmptyString, 0)
      end
  | String c t =>
      match skip with
      | S k => subn_go ps repl (Some c) k t
      | O =>
          match match_at ps prev s with
          | Some (marks, S n) =>
              let '(out, cnt) := subn_go ps repl (Some c) n t in
              (repl s marks +:+ out, S cnt)
          | Some (marks, O) =>
              let '(out, cnt) := subn_go ps repl (Some c) O t in
              (repl s marks +:+ String c out, S cnt)
          | None =>
              let '(out, cnt) := subn_go ps repl (Some c) O t in
              (String c out, cnt)
          end
      end
  end.

Definition subn (ps : pattern) (repl : string -> list nat -> string) (text : string)
  : string * nat :=
  subn_go ps repl None O text.

Definition one_of (cs : string) (c : ascii) : bool :=
  contains (String c EmptyString) cs.

(** [[-+]] and [[\d.eE+-]]. *)
Definition signch (c : ascii) : bool := one_of "-+" c.
Definition numch (c : ascii) : bool := isdigit c || one_of ".eE+-" c.

End Re.

(* ===================================================================== *)
(** * The world the scripts run in: paths, files, output, subprocesses *)
(* ===================================================================== *)

Module Os.
Import PyStr.

(** A [pathlib.Path]: whether it is anchored at the root, and its
    components. *)
Record Path := { absolute : bool; parts : list string }.

Definition is_component (c : string) : bool :=
  negb (String.eqb c "") && negb (String.eqb c ".").

(** [Path(s)] *)
Definition path_of (s : string) : Path :=
  {| absolute := startswith "/" s;
     parts := List.filter is_component (split_on "/" s) |}.

(** [p / s] *)
Definition joinpath (p : Path) (s : string) : Path :=
  let q := path_of s in
  if absolute q then q
  else {| absolute := absolute p; parts := parts p ++ parts q |}.

(** [str(p)] *)
Definition path_str (p : Path) : string :=
  match absolute p, parts p with
  | true, ps => "/" +:+ join "/" ps
  | false, [] => "."
  | false, ps => join "/" ps
  end.

Inductive event :=
| EvMkdir (p : list string)
| EvRead (p : list string)
| EvWrite (p : list string)
| EvAppend (p : list string)
| EvSpawn (cmd : list string) (stdout_to stderr_to : list string).

(** The working directory, the files by resolved path, the text printed
    so far and the operations performed on the outside so far, oldest
    first. *)
Record world := {
  cwd : list string;
  files : gmap (list string) string;
  stdout : list string;
  trace : list event
}.

Definition resolve (w : world) (p : Path) : list string :=
  if absolute p then parts p else cwd w ++ parts p.

Inductive exn :=
| RuntimeError (msg : string)
| FileNotFoundError (msg : string)
| CalledProcessError (returncode : Z) (cmd : list string)
| OSError
| ValueError
| SystemExit (code : Z).

Inductive result (A : Type) :=
| Ok (a : A)
| Raise (e : exn).
Arguments Ok {A} a.
Arguments Raise {A} e.

(** A computation: from a world to a value or an exception, and the world
    it leaves. *)
Definition M (A : Type) : Type := world -> result A * world.

Definition ret {A} (a : A) : M A := fun w => (Ok a, w).

Definition raise {A} (e : exn) : M A := fun w => (Raise e, w).

Definition bind {A B} (m : M A) (k : A -> M B) : M B :=
  fun w =>
    match m w with
    | (Ok a, w') => k a w'
    | (Raise e, w') => (Raise e, w')
    end.

Definition log_event (ev : event) (w : world) : world :=
  {| cwd := cwd w; files := files w; stdout := stdout w; trace := trace w ++ [ev] |}.

Definition set_file (p : list string) (text : string) (w : world) : world :=
  {| cwd := cwd w; files := <[p := text]> (files w); stdout := stdout w;
     trace := trace w |}.

(** [print(s)] *)
Definition print (s : string) : M unit :=
  fun w =>
    (Ok tt, {| cwd := cwd w; files := files w;
               stdout := stdout w ++ [s +:+ String nl ""]; trace := trace w |}).

(** [p.mkdir(exist_ok=True)]; directories are not kept in the world. *)
Definition mkdir (p : Path) : M unit :=
  fun w => (Ok tt, log_event (EvMkdir (resolve w p)) w).

(** [p.exists()] *)
Definition exists_ (p : Path) : M bool :=
  fun w => (Ok (bool_decide (is_Some (files w !! resolve w p))), w).

(** [p.read_text()], and reading an opened file to its end. *)
Definition read_text (p : Path) : M string :=
  fun w =>
    match files w !! resolve w p with
    | Some text => (Ok text, log_event (EvRead (resolve w p)) w)
    | None => (Raise (FileNotFoundError (path_str p)), w)
    end.

(** [p.write_text(text)], and [p.open("w")] followed by one write. *)
Definition write_text (p : Path) (text : string) : M unit :=
  fun w => (Ok tt, log_event (EvWrite (resolve w p)) (set_file (resolve w p) text w)).

(** [p.open("a")] followed by one write. *)
Definition append_text (p : Path) (text : string) : M unit :=
  fun w =>
    let old := default EmptyString (files w !! resolve w p) in
    (Ok tt, log_event (EvAppend (resolve w p)) (set_file (resolve w p) (old +:+ text) w)).

(** [p.open("w")] with nothing written yet: the file is created or
    emptied. *)
Definition open_w (p : Path) : M unit := write_text p EmptyString.

Inductive stream := Stdout | Stderr.

(** What a finished child process leaves: its exit status and what it
    wrote, piece by piece in the order of writing. *)
Record completed := { returncode : Z; written : list (stream * string) }.

Definition all_output (c : completed) : string :=
  join "" (List.map snd (written c)).

Section Subprocess.
(** The program run as a child: from the world it starts in and its
    argument list to what it leaves, or nothing when it cannot be
    started. *)
Variable execute : world -> list string -> option completed.

(** [subprocess.run(cmd, check=True, stdout=log, stderr=subprocess.STDOUT)]
    where [log] is the file at [log_path] opened for writing. *)
Definition subprocess_run (cmd : list string) (log_path : Path) : M unit :=
  fun w =>
    let p := resolve w log_path in
    match execute w cmd with
    | None => (Raise OSError, w)
    | Some c =>
        let w' := log_event (EvSpawn cmd p p) (set_file p (all_output c) w) in
        if (returncode c =? 0)%Z then (Ok tt, w')
        else (Raise (CalledProcessError (returncode c) cmd), w')
    end.
End Subprocess.

(** [for x in xs: body(x)] *)
Fixpoint for_each {A} (xs : list A) (body : A -> M unit) : M unit :=
  match xs with
  | [] => ret tt
  | x :: rest => bind (body x) (fun _ => for_each rest body)
  end.

(** [enumerate(xs, start)] *)
Fixpoint enumerate {A} (start : Z) (xs : list A) : list (Z * A) :=
  match xs with
  | [] => []
  | x :: rest => (start, x) :: enumerate (start + 1) rest
  end.

(** Lifting of an operation that raises [e] where the model has [None]. *)
Definition or_raise {A} (e : exn) (o : option A) : M A :=
  match o with
  | Some a => ret a
  | None => raise e
  end.

End Os.

Declare Scope py_scope.
Notation "'let*' x ':=' m 'in' k" := (Os.bind m (fun x => k))
  (at level 10, x pattern, m at level 100, k at level 200) : py_scope.
Notation "m ';;' k" := (Os.bind m (fun _ => k))
  (at level 100, k at level 200, right associativity, only parsing) : py_scope.

(* ===================================================================== *)
(** * [scan_mll_bins.py] *)
(* ===================================================================== *)

Module ScanMll.
Import PyStr PyNum Re Os.
Local Open Scope py_scope.

Section Script.
(** [Path(__file__).resolve().parent], and the event generator. *)
Variable BASE_DIR : Path.
Variable execute : world -> list string -> option completed.

Definition LOG_DIR : Path := joinpath BASE_DIR "logs".

Definition MASS_BINS : list (float * float) :=
  List.map (fun b => (float_of_int (fst b), float_of_int (snd b)))
  [ (15, 20); (20, 25); (25, 30); (30, 35); (35, 40); (40, 45); (45, 50);
    (50, 55); (55, 60); (60, 64); (64, 68); (68, 72); (72, 76); (76, 81);
    (81, 86); (86, 91); (91, 96); (96, 101); (101, 106); (106, 110);
    (110, 115); (115, 120); (120, 126); (126, 133); (133, 141); (141, 150);
    (150, 160); (160, 171); (171, 185); (185, 200); (200, 220); (220, 243);
    (243, 273); (273, 320); (320, 380); (380, 440); (440, 510); (510, 600);
    (600, 700); (700, 830); (830, 1000); (1000, 1500); (1500, 3000) ]%Z.

Definition PARAM_MIN : string := "mmll".
Definition PARAM_MAX : string := "mmllmax".

(** The bindings of lines 72 to 80, which replace those of lines 8 to 12
    before any function runs: these paths are relative to the working
    directory. *)
Definition CARDS_DIR : Path := path_of "Cards".
Definition TEMPLATE_CARD : Path := joinpath CARDS_DIR "run_card_template.dat".
Definition RUN_CARD : Path := joinpath CARDS_DIR "run_card.dat".
Definition OUTPUT_FILE : Path := path_of "xsec_vs_mll.txt".
Definition GENERATE_EVENTS : Path := joinpath (path_of "bin") "generate_events".

(** The statements with an effect that run when the module is loaded. *)
Definition init : M unit := mkdir LOG_DIR.

(** [update_run_card(mmin, mmax)].  The replacement [f" {mmin:.6g}\\1"] is
    a space, the formatted value and group 1: no format of a float
    yields a backslash, so the group reference is the template's only
    escape. *)
Definition update_run_card (mmin mmax : float) : M unit :=
  let* text := read_text TEMPLATE_CARD in
  let pattern_min :=
    [ Bol; Star isspace; Opt signch; Plus numch;
      GOpen; Star isspace; Lit "="; Star isspace; Lit PARAM_MIN; WordB; GClose ] in
  let pattern_max :=
    [ Bol; Star isspace; Opt signch; Plus numch;
      GOpen; Star isspace; Lit "="; Star isspace; Lit PARAM_MAX; WordB; GClose ] in
  let '(text, nmin) :=
    subn pattern_min
      (fun s m => " " +:+ format_float 0 6 Pg mmin +:+ group s m 1) text in
  let '(text, nmax) :=
    subn pattern_max
      (fun s m => " " +:+ format_float 0 6 Pg mmax +:+ group s m 1) text in
  if (nmin =? 0)%nat || (nmax =? 0)%nat
  then raise (RuntimeError
                ("Could not find " +:+ PARAM_MIN +:+ " or " +:+ PARAM_MAX
                 +:+ " lines in " +:+ path_str TEMPLATE_CARD +:+ "."))
  else
    write_text RUN_CARD text ;;
    print ("  -> Updated run_card.dat: " +:+ PARAM_MIN +:+ "=" +:+ float_str mmin
           +:+ ", " +:+ PARAM_MAX +:+ "=" +:+ float_str mmax).

(** [run_madgraph(run_name)] *)
Definition run_madgraph (run_name : string) : M Path :=
  let cmd := [path_str GENERATE_EVENTS; run_name; "-f"] in
  print ("  -> Running: " +:+ join " " cmd) ;;
  let log_path := joinpath LOG_DIR (run_name +:+ ".log") in
  open_w log_path ;;
  subprocess_run execute cmd log_path ;;
  ret log_path.

(** The three assignments under [try]: an index out of range or a text
    that is no float gives [None], the exception [except] catches. *)
Definition fields (parts : list string) : option (float * float * string) :=
  xsec ← parts !! 2%nat ≫= float_of_string;
  err ← parts !! 4%nat ≫= float_of_string;
  unit ← parts !! 5%nat;
  Some (xsec, err, unit).

(** The loop [for line in f]: [Ok None] when it ends without a marker
    line, [Ok (Some _)] at the [break], [Raise _] from the [except]
    clause. *)
Fixpoint scan_log (ls : list string) : result (option (float * float * string)) :=
  match ls with
  | [] => Ok None
  | line :: rest =>
      if contains "Cross-section :" line then
        match fields (split line) with
        | Some t => Ok (Some t)
        | None =>
            Raise (RuntimeError
                     ("Could not parse cross section from line:" +:+ String nl line))
        end
      else scan_log rest
  end.

(** [parse_cross_section(log_path)] *)
Definition parse_cross_section (log_path : Path) : M (float * float * string) :=
  let* present := exists_ log_path in
  if negb present
  then raise (FileNotFoundError ("Log file not found: " +:+ path_str log_path))
  else
    let* text := read_text log_path in
    match scan_log (lines text) with
    | Raise e => raise e
    | Ok None =>
        raise (RuntimeError
                 ("Could not find 'Cross-section :' line in " +:+ path_str log_path))
    | Ok (Some t) => ret t
    end.

Definition header : string :=
  "# mll_min[GeV]  mll_max[GeV]    xsec    err    unit" +:+ String nl "".

Definition row (mmin mmax xsec err : float) (unit : string) : string :=
  format_float 10 3 Pf mmin +:+ " " +:+ format_float 10 3 Pf mmax +:+ " "
  +:+ format_float 12 6 Pe xsec +:+ " " +:+ format_float 12 6 Pe err +:+ " "
  +:+ unit +:+ String nl "".

(** The body of the loop of [main]. *)
Definition step (it : Z * (float * float)) : M unit :=
  let '(i, (mmin, mmax)) := it in
  print (String nl "=== Bin " +:+ int_str i +:+ ": " +:+ float_str mmin +:+ " - "
         +:+ float_str mmax +:+ " GeV ===") ;;
  update_run_card mmin mmax ;;
  let* imin := or_raise ValueError (int_of_float mmin) in
  let* imax := or_raise ValueError (int_of_float mmax) in
  let run_name := "mll_" +:+ int_str imin +:+ "_" +:+ int_str imax in
  let* log_path := run_madgraph run_name in
  let* (xsec, err, unit) := parse_cross_section log_path in
  print ("  -> Cross-section: " +:+ float_str xsec +:+ " +- " +:+ float_str err
         +:+ " " +:+ unit) ;;
  append_text OUTPUT_FILE (row mmin mmax xsec err unit).

(** [main()] *)
Definition main : M unit :=
  write_text OUTPUT_FILE header ;;
  for_each (enumerate 1 MASS_BINS) step ;;
  print (String nl "All done. Results in " +:+ path_str OUTPUT_FILE).

(** The script run as a program. *)
Definition script : M unit := init ;; main.
End Script.

End ScanMll.

(* ===================================================================== *)
(** * [scan_mll_bins_cxx.py] *)
(* ===================================================================== *)

Module ScanMllCxx.
Import PyStr PyNum Re Os.
Local Open Scope py_scope.

Definition usage : string := "Usage: nohup python3 scan_mll_bins_cxx.py <cxx>".

Section Script.
(** [Path(__file__).resolve().parent], the event generator, and
    [sys.argv[1]]. *)
Variable BASE_DIR : Path.
Variable execute : world -> list string -> option completed.
Variable CXX_LABEL : string.

Definition GENERATE_EVENTS : Path := joinpath (joinpath BASE_DIR "bin") "generate_events".
Definition CARDS_DIR : Path := joinpath BASE_DIR "Cards".
Definition TEMPLATE_CARD : Path := joinpath CARDS_DIR "run_card_template.dat".
Definition RUN_CARD : Path := joinpath CARDS_DIR "run_card.dat".
Definition PARAM_CARD_TEMPLATE : Path := joinpath CARDS_DIR "param_card_template.dat".
Definition PARAM_CARD : Path := joinpath CARDS_DIR "param_card.dat".
Definition OUTPUT_FILE : Path := joinpath BASE_DIR "xsec_vs_mll_cxx.txt".
Definition LOG_DIR : Path := joinpath BASE_DIR "logs".

Definition MASS_BINS : list (float * float) :=
  List.map (fun b => (float_of_int (fst b), float_of_int (snd b)))
  [ (15, 20); (20, 25); (25, 30); (30, 35); (35, 40); (40, 45); (45, 50);
    (50, 55); (55, 60); (60, 64); (64, 68); (68, 72); (72, 76); (76, 81);
    (81, 86); (86, 91); (91, 96); (96, 101); (101, 106); (106, 110);
    (110, 115); (115, 120); (120, 126); (126, 133); (133, 141); (141, 150);
    (150, 160); (160, 171); (171, 185); (185, 200); (200, 220); (220, 243);
    (243, 273); (273, 320); (320, 380); (380, 440); (440, 510); (510, 600);
    (600, 700); (700, 830); (830, 1000); (1000, 1500); (1500, 3000) ]%Z.

Definition PARAM_MIN : string := "mmll".
Definition PARAM_MAX : string := "mmllmax".

Definition CXX_VALUES : list Z :=
  [-100; -70; -35; -20; -10; -5; -1; 1; 5; 10; 20; 35; 70; 100]%Z.

(** [update_run_card(mmin, mmax)].  The replacement [f" {mmin:.6g}\\1"] is
    a space, the formatted value and group 1: no format of a float
    yields a backslash, so the group reference is the template's only
    escape. *)
Definition update_run_card (mmin mmax : float) : M unit :=
  let* text := read_text TEMPLATE_CARD in
  let pattern_min :=
    [ Bol; Star isspace; Opt signch; Plus numch;
      GOpen; Star isspace; Lit "="; Star isspace; Lit PARAM_MIN; WordB; GClose ] in
  let pattern_max :=
    [ Bol; Star isspace; Opt signch; Plus numch;
      GOpen; Star isspace; Lit "="; Star isspace; Lit PARAM_MAX; WordB; GClose ] in
  let '(text, nmin) :=
    subn pattern_min
      (fun s m => " " +:+ format_float 0 6 Pg mmin +:+ group s m 1) text in
  let '(text, nmax) :=
    subn pattern_max
      (fun s m => " " +:+ format_float 0 6 Pg mmax +:+ group s m 1) text in
  if (nmin =? 0)%nat || (nmax =? 0)%nat
  then raise (RuntimeError
                ("Could not find " +:+ PARAM_MIN +:+ " or " +:+ PARAM_MAX
                 +:+ " lines in " +:+ path_str TEMPLATE_CARD +:+ "."))
  else
    write_text RUN_CARD text ;;
    print ("  -> Updated run_card.dat: " +:+ PARAM_MIN +:+ "=" +:+ float_str mmin
           +:+ ", " +:+ PARAM_MAX +:+ "=" +:+ float_str mmax).

(** [update_param_card(cxx_value)]; [cxx_value] is an [int] of
    [CXX_VALUES].  [CXX_LABEL] is spliced into the pattern as it is: the
    model covers labels made of characters that stand for themselves in
    a pattern. *)
Definition update_param_card (cxx_value : Z) : M unit :=
  let* text := read_text PARAM_CARD_TEMPLATE in
  let pattern_cxx :=
    [ Bol; GOpen; Star isspace; Plus isdigit; Plus isspace; GClose;
      Opt signch; Plus numch;
      GOpen; Plus isspace; Lit "#"; Star isspace; Lit CXX_LABEL; WordB; GClose ] in
  let '(new_text, n) :=
    subn pattern_cxx
      (fun s m => group s m 1 +:+ format_float 0 6 Pe (float_of_int cxx_value)
                  +:+ group s m 2) text in
  if (n =? 0)%nat
  then raise (RuntimeError
                ("Could not find a line with '# " +:+ CXX_LABEL +:+ "' in "
                 +:+ path_str PARAM_CARD_TEMPLATE))
  else
    write_text PARAM_CARD new_text ;;
    print ("  -> Updated param_card.dat: " +:+ CXX_LABEL +:+ " = " +:+ int_str cxx_value).

(** [run_madgraph(run_name)] *)
Definition run_madgraph (run_name : string) : M Path :=
  let cmd := [path_str GENERATE_EVENTS; run_name; "-f"] in
  print ("  -> Running: " +:+ join " " cmd) ;;
  let log_path := joinpath LOG_DIR (run_name +:+ ".log") in
  open_w log_path ;;
  subprocess_run execute cmd log_path ;;
  ret log_path.

(** The three assignments under [try]: an index out of range or a text
    that is no float gives [None], the exception [except] catches. *)
Definition fields (parts : list string) : option (float * float * string) :=
  xsec ← parts !! 2%nat ≫= float_of_string;
  err ← parts !! 4%nat ≫= float_of_string;
  unit ← parts !! 5%nat;
  Some (xsec, err, unit).

(** The loop [for line in f]: [Ok None] when it ends without a marker
    line, [Ok (Some _)] at the [break], [Raise _] from the [except]
    clause. *)
Fixpoint scan_log (ls : list string) : result (option (float * float * string)) :=
  match ls with
  | [] => Ok None
  | line :: rest =>
      if contains "Cross-section :" line then
        match fields (split line) with
        | Some t => Ok (Some t)
        | None =>
            Raise (RuntimeError
                     ("Could not parse cross section from line:" +:+ String nl line))
        end
      else scan_log rest
  end.

(** [parse_cross_section(log_path)] *)
Definition parse_cross_section (log_path : Path) : M (float * float * string) :=
  let* present := exists_ log_path in
  if negb present
  then raise (FileNotFoundError ("Log file not found: " +:+ path_str log_path))
  else
    let* text := read_text log_path in
    match scan_log (lines text) with
    | Raise e => raise e
    | Ok None =>
        raise (RuntimeError
                 ("Could not find 'Cross-section :' line in " +:+ path_str log_path))
    | Ok (Some t) => ret t
    end.

Definition header : string :=
  "# mll_min[GeV]  mll_max[GeV]   cxx    xsec    err    unit" +:+ String nl "".

Definition row (mmin mmax : float) (cxx : Z) (xsec err : float) (unit : string)
  : string :=
  format_float 10 3 Pf mmin +:+ " " +:+ format_float 10 3 Pf mmax +:+ " "
  +:+ format_float 8 3 Pf (float_of_int cxx) +:+ " "
  +:+ format_float 12 6 Pe xsec +:+ " " +:+ format_float 12 6 Pe err +:+ " "
  +:+ unit +:+ String nl "".

(** The body of the inner loop of [main]. *)
Definition step (it : Z * (float * float)) (cxx : Z) : M unit :=
  let '(i, (mmin, mmax)) := it in
  print (String nl "=== Bin " +:+ int_str i +:+ ": " +:+ float_str mmin +:+ " - "
         +:+ float_str mmax +:+ " GeV, cxx = " +:+ int_str cxx +:+ " ===") ;;
  update_run_card mmin mmax ;;
  update_param_card cxx ;;
  let cxx_tag := replace "-" "m" (replace "." "p" (int_str cxx)) in
  let* imin := or_raise ValueError (int_of_float mmin) in
  let* imax := or_raise ValueError (int_of_float mmax) in
  let run_name :=
    "mll_" +:+ int_str imin +:+ "_" +:+ int_str imax +:+ "_cxx_" +:+ cxx_tag in
  let* log_path := run_madgraph run_name in
  let* (xsec, err, unit) := parse_cross_section log_path in
  print ("  -> Cross-section: " +:+ float_str xsec +:+ " +- " +:+ float_str err
         +:+ " " +:+ unit) ;;
  append_text OUTPUT_FILE (row mmin mmax cxx xsec err unit).

(** [main()] *)
Definition main : M unit :=
  write_text OUTPUT_FILE header ;;
  for_each (enumerate 1 MASS_BINS)
    (fun it => for_each CXX_VALUES (fun cxx => step it cxx)) ;;
  print (String nl "All done. Results in " +:+ path_str OUTPUT_FILE).
End Script.

(** The script run as a program with the argument list [argv]: the
    statements of the module with an effect, in order, then [main()]. *)
Definition script (BASE_DIR : Path)
    (execute : world -> list string -> option completed)
    (argv : list string) : M unit :=
  mkdir (LOG_DIR BASE_DIR) ;;
  if (List.length argv <? 2)%nat
  then print usage ;; raise (SystemExit 1)
  else main BASE_DIR execute (nth 1 argv "").

End ScanMllCxx.

(* ===================================================================== *)
(** * Vocabulary of the statements *)
(* ===================================================================== *)

Module Spec.
Import PyStr PyNum Re Os.

Definition has_marker (line : string) : Prop := contains "Cross-section :" line = true.
Definition no_marker (line : string) : Prop := contains "Cross-section :" line = false.

(** [line] is the first line of [ls] with the marker. *)
Definition first_marker_line (ls : list string) (line : string) : Prop :=
  exists pre post, ls = pre ++ line :: post /\ Forall no_marker pre /\ has_marker line.

(** Token [i] of [line] exists and is the text of the float [x]. *)
Definition float_token (line : string) (i : nat) (x : float) : Prop :=
  exists tok, split line !! i = Some tok /\ float_of_string tok = Some x.

(** Fewer than six tokens, or token 2 or token 4 is not a float. *)
Definition malformed (line : string) : Prop :=
  (List.length (split line) < 6)%nat
  \/ (exists tok, split line !! 2%nat = Some tok /\ float_of_string tok = None)
  \/ (exists tok, split line !! 4%nat = Some tok /\ float_of_string tok = None).

Definition is_runtime_error {A} (r : result A) : Prop :=
  exists msg, r = Raise (RuntimeError msg).

Definition raises {A} (r : result A) : Prop := exists e, r = Raise e.

(** A world in which the file at [p] holds [text]. *)
Definition holds (w : world) (p : Path) (text : string) : Prop :=
  files w !! resolve w p = Some text.

(** The name [step] of the plain script gives to the run of a mass bin:
[f"mll_{int(mmin)}_{int(mmax)}"]. *)
Definition plain_run_name (bin : float * float) : option string :=
  imin ← int_of_float (fst bin);
  imax ← int_of_float (snd bin);
  Some ("mll_" +:+ int_str imin +:+ "_" +:+ int_str imax).

(** The name [step] of the cxx script gives to the run of a mass bin and a
coupling value: [f"mll_{int(mmin)}_{int(mmax)}_cxx_{cxx_tag}"]. *)
Definition cxx_run_name (run : (float * float) * Z) : option string :=
  imin ← int_of_float (fst (fst run));
  imax ← int_of_float (snd (fst run));
  Some ("mll_" +:+ int_str imin +:+ "_" +:+ int_str imax +:+ "_cxx_"
        +:+ replace "-" "m" (replace "." "p" (int_str (snd run)))).

(** The file a run of that name logs to, resolved in the world [w]. *)
Definition log_file (w : world) (log_dir : Path) (run_name : string) : list string :=
  resolve w (joinpath log_dir (run_name +:+ ".log")).

(** What [run_madgraph], with [gen] for [GENERATE_EVENTS] and [log_dir] for
[LOG_DIR], has to leave when it is started in [w] and ends with [out]. *)
Definition run_madgraph_post (execute : world -> list string -> option completed)
    (gen log_dir : Path) (run_name : string) (w : world)
    (out : result Path * world) : Prop :=
  let cmd := [path_str gen; run_name; "-f"] in
  let log := joinpath log_dir (run_name +:+ ".log") in
  let key := resolve w log in
  let started := snd (bind (print ("  -> Running: " +:+ join " " cmd))
                        (fun _ => open_w log) w) in
  match execute started cmd with
  | Some c =>
      trace (snd out) = trace w ++ [EvWrite key; EvSpawn cmd key key]
      /\ files (snd out) !! key = Some (all_output c)
      /\ fst out = (if (returncode c =? 0)%Z then Ok log
                    else Raise (CalledProcessError (returncode c) cmd))
  | None =>
      trace (snd out) = trace w ++ [EvWrite key] /\ fst out = Raise OSError
  end.

(** [p] resolved against the working directory [c]. *)
Definition resolve_in (c : list string) (p : Path) : list string :=
  if absolute p then parts p else c ++ parts p.

(** The operations on the outside that one pass of the loop of the plain
script performs for a mass bin when every stage succeeds, in order: the
card update, the run, the parse and the append. *)
Definition plain_events (c : list string) (BASE_DIR : Path) (bin : float * float)
  : list event :=
  [EvRead (resolve_in c ScanMll.TEMPLATE_CARD); EvWrite (resolve_in c ScanMll.RUN_CARD)]
  ++ match plain_run_name bin with
     | Some name =>
         let key := resolve_in c (joinpath (ScanMll.LOG_DIR BASE_DIR) (name +:+ ".log")) in
         [EvWrite key;
          EvSpawn [path_str ScanMll.GENERATE_EVENTS; name; "-f"] key key;
          EvRead key;
          EvAppend (resolve_in c ScanMll.OUTPUT_FILE)]
     | None => []
     end.

(** The same for the cxx script and a pair of a mass bin and a coupling
value. *)
Definition cxx_events (c : list string) (BASE_DIR : Path) (run : (float * float) * Z)
  : list event :=
  [EvRead (resolve_in c (ScanMllCxx.TEMPLATE_CARD BASE_DIR));
   EvWrite (resolve_in c (ScanMllCxx.RUN_CARD BASE_DIR));
   EvRead (resolve_in c (ScanMllCxx.PARAM_CARD_TEMPLATE BASE_DIR));
   EvWrite (resolve_in c (ScanMllCxx.PARAM_CARD BASE_DIR))]
  ++ match cxx_run_name run with
     | Some name =>
         let key := resolve_in c (joinpath (ScanMllCxx.LOG_DIR BASE_DIR) (name +:+ ".log")) in
         [EvWrite key;
          EvSpawn [path_str (ScanMllCxx.GENERATE_EVENTS BASE_DIR); name; "-f"] key key;
          EvRead key;
          EvAppend (resolve_in c (ScanMllCxx.OUTPUT_FILE BASE_DIR))]
     | None => []
     end.

(** [m], started in a world with working directory [c], keeps that
directory, changes no file that [touch] excludes, performs a prefix of the
operations [ideal], and when it returns a value it has performed all of them
and the value satisfies [Q]. *)
Definition traced {A} (c : list string) (ideal : list event)
    (touch : list string -> Prop) (Q : A -> Prop) (m : M A) : Prop :=
  forall w, cwd w = c ->
    cwd (snd (m w)) = c
    /\ (forall k, ~ touch k -> files (snd (m w)) !! k = files w !! k)
    /\ exists evs, trace (snd (m w)) = trace w ++ evs
                  /\ evs `prefix_of` ideal
                  /\ forall a, fst (m w) = Ok a -> evs = ideal /\ Q a.

(** [m], started in a world with working directory [c], keeps that
directory and either returns, having appended to the file [out] one text
that satisfies [R], or raises, leaving the content of [out] as it was. *)
Definition appends (c : list string) (out : list string) (R : string -> Prop)
    (m : M unit) : Prop :=
  forall w, cwd w = c ->
    cwd (snd (m w)) = c
    /\ match fst (m w) with
       | Ok _ => exists s, R s /\
                   files (snd (m w)) !! out = Some (default EmptyString (files w !! out) +:+ s)
       | Raise _ => files (snd (m w)) !! out = files w !! out
       end.

(** The parser reads the triple [t] from the text [out]: the first line of
[out] with the marker has the two floats at its tokens 2 and 4 and the unit
at its token 5. *)
Definition reads (out : string) (t : float * float * string) : Prop :=
  exists line,
    first_marker_line (lines out) line
    /\ float_token line 2 (fst (fst t))
    /\ float_token line 4 (snd (fst t))
    /\ split line !! 5%nat = Some (snd t).

(** A run of the generator with the command line [cmd] ended with status 0
and the parser reads [t] from all it wrote. *)
Definition reported (execute : world -> list string -> option completed)
    (cmd : list string) (t : float * float * string) : Prop :=
  exists w0 c0,
    execute w0 cmd = Some c0 /\ returncode c0 = 0%Z /\ reads (all_output c0) t.

(** The columns of a row of the plain table, as line 179 writes them:
[f"{mmin:10.3f} {mmax:10.3f} {xsec:12.6e} {err:12.6e} {unit}\n"]. *)
Definition plain_columns (bin : float * float) (t : float * float * string) : string :=
  format_float 10 3 Pf (fst bin) +:+ " " +:+ format_float 10 3 Pf (snd bin) +:+ " "
  +:+ format_float 12 6 Pe (fst (fst t)) +:+ " "
  +:+ format_float 12 6 Pe (snd (fst t)) +:+ " "
  +:+ snd t +:+ String nl "".

(** The columns of a row of the cxx table, as lines 218 and 219 write them:
[f"{mmin:10.3f} {mmax:10.3f} {cxx:8.3f} {xsec:12.6e} {err:12.6e} {unit}\n"]. *)
Definition cxx_columns (run : (float * float) * Z) (t : float * float * string) : string :=
  format_float 10 3 Pf (fst (fst run)) +:+ " "
  +:+ format_float 10 3 Pf (snd (fst run)) +:+ " "
  +:+ format_float 8 3 Pf (float_of_int (snd run)) +:+ " "
  +:+ format_float 12 6 Pe (fst (fst t)) +:+ " "
  +:+ format_float 12 6 Pe (snd (fst t)) +:+ " "
  +:+ snd t +:+ String nl "".

(** The rows of the two tables: the row of a pass of the loop carries the
bounds of the bin (and the coupling value) and the triple read from what the
generator wrote when it was run under the name of that pass. *)
Definition plain_row (execute : world -> list string -> option completed)
    (it : Z * (float * float)) (s : string) : Prop :=
  exists name t,
    plain_run_name (snd it) = Some name
    /\ reported execute [path_str ScanMll.GENERATE_EVENTS; name; "-f"] t
    /\ s = plain_columns (snd it) t.

Definition cxx_row (BASE_DIR : Path) (execute : world -> list string -> option completed)
    (run : (Z * (float * float)) * Z) (s : string) : Prop :=
  exists name t,
    cxx_run_name (snd (fst run), snd run) = Some name
    /\ reported execute [path_str (ScanMllCxx.GENERATE_EVENTS BASE_DIR); name; "-f"] t
    /\ s = cxx_columns (snd (fst run), snd run) t.

(** The texts of [rows], one after the other. *)
Definition concat_rows (rows : list string) : string :=
  fold_right String.append EmptyString rows.

(** A run name that is one path component: the log of the run then lies
directly in the log directory, under the name [<run_name>.log]. *)
Definition plain_name (name : string) : bool :=
  negb (absolute (path_of (name +:+ ".log")))
  && bool_decide (parts (path_of (name +:+ ".log")) = [name +:+ ".log"]).

Definition plain_names (names : list (option string)) : bool :=
  forallb (fun o => match o with Some n => plain_name n | None => true end) names.

(** The files the spawned processes of a trace log to, oldest first. *)
Definition spawn_logs (evs : list event) : list (list string) :=
  flat_map (fun ev => match ev with
                      | EvSpawn _ stdout_to _ => [stdout_to]
                      | _ => []
                      end) evs.

(** An outcome without the texts that only spell a path: the message of an
error and the command line kept in a [CalledProcessError]. *)
Definition blur_exn (e : exn) : exn :=
  match e with
  | RuntimeError _ => RuntimeError EmptyString
  | FileNotFoundError _ => FileNotFoundError EmptyString
  | CalledProcessError code _ => CalledProcessError code []
  | _ => e
  end.

Definition blur {A} (r : result A) : result A :=
  match r with
  | Ok a => Ok a
  | Raise e => Raise (blur_exn e)
  end.

(** A generator whose behaviour does not depend on how its own path is
spelled on the command line, nor on what the driver has printed or done
before: only on the files, the working directory and its arguments. *)
Definition path_blind (execute : world -> list string -> option completed) : Prop :=
  forall w1 w2 g1 g2 args,
    files w1 = files w2 -> cwd w1 = cwd w2 ->
    execute w1 (g1 :: args) = execute w2 (g2 :: args).

(** ** The key pattern, read off as a deterministic scan *)

(** [rf"^\s*[-+]?[\d.eE+-]+(\s*=\s*{name}\b)"] *)
Definition key_pattern (name : string) : pattern :=
  [ Bol; Star isspace; Opt signch; Plus numch;
    GOpen; Star isspace; Lit "="; Star isspace; Lit name; WordB; GClose ].

(** The replacement [f" {value}\\1"]. *)
Definition key_repl (value : string) (s : string) (marks : list nat) : string :=
  " " +:+ value +:+ group s marks 1.

(** The name and the word boundary after it, at the start of [s]; the name
ends with a word character. *)
Definition ok_name (name s : string) : bool :=
  startswith name s && negb (word_after (drop (String.length name) s)).

(** Blanks, then the name. *)
Definition ok_ws2 (name s : string) : bool := ok_name name (dropwhile isspace s).

(** The sign [=], then blanks and the name. *)
Definition ok_eq (name s : string) : bool :=
  match s with
  | String c t => Ascii.eqb c "=" && ok_ws2 name t
  | EmptyString => false
  end.

(** Blanks, then [=] and what follows it. *)
Definition ok_ws1 (name s : string) : bool := ok_eq name (dropwhile isspace s).

(** The rest of a numeric field, then the separator and the name. *)
Definition ok_numrun (name s : string) : bool := ok_ws1 name (dropwhile numch s).

(** A numeric field of at least one character, then the rest. *)
Definition ok_num (name s : string) : bool :=
  match s with
  | String c t => numch c && ok_numrun name t
  | EmptyString => false
  end.

(** Blanks, then the numeric field and the rest. *)
Definition ok_ws0 (name s : string) : bool := ok_num name (dropwhile isspace s).

(** The key pattern for [name] matches at the start of [s], which the
character [prev] precedes. *)
Definition key_ok (name : string) (prev : option ascii) (s : string) : bool :=
  at_bol prev && ok_ws0 name s.

(** The length of the blanks and the numeric field that a match at the
start of [s] replaces. *)
Definition key_field (s : string) : nat :=
  String.length (takewhile isspace s)
  + String.length (takewhile numch (dropwhile isspace s)).

(** The length of the whole match at the start of [s]. *)
Definition key_end (name s : string) : nat :=
  let s2 := dropwhile numch (dropwhile isspace s) in
  key_field s
  + String.length (takewhile isspace s2)
  + 1
  + String.length (takewhile isspace (drop 1 (dropwhile isspace s2)))
  + String.length name.

(** The key pattern matches somewhere in [s]. *)
Fixpoint key_occurs (name : string) (prev : option ascii) (s : string) : bool :=
  key_ok name prev s ||
  match s with
  | String c t => key_occurs name (Some c) t
  | EmptyString => false
  end.

(** What [update_run_card] is meant to do to one line of the card: a line
that is blanks, a numeric field, blanks, [=], blanks and the name at a word
boundary gets a space and [value] in place of its blanks and numeric field,
and keeps the rest from the separator on; any other line stays as it is. *)
Definition edit_key (name value line : string) : string :=
  if key_ok name None line
  then " " +:+ value +:+ dropwhile numch (dropwhile isspace line)
  else line.

(** A line on which the scan of the key pattern runs off the end while it
still reads blanks, the numeric field or the [=]: a blank line, or a bare
numeric field with at most an [=] after it. *)
Definition open_line (line : string) : bool :=
  match dropwhile isspace line with
  | EmptyString => true
  | String c t =>
      numch c &&
      match dropwhile isspace (dropwhile numch t) with
      | EmptyString => true
      | String d u =>
          Ascii.eqb d "=" &&
          match dropwhile isspace u with
          | EmptyString => true
          | _ => false
          end
      end
  end.

(** A card in which no line but the last is open.  On such a card no match
of a key pattern reaches over the end of a line. *)
Definition tidy (text : string) : Prop :=
  Forall (fun line => open_line line = false) (removelast (split_on nl text)).

(** A name the key patterns are built from: word characters and no more,
at least one. *)
Definition key_name (name : string) : Prop :=
  name <> EmptyString /\ all isword name = true.

(** A formatted value: no blank, no [=] and no [m] in it. *)
Definition value_char (c : ascii) : bool :=
  negb (isspace c) && negb (Ascii.eqb c "=") && negb (Ascii.eqb c "m").

Definition plain_value (value : string) : Prop := all value_char value = true.

(** A text without a newline. *)
Definition no_nl (s : string) : bool := all (fun c => negb (is_nl c)) s.

(** [rf"^(\s*\d+\s+)[-+]?[\d.eE+-]+(\s+#\s*{label}\b)"], for a label of
word characters: such a label, spliced into the pattern, stands for
itself. *)
Definition cxx_pattern (label : string) : pattern :=
  [ Bol; GOpen; Star isspace; Plus isdigit; Plus isspace; GClose;
    Opt signch; Plus numch;
    GOpen; Plus isspace; Lit "#"; Star isspace; Lit label; WordB; GClose ].

(** The pattern matches nowhere in the text: [re.subn] counts no
substitution, whatever the replacement. *)
Definition unmatched (ps : pattern) (text : string) : Prop :=
  forall repl, snd (subn ps repl text) = 0%nat.

(** The reading of C2 to the letter: on a matching line only the numeric
field is replaced, the blanks before it stay. *)
Definition edit_field_only (name value line : string) : string :=
  if key_ok name None line
  then takewhile isspace line +:+ value +:+ dropwhile numch (dropwhile isspace line)
  else line.

(** The message of the error [update_run_card] raises for the template at
[template]. *)
Definition no_key_message (template : Path) : string :=
  "Could not find mmll or mmllmax lines in " +:+ path_str template +:+ ".".

(** ** Vocabulary of the proofs about the key pattern *)

(** The numbers of a match that starts [pos] characters before [s], a text
that begins with the rest of the numeric field. *)
Definition after_num (name : string) (pos : nat) (s : string) : found :=
  let a := (pos + String.length (takewhile numch s))%nat in
  let s2 := dropwhile numch s in
  let b := (a + String.length (takewhile isspace s2) + 1
            + String.length (takewhile isspace (drop 1 (dropwhile isspace s2)))
            + String.length name)%nat in
  ([a; b], b).

(** [re.subn] with the key pattern for [name] and the replacement by
[value], from a position of the card on. *)
Definition sub (name value : string) (prev : option ascii) (skip : nat) (s : string)
  : string * nat :=
  subn_go (key_pattern name) (key_repl value) prev skip s.

(** The head of [y] is not in the class [p]. *)
Definition stops (p : ascii -> bool) (y : string) : Prop :=
  match y with
  | EmptyString => True
  | String c _ => p c = false
  end.

(** [s] is blanks [ws], a numeric field [num], the separator [ws1 = ws2],
the name and a rest [tail] that does not go on with a word character. *)
Definition key_shape (name s ws num ws1 ws2 tail : string) : Prop :=
  s = ws +:+ num +:+ ws1 +:+ "=" +:+ ws2 +:+ name +:+ tail
  /\ all isspace ws = true /\ all numch num = true /\ num <> ""
  /\ all isspace ws1 = true /\ all isspace ws2 = true
  /\ word_after tail = false.

(** The character before the text that follows a match: the last one of
the name. *)
Definition after_name (name : string) : option ascii := last_char None name.

(** The number of lines of a card that match. *)
Definition matching (name : string) (ls : list string) : nat :=
  List.length (List.filter (key_ok name None) ls).

(** The characters a format of a float is made of. *)
Definition fchar (c : ascii) : bool := isdigit c || one_of ".e+-infa" c.

(** A literal and the word boundary after it, at the start of [s]. *)
Definition ok_lit (l s : string) : bool :=
  startswith l s && negb (word_after (drop (String.length l) s)).

(** The card after the substitution for [mmll], from a position on. *)
Definition out_min (vmin : string) (prev : option ascii) (s : string) : string :=
  fst (sub "mmll" vmin prev 0 s).

(** The text that replaces a match of the key pattern for [mmll], with
what follows it. *)
Definition replaced (vmin ws1 ws2 rest : string) : string :=
  " " +:+ vmin +:+ ws1 +:+ "=" +:+ ws2 +:+ "mmll" +:+ rest.

(** ** Vocabulary of the further results *)

(** [pattern.match] succeeds at the start of [s], which [prev] precedes. *)
Definition matches_at (ps : pattern) (prev : option ascii) (s : string) : bool :=
  match match_at ps prev s with
  | Some _ => true
  | None => false
  end.

(** The line matches the key pattern for [name] from its first character
on. *)
Definition key_line (name line : string) : Prop :=
  matches_at (key_pattern name) None line = true.

(** [s] without its characters of the class [p]. *)
Fixpoint without (p : ascii -> bool) (s : string) : string :=
  match s with
  | EmptyString => EmptyString
  | String c t => if p c then without p t else String c (without p t)
  end.

(** A blank or a character of a numeric field. *)
Definition blank_or_num (c : ascii) : bool := isspace c || numch c.

(** A float that is a number: neither an infinity nor the not-a-number. *)
Definition finite (x : float) : Prop :=
  match x with
  | Finite _ _ _ => True
  | _ => False
  end.

(** ** The pattern of the parameter card, read off as a deterministic scan *)

(** The first character of [s] is in the class [p]. *)
Definition head_in (p : ascii -> bool) (s : string) : bool :=
  match s with
  | String c _ => p c
  | EmptyString => false
  end.

(** The sign [#], then blanks, the label and the word boundary. *)
Definition ok_hash (label s : string) : bool :=
  match s with
  | String c t => Ascii.eqb c "#" && ok_ws2 label t
  | EmptyString => false
  end.

(** At least one blank, then the comment. *)
Definition ok_gap (label s : string) : bool :=
  head_in isspace s && ok_hash label (dropwhile isspace s).

(** A numeric field of at least one character, then the rest. *)
Definition ok_value (label s : string) : bool :=
  head_in numch s && ok_gap label (dropwhile numch s).

(** At least one blank after the index, then the numeric field. *)
Definition ok_sep (label s : string) : bool :=
  head_in isspace s && ok_value label (dropwhile isspace s).

(** The index, an unsigned integer, then the rest. *)
Definition ok_index (label s : string) : bool :=
  head_in isdigit s && ok_sep label (dropwhile isdigit s).

(** The pattern of the parameter card for [label] matches at the start of
[s], which the character [prev] precedes. *)
Definition cxx_ok (label : string) (prev : option ascii) (s : string) : bool :=
  at_bol prev && ok_index label (dropwhile isspace s).

(** The text from the numeric field on, and from its end on. *)
Definition from_value (s : string) : string :=
  dropwhile isspace (dropwhile isdigit (dropwhile isspace s)).

Definition past_value (s : string) : string := dropwhile numch (from_value s).

(** The length of group 1 of a match at the start of [s]: blanks, index,
blanks. *)
Definition cxx_head (s : string) : nat :=
  String.length (takewhile isspace s)
  + String.length (takewhile isdigit (dropwhile isspace s))
  + String.length (takewhile isspace (dropwhile isdigit (dropwhile isspace s))).

(** The offset of the end of the numeric field, where group 2 starts. *)
Definition cxx_mid (s : string) : nat :=
  cxx_head s + String.length (takewhile numch (from_value s)).

(** The length of the comment from [#] to the end of the label. *)
Definition hash_end (label s : string) : nat :=
  1 + String.length (takewhile isspace (drop 1 s)) + String.length label.

(** The length of the whole match. *)
Definition cxx_end (label s : string) : nat :=
  cxx_mid s + String.length (takewhile isspace (past_value s))
  + hash_end label (dropwhile isspace (past_value s)).

(** The replacement of [update_param_card]:
[lambda m: f"{m.group(1)}{value}{m.group(2)}"]. *)
Definition cxx_repl (value : string) (s : string) (marks : list nat) : string :=
  group s marks 1 +:+ value +:+ group s marks 2.

(** ** Lines of a parameter card *)

Definition is_empty (s : string) : bool :=
  match s with
  | EmptyString => true
  | _ => false
  end.

(** The scan of the pattern of the parameter card runs off the end of the
line at the comment sign or after it. *)
Definition off_hash (s : string) : bool :=
  match s with
  | EmptyString => true
  | String c t => Ascii.eqb c "#" && is_empty (dropwhile isspace t)
  end.

(** ... in the blanks after the numeric field, or later. *)
Definition off_gap (s : string) : bool :=
  is_empty s || (head_in isspace s && off_hash (dropwhile isspace s)).

(** ... in the numeric field, or later. *)
Definition off_value (s : string) : bool :=
  head_in numch s && off_gap (dropwhile numch s).

(** ... in the blanks after the index, or later. *)
Definition off_sep (s : string) : bool :=
  is_empty s
  || (head_in isspace s
      && (is_empty (dropwhile isspace s) || off_value (dropwhile isspace s))).

(** A line that breaks off after its index: an index alone, an index and a
number without a comment, or these and a comment sign without a label.  A
match that starts on such a line goes on in the next one. *)
Definition dangling (line : string) : bool :=
  head_in isdigit (dropwhile isspace line)
  && off_sep (dropwhile isdigit (dropwhile isspace line)).

(** A parameter card in which no line but the last is dangling. *)
Definition settled (text : string) : Prop :=
  Forall (fun line => dangling line = false) (removelast (split_on nl text)).

(** What [update_param_card] does to one line of the card: on a line that
is blanks, an index, blanks, a numeric field, blanks, [#], blanks and the label
at a word boundary, the numeric field is replaced by [value], between the
text before it and the text after it; any other line stays as it is. *)
Definition edit_cxx (label value line : string) : string :=
  if matches_at (cxx_pattern label) None line
  then take (cxx_head line) line +:+ value +:+ past_value line
  else line.

(** ** Tokens *)

(** A token of [str.split()]: not empty and without a blank. *)
Definition token (t : string) : Prop :=
  t <> EmptyString /\ all (fun c => negb (isspace c)) t = true.

(** ** Runs that return *)

(** [m], started in [w], returns a value and leaves a world that satisfy
[Q]. *)
Definition wp {A} (m : M A) (Q : A -> world -> Prop) (w : world) : Prop :=
  exists a, fst (m w) = Ok a /\ Q a (snd (m w)).

(** An event generator that always ends with status 0 and whose output
has, as its first line with the marker, a line from which the parser reads
[result_of cmd]. *)
Definition reports (execute : world -> list string -> option completed)
    (result_of : list string -> float * float * string) : Prop :=
  forall w cmd, exists c,
    execute w cmd = Some c /\ returncode c = 0%Z
    /\ ScanMll.scan_log (lines (all_output c)) = Ok (Some (result_of cmd)).

(** The row of the plain table for a mass bin, with the numbers the
generator reports for the run of that bin. *)
Definition plain_result_row (result_of : list string -> float * float * string)
    (bin : float * float) : string :=
  match plain_run_name bin with
  | Some name =>
      plain_columns bin (result_of [path_str ScanMll.GENERATE_EVENTS; name; "-f"])
  | None => EmptyString
  end.

(** The same for the cxx table and a pair of a mass bin and a coupling
value. *)
Definition cxx_result_row (BASE_DIR : Path)
    (result_of : list string -> float * float * string)
    (run : (float * float) * Z) : string :=
  match cxx_run_name run with
  | Some name =>
      cxx_columns run (result_of [path_str (ScanMllCxx.GENERATE_EVENTS BASE_DIR); name; "-f"])
  | None => EmptyString
  end.

(** The state the scan keeps: the working directory, the template at the
key [tkey] and the table so far at the key [okey]. *)
Definition scanning (c : list string) (tkey : list string) (text : string)
    (okey : list string) (table : string) (w : world) : Prop :=
  cwd w = c /\ files w !! tkey = Some text /\ files w !! okey = Some table.

(** [m], started in [w], raises [e] and leaves a world that satisfies
[Q]. *)
Definition fails {A} (m : M A) (e : exn) (Q : world -> Prop) (w : world) : Prop :=
  fst (m w) = Raise e /\ Q (snd (m w)).

(** The first mass bin of the scan and the names of the first runs. *)
Definition first_bin : float * float := (float_of_int 15, float_of_int 20).
Definition first_plain_run : string := "mll_15_20".
Definition first_cxx_run : string := "mll_15_20_cxx_m100".

(** ** Texts that differ in numeric fields only *)

(** The last character of [s] is a blank. *)
Definition ends_blank (s : string) : bool :=
  match last_char None s with
  | Some b => isspace b
  | None => false
  end.

(** [card] is [text] with some of its numeric fields replaced by [value]
and every other character kept where it was.  A field that is replaced is a
run of characters of [[0-9.eE+-]], not empty, that stands after a blank and
before blanks and a comment sign. *)
Inductive patched (value : string) : string -> string -> Prop :=
| patched_end : patched value "" ""
| patched_keep c text card :
    patched value text card -> patched value (String c text) (String c card)
| patched_field before field text card :
    ends_blank before = true ->
    field <> "" ->
    all numch field = true ->
    head_in isspace text = true ->
    startswith "#" (dropwhile isspace text) = true ->
    patched value text card ->
    patched value (before +:+ field +:+ text) (before +:+ value +:+ card).

(** ** Loops that stop *)

(** The loop over [xs], started in [w1], stops at a pass that raises [e]:
every pass before it has returned, that pass raises [e], and the operations
performed, [evs], are those of the passes before it, each in full, and then
a prefix of its own. *)
Definition stops_at {A} (xs : list A) (body : A -> M unit) (events : A -> list event)
    (w1 : world) (e : exn) (evs : list event) : Prop :=
  exists pre x post evs',
    xs = pre ++ x :: post
    /\ fst (for_each pre body w1) = Ok tt
    /\ fst (body x (snd (for_each pre body w1))) = Raise e
    /\ evs' `prefix_of` events x
    /\ evs = flat_map events pre ++ evs'.

(** ** Run cards with blank lines *)

(** A line of blanks only. *)
Definition blank (line : string) : bool := is_empty (dropwhile isspace line).

(** A line that breaks off inside the [value =] part without being
blank. *)
Definition broken (line : string) : bool := open_line line && negb (blank line).

(** A run card in which no line but the last is broken; blank lines may
stand anywhere. *)
Definition unbroken (text : string) : Prop :=
  Forall (fun line => broken line = false) (removelast (split_on nl text)).

(** The first line of [ls] that is not blank is a line for the key
[name]. *)
Fixpoint ahead (name : string) (ls : list string) : bool :=
  match ls with
  | [] => false
  | l :: rest => if blank l then ahead name rest else key_ok name None l
  end.

(** One substitution of [update_run_card] on the lines of a card: the
blank lines right before a line for the key go, the line for the key is
edited, every other line stays. *)
Fixpoint squeeze (name value : string) (ls : list string) : list string :=
  match ls with
  | [] => []
  | l :: rest =>
      if blank l && ahead name rest
      then squeeze name value rest
      else edit_key name value l :: squeeze name value rest
  end.

End Spec.

(* ===================================================================== *)
(** * Concrete inputs *)
(* ===================================================================== *)

Module Examples.
Import PyStr PyNum Re Os.

Definition NL : string := String nl "".

Definition proc_dir : Path := path_of "/home/user/proc".

Definition world_of (dir : list string) (fs : list (list string * string)) : world :=
  {| cwd := dir; files := list_to_map fs; stdout := []; trace := [] |}.

Definition log_path : Path := path_of "/home/user/proc/logs/mll_15_20.log".
Definition log_key : list string := ["home"; "user"; "proc"; "logs"; "mll_15_20.log"].

Definition good_line : string := "  Cross-section :   6.594e+02 +- 3.011e+00 pb" +:+ NL.

(** The floats that [float] reads from the numbers of that line. *)
Definition good_xsec : float := binary64 false 6594 (-1).
Definition good_err : float := binary64 false 3011 (-3).

(** A log whose first marker line carries no numbers yet. *)
Definition pending_log : string :=
  "INFO: Cross-section : pending" +:+ NL +:+ good_line.

Definition good_log : string :=
  "INFO: start" +:+ NL +:+ good_line +:+ "  Cross-section :   1.0 +- 2.0 fb" +:+ NL.

Definition bad_line : string := "  Cross-section :   n/a +- 3.011e+00 pb" +:+ NL.

Definition world_pending : world :=
  world_of ["home"; "user"; "proc"] [(log_key, pending_log)].

Definition world_good : world :=
  world_of ["home"; "user"; "proc"] [(log_key, good_log)].

Definition world_bad : world :=
  world_of ["home"; "user"; "proc"] [(log_key, bad_line)].

Definition card_template : string :=
  "# run card" +:+ NL +:+ "  10.0 = mmll  ! min" +:+ NL +:+ "  -1 = mmllmax ! max" +:+ NL.

(** A process directory with its run card template, seen from the process
directory itself and from another working directory. *)
Definition world_home : world :=
  world_of ["home"; "user"; "proc"]
    [(["home"; "user"; "proc"; "Cards"; "run_card_template.dat"], card_template)].

Definition world_elsewhere : world :=
  world_of ["tmp"]
    [(["home"; "user"; "proc"; "Cards"; "run_card_template.dat"], card_template)].

(** A run card without the upper bound, and a parameter card. *)
Definition card_without_max : string :=
  "# run card" +:+ NL +:+ "  10.0 = mmll  ! min" +:+ NL.

Definition param_template : string :=
  "Block dim6" +:+ NL +:+ "    1 1.000000e+00 # cuu" +:+ NL.

Definition world_without_max : world :=
  world_of ["home"; "user"; "proc"]
    [(["home"; "user"; "proc"; "Cards"; "run_card_template.dat"], card_without_max);
     (["home"; "user"; "proc"; "Cards"; "param_card_template.dat"], param_template)].

(** A run card in which the value of the lower bound stands on a line of
its own, before the line that names the key; and a parameter card in which
the comment sign ends a line and the label stands on the next. *)
Definition card_split_key : string :=
  "# run card" +:+ NL +:+ "  10.0" +:+ NL +:+ "  = mmll  ! min" +:+ NL
  +:+ "  -1 = mmllmax ! max" +:+ NL.

Definition param_split_label : string :=
  "Block dim6" +:+ NL +:+ "    1 1.000000e+00 #" +:+ NL +:+ "cuu" +:+ NL.

Definition world_split_key : world :=
  world_of ["home"; "user"; "proc"]
    [(["home"; "user"; "proc"; "Cards"; "run_card_template.dat"], card_split_key);
     (["home"; "user"; "proc"; "Cards"; "param_card_template.dat"], param_split_label)].

Definition param_card_key : list string :=
  ["home"; "user"; "proc"; "Cards"; "param_card.dat"].

(** A run card with an empty line before the lower bound. *)
Definition card_with_blank_line : string :=
  "# run card" +:+ NL +:+ NL +:+ "  10.0 = mmll  ! min" +:+ NL
  +:+ "  -1 = mmllmax ! max" +:+ NL.

Definition world_blank_line : world :=
  world_of ["home"; "user"; "proc"]
    [(["home"; "user"; "proc"; "Cards"; "run_card_template.dat"], card_with_blank_line)].

Definition run_card_key : list string := ["home"; "user"; "proc"; "Cards"; "run_card.dat"].

(** An event generator that succeeds and reports a cross-section. *)
Definition generator_ok (w : world) (cmd : list string) : option completed :=
  Some {| returncode := 0;
          written := [ (Stdout, "INFO: " +:+ join " " cmd +:+ NL);
                       (Stderr, "WARNING: low statistics" +:+ NL);
                       (Stdout, good_line) ] |}.

(** An event generator that fails. *)
Definition generator_fail (w : world) (cmd : list string) : option completed :=
  Some {| returncode := 2; written := [ (Stderr, "fatal" +:+ NL) ] |}.

(** An event generator that prints the cross-section line and nothing
else. *)
Definition generator_terse (w : world) (cmd : list string) : option completed :=
  Some {| returncode := 0; written := [ (Stdout, good_line) ] |}.

(** A process directory with both templates. *)
Definition world_cards : world :=
  world_of ["home"; "user"; "proc"]
    [(["home"; "user"; "proc"; "Cards"; "run_card_template.dat"], card_template);
     (["home"; "user"; "proc"; "Cards"; "param_card_template.dat"], param_template)].

(** An event generator that cannot be started. *)
Definition generator_missing (w : world) (cmd : list string) : option completed := None.

(** A run card with blank lines: one at the top of a block, which stays,
and two before the line of the lower bound, which go. *)
Definition card_with_gaps : string :=
  "# run card" +:+ NL +:+ NL +:+ "# cuts" +:+ NL +:+ NL +:+ "  " +:+ NL
  +:+ "  10.0 = mmll  ! min" +:+ NL +:+ "  -1 = mmllmax ! max" +:+ NL.

Definition world_gaps : world :=
  world_of ["home"; "user"; "proc"]
    [(["home"; "user"; "proc"; "Cards"; "run_card_template.dat"], card_with_gaps)].

End Examples.

(* ===================================================================== *)
(** * Results *)
(* ===================================================================== *)

Import PyStr PyNum Re Os Spec.
Local Open Scope py_scope.

(** ** Lists and texts *)

Lemma append_cons a s t : String a s +:+ t = String a (s +:+ t).
Proof. reflexivity. Qed.

Lemma append_nil_l s : "" +:+ s = s.
Proof. reflexivity. Qed.

Lemma append_nil_r s : s +:+ "" = s.
Proof.
  induction s as [|a s IH]; [reflexivity|]. rewrite append_cons, IH. reflexivity.
Qed.

Lemma append_assoc s t u : (s +:+ t) +:+ u = s +:+ (t +:+ u).
Proof.
  induction s as [|a s IH]; [reflexivity|]. rewrite !append_cons, IH. reflexivity.
Qed.

Lemma length_append s t : String.length (s +:+ t) = (String.length s + String.length t)%nat.
Proof.
  induction s as [|a s IH]; [reflexivity|]. rewrite append_cons. simpl.
  rewrite IH. reflexivity.
Qed.

Lemma Forall_no_marker_scan ls :
  Forall no_marker ls -> ScanMll.scan_log ls = Ok None.
Proof.
  induction 1 as [|l ls Hl _ IH]; simpl; [reflexivity|].
  unfold no_marker in Hl. rewrite Hl. exact IH.
Qed.

Lemma scan_log_first pre line post :
  Forall no_marker pre -> has_marker line ->
  ScanMll.scan_log (pre ++ line :: post) =
  match ScanMll.fields (split line) with
  | Some t => Ok (Some t)
  | None => Raise (RuntimeError
                     ("Could not parse cross section from line:" +:+ String nl line))
  end.
Proof.
  intros Hpre Hl. induction Hpre as [|l ls Hn _ IH]; simpl.
  - unfold has_marker in Hl. rewrite Hl. reflexivity.
  - unfold no_marker in Hn. rewrite Hn. exact IH.
Qed.

(** Every list of lines either has no marker line or has a first one. *)
Lemma marker_dichotomy ls :
  Forall no_marker ls \/ exists line, first_marker_line ls line.
Proof.
  induction ls as [|l ls IH].
  - left. constructor.
  - destruct (contains "Cross-section :" l) eqn:E.
    + right. exists l, [], ls. repeat split; auto.
    + destruct IH as [IH | (line & pre & post & -> & Hpre & Hl)].
      * left. constructor; assumption.
      * right. exists line, (l :: pre), post. repeat split; auto.
Qed.

Lemma first_marker_line_unique ls l1 l2 :
  first_marker_line ls l1 -> first_marker_line ls l2 -> l1 = l2.
Proof.
  intros (pre1 & post1 & -> & H1 & M1) (pre2 & post2 & E & H2 & M2).
  revert pre2 E H2. induction H1 as [|x pre1 Hx _ IH]; intros pre2 E H2.
  - destruct pre2 as [|y pre2]; simpl in E.
    + congruence.
    + injection E as -> _. inversion H2; subst.
      unfold has_marker, no_marker in *. congruence.
  - destruct pre2 as [|y pre2]; simpl in E.
    + injection E as -> _. unfold has_marker, no_marker in *. congruence.
    + injection E as -> E. inversion H2; subst. eapply IH; eauto.
Qed.

Lemma first_marker_not_all ls line :
  first_marker_line ls line -> Forall no_marker ls -> False.
Proof.
  intros (pre & post & -> & _ & M) H.
  apply Forall_app in H as [_ H]. inversion H; subst.
  unfold has_marker, no_marker in *. congruence.
Qed.

(** [fields] succeeds exactly on the lines that are not malformed. *)
Lemma fields_none_iff line :
  ScanMll.fields (split line) = None <-> malformed line.
Proof.
  unfold ScanMll.fields, malformed.
  set (parts := split line). split.
  - intros H.
    destruct (parts !! 2%nat) as [t2|] eqn:E2; simpl in H.
    2:{ left. apply lookup_ge_None in E2. lia. }
    destruct (float_of_string t2) eqn:F2; simpl in H.
    2:{ right; left. eauto. }
    destruct (parts !! 4%nat) as [t4|] eqn:E4; simpl in H.
    2:{ left. apply lookup_ge_None in E4. lia. }
    destruct (float_of_string t4) eqn:F4; simpl in H.
    2:{ right; right. eauto. }
    destruct (parts !! 5%nat) as [t5|] eqn:E5; simpl in H; [discriminate|].
    left. apply lookup_ge_None in E5. lia.
  - intros [H | [(t & E & F) | (t & E & F)]].
    + destruct (parts !! 2%nat) as [t2|] eqn:E2; simpl; [|reflexivity].
      destruct (float_of_string t2); simpl; [|reflexivity].
      destruct (parts !! 4%nat) as [t4|] eqn:E4; simpl; [|reflexivity].
      destruct (float_of_string t4); simpl; [|reflexivity].
      destruct (parts !! 5%nat) as [t5|] eqn:E5; simpl; [|reflexivity].
      apply lookup_lt_Some in E5. lia.
    + rewrite E. simpl. rewrite F. reflexivity.
    + destruct (parts !! 2%nat) as [t2|]; simpl; [|reflexivity].
      destruct (float_of_string t2); simpl; [|reflexivity].
      rewrite E. simpl. rewrite F. reflexivity.
Qed.

Lemma fields_some line x e u :
  float_token line 2 x -> float_token line 4 e -> split line !! 5%nat = Some u ->
  ScanMll.fields (split line) = Some (x, e, u).
Proof.
  intros (t2 & E2 & F2) (t4 & E4 & F4) E5. unfold ScanMll.fields.
  rewrite E2. simpl. rewrite F2. simpl. rewrite E4. simpl. rewrite F4. simpl.
  rewrite E5. reflexivity.
Qed.

(** The two scripts hold the same parser. *)
Lemma scan_log_same ls : ScanMllCxx.scan_log ls = ScanMll.scan_log ls.
Proof. induction ls as [|l ls IH]; simpl; [reflexivity|]. rewrite IH. reflexivity. Qed.

Lemma parse_cross_section_same p w :
  ScanMllCxx.parse_cross_section p w = ScanMll.parse_cross_section p w.
Proof.
  unfold ScanMllCxx.parse_cross_section, ScanMll.parse_cross_section, bind.
  destruct (exists_ p w) as [[present|e] w1]; [|reflexivity].
  destruct (negb present); [reflexivity|].
  destruct (read_text p w1) as [[text|e] w2]; [|reflexivity].
  rewrite scan_log_same. reflexivity.
Qed.

(** What [parse_cross_section] does on a log that exists. *)
Lemma parse_cross_section_holds w p text :
  holds w p text ->
  ScanMll.parse_cross_section p w =
  (match ScanMll.scan_log (lines text) with
   | Raise e => Raise e
   | Ok None =>
       Raise (RuntimeError ("Could not find 'Cross-section :' line in " +:+ path_str p))
   | Ok (Some t) => Ok t
   end, log_event (EvRead (resolve w p)) w).
Proof.
  intros H. unfold holds in H.
  unfold ScanMll.parse_cross_section, bind, exists_, read_text.
  rewrite bool_decide_eq_true_2 by (rewrite H; eauto). simpl. rewrite H.
  destruct (ScanMll.scan_log (lines text)) as [[t|]|e]; reflexivity.
Qed.

(** ** The result parser *)

(** C1, as stated, fails: in this log the first line with the marker has no
    number at token 2, and [parse_cross_section] raises although a later
    line is well formed. *)
Lemma parse_cross_section_first_line_malformed :
  holds Examples.world_pending Examples.log_path Examples.pending_log /\
  Exists has_marker (lines Examples.pending_log) /\
  fst (ScanMll.parse_cross_section Examples.log_path Examples.world_pending) =
    Raise (RuntimeError
             ("Could not parse cross section from line:" +:+ String nl
              "INFO: Cross-section : pending" +:+ String nl "")) /\
  fst (ScanMllCxx.parse_cross_section Examples.log_path Examples.world_pending) =
    Raise (RuntimeError
             ("Could not parse cross section from line:" +:+ String nl
              "INFO: Cross-section : pending" +:+ String nl "")).
Proof.
  split; [vm_compute; reflexivity|].
  split; [left; vm_compute; reflexivity|].
  split; vm_compute; reflexivity.
Qed.

(** C1 (amended): when the first line with the marker has a float at token 2,
    a float at token 4 and a token 5, [parse_cross_section] of either script
    returns these three, whatever the later lines are. *)
Theorem parse_cross_section_first_line w p text line x e u :
  holds w p text ->
  first_marker_line (lines text) line ->
  float_token line 2 x -> float_token line 4 e -> split line !! 5%nat = Some u ->
  fst (ScanMll.parse_cross_section p w) = Ok (x, e, u) /\
  fst (ScanMllCxx.parse_cross_section p w) = Ok (x, e, u).
Proof.
  intros Hw (pre & post & Hl & Hpre & Hm) H2 H4 H5.
  assert (fst (ScanMll.parse_cross_section p w) = Ok (x, e, u)) as H.
  { rewrite (parse_cross_section_holds w p text Hw). simpl.
    rewrite Hl, (scan_log_first pre line post Hpre Hm).
    rewrite (fields_some line x e u H2 H4 H5). reflexivity. }
  split; [exact H|].
  pose proof (parse_cross_section_same p w) as E. congruence.
Qed.

Lemma parse_cross_section_first_line_witness :
  fst (ScanMll.parse_cross_section Examples.log_path Examples.world_good) =
    Ok (Examples.good_xsec, Examples.good_err, "pb") /\
  fst (ScanMllCxx.parse_cross_section Examples.log_path Examples.world_good) =
    Ok (Examples.good_xsec, Examples.good_err, "pb").
Proof.
  apply (parse_cross_section_first_line Examples.world_good Examples.log_path
           Examples.good_log Examples.good_line).
  - vm_compute; reflexivity.
  - exists ["INFO: start" +:+ Examples.NL],
           ["  Cross-section :   1.0 +- 2.0 fb" +:+ Examples.NL].
    split; [vm_compute; reflexivity|].
    split; [repeat constructor|vm_compute; reflexivity].
  - exists "6.594e+02". split; vm_compute; reflexivity.
  - exists "3.011e+00". split; vm_compute; reflexivity.
  - vm_compute; reflexivity.
Defined.

(** C3: on a log that exists, [parse_cross_section] raises exactly when no
    line has the marker or the first line that has it is malformed (fewer
    than six tokens, or token 2 or 4 is no float); what it raises is then a
    [RuntimeError], and otherwise it returns a triple. *)
Theorem parse_cross_section_raises_iff w p text :
  holds w p text ->
  let r := fst (ScanMll.parse_cross_section p w) in
  (raises r <->
     Forall no_marker (lines text)
     \/ exists line, first_marker_line (lines text) line /\ malformed line)
  /\ (raises r -> is_runtime_error r)
  /\ (~ raises r -> exists t, r = Ok t).
Proof.
  intros Hw. rewrite (parse_cross_section_holds w p text Hw). simpl.
  destruct (marker_dichotomy (lines text)) as [Hall | (line & Hfirst)].
  - rewrite (Forall_no_marker_scan _ Hall).
    split; [|split].
    + split; [auto | intros _; eexists; reflexivity].
    + intros _. eexists; reflexivity.
    + intros H. exfalso. apply H. eexists; reflexivity.
  - pose proof Hfirst as (pre & post & Hl & Hpre & Hm).
    rewrite Hl, (scan_log_first pre line post Hpre Hm). rewrite <- Hl.
    destruct (ScanMll.fields (split line)) as [t|] eqn:F.
    + split; [|split].
      * split.
        -- intros (e & He). discriminate.
        -- intros [Hall | (l' & Hl' & Hbad)].
           ++ exfalso. eapply first_marker_not_all; eauto.
           ++ rewrite (first_marker_line_unique _ _ _ Hl' Hfirst) in Hbad.
              apply fields_none_iff in Hbad. congruence.
      * intros (e & He). discriminate.
      * intros _. eauto.
    + split; [|split].
      * split; [|intros _; eexists; reflexivity].
        intros _. right. exists line. split; [assumption|].
        apply fields_none_iff. assumption.
      * intros _. eexists; reflexivity.
      * intros H. exfalso. apply H. eexists; reflexivity.
Qed.

Lemma parse_cross_section_raises_iff_witness :
  let r := fst (ScanMll.parse_cross_section Examples.log_path Examples.world_bad) in
  (raises r <->
     Forall no_marker (lines Examples.bad_line)
     \/ exists line, first_marker_line (lines Examples.bad_line) line /\ malformed line)
  /\ (raises r -> is_runtime_error r)
  /\ (~ raises r -> exists t, r = Ok t).
Proof.
  apply (parse_cross_section_raises_iff Examples.world_bad Examples.log_path
           Examples.bad_line).
  vm_compute; reflexivity.
Defined.

(** ** The run invoker *)

Lemma run_madgraph_post_gen execute gen log_dir run_name w :
  run_madgraph_post execute gen log_dir run_name w
    ((print ("  -> Running: " +:+ join " " [path_str gen; run_name; "-f"]) ;;
      open_w (joinpath log_dir (run_name +:+ ".log")) ;;
      subprocess_run execute [path_str gen; run_name; "-f"]
        (joinpath log_dir (run_name +:+ ".log")) ;;
      ret (joinpath log_dir (run_name +:+ ".log"))) w).
Proof.
  unfold run_madgraph_post.
  cbv beta iota zeta delta [bind print open_w write_text subprocess_run ret fst snd].
  set (log := joinpath log_dir (run_name +:+ ".log")).
  set (cmd := [path_str gen; run_name; "-f"]).
  match goal with |- context [execute ?w0 cmd] => set (started := w0) end.
  change (resolve started log) with (resolve w log).
  destruct (execute started cmd) as [c|]; [|split; reflexivity].
  destruct (returncode c =? 0)%Z; cbn.
  - split; [rewrite <- app_assoc; reflexivity|]. split; [apply lookup_insert_eq|reflexivity].
  - split; [rewrite <- app_assoc; reflexivity|]. split; [apply lookup_insert_eq|reflexivity].
Qed.

(** C5: [run_madgraph] of either script starts the generator with the
    argument list [[generate_events path, run_name, "-f"]], sends its
    standard output and its standard error to the one file
    [LOG_DIR/<run_name>.log], which then holds all it wrote, raises
    [CalledProcessError] on a non-zero exit status and returns the path of
    the log on a zero one. *)
Theorem run_madgraph_contract BASE_DIR execute run_name w :
  run_madgraph_post execute ScanMll.GENERATE_EVENTS (ScanMll.LOG_DIR BASE_DIR)
    run_name w (ScanMll.run_madgraph BASE_DIR execute run_name w)
  /\ run_madgraph_post execute (ScanMllCxx.GENERATE_EVENTS BASE_DIR)
       (ScanMllCxx.LOG_DIR BASE_DIR) run_name w
       (ScanMllCxx.run_madgraph BASE_DIR execute run_name w).
Proof. split; apply run_madgraph_post_gen. Qed.

(** ** The argument check of the cxx script *)

(** C10: started with fewer than two [argv] entries, the cxx script prints
    the usage line and exits with status 1; up to then it has created the
    log directory and nothing else: no file is read or written and no
    process is started. *)
Theorem cxx_script_requires_label BASE_DIR execute argv w :
  (List.length argv < 2)%nat ->
  ScanMllCxx.script BASE_DIR execute argv w =
  (Raise (SystemExit 1),
   {| cwd := cwd w;
      files := files w;
      stdout := stdout w ++ [ScanMllCxx.usage +:+ String nl ""];
      trace := trace w ++ [EvMkdir (resolve w (ScanMllCxx.LOG_DIR BASE_DIR))] |}).
Proof.
  intros H. unfold ScanMllCxx.script.
  destruct (Nat.ltb_spec (List.length argv) 2) as [_|Hge]; [|lia].
  reflexivity.
Qed.

Lemma cxx_script_requires_label_witness :
  ScanMllCxx.script Examples.proc_dir Examples.generator_ok ["scan_mll_bins_cxx.py"]
    Examples.world_good =
  (Raise (SystemExit 1),
   {| cwd := cwd Examples.world_good;
      files := files Examples.world_good;
      stdout := stdout Examples.world_good ++ [ScanMllCxx.usage +:+ String nl ""];
      trace := trace Examples.world_good
               ++ [EvMkdir (resolve Examples.world_good
                              (ScanMllCxx.LOG_DIR Examples.proc_dir))] |}).
Proof.
  apply (cxx_script_requires_label Examples.proc_dir Examples.generator_ok
           ["scan_mll_bins_cxx.py"] Examples.world_good).
  simpl. lia.
Defined.

(** ** A logic of traces and frames for the computations *)

Lemma resolve_resolve_in w p : resolve w p = resolve_in (cwd w) p.
Proof. reflexivity. Qed.

Section Logic.
Context {A B : Type}.
Variable c : list string.

Lemma traced_ret ideal touch (Q : A -> Prop) a :
  ideal = [] -> Q a -> traced c ideal touch Q (ret a).
Proof.
  intros -> HQ w Hc. simpl. split; [assumption|]. split; [reflexivity|].
  exists []. rewrite app_nil_r. split; [reflexivity|]. split; [reflexivity|].
  intros a' [= <-]. auto.
Qed.

Lemma traced_raise ideal touch (Q : A -> Prop) e :
  traced c ideal touch Q (raise e).
Proof.
  intros w Hc. simpl. split; [assumption|]. split; [reflexivity|].
  exists []. rewrite app_nil_r. split; [reflexivity|]. split; [apply prefix_nil|].
  intros a' [=].
Qed.

Lemma traced_bind i1 i2 ideal touch (Q : A -> Prop) (Q' : B -> Prop)
    (m : M A) (k : A -> M B) :
  ideal = i1 ++ i2 ->
  traced c i1 touch Q m ->
  (forall a, Q a -> traced c i2 touch Q' (k a)) ->
  traced c ideal touch Q' (bind m k).
Proof.
  intros -> Hm Hk w Hc. unfold bind.
  destruct (Hm w Hc) as (Hc1 & Hf1 & evs1 & Ht1 & Hp1 & Hok1).
  destruct (m w) as [[a|e] w1]; simpl in *.
  - destruct (Hok1 a eq_refl) as [-> HQ].
    destruct (Hk a HQ w1 Hc1) as (Hc2 & Hf2 & evs2 & Ht2 & Hp2 & Hok2).
    split; [assumption|]. split.
    + intros k0 Hk0. rewrite (Hf2 k0 Hk0). apply Hf1. assumption.
    + exists (i1 ++ evs2). rewrite Ht2, Ht1, <- app_assoc.
      split; [reflexivity|]. split; [apply prefix_app; assumption|].
      intros b Hb. destruct (Hok2 b Hb) as [-> HQ']. auto.
  - split; [assumption|]. split; [assumption|].
    exists evs1. split; [assumption|]. split.
    + etrans; [exact Hp1|]. apply prefix_app_r. reflexivity.
    + intros b [=].
Qed.

Lemma traced_post ideal touch (Q Q' : A -> Prop) (m : M A) :
  (forall a, Q a -> Q' a) -> traced c ideal touch Q m -> traced c ideal touch Q' m.
Proof.
  intros HQ Hm w Hc. destruct (Hm w Hc) as (Hc1 & Hf1 & evs1 & Ht1 & Hp1 & Hok1).
  split; [assumption|]. split; [assumption|]. exists evs1.
  split; [assumption|]. split; [assumption|].
  intros a Ha. destruct (Hok1 a Ha). auto.
Qed.

End Logic.

Section Primitives.
Variable c : list string.
Variable touch : list string -> Prop.

Lemma traced_print s : traced c [] touch (fun _ => True) (print s).
Proof.
  intros w Hc. simpl. split; [assumption|]. split; [reflexivity|].
  exists []. rewrite app_nil_r. split; [reflexivity|]. split; [reflexivity|]. auto.
Qed.

Lemma traced_mkdir p : traced c [EvMkdir (resolve_in c p)] touch (fun _ => True) (mkdir p).
Proof.
  intros w Hc. simpl. split; [assumption|]. split; [reflexivity|].
  eexists. split; [reflexivity|]. rewrite resolve_resolve_in, Hc.
  split; [reflexivity|]. auto.
Qed.

Lemma traced_exists p : traced c [] touch (fun _ => True) (exists_ p).
Proof.
  intros w Hc. simpl. split; [assumption|]. split; [reflexivity|].
  exists []. rewrite app_nil_r. split; [reflexivity|]. split; [reflexivity|]. auto.
Qed.

Lemma traced_read_text p :
  traced c [EvRead (resolve_in c p)] touch (fun _ => True) (read_text p).
Proof.
  intros w Hc. unfold read_text. cbv beta zeta. rewrite resolve_resolve_in, Hc.
  destruct (files w !! resolve_in c p); simpl.
  - split; [assumption|]. split; [reflexivity|].
    eexists. split; [reflexivity|]. split; [reflexivity|]. auto.
  - split; [assumption|]. split; [reflexivity|].
    exists []. rewrite app_nil_r. split; [reflexivity|]. split; [apply prefix_nil|].
    intros a [=].
Qed.

Lemma traced_write_text p text :
  touch (resolve_in c p) ->
  traced c [EvWrite (resolve_in c p)] touch (fun _ => True) (write_text p text).
Proof.
  intros Hin w Hc. unfold write_text. cbv beta zeta. rewrite resolve_resolve_in, Hc. simpl.
  split; [assumption|]. split.
  - intros k Hk. apply lookup_insert_ne. intros E. subst k. contradiction.
  - eexists. split; [reflexivity|]. split; [reflexivity|]. auto.
Qed.

Lemma traced_append_text p text :
  touch (resolve_in c p) ->
  traced c [EvAppend (resolve_in c p)] touch (fun _ => True) (append_text p text).
Proof.
  intros Hin w Hc. unfold append_text. cbv beta zeta. rewrite resolve_resolve_in, Hc. simpl.
  split; [assumption|]. split.
  - intros k Hk. apply lookup_insert_ne. intros E. subst k. contradiction.
  - eexists. split; [reflexivity|]. split; [reflexivity|]. auto.
Qed.

Lemma traced_subprocess_run execute cmd p :
  touch (resolve_in c p) ->
  traced c [EvSpawn cmd (resolve_in c p) (resolve_in c p)] touch (fun _ => True)
    (subprocess_run execute cmd p).
Proof.
  intros Hin w Hc. unfold subprocess_run. cbv beta zeta. rewrite resolve_resolve_in, Hc.
  destruct (execute w cmd) as [r|]; simpl.
  - assert (forall k, ~ touch k ->
              <[resolve_in c p := all_output r]> (files w) !! k = files w !! k) as Hf.
    { intros k Hk. apply lookup_insert_ne. intros E. subst k. contradiction. }
    destruct (returncode r =? 0)%Z; simpl.
    + split; [assumption|]. split; [exact Hf|].
      eexists. split; [reflexivity|]. split; [reflexivity|]. auto.
    + split; [assumption|]. split; [exact Hf|].
      eexists. split; [reflexivity|]. split; [reflexivity|]. intros a [=].
  - split; [assumption|]. split; [reflexivity|].
    exists []. rewrite app_nil_r. split; [reflexivity|]. split; [apply prefix_nil|].
    intros a [=].
Qed.

Lemma traced_or_raise {A} e (o : option A) :
  traced c [] touch (fun a => o = Some a) (or_raise e o).
Proof.
  destruct o as [a|]; simpl.
  - apply traced_ret; reflexivity.
  - apply traced_raise.
Qed.

End Primitives.

(** Loops. *)
Lemma traced_for_each {A} c touch (ideal : A -> list event) (body : A -> M unit) xs :
  (forall x, x ∈ xs -> traced c (ideal x) touch (fun _ => True) (body x)) ->
  traced c (flat_map ideal xs) touch (fun _ => True) (for_each xs body).
Proof.
  induction xs as [|x xs IH]; intros H; simpl.
  - apply traced_ret; auto.
  - eapply traced_bind; [reflexivity| |].
    + apply H. left.
    + intros _ _. apply IH. intros y Hy. apply H. right. assumption.
Qed.

Lemma for_each_app {A} (xs ys : list A) (body : A -> M unit) w :
  for_each (xs ++ ys) body w = bind (for_each xs body) (fun _ => for_each ys body) w.
Proof.
  revert w. induction xs as [|x xs IH]; intros w; simpl.
  - reflexivity.
  - unfold bind in *. destruct (body x w) as [[[]|e] w1]; [|reflexivity].
    rewrite IH. reflexivity.
Qed.

Lemma for_each_map {A B} (f : A -> B) (xs : list A) (body : B -> M unit) w :
  for_each (List.map f xs) body w = for_each xs (fun x => body (f x)) w.
Proof.
  revert w. induction xs as [|x xs IH]; intros w; simpl; [reflexivity|].
  unfold bind. destruct (body (f x) w) as [[[]|e] w1]; [|reflexivity]. apply IH.
Qed.

(** Two nested loops are one loop over the product, outer index first. *)
Lemma for_each_nested {A B} (xs : list A) (ys : list B) (body : A -> B -> M unit) w :
  for_each xs (fun x => for_each ys (fun y => body x y)) w =
  for_each (list_prod xs ys) (fun p => body (fst p) (snd p)) w.
Proof.
  revert w. induction xs as [|x xs IH]; intros w; simpl; [reflexivity|].
  rewrite for_each_app. unfold bind.
  rewrite for_each_map. simpl.
  destruct (for_each ys (λ y : B, body x y) w) as [[[]|e] w1]; [|reflexivity].
  apply IH.
Qed.

(** ** The functions of the scripts in that logic *)

Section PlainTraces.
Variable BASE_DIR : Path.
Variable execute : world -> list string -> option completed.
Variable c : list string.
Variable touch : list string -> Prop.

Lemma traced_plain_update_run_card mmin mmax :
  touch (resolve_in c ScanMll.RUN_CARD) ->
  traced c [EvRead (resolve_in c ScanMll.TEMPLATE_CARD);
            EvWrite (resolve_in c ScanMll.RUN_CARD)] touch (fun _ => True)
    (ScanMll.update_run_card mmin mmax).
Proof.
  intros Ht. unfold ScanMll.update_run_card.
  eapply traced_bind; [|apply traced_read_text|]; [reflexivity|].
  intros text _. cbv zeta.
  destruct (subn _ _ text) as [text1 nmin].
  destruct (subn _ _ text1) as [text2 nmax].
  destruct ((nmin =? 0)%nat || (nmax =? 0)%nat); [apply traced_raise|].
  eapply traced_bind; [|apply traced_write_text; exact Ht|]; [reflexivity|].
  intros _ _. apply traced_print.
Qed.

Lemma traced_plain_run_madgraph run_name :
  touch (resolve_in c (joinpath (ScanMll.LOG_DIR BASE_DIR) (run_name +:+ ".log"))) ->
  traced c
    (let key := resolve_in c (joinpath (ScanMll.LOG_DIR BASE_DIR) (run_name +:+ ".log")) in
     [EvWrite key; EvSpawn [path_str ScanMll.GENERATE_EVENTS; run_name; "-f"] key key])
    touch (fun p => p = joinpath (ScanMll.LOG_DIR BASE_DIR) (run_name +:+ ".log"))
    (ScanMll.run_madgraph BASE_DIR execute run_name).
Proof.
  intros Ht. unfold ScanMll.run_madgraph. cbv zeta.
  eapply traced_bind; [|apply traced_print|]; [reflexivity|]. intros _ _.
  eapply traced_bind; [|apply traced_write_text; exact Ht|]; [reflexivity|]. intros _ _.
  eapply traced_bind; [|apply traced_subprocess_run; exact Ht|]; [reflexivity|]. intros _ _.
  apply traced_ret; reflexivity.
Qed.

Lemma traced_plain_parse_cross_section p :
  traced c [EvRead (resolve_in c p)] touch (fun _ => True) (ScanMll.parse_cross_section p).
Proof.
  unfold ScanMll.parse_cross_section.
  eapply traced_bind; [|apply traced_exists|]; [reflexivity|]. intros present _.
  destruct (negb present); [apply traced_raise|].
  eapply traced_bind; [|apply traced_read_text|]; [reflexivity|]. intros text _.
  destruct (ScanMll.scan_log (lines text)) as [[t|]|e];
    [apply traced_ret; auto | apply traced_raise | apply traced_raise].
Qed.

Lemma traced_plain_step i bin :
  touch (resolve_in c ScanMll.RUN_CARD) ->
  touch (resolve_in c ScanMll.OUTPUT_FILE) ->
  (forall name, plain_run_name bin = Some name ->
     touch (resolve_in c (joinpath (ScanMll.LOG_DIR BASE_DIR) (name +:+ ".log")))) ->
  traced c (plain_events c BASE_DIR bin) touch (fun _ => True)
    (ScanMll.step BASE_DIR execute (i, bin)).
Proof.
  intros Hr Ho Hl. destruct bin as [mmin mmax].
  unfold ScanMll.step, plain_events, plain_run_name in *. simpl fst in *; simpl snd in *.
  eapply traced_bind; [|apply traced_print|]; [reflexivity|]. intros _ _.
  eapply traced_bind; [|apply traced_plain_update_run_card; exact Hr|]; [reflexivity|].
  intros _ _.
  destruct (int_of_float mmin) as [imin|]; cbn [mbind option_bind] in *.
  2:{ eapply traced_bind; [|apply traced_or_raise|]; [reflexivity|]. intros ? [=]. }
  destruct (int_of_float mmax) as [imax|]; cbn [mbind option_bind] in *.
  2:{ eapply traced_bind; [|apply traced_or_raise|]; [reflexivity|]. intros ? _.
      eapply traced_bind; [|apply traced_or_raise|]; [reflexivity|]. intros ? [=]. }
  eapply traced_bind; [|apply traced_or_raise|]; [reflexivity|]. intros ? [= <-].
  eapply traced_bind; [|apply traced_or_raise|]; [reflexivity|]. intros ? [= <-].
  eapply traced_bind; [|apply traced_plain_run_madgraph; apply Hl; reflexivity|];
    [reflexivity|].
  intros p ->.
  eapply traced_bind; [|apply traced_plain_parse_cross_section|]; [reflexivity|].
  intros [[xsec err] unit] _.
  eapply traced_bind; [|apply traced_print|]; [reflexivity|]. intros _ _.
  apply traced_append_text. exact Ho.
Qed.

End PlainTraces.

Section CxxTraces.
Variable BASE_DIR : Path.
Variable execute : world -> list string -> option completed.
Variable CXX_LABEL : string.
Variable c : list string.
Variable touch : list string -> Prop.

Lemma traced_cxx_update_run_card mmin mmax :
  touch (resolve_in c (ScanMllCxx.RUN_CARD BASE_DIR)) ->
  traced c [EvRead (resolve_in c (ScanMllCxx.TEMPLATE_CARD BASE_DIR));
            EvWrite (resolve_in c (ScanMllCxx.RUN_CARD BASE_DIR))] touch (fun _ => True)
    (ScanMllCxx.update_run_card BASE_DIR mmin mmax).
Proof.
  intros Ht. unfold ScanMllCxx.update_run_card.
  eapply traced_bind; [|apply traced_read_text|]; [reflexivity|].
  intros text _. cbv zeta.
  destruct (subn _ _ text) as [text1 nmin].
  destruct (subn _ _ text1) as [text2 nmax].
  destruct ((nmin =? 0)%nat || (nmax =? 0)%nat); [apply traced_raise|].
  eapply traced_bind; [|apply traced_write_text; exact Ht|]; [reflexivity|].
  intros _ _. apply traced_print.
Qed.

Lemma traced_cxx_update_param_card cxx_value :
  touch (resolve_in c (ScanMllCxx.PARAM_CARD BASE_DIR)) ->
  traced c [EvRead (resolve_in c (ScanMllCxx.PARAM_CARD_TEMPLATE BASE_DIR));
            EvWrite (resolve_in c (ScanMllCxx.PARAM_CARD BASE_DIR))] touch (fun _ => True)
    (ScanMllCxx.update_param_card BASE_DIR CXX_LABEL cxx_value).
Proof.
  intros Ht. unfold ScanMllCxx.update_param_card.
  eapply traced_bind; [|apply traced_read_text|]; [reflexivity|].
  intros text _. cbv zeta.
  destruct (subn _ _ text) as [new_text n].
  destruct (n =? 0)%nat; [apply traced_raise|].
  eapply traced_bind; [|apply traced_write_text; exact Ht|]; [reflexivity|].
  intros _ _. apply traced_print.
Qed.

Lemma traced_cxx_run_madgraph run_name :
  touch (resolve_in c (joinpath (ScanMllCxx.LOG_DIR BASE_DIR) (run_name +:+ ".log"))) ->
  traced c
    (let key := resolve_in c (joinpath (ScanMllCxx.LOG_DIR BASE_DIR) (run_name +:+ ".log")) in
     [EvWrite key;
      EvSpawn [path_str (ScanMllCxx.GENERATE_EVENTS BASE_DIR); run_name; "-f"] key key])
    touch (fun p => p = joinpath (ScanMllCxx.LOG_DIR BASE_DIR) (run_name +:+ ".log"))
    (ScanMllCxx.run_madgraph BASE_DIR execute run_name).
Proof.
  intros Ht. unfold ScanMllCxx.run_madgraph. cbv zeta.
  eapply traced_bind; [|apply traced_print|]; [reflexivity|]. intros _ _.
  eapply traced_bind; [|apply traced_write_text; exact Ht|]; [reflexivity|]. intros _ _.
  eapply traced_bind; [|apply traced_subprocess_run; exact Ht|]; [reflexivity|]. intros _ _.
  apply traced_ret; reflexivity.
Qed.

Lemma traced_cxx_parse_cross_section p :
  traced c [EvRead (resolve_in c p)] touch (fun _ => True)
    (ScanMllCxx.parse_cross_section p).
Proof.
  unfold ScanMllCxx.parse_cross_section.
  eapply traced_bind; [|apply traced_exists|]; [reflexivity|]. intros present _.
  destruct (negb present); [apply traced_raise|].
  eapply traced_bind; [|apply traced_read_text|]; [reflexivity|]. intros text _.
  destruct (ScanMllCxx.scan_log (lines text)) as [[t|]|e];
    [apply traced_ret; auto | apply traced_raise | apply traced_raise].
Qed.

Lemma traced_cxx_step i bin cxx :
  touch (resolve_in c (ScanMllCxx.RUN_CARD BASE_DIR)) ->
  touch (resolve_in c (ScanMllCxx.PARAM_CARD BASE_DIR)) ->
  touch (resolve_in c (ScanMllCxx.OUTPUT_FILE BASE_DIR)) ->
  (forall name, cxx_run_name (bin, cxx) = Some name ->
     touch (resolve_in c (joinpath (ScanMllCxx.LOG_DIR BASE_DIR) (name +:+ ".log")))) ->
  traced c (cxx_events c BASE_DIR (bin, cxx)) touch (fun _ => True)
    (ScanMllCxx.step BASE_DIR execute CXX_LABEL (i, bin) cxx).
Proof.
  intros Hr Hp Ho Hl. destruct bin as [mmin mmax].
  unfold ScanMllCxx.step, cxx_events, cxx_run_name in *. simpl fst in *; simpl snd in *.
  eapply traced_bind; [|apply traced_print|]; [reflexivity|]. intros _ _.
  eapply traced_bind; [|apply traced_cxx_update_run_card; exact Hr|]; [reflexivity|].
  intros _ _.
  eapply traced_bind; [|apply traced_cxx_update_param_card; exact Hp|]; [reflexivity|].
  intros _ _. cbv zeta.
  destruct (int_of_float mmin) as [imin|]; cbn [mbind option_bind] in *.
  2:{ eapply traced_bind; [|apply traced_or_raise|]; [reflexivity|]. intros ? [=]. }
  destruct (int_of_float mmax) as [imax|]; cbn [mbind option_bind] in *.
  2:{ eapply traced_bind; [|apply traced_or_raise|]; [reflexivity|]. intros ? _.
      eapply traced_bind; [|apply traced_or_raise|]; [reflexivity|]. intros ? [=]. }
  eapply traced_bind; [|apply traced_or_raise|]; [reflexivity|]. intros ? [= <-].
  eapply traced_bind; [|apply traced_or_raise|]; [reflexivity|]. intros ? [= <-].
  eapply traced_bind; [|apply traced_cxx_run_madgraph; apply Hl; reflexivity|];
    [reflexivity|].
  intros p ->.
  eapply traced_bind; [|apply traced_cxx_parse_cross_section|]; [reflexivity|].
  intros [[xsec err] unit] _.
  eapply traced_bind; [|apply traced_print|]; [reflexivity|]. intros _ _.
  apply traced_append_text. exact Ho.
Qed.

End CxxTraces.

(** ** The order of the scan *)

Lemma flat_map_enumerate {A B} (f : A -> list B) start (xs : list A) :
  flat_map (fun it => f (snd it)) (enumerate start xs) = flat_map f xs.
Proof.
  revert start. induction xs as [|x xs IH]; intros start; simpl; [reflexivity|].
  rewrite IH. reflexivity.
Qed.

Lemma flat_map_prod_enumerate {A B C} (f : A * B -> list C) start (xs : list A) (ys : list B) :
  flat_map (fun p => f (snd (fst p), snd p)) (list_prod (enumerate start xs) ys)
  = flat_map f (list_prod xs ys).
Proof.
  revert start. induction xs as [|x xs IH]; intros start; simpl; [reflexivity|].
  rewrite !flat_map_app, IH. f_equal.
  clear IH. induction ys as [|y ys IHy]; simpl; [reflexivity|].
  rewrite IHy. reflexivity.
Qed.

(** The whole of [main] of the plain script. *)
Lemma traced_plain_main BASE_DIR execute c :
  traced c
    (EvWrite (resolve_in c ScanMll.OUTPUT_FILE)
     :: flat_map (plain_events c BASE_DIR) ScanMll.MASS_BINS)
    (fun _ => True) (fun _ => True) (ScanMll.main BASE_DIR execute).
Proof.
  unfold ScanMll.main.
  eapply traced_bind; [|apply traced_write_text; exact I|]; [reflexivity|]. intros _ _.
  eapply traced_bind; [| |intros _ _; apply traced_print]; [symmetry; apply app_nil_r|].
  rewrite <- (flat_map_enumerate (plain_events c BASE_DIR) 1).
  apply traced_for_each. intros [i bin] _. apply traced_plain_step; auto.
Qed.

(** The whole of [main] of the cxx script. *)
Lemma traced_cxx_main BASE_DIR execute CXX_LABEL c :
  traced c
    (EvWrite (resolve_in c (ScanMllCxx.OUTPUT_FILE BASE_DIR))
     :: flat_map (cxx_events c BASE_DIR)
          (list_prod ScanMllCxx.MASS_BINS ScanMllCxx.CXX_VALUES))
    (fun _ => True) (fun _ => True) (ScanMllCxx.main BASE_DIR execute CXX_LABEL).
Proof.
  unfold ScanMllCxx.main.
  eapply traced_bind; [|apply traced_write_text; exact I|]; [reflexivity|]. intros _ _.
  eapply traced_bind; [| |intros _ _; apply traced_print]; [symmetry; apply app_nil_r|].
  rewrite <- (flat_map_prod_enumerate (cxx_events c BASE_DIR) 1).
  intros w Hc. rewrite for_each_nested. revert w Hc.
  apply traced_for_each. intros [[i bin] cxx] _. apply traced_cxx_step; auto.
Qed.


(** ** The output table *)

Lemma appends_raise c out R e : appends c out R (raise e).
Proof. intros w Hc. simpl. auto. Qed.

Lemma appends_bind {A} c out R ideal touch (Q : A -> Prop) (m : M A) (k : A -> M unit) :
  traced c ideal touch Q m ->
  ~ touch out ->
  (forall a, Q a -> appends c out R (k a)) ->
  appends c out R (bind m k).
Proof.
  intros Hm Hout Hk w Hc. unfold bind.
  destruct (Hm w Hc) as (Hc1 & Hf1 & evs1 & _ & _ & Hok1).
  specialize (Hf1 out Hout).
  destruct (m w) as [[a|e] w1]; simpl in *.
  - destruct (Hok1 a eq_refl) as [_ HQ].
    destruct (Hk a HQ w1 Hc1) as (Hc2 & H2).
    split; [assumption|]. rewrite <- Hf1. exact H2.
  - auto.
Qed.

Lemma appends_append_text c out (R : string -> Prop) p text :
  resolve_in c p = out -> R text -> appends c out R (append_text p text).
Proof.
  intros <- HR w Hc. unfold append_text. cbv beta zeta.
  rewrite resolve_resolve_in, Hc. simpl. split; [assumption|].
  exists text. split; [assumption|]. apply lookup_insert_eq.
Qed.

Lemma appends_for_each {A} c out (R : A -> string -> Prop) (body : A -> M unit) xs :
  (forall x, x ∈ xs -> appends c out (R x) (body x)) ->
  forall w old, cwd w = c -> files w !! out = Some old ->
    cwd (snd (for_each xs body w)) = c
    /\ exists done rows,
         done `prefix_of` xs
         /\ Forall2 R done rows
         /\ files (snd (for_each xs body w)) !! out = Some (old +:+ concat_rows rows)
         /\ (fst (for_each xs body w) = Ok tt -> done = xs).
Proof.
  induction xs as [|x xs IH]; intros H w old Hc Hold; simpl.
  - split; [assumption|]. exists [], []. simpl.
    split; [reflexivity|]. split; [constructor|].
    split; [|reflexivity].
    rewrite Hold, append_nil_r. reflexivity.
  - unfold bind. destruct (H x ltac:(left) w Hc) as (Hc1 & H1).
    destruct (body x w) as [[[]|e] w1]; simpl in *.
    + destruct H1 as (s & Hs & Hf). rewrite Hold in Hf. simpl in Hf.
      destruct (IH (fun y Hy => H y ltac:(right; exact Hy)) w1 _ Hc1 Hf)
        as (Hc2 & done & rows & Hp & HR & Hf2 & Hok).
      split; [assumption|]. exists (x :: done), (s :: rows).
      split; [apply prefix_cons; assumption|].
      split; [constructor; assumption|].
      split.
      * rewrite Hf2, append_assoc. reflexivity.
      * intros Hr. rewrite (Hok Hr). reflexivity.
    + split; [assumption|]. exists [], []. simpl.
      split; [apply prefix_nil|]. split; [constructor|].
      split; [|intros [=]].
      rewrite H1, Hold, append_nil_r. reflexivity.
Qed.

Lemma joinpath_component p s comps :
  path_of s = {| absolute := false; parts := comps |} ->
  joinpath p s = {| absolute := absolute p; parts := parts p ++ comps |}.
Proof. intros H. unfold joinpath. rewrite H. reflexivity. Qed.

Lemma resolve_in_joinpath c p s comps :
  path_of s = {| absolute := false; parts := comps |} ->
  resolve_in c (joinpath p s) = resolve_in c p ++ comps.
Proof.
  intros H. rewrite (joinpath_component p s comps H). unfold resolve_in. simpl.
  destruct (absolute p); [reflexivity|]. rewrite app_assoc. reflexivity.
Qed.

Lemma snoc_differ {A} (l1 l2 : list A) a b : a <> b -> l1 ++ [a] <> l2 ++ [b].
Proof. intros Hab E. apply app_inj_tail in E as [_ E]. contradiction. Qed.

(** The log of a run lies in the log directory under [<run_name>.log]. *)
Lemma log_key_plain c log_dir name :
  plain_name name = true ->
  resolve_in c (joinpath log_dir (name +:+ ".log")) = resolve_in c log_dir ++ [name +:+ ".log"].
Proof.
  intros H. apply resolve_in_joinpath. unfold plain_name in H.
  apply andb_true_iff in H as [Ha Hp]. apply bool_decide_eq_true_1 in Hp.
  destruct (path_of (name +:+ ".log")) as [a ps]. simpl in *.
  destruct a; [discriminate|]. rewrite Hp. reflexivity.
Qed.

Lemma plain_names_spec {A} (f : A -> option string) xs x name :
  plain_names (List.map f xs) = true -> x ∈ xs -> f x = Some name ->
  plain_name name = true.
Proof.
  unfold plain_names. rewrite forallb_forall. intros H Hx Hf.
  specialize (H (f x)). rewrite Hf in H. apply H.
  apply in_map_iff. exists x. split; [assumption|]. apply list_elem_of_In. assumption.
Qed.

Lemma starts_differ a b s t : a <> b -> String a s <> String b t.
Proof. congruence. Qed.

Lemma plain_run_name_prefix bin name :
  plain_run_name bin = Some name -> exists rest, name = String "m" rest.
Proof.
  unfold plain_run_name. destruct (int_of_float (fst bin)); [|discriminate].
  destruct (int_of_float (snd bin)); [|discriminate]. simpl. intros [= <-]. eauto.
Qed.

Lemma cxx_run_name_prefix run name :
  cxx_run_name run = Some name -> exists rest, name = String "m" rest.
Proof.
  unfold cxx_run_name. destruct (int_of_float (fst (fst run))); [|discriminate].
  destruct (int_of_float (snd (fst run))); [|discriminate]. simpl. intros [= <-]. eauto.
Qed.

Section CxxTable.
Variable BASE_DIR : Path.
Variable c : list string.

Lemma cxx_out_key :
  resolve_in c (ScanMllCxx.OUTPUT_FILE BASE_DIR)
  = resolve_in c BASE_DIR ++ ["xsec_vs_mll_cxx.txt"].
Proof. apply resolve_in_joinpath. reflexivity. Qed.

Lemma cxx_card_key name :
  path_of name = {| absolute := false; parts := [name] |} ->
  resolve_in c (joinpath (ScanMllCxx.CARDS_DIR BASE_DIR) name)
  = (resolve_in c BASE_DIR ++ ["Cards"]) ++ [name].
Proof.
  intros H. rewrite (resolve_in_joinpath _ _ _ _ H). f_equal.
  apply resolve_in_joinpath. reflexivity.
Qed.

End CxxTable.

Lemma plain_scan_names :
  plain_names (List.map (fun it => plain_run_name (snd it))
                 (enumerate 1 ScanMll.MASS_BINS)) = true.
Proof. vm_compute. reflexivity. Qed.

Lemma cxx_scan_names :
  plain_names (List.map (fun run => cxx_run_name (snd (fst run), snd run))
                 (list_prod (enumerate 1 ScanMllCxx.MASS_BINS) ScanMllCxx.CXX_VALUES))
  = true.
Proof. vm_compute. reflexivity. Qed.

(** ** The rows of the table *)

(** A triple that the loop of the parser returns is read from the first
    line with the marker. *)
Lemma scan_log_reads text t :
  ScanMll.scan_log (lines text) = Ok (Some t) -> reads text t.
Proof.
  intros H. destruct (marker_dichotomy (lines text)) as [Hnone | (line & Hfirst)].
  - rewrite (Forall_no_marker_scan _ Hnone) in H. discriminate.
  - exists line. split; [exact Hfirst|].
    destruct Hfirst as (pre & post & Hl & Hpre & Hm).
    rewrite Hl, (scan_log_first pre line post Hpre Hm) in H.
    destruct (ScanMll.fields (split line)) as [t'|] eqn:Hf; [|discriminate].
    assert (t' = t) as -> by congruence. clear H.
    unfold ScanMll.fields in Hf. unfold float_token.
    destruct (split line !! 2%nat) as [t2|] eqn:E2; [|discriminate]. cbn in Hf.
    destruct (float_of_string t2) as [x|] eqn:F2; [|discriminate]. cbn in Hf.
    destruct (split line !! 4%nat) as [t4|] eqn:E4; [|discriminate]. cbn in Hf.
    destruct (float_of_string t4) as [e|] eqn:F4; [|discriminate]. cbn in Hf.
    destruct (split line !! 5%nat) as [u|] eqn:E5; [|discriminate]. cbn in Hf.
    apply (inj Some) in Hf. subst t. cbn [fst snd].
    split; [exists t2; split; [reflexivity|exact F2]|].
    split; [exists t4; split; [reflexivity|exact F4]|reflexivity].
Qed.

Lemma appends_weaken c out (R R' : string -> Prop) m :
  (forall s, R s -> R' s) -> appends c out R m -> appends c out R' m.
Proof.
  intros HR Hm w Hc. destruct (Hm w Hc) as [Hc1 H]. split; [exact Hc1|].
  destruct (fst (m w)); [|exact H].
  destruct H as (s & Hs & Hf). exists s. split; [apply HR; exact Hs|exact Hf].
Qed.

(** What [run_madgraph] leaves, spelled out. *)
Lemma run_madgraph_result execute gen log_dir name w :
  (print ("  -> Running: " +:+ join " " [path_str gen; name; "-f"]) ;;
   open_w (joinpath log_dir (name +:+ ".log")) ;;
   subprocess_run execute [path_str gen; name; "-f"] (joinpath log_dir (name +:+ ".log")) ;;
   ret (joinpath log_dir (name +:+ ".log"))) w
  = let cmd := [path_str gen; name; "-f"] in
    let log := joinpath log_dir (name +:+ ".log") in
    let key := resolve_in (cwd w) log in
    let out := stdout w ++ [("  -> Running: " +:+ join " " cmd) +:+ String nl ""] in
    let started :=
      {| cwd := cwd w; files := <[key := ""]> (files w); stdout := out;
         trace := trace w ++ [EvWrite key] |} in
    match execute started cmd with
    | None => (Raise OSError, started)
    | Some c0 =>
        (if (returncode c0 =? 0)%Z then Ok log
         else Raise (CalledProcessError (returncode c0) cmd),
         {| cwd := cwd w; files := <[key := all_output c0]> (<[key := ""]> (files w));
            stdout := out; trace := (trace w ++ [EvWrite key]) ++ [EvSpawn cmd key key] |})
    end.
Proof.
  cbv beta iota zeta delta [bind print open_w write_text subprocess_run ret
                            resolve resolve_in log_event set_file].
  cbn [cwd files stdout trace].
  match goal with |- context [execute ?w0 ?cmd] => destruct (execute w0 cmd) as [c0|] end;
    [|reflexivity].
  destruct (returncode c0 =? 0)%Z; reflexivity.
Qed.

Section RunTail.
Variable execute : world -> list string -> option completed.
Variables gen log_dir outp : Path.
Variable c : list string.
Variable name : string.
Variable parse : Path -> M (float * float * string).
Variable k : float * float * string -> M unit.
Variable msg row : float * float * string -> string.
Hypothesis Hparse : forall p w, parse p w = ScanMll.parse_cross_section p w.
Hypothesis Hk : forall t, k t = (print (msg t) ;; append_text outp (row t)).
Hypothesis Hkeys :
  resolve_in c (joinpath log_dir (name +:+ ".log")) <> resolve_in c outp.

(** The run, the parse and the append of one pass: when they return, the
    row appended carries what the parser read from the output of this very
    run of the generator. *)
Lemma appends_run_tail :
  appends c (resolve_in c outp)
    (fun s => exists t, reported execute [path_str gen; name; "-f"] t /\ s = row t)
    (let* log_path :=
       (print ("  -> Running: " +:+ join " " [path_str gen; name; "-f"]) ;;
        open_w (joinpath log_dir (name +:+ ".log")) ;;
        subprocess_run execute [path_str gen; name; "-f"]
          (joinpath log_dir (name +:+ ".log")) ;;
        ret (joinpath log_dir (name +:+ ".log"))) in
     let* t := parse log_path in
     k t).
Proof.
  intros w Hc.
  set (log := joinpath log_dir (name +:+ ".log")) in *.
  set (cmd := [path_str gen; name; "-f"]).
  match goal with |- context [fst (?m w)] => set (tail := m) end.
  pose (started :=
          {| cwd := c; files := <[resolve_in c log := ""]> (files w);
             stdout := stdout w ++ [("  -> Running: " +:+ join " " cmd) +:+ String nl ""];
             trace := trace w ++ [EvWrite (resolve_in c log)] |}).
  assert (tail w =
          match execute started cmd with
          | None => (Raise OSError, started)
          | Some c0 =>
              let w1 :=
                {| cwd := c;
                   files := <[resolve_in c log := all_output c0]> (files started);
                   stdout := stdout started;
                   trace := trace started ++ [EvSpawn cmd (resolve_in c log) (resolve_in c log)] |} in
              if (returncode c0 =? 0)%Z then bind (parse log) k w1
              else (Raise (CalledProcessError (returncode c0) cmd), w1)
          end) as ->.
  { unfold tail, started, log, cmd. unfold bind at 1.
    rewrite run_madgraph_result. cbv zeta. rewrite Hc.
    match goal with |- context [execute ?w0 ?l] => destruct (execute w0 l) as [c0|] end;
      [|reflexivity].
    destruct (returncode c0 =? 0)%Z; reflexivity. }
  clear tail.
  destruct (execute started cmd) as [c0|] eqn:Hrun.
  2:{ cbn. split; [reflexivity|]. apply lookup_insert_ne. exact Hkeys. }
  destruct (returncode c0 =? 0)%Z eqn:Hrc.
  2:{ cbn. split; [reflexivity|]. rewrite !lookup_insert_ne by exact Hkeys. reflexivity. }
  cbv zeta.
  match goal with |- context [bind (parse log) _ ?w0] => set (w1 := w0) end.
  assert (cwd w1 = c) as Hc1 by reflexivity.
  assert (forall key, key <> resolve_in c log -> files w1 !! key = files w !! key) as Hframe.
  { intros key Hne. cbn. rewrite !lookup_insert_ne by congruence. reflexivity. }
  unfold bind.
  rewrite Hparse, (parse_cross_section_holds w1 log (all_output c0)).
  2:{ unfold holds. rewrite resolve_resolve_in, Hc1. cbn. apply lookup_insert_eq. }
  destruct (ScanMll.scan_log (lines (all_output c0))) as [[t|]|e] eqn:Hs.
  - rewrite Hk. cbv beta iota zeta delta [bind print append_text].
    cbn [fst snd cwd files log_event set_file].
    split; [reflexivity|].
    exists (row t). split.
    + exists t. split; [|reflexivity]. exists started, c0.
      split; [exact Hrun|]. split; [apply Z.eqb_eq; exact Hrc|].
      apply scan_log_reads. exact Hs.
    + rewrite resolve_resolve_in. cbn [cwd].
      rewrite lookup_insert_eq. rewrite Hc1, Hframe by congruence. reflexivity.
  - cbn [fst snd files log_event]. split; [reflexivity|]. apply Hframe. congruence.
  - cbn [fst snd files log_event]. split; [reflexivity|]. apply Hframe. congruence.
Qed.

End RunTail.

Section PlainRows.
Variable BASE_DIR : Path.
Variable execute : world -> list string -> option completed.
Variable c : list string.

Local Abbreviation out := (resolve_in c ScanMll.OUTPUT_FILE).

Lemma appends_plain_step i bin :
  (forall name, plain_run_name bin = Some name -> plain_name name = true) ->
  appends c out (plain_row execute (i, bin)) (ScanMll.step BASE_DIR execute (i, bin)).
Proof.
  intros Hname. destruct bin as [mmin mmax].
  set (touch := fun k : list string => k <> out).
  assert (~ touch out) as Hout by (unfold touch; tauto).
  unfold ScanMll.step.
  eapply appends_bind; [apply (traced_print c touch)|exact Hout|]. intros _ _.
  eapply appends_bind; [apply (traced_plain_update_run_card c touch)|exact Hout|].
  { unfold touch. change (c ++ ["Cards"; "run_card.dat"] <> c ++ ["xsec_vs_mll.txt"]).
    intros E. apply app_inv_head in E. discriminate. }
  intros _ _.
  eapply appends_bind; [apply (traced_or_raise c touch)|exact Hout|]. intros imin Hmin.
  eapply appends_bind; [apply (traced_or_raise c touch)|exact Hout|]. intros imax Hmax.
  cbv zeta.
  set (name := "mll_" +:+ int_str imin +:+ "_" +:+ int_str imax).
  assert (plain_run_name (mmin, mmax) = Some name) as Hn.
  { unfold plain_run_name. simpl. rewrite Hmin, Hmax. reflexivity. }
  apply (appends_weaken c out
           (fun s => exists t,
              reported execute [path_str ScanMll.GENERATE_EVENTS; name; "-f"] t
              /\ s = plain_columns (mmin, mmax) t)).
  { intros s (t & Ht & Hs). exists name, t. auto. }
  apply (appends_run_tail execute ScanMll.GENERATE_EVENTS (ScanMll.LOG_DIR BASE_DIR)
           ScanMll.OUTPUT_FILE c name ScanMll.parse_cross_section
           _
           (fun t => "  -> Cross-section: " +:+ float_str (fst (fst t)) +:+ " +- "
                     +:+ float_str (snd (fst t)) +:+ " " +:+ snd t)
           (plain_columns (mmin, mmax))).
  - reflexivity.
  - intros [[xsec err] unit]. reflexivity.
  - rewrite (log_key_plain _ _ _ (Hname _ Hn)).
    change (resolve_in c ScanMll.OUTPUT_FILE) with (c ++ ["xsec_vs_mll.txt"]).
    apply snoc_differ. unfold name. rewrite !append_cons. discriminate.
Qed.

End PlainRows.

Section CxxRows.
Variable BASE_DIR : Path.
Variable execute : world -> list string -> option completed.
Variable CXX_LABEL : string.
Variable c : list string.

Local Abbreviation out := (resolve_in c (ScanMllCxx.OUTPUT_FILE BASE_DIR)).

Lemma appends_cxx_step i bin cxx :
  (forall name, cxx_run_name (bin, cxx) = Some name -> plain_name name = true) ->
  appends c out (cxx_row BASE_DIR execute ((i, bin), cxx))
    (ScanMllCxx.step BASE_DIR execute CXX_LABEL (i, bin) cxx).
Proof.
  intros Hname. destruct bin as [mmin mmax].
  set (touch := fun k : list string => k <> out).
  assert (~ touch out) as Hout by (unfold touch; tauto).
  unfold ScanMllCxx.step.
  eapply appends_bind; [apply (traced_print c touch)|exact Hout|]. intros _ _.
  eapply appends_bind;
    [apply (traced_cxx_update_run_card BASE_DIR c touch)|exact Hout|].
  { unfold touch, ScanMllCxx.RUN_CARD.
    rewrite (cxx_out_key BASE_DIR c), (cxx_card_key BASE_DIR c) by reflexivity.
    apply snoc_differ. discriminate. }
  intros _ _.
  eapply appends_bind;
    [apply (traced_cxx_update_param_card BASE_DIR CXX_LABEL c touch)|exact Hout|].
  { unfold touch, ScanMllCxx.PARAM_CARD.
    rewrite (cxx_out_key BASE_DIR c), (cxx_card_key BASE_DIR c) by reflexivity.
    apply snoc_differ. discriminate. }
  intros _ _. cbv zeta.
  eapply appends_bind; [apply (traced_or_raise c touch)|exact Hout|]. intros imin Hmin.
  eapply appends_bind; [apply (traced_or_raise c touch)|exact Hout|]. intros imax Hmax.
  match goal with |- context [ScanMllCxx.run_madgraph _ _ ?n] => set (name := n) end.
  assert (cxx_run_name (mmin, mmax, cxx) = Some name) as Hn.
  { unfold cxx_run_name. simpl. rewrite Hmin, Hmax. reflexivity. }
  apply (appends_weaken c out
           (fun s => exists t,
              reported execute [path_str (ScanMllCxx.GENERATE_EVENTS BASE_DIR); name; "-f"] t
              /\ s = cxx_columns (mmin, mmax, cxx) t)).
  { intros s (t & Ht & Hs). exists name, t. auto. }
  apply (appends_run_tail execute (ScanMllCxx.GENERATE_EVENTS BASE_DIR)
           (ScanMllCxx.LOG_DIR BASE_DIR) (ScanMllCxx.OUTPUT_FILE BASE_DIR) c name
           ScanMllCxx.parse_cross_section
           _
           (fun t => "  -> Cross-section: " +:+ float_str (fst (fst t)) +:+ " +- "
                     +:+ float_str (snd (fst t)) +:+ " " +:+ snd t)
           (cxx_columns (mmin, mmax, cxx))).
  - apply parse_cross_section_same.
  - intros [[xsec err] unit]. reflexivity.
  - rewrite (cxx_out_key BASE_DIR c), (log_key_plain _ _ _ (Hname _ Hn)).
    apply snoc_differ. unfold name. rewrite !append_cons. discriminate.
Qed.

End CxxRows.

(** ** Run names and logs *)

Lemma NoDup_map_inj_on {A B} (f : A -> B) (l : list A) x y :
  NoDup (List.map f l) -> x ∈ l -> y ∈ l -> f x = f y -> x = y.
Proof.
  induction l as [|a l IH]; intros Hnd Hx Hy E; [inversion Hx|].
  simpl in Hnd. apply NoDup_cons in Hnd as [Ha Hnd].
  apply elem_of_cons in Hx as [-> | Hx]; apply elem_of_cons in Hy as [-> | Hy].
  - reflexivity.
  - exfalso. apply Ha. rewrite E. apply (list_elem_of_fmap_2 f). assumption.
  - exfalso. apply Ha. rewrite <- E. apply (list_elem_of_fmap_2 f). assumption.
  - apply IH; assumption.
Qed.

Lemma append_inj_r s t u : s +:+ u = t +:+ u -> s = t.
Proof.
  revert t. induction s as [|a s IH]; intros [|b t] E.
  - reflexivity.
  - exfalso. apply (f_equal String.length) in E.
    rewrite append_nil_l, append_cons in E. simpl in E. rewrite length_append in E. lia.
  - exfalso. apply (f_equal String.length) in E.
    rewrite append_nil_l, append_cons in E. simpl in E. rewrite length_append in E. lia.
  - rewrite !append_cons in E. injection E as -> E. f_equal. apply IH. exact E.
Qed.

Lemma spawn_logs_app evs1 evs2 : spawn_logs (evs1 ++ evs2) = spawn_logs evs1 ++ spawn_logs evs2.
Proof. apply flat_map_app. Qed.

Lemma spawn_logs_flat_map {A} (f : A -> list event) xs :
  spawn_logs (flat_map f xs) = flat_map (fun x => spawn_logs (f x)) xs.
Proof.
  induction xs as [|x xs IH]; simpl; [reflexivity|].
  rewrite spawn_logs_app, IH. reflexivity.
Qed.

Lemma NoDup_prefix {A} (l1 l2 : list A) : l1 `prefix_of` l2 -> NoDup l2 -> NoDup l1.
Proof. intros [k ->] H. apply NoDup_app in H as [H _]. exact H. Qed.

Lemma spawn_logs_prefix evs1 evs2 :
  evs1 `prefix_of` evs2 -> spawn_logs evs1 `prefix_of` spawn_logs evs2.
Proof. intros [k ->]. rewrite spawn_logs_app. apply prefix_app_r. reflexivity. Qed.

(** The logs of runs with distinct one-component names are distinct. *)
Lemma NoDup_log_keys c log_dir (names : list (option string)) :
  plain_names names = true -> NoDup names ->
  NoDup (flat_map (fun o => match o with
                            | Some n => [resolve_in c (joinpath log_dir (n +:+ ".log"))]
                            | None => []
                            end) names).
Proof.
  induction names as [|o names IH]; intros Hp Hnd; simpl; [constructor|].
  simpl in Hp. apply andb_true_iff in Hp as [Ho Hp].
  apply NoDup_cons in Hnd as [Hnotin Hnd]. specialize (IH Hp Hnd).
  destruct o as [n|]; simpl; [|exact IH].
  apply NoDup_cons. split; [|exact IH].
  intros Hin. apply Hnotin.
  apply list_elem_of_In, in_flat_map in Hin as ([n'|] & Hn' & Hk); simpl in Hk;
    [|contradiction].
  destruct Hk as [Hk|[]].
  assert (plain_name n' = true) as Hpn'.
  { unfold plain_names in Hp. rewrite forallb_forall in Hp. apply (Hp (Some n') Hn'). }
  rewrite (log_key_plain _ _ _ Ho), (log_key_plain _ _ _ Hpn') in Hk.
  apply app_inv_head in Hk. injection Hk as Hk. apply append_inj_r in Hk.
  subst n'. apply list_elem_of_In. exact Hn'.
Qed.

Lemma flat_map_map {A B C} (f : A -> B) (g : B -> list C) xs :
  flat_map g (List.map f xs) = flat_map (fun x => g (f x)) xs.
Proof. induction xs as [|x xs IH]; simpl; [reflexivity|]. rewrite IH. reflexivity. Qed.

Lemma spawn_logs_plain_events c BASE_DIR bin :
  spawn_logs (plain_events c BASE_DIR bin)
  = match plain_run_name bin with
    | Some n => [resolve_in c (joinpath (ScanMll.LOG_DIR BASE_DIR) (n +:+ ".log"))]
    | None => []
    end.
Proof. unfold plain_events. destruct (plain_run_name bin); reflexivity. Qed.

Lemma spawn_logs_cxx_events c BASE_DIR run :
  spawn_logs (cxx_events c BASE_DIR run)
  = match cxx_run_name run with
    | Some n => [resolve_in c (joinpath (ScanMllCxx.LOG_DIR BASE_DIR) (n +:+ ".log"))]
    | None => []
    end.
Proof. unfold cxx_events. destruct (cxx_run_name run); reflexivity. Qed.

Lemma spawn_logs_plain_ideal c BASE_DIR k bins :
  spawn_logs (EvWrite k :: flat_map (plain_events c BASE_DIR) bins)
  = flat_map (fun o => match o with
                       | Some n => [resolve_in c
                                      (joinpath (ScanMll.LOG_DIR BASE_DIR) (n +:+ ".log"))]
                       | None => []
                       end) (List.map plain_run_name bins).
Proof.
  change (EvWrite k :: ?l) with ([EvWrite k] ++ l).
  rewrite spawn_logs_app, spawn_logs_flat_map, flat_map_map.
  change (spawn_logs [EvWrite k]) with (@nil (list string)). rewrite app_nil_l.
  apply flat_map_ext. intros bin. apply spawn_logs_plain_events.
Qed.

Lemma spawn_logs_cxx_ideal c BASE_DIR k runs :
  spawn_logs (EvWrite k :: flat_map (cxx_events c BASE_DIR) runs)
  = flat_map (fun o => match o with
                       | Some n => [resolve_in c
                                      (joinpath (ScanMllCxx.LOG_DIR BASE_DIR) (n +:+ ".log"))]
                       | None => []
                       end) (List.map cxx_run_name runs).
Proof.
  change (EvWrite k :: ?l) with ([EvWrite k] ++ l).
  rewrite spawn_logs_app, spawn_logs_flat_map, flat_map_map.
  change (spawn_logs [EvWrite k]) with (@nil (list string)). rewrite app_nil_l.
  apply flat_map_ext. intros run. apply spawn_logs_cxx_events.
Qed.

Lemma plain_names_NoDup : NoDup (List.map plain_run_name ScanMll.MASS_BINS).
Proof. apply (bool_decide_eq_true_1 _). vm_compute. reflexivity. Qed.

Lemma cxx_names_NoDup :
  NoDup (List.map cxx_run_name (list_prod ScanMllCxx.MASS_BINS ScanMllCxx.CXX_VALUES)).
Proof. apply (bool_decide_eq_true_1 _). vm_compute. reflexivity. Qed.

Lemma plain_names_plain : plain_names (List.map plain_run_name ScanMll.MASS_BINS) = true.
Proof. vm_compute. reflexivity. Qed.

Lemma cxx_names_plain :
  plain_names (List.map cxx_run_name
                 (list_prod ScanMllCxx.MASS_BINS ScanMllCxx.CXX_VALUES)) = true.
Proof. vm_compute. reflexivity. Qed.

(** C9: over the configured lists the run names are pairwise distinct, in
    the plain script and in the cxx script, and so are the log files: the
    processes that [main] starts each log to a file of their own. *)
Theorem run_names_unique BASE_DIR execute CXX_LABEL w :
  (forall b1 b2, b1 ∈ ScanMll.MASS_BINS -> b2 ∈ ScanMll.MASS_BINS ->
     plain_run_name b1 = plain_run_name b2 -> b1 = b2)
  /\ (forall r1 r2,
        r1 ∈ list_prod ScanMllCxx.MASS_BINS ScanMllCxx.CXX_VALUES ->
        r2 ∈ list_prod ScanMllCxx.MASS_BINS ScanMllCxx.CXX_VALUES ->
        cxx_run_name r1 = cxx_run_name r2 -> r1 = r2)
  /\ (exists evs,
        trace (snd (ScanMll.main BASE_DIR execute w)) = trace w ++ evs
        /\ NoDup (spawn_logs evs))
  /\ (exists evs,
        trace (snd (ScanMllCxx.main BASE_DIR execute CXX_LABEL w)) = trace w ++ evs
        /\ NoDup (spawn_logs evs)).
Proof.
  split; [|split; [|split]].
  - intros b1 b2. apply NoDup_map_inj_on. exact plain_names_NoDup.
  - intros r1 r2. apply NoDup_map_inj_on. exact cxx_names_NoDup.
  - destruct (traced_plain_main BASE_DIR execute (cwd w) w eq_refl)
      as (_ & _ & evs & Ht & Hp & _).
    exists evs. split; [exact Ht|].
    eapply NoDup_prefix; [apply spawn_logs_prefix; exact Hp|].
    rewrite spawn_logs_plain_ideal.
    apply NoDup_log_keys; [exact plain_names_plain|exact plain_names_NoDup].
  - destruct (traced_cxx_main BASE_DIR execute CXX_LABEL (cwd w) w eq_refl)
      as (_ & _ & evs & Ht & Hp & _).
    exists evs. split; [exact Ht|].
    eapply NoDup_prefix; [apply spawn_logs_prefix; exact Hp|].
    rewrite spawn_logs_cxx_ideal.
    apply NoDup_log_keys; [exact cxx_names_plain|exact cxx_names_NoDup].
Qed.

(** ** The two scripts side by side *)

(** C8, as stated, fails.  Run from another directory than the script's, the
    plain [update_run_card] looks for the template under the working
    directory and does not find it, while the cxx one finds it under the
    script's directory; and even in the script's directory the two
    [run_madgraph] start different command lines. *)
Lemma scripts_resolve_paths_differently :
  fst (ScanMll.update_run_card (float_of_int 15) (float_of_int 20)
         Examples.world_elsewhere)
    = Raise (FileNotFoundError "Cards/run_card_template.dat")
  /\ fst (ScanMllCxx.update_run_card Examples.proc_dir (float_of_int 15) (float_of_int 20)
            Examples.world_elsewhere)
    = Ok tt
  /\ trace (snd (ScanMll.run_madgraph Examples.proc_dir Examples.generator_ok "mll_15_20"
                   Examples.world_home))
    = [EvWrite Examples.log_key;
       EvSpawn ["bin/generate_events"; "mll_15_20"; "-f"]
         Examples.log_key Examples.log_key]
  /\ trace (snd (ScanMllCxx.run_madgraph Examples.proc_dir Examples.generator_ok
                   "mll_15_20" Examples.world_home))
    = [EvWrite Examples.log_key;
       EvSpawn ["/home/user/proc/bin/generate_events"; "mll_15_20"; "-f"]
         Examples.log_key Examples.log_key].
Proof. repeat split; vm_compute; reflexivity. Qed.

Lemma update_run_card_same BASE_DIR mmin mmax w :
  resolve_in (cwd w) BASE_DIR = cwd w ->
  snd (ScanMllCxx.update_run_card BASE_DIR mmin mmax w)
    = snd (ScanMll.update_run_card mmin mmax w)
  /\ blur (fst (ScanMllCxx.update_run_card BASE_DIR mmin mmax w))
     = blur (fst (ScanMll.update_run_card mmin mmax w)).
Proof.
  intros Hb.
  assert (forall name, path_of name = {| absolute := false; parts := [name] |} ->
          resolve w (joinpath (ScanMllCxx.CARDS_DIR BASE_DIR) name)
          = resolve w (joinpath ScanMll.CARDS_DIR name)) as Hkey.
  { intros name Hn. rewrite !resolve_resolve_in.
    rewrite (cxx_card_key BASE_DIR (cwd w) name Hn), Hb.
    rewrite (resolve_in_joinpath _ _ _ _ Hn). reflexivity. }
  unfold ScanMllCxx.update_run_card, ScanMll.update_run_card, bind, read_text.
  unfold ScanMllCxx.TEMPLATE_CARD, ScanMll.TEMPLATE_CARD.
  rewrite (Hkey "run_card_template.dat" eq_refl).
  destruct (files w !! _) as [text|]; [|split; reflexivity].
  cbv zeta. unfold ScanMllCxx.PARAM_MIN, ScanMllCxx.PARAM_MAX.
  destruct (subn _ _ text) as [text1 nmin].
  destruct (subn _ _ text1) as [text2 nmax].
  destruct ((nmin =? 0)%nat || (nmax =? 0)%nat); [split; reflexivity|].
  unfold write_text, print, ScanMllCxx.RUN_CARD, ScanMll.RUN_CARD. cbv beta.
  change (resolve (log_event ?ev ?w0) ?p) with (resolve w0 p).
  rewrite (Hkey "run_card.dat" eq_refl). split; reflexivity.
Qed.

Lemma run_madgraph_same BASE_DIR execute run_name w :
  path_blind execute ->
  files (snd (ScanMllCxx.run_madgraph BASE_DIR execute run_name w))
    = files (snd (ScanMll.run_madgraph BASE_DIR execute run_name w))
  /\ blur (fst (ScanMllCxx.run_madgraph BASE_DIR execute run_name w))
     = blur (fst (ScanMll.run_madgraph BASE_DIR execute run_name w)).
Proof.
  intros Hblind.
  unfold ScanMllCxx.run_madgraph, ScanMll.run_madgraph, bind, print, open_w, write_text,
    subprocess_run, ret. cbv beta zeta.
  match goal with
  | |- context [execute ?w1 (path_str (ScanMllCxx.GENERATE_EVENTS BASE_DIR) :: ?args)] =>
      match goal with
      | |- context [execute ?w2 (path_str ScanMll.GENERATE_EVENTS :: args)] =>
          rewrite (Hblind w1 w2 (path_str (ScanMllCxx.GENERATE_EVENTS BASE_DIR))
                     (path_str ScanMll.GENERATE_EVENTS) args eq_refl eq_refl)
      end
  end.
  destruct (execute _ _) as [r|]; [|split; reflexivity].
  destruct (returncode r =? 0)%Z; split; reflexivity.
Qed.

(** C8 (amended): [parse_cross_section] is the same function in both
    scripts, and so is the path of the log of a run.  The two
    [run_madgraph] pass the same arguments after the program path, which
    they spell differently; with a generator that does not look at that
    spelling they leave the same files and end alike.  The two
    [update_run_card] agree, in the world they leave and in how they end,
    when the script's directory is the working directory. *)
Theorem scripts_agree BASE_DIR execute :
  (forall p w, ScanMllCxx.parse_cross_section p w = ScanMll.parse_cross_section p w)
  /\ (forall run_name,
        joinpath (ScanMllCxx.LOG_DIR BASE_DIR) (run_name +:+ ".log")
        = joinpath (ScanMll.LOG_DIR BASE_DIR) (run_name +:+ ".log"))
  /\ (forall run_name w,
        path_blind execute ->
        files (snd (ScanMllCxx.run_madgraph BASE_DIR execute run_name w))
          = files (snd (ScanMll.run_madgraph BASE_DIR execute run_name w))
        /\ blur (fst (ScanMllCxx.run_madgraph BASE_DIR execute run_name w))
           = blur (fst (ScanMll.run_madgraph BASE_DIR execute run_name w)))
  /\ (forall mmin mmax w,
        resolve_in (cwd w) BASE_DIR = cwd w ->
        snd (ScanMllCxx.update_run_card BASE_DIR mmin mmax w)
          = snd (ScanMll.update_run_card mmin mmax w)
        /\ blur (fst (ScanMllCxx.update_run_card BASE_DIR mmin mmax w))
           = blur (fst (ScanMll.update_run_card mmin mmax w))).
Proof.
  split; [exact parse_cross_section_same|].
  split; [reflexivity|].
  split.
  - intros run_name w. apply run_madgraph_same.
  - intros mmin mmax w. apply update_run_card_same.
Qed.

(** ** The matcher on the key pattern *)

Lemma space_not_word c : isspace c = true -> isword c = false.
Proof. destruct c as [[] [] [] [] [] [] [] []]; vm_compute; congruence. Qed.

Lemma space_not_num c : isspace c = true -> numch c = false.
Proof. destruct c as [[] [] [] [] [] [] [] []]; vm_compute; congruence. Qed.

Lemma nl_space : isspace nl = true.
Proof. reflexivity. Qed.

Lemma eqb_nl_space c : is_nl c = true -> isspace c = true.
Proof. unfold is_nl. intros H. apply Ascii.eqb_eq in H. subst c. reflexivity. Qed.

Lemma length_takewhile_dropwhile p s :
  (String.length (takewhile p s) + String.length (dropwhile p s))%nat = String.length s.
Proof.
  induction s as [|c t IH]; simpl; [reflexivity|].
  destruct (p c); simpl; lia.
Qed.

Lemma takewhile_dropwhile p s : takewhile p s +:+ dropwhile p s = s.
Proof.
  induction s as [|c t IH]; simpl; [reflexivity|].
  destruct (p c); [|reflexivity]. rewrite append_cons, IH. reflexivity.
Qed.

(** A greedy repetition whose continuation cannot start with a character
    of the class takes the longest run, and nothing else. *)
Lemma star_greedy p k :
  (forall prev pos c t, p c = true -> k prev pos (String c t) = None) ->
  forall s prev pos,
    star p k prev pos s
    = k (last_char prev (takewhile p s)) (pos + String.length (takewhile p s))%nat
        (dropwhile p s).
Proof.
  intros Hk. induction s as [|c t IH]; intros prev pos; simpl.
  - rewrite Nat.add_0_r. reflexivity.
  - destruct (p c) eqn:Hc; simpl.
    + rewrite IH. replace (S pos + String.length (takewhile p t))%nat
        with (pos + S (String.length (takewhile p t)))%nat by lia.
      destruct (k _ _ _) eqn:E; [reflexivity|].
      apply Hk. exact Hc.
    + rewrite Nat.add_0_r. reflexivity.
Qed.

Section KeyMatcher.
Variable name : string.
Hypothesis Hname : key_name name.

Lemma name_head : exists n rest, name = String n rest /\ isword n = true.
Proof.
  destruct Hname as [Hne Hall]. destruct name as [|n rest]; [contradiction|].
  simpl in Hall. apply andb_true_iff in Hall as [Hn _]. eauto.
Qed.

Lemma last_char_word prev s :
  s <> EmptyString -> all isword s = true -> word_before (last_char prev s) = true.
Proof.
  revert prev. induction s as [|c t IH]; intros prev Hne Hall; [contradiction|].
  simpl in Hall. apply andb_true_iff in Hall as [Hc Ht]. simpl.
  destruct t as [|d u]; [simpl; exact Hc|]. apply IH; [discriminate|exact Ht].
Qed.

Lemma startswith_space c t : isspace c = true -> startswith name (String c t) = false.
Proof.
  intros Hc. destruct name_head as (n & rest & -> & Hn). simpl.
  destruct (Ascii.eqb n c) eqn:E; [|reflexivity].
  apply Ascii.eqb_eq in E. subst c. apply space_not_word in Hc. congruence.
Qed.

Lemma run_name prev pos marks s :
  run [Lit name; WordB; GClose] prev pos marks s
  = if ok_name name s
    then Some (List.rev ((pos + String.length name)%nat :: marks),
               (pos + String.length name)%nat)
    else None.
Proof.
  unfold ok_name. simpl. destruct (startswith name s); [|reflexivity]. simpl.
  unfold at_wordb. destruct Hname as [Hne Hall].
  rewrite (last_char_word prev name Hne Hall). simpl.
  destruct (word_after _); reflexivity.
Qed.

Lemma run_ws2 prev pos marks s :
  run [Star isspace; Lit name; WordB; GClose] prev pos marks s
  = if ok_ws2 name s
    then Some (List.rev ((pos + String.length (takewhile isspace s)
                          + String.length name)%nat :: marks),
               (pos + String.length (takewhile isspace s) + String.length name)%nat)
    else None.
Proof.
  change (run [Star isspace; Lit name; WordB; GClose] prev pos marks s)
    with (star isspace (fun prev' pos' s' => run [Lit name; WordB; GClose] prev' pos' marks s')
            prev pos s).
  rewrite star_greedy.
  - rewrite run_name. reflexivity.
  - intros prev' pos' c t Hc. rewrite run_name. unfold ok_name.
    rewrite (startswith_space c t Hc). reflexivity.
Qed.

Lemma run_eq prev pos marks s :
  run [Lit "="; Star isspace; Lit name; WordB; GClose] prev pos marks s
  = if ok_eq name s
    then Some (List.rev ((pos + 1 + String.length (takewhile isspace (drop 1 s))
                          + String.length name)%nat :: marks),
               (pos + 1 + String.length (takewhile isspace (drop 1 s))
                + String.length name)%nat)
    else None.
Proof.
  destruct s as [|c t]; [reflexivity|].
  change (run [Lit "="; Star isspace; Lit name; WordB; GClose] prev pos marks (String c t))
    with (if Ascii.eqb "=" c && true
          then run [Star isspace; Lit name; WordB; GClose] (Some "="%char) (pos + 1)
                 marks t
          else None).
  unfold ok_eq. rewrite (Ascii.eqb_sym "="%char c), andb_true_r.
  destruct (Ascii.eqb c "="); [|reflexivity]. simpl andb.
  rewrite run_ws2. reflexivity.
Qed.

Lemma run_ws1 prev pos marks s :
  run [Star isspace; Lit "="; Star isspace; Lit name; WordB; GClose] prev pos marks s
  = if ok_ws1 name s
    then Some (List.rev ((pos + String.length (takewhile isspace s) + 1
                          + String.length (takewhile isspace (drop 1 (dropwhile isspace s)))
                          + String.length name)%nat :: marks),
               (pos + String.length (takewhile isspace s) + 1
                + String.length (takewhile isspace (drop 1 (dropwhile isspace s)))
                + String.length name)%nat)
    else None.
Proof.
  change (run [Star isspace; Lit "="; Star isspace; Lit name; WordB; GClose] prev pos marks s)
    with (star isspace
            (fun prev' pos' s' =>
               run [Lit "="; Star isspace; Lit name; WordB; GClose] prev' pos' marks s')
            prev pos s).
  rewrite star_greedy.
  - rewrite run_eq. reflexivity.
  - intros prev' pos' c t Hc. rewrite run_eq. unfold ok_eq.
    destruct (Ascii.eqb c "=") eqn:E; [|reflexivity].
    apply Ascii.eqb_eq in E. subst c. discriminate.
Qed.

Lemma found_ext (a a' b b' : nat) : a = a' -> b = b' -> ([a; b], b) = ([a'; b'], b').
Proof. intros -> ->. reflexivity. Qed.

Lemma run_numrun prev pos s :
  star numch
    (fun prev' pos' s' =>
       run [GOpen; Star isspace; Lit "="; Star isspace; Lit name; WordB; GClose]
         prev' pos' [] s') prev pos s
  = if ok_numrun name s then Some (after_num name pos s) else None.
Proof.
  rewrite star_greedy.
  - change (run (GOpen :: ?ps) ?pr ?po [] ?s0) with (run ps pr po [po] s0).
    rewrite run_ws1. reflexivity.
  - intros prev' pos' c t Hc.
    change (run (GOpen :: ?ps) ?pr ?po [] ?s0) with (run ps pr po [po] s0).
    rewrite run_ws1. unfold ok_ws1.
    assert (isspace c = false) as Hs.
    { destruct (isspace c) eqn:E; [|reflexivity]. apply space_not_num in E. congruence. }
    simpl. rewrite Hs. simpl.
    destruct (Ascii.eqb c "=") eqn:E; [|reflexivity].
    apply Ascii.eqb_eq in E. subst c. discriminate.
Qed.

Lemma run_plus prev pos s :
  run [Plus numch; GOpen; Star isspace; Lit "="; Star isspace; Lit name; WordB; GClose]
    prev pos [] s
  = if ok_num name s then Some (after_num name pos s) else None.
Proof.
  destruct s as [|c t]; [reflexivity|].
  change (run (Plus numch :: ?ps) prev pos [] (String c t))
    with (if numch c
          then star numch (fun prev' pos' s' => run ps prev' pos' [] s') (Some c) (S pos) t
          else None).
  unfold ok_num. destruct (numch c) eqn:Hc; [|reflexivity]. simpl andb.
  rewrite run_numrun. unfold ok_numrun.
  destruct (ok_ws1 name (dropwhile numch t)); [|reflexivity]. f_equal.
  unfold after_num. cbn [takewhile dropwhile]. rewrite Hc. cbn [String.length].
  apply found_ext; lia.
Qed.

Lemma sign_num c : signch c = true -> numch c = true.
Proof. destruct c as [[] [] [] [] [] [] [] []]; vm_compute; congruence. Qed.

Lemma run_opt prev pos s :
  run [Opt signch; Plus numch; GOpen; Star isspace; Lit "="; Star isspace; Lit name;
       WordB; GClose] prev pos [] s
  = if ok_num name s then Some (after_num name pos s) else None.
Proof.
  destruct s as [|c t]; [reflexivity|].
  change (run (Opt signch :: ?ps) prev pos [] (String c t))
    with (if signch c
          then match run ps (Some c) (S pos) [] t with
               | Some r => Some r
               | None => run ps prev pos [] (String c t)
               end
          else run ps prev pos [] (String c t)).
  rewrite !run_plus.
  destruct (signch c) eqn:Hs; [|reflexivity].
  destruct (ok_num name t) eqn:Ht; [|reflexivity].
  (* the sign and the digits after it are one numeric field *)
  destruct t as [|d u]; [discriminate|].
  unfold ok_num in *. apply andb_true_iff in Ht as [Hd Hrun].
  rewrite (sign_num c Hs). simpl andb.
  assert (ok_numrun name (String d u) = ok_numrun name u) as E.
  { unfold ok_numrun. simpl. rewrite Hd. reflexivity. }
  rewrite E, Hrun. f_equal. unfold after_num. cbn [takewhile dropwhile].
  rewrite (sign_num c Hs), Hd. cbn [String.length].
  apply found_ext; lia.
Qed.

(** The backtracking matcher and the deterministic scan agree on the key
    pattern. *)
Lemma match_at_key prev s :
  match_at (key_pattern name) prev s
  = if key_ok name prev s
    then Some ([key_field s; key_end name s], key_end name s)
    else None.
Proof.
  unfold match_at, key_pattern, key_ok.
  change (run (Bol :: ?ps) prev 0 [] s)
    with (if at_bol prev then run ps prev 0 [] s else None).
  destruct (at_bol prev); [|reflexivity]. simpl andb.
  change (run (Star isspace :: ?ps) prev 0 [] s)
    with (star isspace (fun prev' pos' s' => run ps prev' pos' [] s') prev 0 s).
  rewrite star_greedy.
  - rewrite run_opt. reflexivity.
  - intros prev' pos' c t Hc. rewrite run_opt. unfold ok_num.
    rewrite (space_not_num c Hc). reflexivity.
Qed.

End KeyMatcher.

(** ** Substitution with the key pattern *)

Lemma take_drop n s : take n s +:+ drop n s = s.
Proof.
  revert s. induction n as [|n IH]; intros [|c t]; simpl; try reflexivity.
  rewrite append_cons, IH. reflexivity.
Qed.

Lemma drop_drop n m s : drop n (drop m s) = drop (m + n) s.
Proof.
  revert s. induction m as [|m IH]; intros s; simpl; [reflexivity|].
  destruct s as [|c t]; [destruct n; reflexivity|]. apply IH.
Qed.

Lemma drop_app_length s t : drop (String.length s) (s +:+ t) = t.
Proof. induction s as [|c s IH]; [reflexivity|]. rewrite append_cons. exact IH. Qed.

Lemma drop_length_takewhile p s : drop (String.length (takewhile p s)) s = dropwhile p s.
Proof.
  induction s as [|c t IH]; simpl; [reflexivity|].
  destruct (p c); simpl; [exact IH|reflexivity].
Qed.

Lemma drop_key_field s : drop (key_field s) s = dropwhile numch (dropwhile isspace s).
Proof.
  unfold key_field. rewrite <- drop_drop, !drop_length_takewhile. reflexivity.
Qed.

Lemma startswith_length pre s :
  startswith pre s = true -> (String.length pre <= String.length s)%nat.
Proof.
  revert s. induction pre as [|a pre IH]; intros [|b s] H; simpl in *;
    try lia; try discriminate.
  apply andb_true_iff in H as [_ H]. specialize (IH s H). lia.
Qed.

Lemma startswith_app pre s :
  startswith pre s = true -> s = pre +:+ drop (String.length pre) s.
Proof.
  revert s. induction pre as [|a pre IH]; intros [|b s] H; simpl in *;
    try reflexivity; try discriminate.
  apply andb_true_iff in H as [E H]. apply Ascii.eqb_eq in E. subst b.
  rewrite append_cons. f_equal. apply IH. exact H.
Qed.

(** The shape of a text at whose start the key pattern matches. *)
Lemma ok_ws0_shape name s :
  ok_ws0 name s = true ->
  exists s4,
    dropwhile isspace (dropwhile numch (dropwhile isspace s)) = String "=" s4
    /\ dropwhile numch (dropwhile isspace s) <> dropwhile isspace s
    /\ startswith name (dropwhile isspace s4) = true
    /\ word_after (drop (String.length name) (dropwhile isspace s4)) = false.
Proof.
  unfold ok_ws0, ok_num. destruct (dropwhile isspace s) as [|c t] eqn:E1; [discriminate|].
  intros H. apply andb_true_iff in H as [Hc H].
  unfold ok_numrun, ok_ws1, ok_eq in H. simpl. rewrite Hc.
  destruct (dropwhile isspace (dropwhile numch t)) as [|d s4] eqn:E3; [discriminate|].
  apply andb_true_iff in H as [Hd H]. apply Ascii.eqb_eq in Hd. subst d.
  unfold ok_ws2, ok_name in H. apply andb_true_iff in H as [Hn Hb].
  apply negb_true_iff in Hb.
  exists s4. split; [reflexivity|]. split; [|auto].
  intros E. apply (f_equal String.length) in E. simpl in E.
  pose proof (length_takewhile_dropwhile numch t). lia.
Qed.

Lemma key_end_split name s :
  ok_ws0 name s = true ->
  (key_field s <= key_end name s)%nat
  /\ drop (key_end name s) s
     = drop (String.length name)
         (dropwhile isspace (drop 1 (dropwhile isspace
                                       (dropwhile numch (dropwhile isspace s)))))
  /\ (key_end name s <= String.length s)%nat
  /\ (1 <= key_end name s)%nat.
Proof.
  intros H. destruct (ok_ws0_shape name s H) as (s4 & E3 & _ & Hn & _).
  unfold key_end. split; [lia|]. split; [|split; [|lia]].
  - rewrite E3. simpl drop.
    rewrite <- !drop_drop, drop_key_field, drop_length_takewhile, E3. simpl drop.
    rewrite drop_length_takewhile. reflexivity.
  - rewrite E3. simpl drop. unfold key_field.
    pose proof (length_takewhile_dropwhile isspace s).
    pose proof (length_takewhile_dropwhile numch (dropwhile isspace s)).
    pose proof (length_takewhile_dropwhile isspace (dropwhile numch (dropwhile isspace s))).
    pose proof (length_takewhile_dropwhile isspace s4).
    pose proof (startswith_length _ _ Hn).
    rewrite E3 in *. simpl in *. lia.
Qed.

Section KeySub.
Variable name : string.
Hypothesis Hname : key_name name.
Variable value : string.

Local Abbreviation sub := (sub name value).

Lemma sub_nil prev skip : sub prev skip "" = ("", 0%nat).
Proof.
  unfold sub. simpl. rewrite (match_at_key name Hname).
  unfold key_ok. rewrite andb_false_r. destruct skip; reflexivity.
Qed.

Lemma sub_skip c t prev n : sub prev (S n) (String c t) = sub (Some c) n t.
Proof. reflexivity. Qed.

Lemma sub_copy c t prev :
  key_ok name prev (String c t) = false ->
  sub prev 0 (String c t) = (String c (fst (sub (Some c) 0 t)), snd (sub (Some c) 0 t)).
Proof.
  intros H. unfold sub. simpl. rewrite (match_at_key name Hname), H.
  destruct (subn_go _ _ _ _ t); reflexivity.
Qed.

Lemma sub_skip_all prev n s :
  (n <= String.length s)%nat ->
  sub prev n s = sub (last_char prev (take n s)) 0 (drop n s).
Proof.
  revert prev s. induction n as [|n IH]; intros prev s Hn.
  - destruct s; reflexivity.
  - destruct s as [|c t]; simpl in Hn; [lia|].
    rewrite sub_skip. simpl. apply IH. lia.
Qed.

(** One match: its blanks and its numeric field are replaced, the text from
    the separator to the end of the name is kept, and the search resumes
    after the name. *)
Lemma sub_match prev s :
  key_ok name prev s = true ->
  sub prev 0 s
  = (" " +:+ value
     +:+ take (key_end name s - key_field s) (dropwhile numch (dropwhile isspace s))
     +:+ fst (sub (last_char prev (take (key_end name s) s)) 0 (drop (key_end name s) s)),
     S (snd (sub (last_char prev (take (key_end name s) s)) 0 (drop (key_end name s) s)))).
Proof.
  intros H. pose proof H as H'. unfold key_ok in H'. apply andb_true_iff in H' as [_ H0].
  destruct (key_end_split name s H0) as (Hle & _ & Hlen & Hpos).
  destruct s as [|c t]; [simpl in Hlen; lia|].
  unfold sub at 1. simpl subn_go. rewrite (match_at_key name Hname), H.
  destruct (key_end name (String c t)) as [|n] eqn:E; [lia|].
  change (subn_go (key_pattern name) (key_repl value) (Some c) n t)
    with (sub prev (S n) (String c t)).
  rewrite sub_skip_all by exact Hlen.
  destruct (sub _ 0 _) as [out cnt]. simpl fst; simpl snd.
  unfold key_repl, group. simpl nth. rewrite drop_key_field, !append_assoc.
  reflexivity.
Qed.

End KeySub.

(** ** Runs of a class at the head of a text *)

Lemma all_app p x y : all p (x +:+ y) = all p x && all p y.
Proof.
  induction x as [|c x IH]; [reflexivity|]. rewrite append_cons. simpl.
  rewrite IH, andb_assoc. reflexivity.
Qed.

Lemma all_takewhile p s : all p (takewhile p s) = true.
Proof.
  induction s as [|c t IH]; simpl; [reflexivity|].
  destruct (p c) eqn:E; simpl; [rewrite E, IH|]; reflexivity.
Qed.

Lemma dropwhile_stops p s : stops p (dropwhile p s).
Proof.
  induction s as [|c t IH]; simpl; [exact I|].
  destruct (p c) eqn:E; [exact IH|exact E].
Qed.

Lemma takewhile_run p x y : all p x = true -> stops p y -> takewhile p (x +:+ y) = x.
Proof.
  intros Hx Hy. induction x as [|c x IH].
  - destruct y as [|d y]; [reflexivity|]. simpl in *. rewrite Hy. reflexivity.
  - rewrite append_cons. simpl in *. apply andb_true_iff in Hx as [Hc Hx].
    rewrite Hc, (IH Hx). reflexivity.
Qed.

Lemma dropwhile_run p x y : all p x = true -> stops p y -> dropwhile p (x +:+ y) = y.
Proof.
  intros Hx Hy. induction x as [|c x IH].
  - destruct y as [|d y]; [reflexivity|]. simpl in *. rewrite Hy. reflexivity.
  - rewrite append_cons. simpl in *. apply andb_true_iff in Hx as [Hc Hx].
    rewrite Hc. exact (IH Hx).
Qed.

Lemma dropwhile_app p l r :
  dropwhile p l <> "" -> dropwhile p (l +:+ r) = dropwhile p l +:+ r.
Proof.
  induction l as [|c l IH]; intros H; [contradiction|].
  rewrite append_cons. simpl in *. destruct (p c); [apply IH; exact H|reflexivity].
Qed.

Lemma stops_app p x y : x <> "" -> stops p x -> stops p (x +:+ y).
Proof. destruct x; [contradiction|]. intros _ H. exact H. Qed.

Lemma num_not_space c : numch c = true -> isspace c = false.
Proof.
  intros H. destruct (isspace c) eqn:E; [|reflexivity].
  apply space_not_num in E. congruence.
Qed.

Lemma word_not_space c : isword c = true -> isspace c = false.
Proof.
  intros H. destruct (isspace c) eqn:E; [|reflexivity].
  apply space_not_word in E. congruence.
Qed.

Lemma last_char_app prev x y : last_char prev (x +:+ y) = last_char (last_char prev x) y.
Proof.
  revert prev. induction x as [|c x IH]; intros prev; [reflexivity|].
  rewrite append_cons. simpl. apply IH.
Qed.

Lemma take_app_length s t : take (String.length s) (s +:+ t) = s.
Proof.
  induction s as [|c s IH]; [destruct t; reflexivity|].
  rewrite append_cons. simpl. rewrite IH. reflexivity.
Qed.

Lemma startswith_self pre s : startswith pre (pre +:+ s) = true.
Proof.
  induction pre as [|c pre IH]; [reflexivity|]. rewrite append_cons. simpl.
  rewrite Ascii.eqb_refl. exact IH.
Qed.

(** ** The texts the key pattern matches *)

Section KeyShape.
Variable name : string.
Hypothesis Hname : key_name name.

Lemma stops_name_space tail : stops isspace (name +:+ tail).
Proof.
  destruct (name_head name Hname) as (n & rest & -> & Hn).
  rewrite append_cons. simpl. apply word_not_space. exact Hn.
Qed.

Lemma stops_eq_space s : stops isspace ("=" +:+ s).
Proof. reflexivity. Qed.

Lemma stops_sep_num ws1 s : all isspace ws1 = true -> stops numch (ws1 +:+ "=" +:+ s).
Proof.
  intros H. destruct ws1 as [|c ws1]; [reflexivity|].
  rewrite append_cons. simpl in *. apply andb_true_iff in H as [Hc _].
  apply space_not_num. exact Hc.
Qed.

Lemma stops_num_space num s : all numch num = true -> num <> "" -> stops isspace (num +:+ s).
Proof.
  intros H Hne. destruct num as [|c num]; [contradiction|].
  rewrite append_cons. simpl in *. apply andb_true_iff in H as [Hc _].
  apply num_not_space. exact Hc.
Qed.

(** The scan on a text of the shape. *)
Lemma key_shape_scan s ws num ws1 ws2 tail :
  key_shape name s ws num ws1 ws2 tail ->
  ok_ws0 name s = true
  /\ dropwhile numch (dropwhile isspace s) = ws1 +:+ "=" +:+ ws2 +:+ name +:+ tail
  /\ key_field s = (String.length ws + String.length num)%nat
  /\ key_end name s
     = (String.length ws + String.length num + String.length ws1 + 1
        + String.length ws2 + String.length name)%nat.
Proof.
  intros (-> & Hws & Hnum & Hne & Hws1 & Hws2 & Htail).
  assert (dropwhile isspace (ws +:+ num +:+ ws1 +:+ "=" +:+ ws2 +:+ name +:+ tail)
          = num +:+ ws1 +:+ "=" +:+ ws2 +:+ name +:+ tail) as E1
    by (apply dropwhile_run; [exact Hws|apply stops_num_space; assumption]).
  assert (takewhile isspace (ws +:+ num +:+ ws1 +:+ "=" +:+ ws2 +:+ name +:+ tail) = ws)
    as T1 by (apply takewhile_run; [exact Hws|apply stops_num_space; assumption]).
  assert (dropwhile numch (num +:+ ws1 +:+ "=" +:+ ws2 +:+ name +:+ tail)
          = ws1 +:+ "=" +:+ ws2 +:+ name +:+ tail) as E2
    by (apply dropwhile_run; [exact Hnum|apply stops_sep_num; assumption]).
  assert (takewhile numch (num +:+ ws1 +:+ "=" +:+ ws2 +:+ name +:+ tail) = num) as T2
    by (apply takewhile_run; [exact Hnum|apply stops_sep_num; assumption]).
  assert (dropwhile isspace (ws1 +:+ "=" +:+ ws2 +:+ name +:+ tail)
          = "=" +:+ ws2 +:+ name +:+ tail) as E3
    by (apply dropwhile_run; [exact Hws1|apply stops_eq_space]).
  assert (takewhile isspace (ws1 +:+ "=" +:+ ws2 +:+ name +:+ tail) = ws1) as T3
    by (apply takewhile_run; [exact Hws1|apply stops_eq_space]).
  assert (dropwhile isspace (ws2 +:+ name +:+ tail) = name +:+ tail) as E4
    by (apply dropwhile_run; [exact Hws2|apply stops_name_space]).
  assert (takewhile isspace (ws2 +:+ name +:+ tail) = ws2) as T4
    by (apply takewhile_run; [exact Hws2|apply stops_name_space]).
  split; [|split; [|split]].
  - unfold ok_ws0. rewrite E1. unfold ok_num.
    destruct num as [|c num']; [contradiction|]. rewrite append_cons.
    pose proof Hnum as Hnum'. simpl in Hnum'. apply andb_true_iff in Hnum' as [Hc Hn'].
    rewrite Hc. simpl andb. unfold ok_numrun.
    rewrite append_cons in E2. simpl in E2. rewrite Hc in E2. rewrite E2.
    unfold ok_ws1. rewrite E3. unfold ok_eq. rewrite append_cons, append_nil_l.
    simpl andb. unfold ok_ws2. rewrite E4. unfold ok_name.
    rewrite startswith_self, drop_app_length, Htail. reflexivity.
  - rewrite E1, E2. reflexivity.
  - unfold key_field. rewrite T1, E1, T2. reflexivity.
  - unfold key_end, key_field. rewrite T1, E1, T2, E2, T3, E3.
    rewrite append_cons, append_nil_l. simpl drop. rewrite T4. reflexivity.
Qed.

(** Every text on which the scan succeeds has the shape. *)
Lemma key_shape_of s :
  ok_ws0 name s = true -> exists ws num ws1 ws2 tail, key_shape name s ws num ws1 ws2 tail.
Proof.
  intros H. destruct (ok_ws0_shape name s H) as (s4 & E3 & Hne & Hn & Hb).
  exists (takewhile isspace s), (takewhile numch (dropwhile isspace s)),
    (takewhile isspace (dropwhile numch (dropwhile isspace s))),
    (takewhile isspace s4), (drop (String.length name) (dropwhile isspace s4)).
  split; [|split; [apply all_takewhile|split; [apply all_takewhile|split;
            [|split; [apply all_takewhile|split; [apply all_takewhile|exact Hb]]]]]].
  - rewrite <- (startswith_app _ _ Hn), takewhile_dropwhile.
    change ("=" +:+ s4) with (String "=" s4). rewrite <- E3.
    rewrite !takewhile_dropwhile. reflexivity.
  - intros E. apply Hne.
    rewrite <- (takewhile_dropwhile numch (dropwhile isspace s)) at 2.
    rewrite E. reflexivity.
Qed.

End KeyShape.

(** ** The substitution, line by line *)



Lemma word_after_app_nl y r : word_after (y +:+ String nl r) = word_after y.
Proof. destruct y; reflexivity. Qed.

Lemma startswith_app_nl name x r :
  all isword name = true -> startswith name (x +:+ String nl r) = startswith name x.
Proof.
  revert x. induction name as [|n name IH]; intros x Hall; [reflexivity|].
  simpl in Hall. apply andb_true_iff in Hall as [Hn Hall].
  destruct x as [|c x].
  - rewrite append_nil_l. simpl.
    destruct (Ascii.eqb n nl) eqn:E; [|reflexivity].
    apply Ascii.eqb_eq in E. subst n. discriminate.
  - rewrite append_cons. simpl. rewrite (IH x Hall). reflexivity.
Qed.

Lemma drop_app_le n x y :
  (n <= String.length x)%nat -> drop n (x +:+ y) = drop n x +:+ y.
Proof.
  revert x. induction n as [|n IH]; intros x H; [reflexivity|].
  destruct x as [|c x]; simpl in H; [lia|].
  rewrite append_cons. simpl. apply IH. lia.
Qed.

Lemma ok_name_app_nl name x r :
  all isword name = true -> ok_name name (x +:+ String nl r) = ok_name name x.
Proof.
  intros Hall. unfold ok_name. rewrite (startswith_app_nl name x r Hall).
  destruct (startswith name x) eqn:E; [|reflexivity]. simpl.
  rewrite drop_app_le by (apply startswith_length; exact E).
  rewrite word_after_app_nl. reflexivity.
Qed.

(** On a line that is not open the scan does not see what follows the
    line. *)
Lemma ok_ws0_local name l r :
  all isword name = true -> open_line l = false ->
  ok_ws0 name (l +:+ String nl r) = ok_ws0 name l.
Proof.
  intros Hall Hopen. unfold open_line in Hopen. unfold ok_ws0.
  destruct (dropwhile isspace l) as [|c t] eqn:E1; [discriminate|].
  rewrite dropwhile_app by (rewrite E1; discriminate). rewrite E1, append_cons.
  unfold ok_num. destruct (numch c); [|reflexivity]. simpl in *.
  unfold ok_numrun.
  destruct (dropwhile numch t) as [|c2 t2] eqn:E2; [discriminate|].
  rewrite dropwhile_app by (rewrite E2; discriminate). rewrite E2.
  unfold ok_ws1.
  destruct (dropwhile isspace (String c2 t2)) as [|d u] eqn:E3; [discriminate|].
  rewrite dropwhile_app by (rewrite E3; discriminate). rewrite E3, append_cons.
  unfold ok_eq. destruct (Ascii.eqb d "="); [|reflexivity]. simpl in *.
  unfold ok_ws2.
  destruct (dropwhile isspace u) as [|c5 t5] eqn:E5; [discriminate|].
  rewrite dropwhile_app by (rewrite E5; discriminate). rewrite E5.
  apply ok_name_app_nl. exact Hall.
Qed.

Lemma open_line_nil : open_line "" = true.
Proof. reflexivity. Qed.

Lemma join_cons sep l ls : ls <> [] -> join sep (l :: ls) = l +:+ sep +:+ join sep ls.
Proof. destruct ls; [contradiction|reflexivity]. Qed.

Section KeyLines.
Variable name : string.
Hypothesis Hname : key_name name.
Variable value : string.

Local Abbreviation sub := (sub name value).
Local Abbreviation after_name := (after_name name).
Local Abbreviation matching := (matching name).

Lemma name_all_word : all isword name = true.
Proof. exact (proj2 Hname). Qed.

Lemma key_ok_not_bol prev s : at_bol prev = false -> key_ok name prev s = false.
Proof. intros H. unfold key_ok. rewrite H. reflexivity. Qed.

Lemma key_ok_bol prev s : at_bol prev = true -> key_ok name prev s = key_ok name None s.
Proof. intros H. unfold key_ok. rewrite H. reflexivity. Qed.

(** Away from the start of a line nothing matches: the text is copied up
    to the end of the line. *)
Lemma sub_through_end u prev :
  at_bol prev = false -> no_nl u = true -> sub prev 0 u = (u, 0%nat).
Proof.
  revert prev. induction u as [|c u IH]; intros prev Hp Hu.
  - apply (sub_nil name Hname).
  - rewrite (sub_copy name Hname) by (apply key_ok_not_bol; exact Hp).
    unfold no_nl in Hu. simpl in Hu. apply andb_true_iff in Hu as [Hc Hu].
    rewrite IH; [reflexivity| |exact Hu]. simpl. apply negb_true_iff. exact Hc.
Qed.

Lemma sub_through u prev r :
  at_bol prev = false -> no_nl u = true ->
  sub prev 0 (u +:+ String nl r)
  = (u +:+ String nl (fst (sub (Some nl) 0 r)), snd (sub (Some nl) 0 r)).
Proof.
  revert prev. induction u as [|c u IH]; intros prev Hp Hu.
  - rewrite append_nil_l.
    rewrite (sub_copy name Hname) by (apply key_ok_not_bol; exact Hp). reflexivity.
  - rewrite append_cons.
    rewrite (sub_copy name Hname) by (apply key_ok_not_bol; exact Hp).
    unfold no_nl in Hu. simpl in Hu. apply andb_true_iff in Hu as [Hc Hu].
    rewrite IH; [reflexivity| |exact Hu]. simpl. apply negb_true_iff. exact Hc.
Qed.

Lemma last_char_indep p q s : s <> "" -> last_char p s = last_char q s.
Proof. destruct s; [contradiction|reflexivity]. Qed.

Lemma at_bol_after_name : at_bol after_name = false.
Proof.
  unfold after_name. destruct Hname as [Hne Hall].
  pose proof (last_char_word None name Hne Hall) as Hw.
  destruct (last_char None name) as [c|]; [|discriminate]. simpl in *.
  destruct (is_nl c) eqn:E; [|reflexivity].
  apply eqb_nl_space, space_not_word in E. congruence.
Qed.

(** The substitution on a text of the shape. *)
Lemma sub_shape prev s ws num ws1 ws2 tail :
  key_shape name s ws num ws1 ws2 tail -> at_bol prev = true ->
  sub prev 0 s
  = (" " +:+ value +:+ ws1 +:+ "=" +:+ ws2 +:+ name +:+ fst (sub after_name 0 tail),
     S (snd (sub after_name 0 tail))).
Proof.
  intros Hshape Hbol.
  destruct (key_shape_scan name Hname s ws num ws1 ws2 tail Hshape)
    as (Hok & Hrest & Hfield & Hend).
  destruct Hshape as (Hs & _).
  assert (s = (ws +:+ num +:+ ws1 +:+ "=" +:+ ws2 +:+ name) +:+ tail) as Hs'
    by (rewrite Hs, !append_assoc; reflexivity).
  assert (String.length (ws +:+ num +:+ ws1 +:+ "=" +:+ ws2 +:+ name) = key_end name s)
    as Hlen by (rewrite Hend, !length_append; simpl; lia).
  assert (last_char prev (ws +:+ num +:+ ws1 +:+ "=" +:+ ws2 +:+ name) = after_name)
    as Hafter.
  { rewrite <- !append_assoc, last_char_app. apply last_char_indep. exact (proj1 Hname). }
  - rewrite (sub_match name Hname value prev s)
      by (unfold key_ok; rewrite Hbol, Hok; reflexivity).
    assert (take (key_end name s) s = ws +:+ num +:+ ws1 +:+ "=" +:+ ws2 +:+ name) as Ht
      by (rewrite <- Hlen, Hs'; apply take_app_length).
    assert (drop (key_end name s) s = tail) as Hd
      by (rewrite <- Hlen, Hs'; apply drop_app_length).
    assert (take (key_end name s - key_field s) (ws1 +:+ "=" +:+ ws2 +:+ name +:+ tail)
            = ws1 +:+ "=" +:+ ws2 +:+ name) as Hk.
    { replace (key_end name s - key_field s)%nat
        with (String.length (ws1 +:+ "=" +:+ ws2 +:+ name))
        by (rewrite Hend, Hfield, !length_append; simpl; lia).
      replace (ws1 +:+ "=" +:+ ws2 +:+ name +:+ tail)
        with ((ws1 +:+ "=" +:+ ws2 +:+ name) +:+ tail)
        by (rewrite !append_assoc; reflexivity).
      apply take_app_length. }
    rewrite Hrest, Ht, Hd, Hk, Hafter, !append_assoc. reflexivity.
Qed.

Lemma no_nl_app x y : no_nl (x +:+ y) = no_nl x && no_nl y.
Proof. apply all_app. Qed.

Lemma shape_tail_no_nl s ws num ws1 ws2 tail :
  key_shape name s ws num ws1 ws2 tail -> no_nl s = true -> no_nl tail = true.
Proof.
  intros (-> & _) H. rewrite !no_nl_app in H.
  repeat (apply andb_true_iff in H as [_ H]). exact H.
Qed.

Lemma edit_key_shape s ws num ws1 ws2 tail :
  key_shape name s ws num ws1 ws2 tail ->
  edit_key name value s = " " +:+ value +:+ ws1 +:+ "=" +:+ ws2 +:+ name +:+ tail.
Proof.
  intros Hshape.
  destruct (key_shape_scan name Hname s ws num ws1 ws2 tail Hshape) as (Hok & Hrest & _).
  unfold edit_key, key_ok. simpl. rewrite Hok, Hrest. reflexivity.
Qed.

(** A line that is not the last one. *)
Lemma sub_line prev l r :
  at_bol prev = true -> no_nl l = true -> open_line l = false ->
  sub prev 0 (l +:+ String nl r)
  = (edit_key name value l +:+ String nl (fst (sub (Some nl) 0 r)),
     ((if key_ok name None l then 1 else 0) + snd (sub (Some nl) 0 r))%nat).
Proof.
  intros Hbol Hl Hopen.
  destruct (key_ok name None l) eqn:Hok.
  - unfold key_ok in Hok. simpl in Hok.
    destruct (key_shape_of name l Hok) as (ws & num & ws1 & ws2 & tail & Hshape).
    assert (key_shape name (l +:+ String nl r) ws num ws1 ws2 (tail +:+ String nl r))
      as Hshape'.
    { destruct Hshape as (-> & H). split; [rewrite !append_assoc; reflexivity|].
      rewrite word_after_app_nl. exact H. }
    rewrite (sub_shape prev _ _ _ _ _ _ Hshape' Hbol).
    rewrite (sub_through tail after_name r at_bol_after_name
               (shape_tail_no_nl _ _ _ _ _ _ Hshape Hl)).
    rewrite (edit_key_shape _ _ _ _ _ _ Hshape). simpl fst; simpl snd.
    rewrite !append_assoc. reflexivity.
  - destruct l as [|c l]; [discriminate|].
    rewrite append_cons.
    rewrite (sub_copy name Hname).
    2:{ rewrite key_ok_bol by exact Hbol. rewrite <- append_cons.
        unfold key_ok in *. simpl in *.
        rewrite ok_ws0_local by (exact name_all_word || exact Hopen). exact Hok. }
    unfold no_nl in Hl. simpl in Hl. apply andb_true_iff in Hl as [Hc Hl].
    rewrite sub_through; [|simpl; apply negb_true_iff; exact Hc|exact Hl].
    unfold edit_key. rewrite Hok. rewrite append_cons. reflexivity.
Qed.

(** The last line. *)
Lemma sub_last_line prev l :
  at_bol prev = true -> no_nl l = true ->
  sub prev 0 l = (edit_key name value l, if key_ok name None l then 1%nat else 0%nat).
Proof.
  intros Hbol Hl.
  destruct (key_ok name None l) eqn:Hok.
  - unfold key_ok in Hok. simpl in Hok.
    destruct (key_shape_of name l Hok) as (ws & num & ws1 & ws2 & tail & Hshape).
    rewrite (sub_shape prev _ _ _ _ _ _ Hshape Hbol).
    rewrite (sub_through_end tail after_name at_bol_after_name
               (shape_tail_no_nl _ _ _ _ _ _ Hshape Hl)).
    rewrite (edit_key_shape _ _ _ _ _ _ Hshape). reflexivity.
  - unfold edit_key. rewrite Hok.
    destruct l as [|c l]; [apply (sub_nil name Hname)|].
    rewrite (sub_copy name Hname) by (rewrite key_ok_bol by exact Hbol; exact Hok).
    unfold no_nl in Hl. simpl in Hl. apply andb_true_iff in Hl as [Hc Hl].
    rewrite sub_through_end; [reflexivity|simpl; apply negb_true_iff; exact Hc|exact Hl].
Qed.

(** A card that is the lines [ls] joined by newlines. *)
Lemma sub_lines prev ls :
  at_bol prev = true -> ls <> [] ->
  Forall (fun l => no_nl l = true) ls ->
  Forall (fun l => open_line l = false) (removelast ls) ->
  sub prev 0 (join (String nl "") ls)
  = (join (String nl "") (List.map (edit_key name value) ls), matching ls).
Proof.
  revert prev. induction ls as [|l ls IH]; intros prev Hbol Hne Hnl Hopen; [contradiction|].
  apply Forall_cons in Hnl as [Hl Hnl].
  destruct ls as [|l2 ls].
  - simpl. rewrite (sub_last_line prev l Hbol Hl). unfold matching. simpl.
    destruct (key_ok name None l); reflexivity.
  - change (removelast (l :: l2 :: ls)) with (l :: removelast (l2 :: ls)) in Hopen.
    apply Forall_cons in Hopen as [Ho Hopen].
    rewrite (join_cons _ l (l2 :: ls)) by discriminate.
    rewrite append_cons, append_nil_l.
    rewrite (sub_line prev l _ Hbol Hl Ho).
    rewrite (IH (Some nl) eq_refl ltac:(discriminate) Hnl Hopen).
    simpl fst; simpl snd.
    change (List.map (edit_key name value) (l :: l2 :: ls))
      with (edit_key name value l :: List.map (edit_key name value) (l2 :: ls)).
    rewrite (join_cons _ (edit_key name value l)) by (simpl; discriminate).
    rewrite append_cons, append_nil_l. f_equal.
    unfold matching. simpl. destruct (key_ok name None l); reflexivity.
Qed.

End KeyLines.

(** ** Cards as lists of lines *)

Lemma rev_app_spec s1 s2 : String.rev_app s1 s2 = String.rev s1 +:+ s2.
Proof.
  unfold String.rev. revert s2. induction s1 as [|c s1 IH]; intros s2; simpl.
  - reflexivity.
  - rewrite (IH (String c s2)), (IH (String c "")), append_assoc. reflexivity.
Qed.

Lemma rev_cons c s : String.rev (String c s) = String.rev s +:+ String c "".
Proof. unfold String.rev at 1. simpl. apply rev_app_spec. Qed.

Lemma rev_append s t : String.rev (s +:+ t) = String.rev t +:+ String.rev s.
Proof.
  induction s as [|c s IH].
  - rewrite append_nil_l. change (String.rev "") with "". rewrite append_nil_r. reflexivity.
  - rewrite append_cons, !rev_cons, IH, append_assoc. reflexivity.
Qed.

Lemma rev_rev s : String.rev (String.rev s) = s.
Proof.
  induction s as [|c s IH]; [reflexivity|].
  rewrite rev_cons, rev_append, IH. reflexivity.
Qed.

Lemma all_rev p s : all p (String.rev s) = all p s.
Proof.
  induction s as [|c s IH]; [reflexivity|].
  rewrite rev_cons, all_app, IH. simpl. rewrite andb_true_r, andb_comm. reflexivity.
Qed.

Lemma split_on_go_nonempty sep cur s : split_on_go sep cur s <> [].
Proof.
  revert cur. induction s as [|c s IH]; intros cur; simpl; [discriminate|].
  destruct (Ascii.eqb c sep); [discriminate|apply IH].
Qed.

Lemma join_split_on_go cur s :
  join (String nl "") (split_on_go nl cur s) = String.rev cur +:+ s.
Proof.
  revert cur. induction s as [|c s IH]; intros cur; simpl.
  - rewrite append_nil_r. reflexivity.
  - destruct (Ascii.eqb c nl) eqn:E.
    + apply Ascii.eqb_eq in E. subst c.
      rewrite join_cons by apply split_on_go_nonempty.
      rewrite IH. reflexivity.
    + rewrite IH, rev_cons, append_assoc. reflexivity.
Qed.

Lemma no_nl_split_on_go cur s :
  no_nl cur = true -> Forall (fun l => no_nl l = true) (split_on_go nl cur s).
Proof.
  revert cur. induction s as [|c s IH]; intros cur Hcur; simpl.
  - constructor; [|constructor]. unfold no_nl. rewrite all_rev. exact Hcur.
  - destruct (Ascii.eqb c nl) eqn:E.
    + constructor; [unfold no_nl; rewrite all_rev; exact Hcur|]. apply IH. reflexivity.
    + apply IH. unfold no_nl in *. simpl. unfold is_nl. rewrite E. exact Hcur.
Qed.

(** A card is its lines joined by newlines. *)
Lemma join_split_on text : join (String nl "") (split_on nl text) = text.
Proof. unfold split_on. rewrite join_split_on_go. reflexivity. Qed.

Lemma split_on_nonempty text : split_on nl text <> [].
Proof. apply split_on_go_nonempty. Qed.

Lemma no_nl_split_on text : Forall (fun l => no_nl l = true) (split_on nl text).
Proof. apply no_nl_split_on_go. reflexivity. Qed.

Lemma removelast_map {A B} (f : A -> B) (l : list A) :
  removelast (List.map f l) = List.map f (removelast l).
Proof.
  induction l as [|x l IH]; [reflexivity|].
  destruct l as [|y l]; [reflexivity|].
  change (removelast (List.map f (x :: y :: l)))
    with (f x :: removelast (List.map f (y :: l))).
  rewrite IH. reflexivity.
Qed.

(** ** What a formatted value may not contain *)

Lemma all_dropwhile p q s : all q s = true -> all q (dropwhile p s) = true.
Proof.
  induction s as [|c s IH]; intros H; simpl; [reflexivity|].
  simpl in H. apply andb_true_iff in H as [Hc Hs].
  destruct (p c); [apply IH; exact Hs|]. simpl. rewrite Hc, Hs. reflexivity.
Qed.

Lemma all_impl (p q : ascii -> bool) s :
  (forall c, p c = true -> q c = true) -> all p s = true -> all q s = true.
Proof.
  intros Hpq. induction s as [|c s IH]; intros H; [reflexivity|].
  simpl in *. apply andb_true_iff in H as [Hc Hs]. rewrite (Hpq c Hc), (IH Hs). reflexivity.
Qed.

Lemma value_char_not_nl c : value_char c = true -> negb (is_nl c) = true.
Proof. destruct c as [[] [] [] [] [] [] [] []]; vm_compute; congruence. Qed.

Lemma value_char_not_space c : value_char c = true -> isspace c = false.
Proof. destruct c as [[] [] [] [] [] [] [] []]; vm_compute; congruence. Qed.

Lemma value_char_not_eq c : value_char c = true -> Ascii.eqb c "=" = false.
Proof. destruct c as [[] [] [] [] [] [] [] []]; vm_compute; congruence. Qed.

Lemma value_char_not_m c : value_char c = true -> Ascii.eqb "m" c = false.
Proof. destruct c as [[] [] [] [] [] [] [] []]; vm_compute; congruence. Qed.

Lemma plain_value_no_nl value : plain_value value -> no_nl value = true.
Proof. apply all_impl. exact value_char_not_nl. Qed.

(** The scan of the key pattern on a value followed by the separator and a
    name, from the point where the blanks before the value have been
    read: either the value is no numeric field, or the numeric field is the
    whole value and the scan goes on with the separator. *)
Lemma dropwhile_num_value value rest :
  plain_value value -> stops numch rest -> rest <> "" ->
  dropwhile numch (value +:+ rest) = rest
  \/ exists c t, dropwhile numch (value +:+ rest) = String c t
                 /\ isspace c = false /\ Ascii.eqb c "=" = false.
Proof.
  intros Hv Hstop Hne. induction value as [|v value IH].
  - left. rewrite append_nil_l. destruct rest as [|c t]; [contradiction|].
    simpl in *. rewrite Hstop. reflexivity.
  - unfold plain_value in *. simpl in Hv. apply andb_true_iff in Hv as [Hv0 Hv].
    rewrite append_cons. simpl. destruct (numch v); [exact (IH Hv)|].
    right. exists v, (value +:+ rest). split; [reflexivity|].
    split; [apply value_char_not_space|apply value_char_not_eq]; exact Hv0.
Qed.

Section EditedLines.
Variable name : string.
Hypothesis Hname : key_name name.
Variable value : string.
Hypothesis Hvalue : plain_value value.

Lemma dropwhile_space_value rest :
  stops isspace rest -> dropwhile isspace (" " +:+ value +:+ rest) = value +:+ rest.
Proof.
  intros Hrest. rewrite append_cons, append_nil_l.
  change (dropwhile isspace (String " " ?s)) with (dropwhile isspace s).
  destruct value as [|v value'] eqn:E.
  - rewrite append_nil_l. destruct rest as [|c t]; [reflexivity|].
    simpl in *. rewrite Hrest. reflexivity.
  - rewrite append_cons. simpl. unfold plain_value in Hvalue. simpl in Hvalue.
    apply andb_true_iff in Hvalue as [Hv _].
    rewrite (value_char_not_space v Hv). reflexivity.
Qed.

(** A rewritten line is not open. *)
Lemma edited_line_closed ws1 ws2 tail :
  all isspace ws1 = true -> all isspace ws2 = true ->
  open_line (" " +:+ value +:+ ws1 +:+ "=" +:+ ws2 +:+ name +:+ tail) = false.
Proof.
  intros Hws1 Hws2. unfold open_line.
  destruct (name_head name Hname) as (n & nrest & En & Hn).
  assert (dropwhile isspace (ws1 +:+ "=" +:+ ws2 +:+ name +:+ tail)
          = String "=" (ws2 +:+ name +:+ tail)) as E3
    by (apply dropwhile_run; [exact Hws1|reflexivity]).
  assert (dropwhile isspace (ws2 +:+ name +:+ tail) = String n (nrest +:+ tail)) as E4.
  { rewrite dropwhile_run; [rewrite En, append_cons; reflexivity|exact Hws2|].
    apply (stops_name_space name Hname). }
  destruct value as [|v value'] eqn:E.
  - rewrite append_nil_l, append_cons, append_nil_l.
    change (dropwhile isspace (String " " ?s)) with (dropwhile isspace s).
    rewrite E3. reflexivity.
  - rewrite append_cons, append_nil_l, append_cons.
    change (dropwhile isspace (String " " ?s)) with (dropwhile isspace s).
    pose proof Hvalue as Hv. unfold plain_value in Hv. simpl in Hv.
    apply andb_true_iff in Hv as [Hv0 Hv']. simpl dropwhile at 1.
    rewrite (value_char_not_space v Hv0).
    destruct (numch v); [|reflexivity]. simpl andb.
    destruct (dropwhile_num_value value' (ws1 +:+ "=" +:+ ws2 +:+ name +:+ tail) Hv')
      as [-> | (c & t & -> & Hc & Hceq)].
    + apply stops_sep_num. exact Hws1.
    + destruct ws1; discriminate.
    + rewrite E3. simpl. rewrite E4. reflexivity.
    + simpl. rewrite Hc, Hceq. reflexivity.
Qed.

Lemma edit_key_closed l : open_line l = false -> open_line (edit_key name value l) = false.
Proof.
  intros Hl. unfold edit_key. destruct (key_ok name None l) eqn:Hok; [|exact Hl].
  unfold key_ok in Hok. simpl in Hok.
  destruct (key_shape_of name l Hok) as (ws & num & ws1 & ws2 & tail & Hshape).
  destruct (key_shape_scan name Hname l ws num ws1 ws2 tail Hshape) as (_ & -> & _).
  destruct Hshape as (_ & _ & _ & _ & Hws1 & Hws2 & _).
  apply edited_line_closed; assumption.
Qed.

Lemma edit_key_no_nl l : no_nl l = true -> no_nl (edit_key name value l) = true.
Proof.
  intros Hl. unfold edit_key. destruct (key_ok name None l); [|exact Hl].
  rewrite !no_nl_app. rewrite (plain_value_no_nl value Hvalue). simpl.
  unfold no_nl. apply all_dropwhile, all_dropwhile. exact Hl.
Qed.

End EditedLines.

(** ** The two substitutions of [update_run_card] on a tidy card *)

Lemma key_name_min : key_name "mmll".
Proof. split; [discriminate|reflexivity]. Qed.

Lemma key_name_max : key_name "mmllmax".
Proof. split; [discriminate|reflexivity]. Qed.

Lemma subn_key_lines name value text :
  key_name name -> tidy text ->
  subn (key_pattern name) (key_repl value) text
  = (join (String nl "") (List.map (edit_key name value) (split_on nl text)),
     matching name (split_on nl text)).
Proof.
  intros Hname Htidy.
  rewrite <- (join_split_on text) at 1.
  apply (sub_lines name Hname value None (split_on nl text) eq_refl
           (split_on_nonempty text) (no_nl_split_on text) Htidy).
Qed.

Lemma split_on_join ls :
  ls <> [] -> Forall (fun l => no_nl l = true) ls ->
  split_on nl (join (String nl "") ls) = ls.
Proof.
  intros Hne Hnl.
  assert (forall cur, no_nl cur = true ->
            split_on_go nl cur (join (String nl "") ls)
            = match ls with
              | [] => [String.rev cur]
              | l :: rest => (String.rev cur +:+ l) :: rest
              end) as H.
  { clear Hne. induction Hnl as [|l rest Hl Hrest IH]; intros cur Hcur; [reflexivity|].
    assert (forall cur' tl, split_on_go nl cur' (l +:+ tl)
                            = split_on_go nl (String.rev_app l cur') tl) as Hgo.
    { clear -Hl. induction l as [|c l IHl]; intros cur' tl; [reflexivity|].
      rewrite append_cons. unfold no_nl in Hl. simpl in Hl.
      apply andb_true_iff in Hl as [Hc Hl]. simpl.
      apply negb_true_iff in Hc. unfold is_nl in Hc. rewrite Hc. apply IHl. exact Hl. }
    destruct rest as [|l2 rest].
    - simpl join. rewrite <- (append_nil_r l) at 1. rewrite Hgo. simpl.
      rewrite rev_app_spec, rev_append, rev_rev. reflexivity.
    - rewrite join_cons by discriminate. rewrite Hgo, append_cons, append_nil_l.
      change (split_on_go nl ?cur0 (String nl ?t0))
        with (String.rev cur0 :: split_on_go nl "" t0).
      rewrite (IH "" eq_refl). rewrite rev_app_spec, rev_append, rev_rev. reflexivity. }
  unfold split_on. rewrite (H "" eq_refl). destruct ls; [contradiction|reflexivity].
Qed.

Lemma update_text_lines vmin vmax text :
  tidy text -> plain_value vmin ->
  let lines := split_on nl text in
  let '(text1, nmin) := subn (key_pattern "mmll") (key_repl vmin) text in
  let '(text2, nmax) := subn (key_pattern "mmllmax") (key_repl vmax) text1 in
  text2 = join (String nl "")
            (List.map (fun l => edit_key "mmllmax" vmax (edit_key "mmll" vmin l)) lines)
  /\ nmin = matching "mmll" lines
  /\ nmax = matching "mmllmax" (List.map (edit_key "mmll" vmin) lines).
Proof.
  intros Htidy Hvmin. cbv zeta.
  rewrite (subn_key_lines "mmll" vmin text key_name_min Htidy).
  set (lines1 := List.map (edit_key "mmll" vmin) (split_on nl text)).
  assert (lines1 <> []) as Hne.
  { unfold lines1. pose proof (split_on_nonempty text).
    destruct (split_on nl text); [contradiction|discriminate]. }
  assert (Forall (fun l => no_nl l = true) lines1) as Hnl.
  { unfold lines1. apply Forall_map. eapply Forall_impl; [apply no_nl_split_on|].
    intros l Hl. apply edit_key_no_nl; assumption. }
  assert (tidy (join (String nl "") lines1)) as Htidy1.
  { unfold tidy. rewrite (split_on_join lines1 Hne Hnl).
    unfold lines1. rewrite removelast_map. apply Forall_map.
    eapply Forall_impl; [exact Htidy|].
    intros l Hl. apply (edit_key_closed "mmll" key_name_min vmin Hvmin). exact Hl. }
  rewrite (subn_key_lines "mmllmax" vmax _ key_name_max Htidy1).
  rewrite (split_on_join lines1 Hne Hnl).
  unfold lines1. rewrite List.map_map. auto.
Qed.

(** ** The characters of a formatted float *)

Lemma fchar_digit c : isdigit c = true -> fchar c = true.
Proof. unfold fchar. intros ->. reflexivity. Qed.

Lemma all_string_of_uint d : all fchar (NilEmpty.string_of_uint d) = true.
Proof. induction d; simpl; try reflexivity; exact IHd. Qed.

Lemma all_N_str n : all fchar (N_str n) = true.
Proof.
  unfold N_str, NilZero.string_of_uint.
  destruct (N.to_uint n); try reflexivity; apply (all_string_of_uint (_ u)).
Qed.

Lemma all_repeat_char p c n : p c = true -> all p (repeat_char c n) = true.
Proof. intros H. induction n as [|n IH]; simpl; [reflexivity|]. rewrite H, IH. reflexivity. Qed.

Lemma all_take p n s : all p s = true -> all p (take n s) = true.
Proof.
  revert s. induction n as [|n IH]; intros [|c s] H; simpl; try reflexivity.
  simpl in H. apply andb_true_iff in H as [Hc Hs]. rewrite Hc, (IH s Hs). reflexivity.
Qed.

Lemma all_drop p n s : all p s = true -> all p (drop n s) = true.
Proof.
  revert s. induction n as [|n IH]; intros [|c s] H; simpl; try reflexivity; try exact H.
  simpl in H. apply andb_true_iff in H as [Hc Hs]. exact (IH s Hs).
Qed.

Lemma all_append p s t : all p s = true -> all p t = true -> all p (s +:+ t) = true.
Proof. intros Hs Ht. rewrite all_app, Hs, Ht. reflexivity. Qed.

Lemma all_zpad w s : all fchar s = true -> all fchar (zpad w s) = true.
Proof. intros H. apply all_append; [apply all_repeat_char; reflexivity|exact H]. Qed.

Lemma all_with_point n s : all fchar s = true -> all fchar (with_point n s) = true.
Proof.
  intros H. unfold with_point. destruct (drop n s) eqn:E; [exact H|].
  apply all_append; [apply all_take; exact H|].
  apply all_append; [reflexivity|]. rewrite <- E. apply all_drop. exact H.
Qed.

Lemma all_strip_zeros s : all fchar s = true -> all fchar (strip_zeros s) = true.
Proof.
  intros H. unfold strip_zeros. destruct (contains "." s); [|exact H].
  pose proof (all_dropwhile (Ascii.eqb "0") fchar (String.rev s)) as Hd.
  rewrite all_rev in Hd. specialize (Hd H).
  destruct (dropwhile (Ascii.eqb "0") (String.rev s)) as [|c t]; [reflexivity|].
  simpl in Hd. apply andb_true_iff in Hd as [Hc Ht].
  destruct (Ascii.eqb c "."); rewrite all_rev; [exact Ht|].
  simpl. rewrite Hc, Ht. reflexivity.
Qed.

Lemma all_exp_str x : all fchar (exp_str x) = true.
Proof.
  unfold exp_str. apply all_append; [reflexivity|].
  apply all_append; [destruct (x <? 0)%Z; reflexivity|].
  apply all_zpad, all_N_str.
Qed.

Lemma all_fixed m e p : all fchar (fixed m e p) = true.
Proof. unfold fixed. apply all_with_point, all_zpad, all_N_str. Qed.

Lemma all_sci m e p : all fchar (sci m e p) = true.
Proof.
  unfold sci. destruct (m =? 0)%N.
  - apply all_append; [|apply all_exp_str].
    apply all_with_point, all_repeat_char. reflexivity.
  - destruct (sci_parts m e p) as [v x].
    apply all_append; [apply all_with_point, all_N_str|apply all_exp_str].
Qed.

Lemma all_general m e prec : all fchar (general m e prec) = true.
Proof.
  unfold general. destruct (m =? 0)%N; [reflexivity|].
  destruct (sci_parts m e (Nat.max 1 prec - 1)) as [v x].
  destruct ((-4 <=? x)%Z && (x <? Z.of_nat (Nat.max 1 prec))%Z).
  - apply all_strip_zeros, all_fixed.
  - apply all_append; [apply all_strip_zeros, all_with_point, all_N_str|apply all_exp_str].
Qed.

Lemma rjust_0 s : rjust 0 s = s.
Proof. reflexivity. Qed.

(** A float formatted without a field width. *)
Lemma all_format_float prec ty x : all fchar (format_float 0 prec ty x) = true.
Proof.
  unfold format_float. rewrite rjust_0. destruct x as [neg m e|neg|].
  - apply all_append; [destruct neg; reflexivity|].
    destruct ty; [apply all_sci|apply all_fixed|apply all_general].
  - destruct neg; reflexivity.
  - reflexivity.
Qed.

Lemma fchar_value c : fchar c = true -> value_char c = true.
Proof. destruct c as [[] [] [] [] [] [] [] []]; vm_compute; congruence. Qed.

Lemma plain_value_format prec ty x : plain_value (format_float 0 prec ty x).
Proof. apply (all_impl fchar value_char _ fchar_value), all_format_float. Qed.

(** ** The second substitution finds no key the first one made *)

Lemma key_occurs_nil name prev : key_occurs name prev "" = false.
Proof. unfold key_occurs, key_ok. rewrite andb_false_r. reflexivity. Qed.

Lemma key_occurs_cons name prev c t :
  key_occurs name prev (String c t) = key_ok name prev (String c t) || key_occurs name (Some c) t.
Proof. reflexivity. Qed.

(** A key further on in a text is a key of the text. *)
Lemma key_occurs_suffix name u v prev :
  key_occurs name (last_char prev u) v = true -> key_occurs name prev (u +:+ v) = true.
Proof.
  revert prev. induction u as [|c u IH]; intros prev H; [exact H|].
  rewrite append_cons, key_occurs_cons. rewrite (IH (Some c) H). apply orb_true_r.
Qed.

(** A stretch without a newline holds no start of a line after its first
    character. *)
Lemma key_occurs_through name v y prev :
  no_nl v = true ->
  key_occurs name prev (v +:+ y) = true ->
  key_ok name prev (v +:+ y) = true \/ key_occurs name (last_char prev v) y = true.
Proof.
  revert prev. induction v as [|c v IH]; intros prev Hv H; [right; exact H|].
  rewrite append_cons in *. rewrite key_occurs_cons in H.
  apply orb_true_iff in H as [H|H]; [left; exact H|].
  unfold no_nl in Hv. simpl in Hv. apply andb_true_iff in Hv as [Hc Hv].
  destruct (IH (Some c) Hv H) as [H'|H']; [|right; exact H'].
  unfold key_ok in H'. simpl at_bol in H'. apply negb_true_iff in Hc.
  rewrite Hc in H'. discriminate.
Qed.

(** Blanks before a text that starts no numeric field hold no key. *)
Lemma key_occurs_blanks name w y prev :
  all isspace w = true -> stops isspace y -> stops numch y -> y <> "" ->
  key_occurs name prev (w +:+ y) = true -> key_occurs name (last_char prev w) y = true.
Proof.
  intros Hw Hsp Hnum Hne. revert prev. induction w as [|c w IH]; intros prev H; [exact H|].
  simpl in Hw. apply andb_true_iff in Hw as [Hc Hw].
  rewrite append_cons, key_occurs_cons in H.
  apply orb_true_iff in H as [H|H]; [|exact (IH Hw (Some c) H)].
  exfalso. unfold key_ok in H. apply andb_true_iff in H as [_ H].
  unfold ok_ws0 in H. rewrite <- append_cons in H.
  rewrite dropwhile_run in H; [|simpl; rewrite Hc, Hw; reflexivity|exact Hsp].
  destruct y as [|d y]; [contradiction|]. simpl in *. rewrite Hnum in H. discriminate.
Qed.

Lemma startswith_cons a p b s :
  startswith (String a p) (String b s) = Ascii.eqb a b && startswith p s.
Proof. reflexivity. Qed.

Lemma ok_lit_cons a l b s : ok_lit (String a l) (String b s) = Ascii.eqb a b && ok_lit l s.
Proof. unfold ok_lit. rewrite startswith_cons, andb_assoc. reflexivity. Qed.

Lemma startswith_common p q r : startswith (p +:+ q) (p +:+ r) = startswith q r.
Proof.
  induction p as [|c p IH]; [reflexivity|]. rewrite !append_cons. simpl.
  rewrite Ascii.eqb_refl. exact IH.
Qed.

Section Transfer.
Variable vmin : string.
Hypothesis Hvmin : plain_value vmin.

Local Abbreviation out := (out_min vmin).
Local Abbreviation replaced := (replaced vmin).

Lemma out_nil prev : out prev "" = "".
Proof. unfold out_min. rewrite (sub_nil "mmll" key_name_min). reflexivity. Qed.

Lemma out_copy prev c t :
  key_ok "mmll" prev (String c t) = false -> out prev (String c t) = String c (out (Some c) t).
Proof. intros H. unfold out_min. rewrite (sub_copy "mmll" key_name_min) by exact H. reflexivity. Qed.

Lemma out_not_bol prev s : at_bol prev = false -> word_after (out prev s) = word_after s.
Proof.
  intros H. destruct s as [|c t]; [rewrite out_nil; reflexivity|].
  rewrite out_copy by (apply key_ok_not_bol; exact H). reflexivity.
Qed.

Lemma out_match prev s :
  key_ok "mmll" prev s = true ->
  exists pre ws1 ws2 tail,
    s = pre +:+ tail /\ last_char prev pre = Some "l"%char
    /\ all isspace ws1 = true /\ all isspace ws2 = true
    /\ word_after (out (Some "l"%char) tail) = false
    /\ (String.length tail < String.length s)%nat
    /\ out prev s = replaced ws1 ws2 (out (Some "l"%char) tail).
Proof.
  intros H. unfold key_ok in H. apply andb_true_iff in H as [Hbol Hok].
  destruct (key_shape_of "mmll" s Hok) as (ws & num & ws1 & ws2 & tail & Hshape).
  exists (ws +:+ num +:+ ws1 +:+ "=" +:+ ws2 +:+ "mmll"), ws1, ws2, tail.
  pose proof (sub_shape "mmll" key_name_min vmin prev s ws num ws1 ws2 tail Hshape Hbol)
    as Hsub.
  destruct Hshape as (Hs & _ & _ & _ & Hws1 & Hws2 & Htail).
  split; [rewrite Hs, !append_assoc; reflexivity|].
  split; [rewrite <- !append_assoc, last_char_app; reflexivity|].
  split; [exact Hws1|]. split; [exact Hws2|].
  split; [rewrite out_not_bol by reflexivity; exact Htail|].
  split; [rewrite Hs, !length_append; simpl; lia|].
  unfold out_min at 1. rewrite Hsub. reflexivity.
Qed.

(** After [mmll] and a word boundary the name [mmllmax] does not
    follow. *)
Lemma ok_name_max_min rest : word_after rest = false -> ok_name "mmllmax" ("mmll" +:+ rest) = false.
Proof.
  intros H. unfold ok_name.
  change "mmllmax" with ("mmll" +:+ "max") at 1. rewrite startswith_common.
  destruct rest as [|c rest]; [reflexivity|].
  change (startswith "max" (String c rest)) with (Ascii.eqb "m" c && startswith "ax" rest).
  destruct (Ascii.eqb "m" c) eqn:E; [|reflexivity].
  apply Ascii.eqb_eq in E. subst c. discriminate.
Qed.

Lemma ok_ws2_max_min ws2 rest :
  all isspace ws2 = true -> word_after rest = false ->
  ok_ws2 "mmllmax" (ws2 +:+ "mmll" +:+ rest) = false.
Proof.
  intros Hws2 H. unfold ok_ws2. rewrite dropwhile_run; [|exact Hws2|reflexivity].
  apply ok_name_max_min. exact H.
Qed.

Lemma ok_ws1_max_min ws1 ws2 rest :
  all isspace ws1 = true -> all isspace ws2 = true -> word_after rest = false ->
  ok_ws1 "mmllmax" (ws1 +:+ "=" +:+ ws2 +:+ "mmll" +:+ rest) = false.
Proof.
  intros Hws1 Hws2 H. unfold ok_ws1. rewrite dropwhile_run; [|exact Hws1|reflexivity].
  rewrite append_cons, append_nil_l. unfold ok_eq. simpl andb.
  apply ok_ws2_max_min; assumption.
Qed.

Lemma dropwhile_space_replaced ws1 ws2 rest :
  all isspace ws1 = true ->
  dropwhile isspace (replaced ws1 ws2 rest)
  = match vmin with
    | EmptyString => String "=" (ws2 +:+ "mmll" +:+ rest)
    | _ => vmin +:+ ws1 +:+ "=" +:+ ws2 +:+ "mmll" +:+ rest
    end.
Proof.
  intros Hws1. unfold replaced. rewrite append_cons, append_nil_l.
  change (dropwhile isspace (String " " ?s)) with (dropwhile isspace s).
  destruct vmin as [|v vr] eqn:E.
  - rewrite append_nil_l. rewrite dropwhile_run; [reflexivity|exact Hws1|reflexivity].
  - rewrite append_cons. simpl. unfold plain_value in Hvmin. simpl in Hvmin.
    apply andb_true_iff in Hvmin as [Hv _]. rewrite (value_char_not_space v Hv). reflexivity.
Qed.

Section Replaced.
Variables ws1 ws2 rest : string.
Hypothesis Hws1 : all isspace ws1 = true.
Hypothesis Hws2 : all isspace ws2 = true.
Hypothesis Hrest : word_after rest = false.

Lemma ok_ws0_replaced : ok_ws0 "mmllmax" (replaced ws1 ws2 rest) = false.
Proof.
  unfold ok_ws0. rewrite (dropwhile_space_replaced ws1 ws2 rest Hws1).
  destruct vmin as [|v vr] eqn:E; [reflexivity|].
  rewrite append_cons. unfold ok_num. destruct (numch v); [|reflexivity]. simpl andb.
  unfold ok_numrun. unfold plain_value in Hvmin. simpl in Hvmin.
  apply andb_true_iff in Hvmin as [_ Hvr].
  destruct (dropwhile_num_value vr (ws1 +:+ "=" +:+ ws2 +:+ "mmll" +:+ rest) Hvr)
    as [-> | (c & t & -> & Hc & Hceq)].
  - apply stops_sep_num. exact Hws1.
  - destruct ws1; discriminate.
  - apply ok_ws1_max_min; assumption.
  - unfold ok_ws1. simpl. rewrite Hc. simpl. rewrite Hceq. reflexivity.
Qed.

Lemma ok_ws1_replaced : ok_ws1 "mmllmax" (replaced ws1 ws2 rest) = false.
Proof.
  unfold ok_ws1. rewrite (dropwhile_space_replaced ws1 ws2 rest Hws1).
  destruct vmin as [|v vr] eqn:E.
  - unfold ok_eq. simpl andb. apply ok_ws2_max_min; assumption.
  - rewrite append_cons. unfold ok_eq. unfold plain_value in Hvmin. simpl in Hvmin.
    apply andb_true_iff in Hvmin as [Hv _]. rewrite (value_char_not_eq v Hv). reflexivity.
Qed.

Lemma ok_ws2_replaced : ok_ws2 "mmllmax" (replaced ws1 ws2 rest) = false.
Proof.
  unfold ok_ws2. rewrite (dropwhile_space_replaced ws1 ws2 rest Hws1).
  destruct vmin as [|v vr] eqn:E; [reflexivity|].
  rewrite append_cons. unfold ok_name. rewrite startswith_cons.
  unfold plain_value in Hvmin. simpl in Hvmin.
  apply andb_true_iff in Hvmin as [Hv _]. rewrite (value_char_not_m v Hv). reflexivity.
Qed.

Lemma ok_numrun_replaced : ok_numrun "mmllmax" (replaced ws1 ws2 rest) = false.
Proof. unfold ok_numrun. exact ok_ws1_replaced. Qed.

Lemma ok_lit_replaced n l : isword n = true -> ok_lit (String n l) (replaced ws1 ws2 rest) = false.
Proof.
  intros Hn. unfold replaced. rewrite append_cons, ok_lit_cons.
  destruct (Ascii.eqb n " ") eqn:E; [|reflexivity].
  apply Ascii.eqb_eq in E. subst n. discriminate.
Qed.

(** No key for [mmllmax] starts inside the text that replaces a match. *)
Lemma key_occurs_replaced prev :
  key_occurs "mmllmax" prev (replaced ws1 ws2 rest) = true ->
  key_occurs "mmllmax" (Some "l"%char) rest = true.
Proof.
  intros H. unfold replaced in H.
  assert (no_nl (" " +:+ vmin) = true) as Hnl
    by (rewrite no_nl_app, (plain_value_no_nl vmin Hvmin); reflexivity).
  rewrite <- (append_assoc " " vmin) in H.
  apply (key_occurs_through "mmllmax" _ _ prev Hnl) in H as [H|H].
  { exfalso. rewrite append_assoc in H. unfold key_ok in H.
    apply andb_true_iff in H as [_ H]. fold (replaced ws1 ws2 rest) in H.
    rewrite ok_ws0_replaced in H. discriminate. }
  apply key_occurs_blanks in H; [|exact Hws1|reflexivity|reflexivity|discriminate].
  apply (key_occurs_through "mmllmax" "=" _ _ eq_refl) in H as [H|H].
  { exfalso. unfold key_ok in H. apply andb_true_iff in H as [_ H]. discriminate. }
  apply key_occurs_blanks in H; [|exact Hws2|reflexivity|reflexivity|discriminate].
  apply (key_occurs_through "mmllmax" "mmll" _ _ eq_refl) in H as [H|H].
  { exfalso. unfold key_ok in H. apply andb_true_iff in H as [_ H]. discriminate. }
  exact H.
Qed.

End Replaced.

(** The scan for [mmllmax] on the new card succeeds only where it does on
    the old one, phase by phase. *)
Lemma ok_lit_out l : forall s prev,
  all isword l = true -> (l = "" -> at_bol prev = false) ->
  ok_lit l (out prev s) = true -> ok_lit l s = true.
Proof.
  induction l as [|n l IH]; intros s prev Hall Hp H.
  - unfold ok_lit in *. simpl in *. rewrite out_not_bol in H by (apply Hp; reflexivity).
    exact H.
  - simpl in Hall. apply andb_true_iff in Hall as [Hn Hall].
    destruct s as [|c t]; [rewrite out_nil in H; discriminate|].
    destruct (key_ok "mmll" prev (String c t)) eqn:Hok.
    + destruct (out_match prev _ Hok) as (pre & ws1 & ws2 & tail & _ & _ & _ & _ & _ & _ & E).
      rewrite E, ok_lit_replaced in H by exact Hn. discriminate.
    + rewrite out_copy in H by exact Hok. rewrite ok_lit_cons in *.
      destruct (Ascii.eqb n c) eqn:E; [|discriminate]. simpl andb in *.
      apply Ascii.eqb_eq in E. subst c.
      apply (IH t (Some n) Hall); [|exact H].
      intros _. simpl. destruct (is_nl n) eqn:E; [|reflexivity].
      apply eqb_nl_space, space_not_word in E. congruence.
Qed.

Lemma ok_ws2_out s : forall prev,
  ok_ws2 "mmllmax" (out prev s) = true -> ok_ws2 "mmllmax" s = true.
Proof.
  induction s as [|c t IH]; intros prev H; [rewrite out_nil in H; exact H|].
  destruct (key_ok "mmll" prev (String c t)) eqn:Hok.
  - destruct (out_match prev _ Hok)
      as (pre & ws1 & ws2 & tail & _ & _ & Hws1 & Hws2 & Hrest & _ & E).
    rewrite E, ok_ws2_replaced in H by assumption. discriminate.
  - rewrite out_copy in H by exact Hok. unfold ok_ws2 in *. simpl in *.
    destruct (isspace c); [exact (IH (Some c) H)|].
    apply (ok_lit_out "mmllmax" (String c t) prev eq_refl); [discriminate|].
    unfold ok_lit. rewrite out_copy by exact Hok. exact H.
Qed.

Lemma ok_ws1_out s : forall prev,
  ok_ws1 "mmllmax" (out prev s) = true -> ok_ws1 "mmllmax" s = true.
Proof.
  induction s as [|c t IH]; intros prev H; [rewrite out_nil in H; exact H|].
  destruct (key_ok "mmll" prev (String c t)) eqn:Hok.
  - destruct (out_match prev _ Hok)
      as (pre & ws1 & ws2 & tail & _ & _ & Hws1 & Hws2 & Hrest & _ & E).
    rewrite E, ok_ws1_replaced in H by assumption. discriminate.
  - rewrite out_copy in H by exact Hok. unfold ok_ws1 in *. simpl in *.
    destruct (isspace c); [exact (IH (Some c) H)|].
    unfold ok_eq in *. apply andb_true_iff in H as [Hc H]. rewrite Hc. simpl.
    exact (ok_ws2_out t (Some c) H).
Qed.

Lemma ok_numrun_out s : forall prev,
  ok_numrun "mmllmax" (out prev s) = true -> ok_numrun "mmllmax" s = true.
Proof.
  induction s as [|c t IH]; intros prev H; [rewrite out_nil in H; exact H|].
  destruct (key_ok "mmll" prev (String c t)) eqn:Hok.
  - destruct (out_match prev _ Hok)
      as (pre & ws1 & ws2 & tail & _ & _ & Hws1 & Hws2 & Hrest & _ & E).
    rewrite E, ok_numrun_replaced in H by assumption. discriminate.
  - unfold ok_numrun in *. rewrite out_copy in H by exact Hok. simpl in *.
    destruct (numch c); [exact (IH (Some c) H)|].
    apply (ok_ws1_out (String c t) prev). rewrite out_copy by exact Hok. exact H.
Qed.

Lemma ok_ws0_out s : forall prev,
  ok_ws0 "mmllmax" (out prev s) = true -> ok_ws0 "mmllmax" s = true.
Proof.
  induction s as [|c t IH]; intros prev H; [rewrite out_nil in H; exact H|].
  destruct (key_ok "mmll" prev (String c t)) eqn:Hok.
  - destruct (out_match prev _ Hok)
      as (pre & ws1 & ws2 & tail & _ & _ & Hws1 & Hws2 & Hrest & _ & E).
    rewrite E, ok_ws0_replaced in H by assumption. discriminate.
  - rewrite out_copy in H by exact Hok. unfold ok_ws0 in *. simpl in *.
    destruct (isspace c); [exact (IH (Some c) H)|].
    unfold ok_num in *. apply andb_true_iff in H as [Hc H]. rewrite Hc. simpl.
    exact (ok_numrun_out t (Some c) H).
Qed.

(** A key for [mmllmax] on the new card is a key on the old one. *)
Lemma key_occurs_out : forall n s prev,
  (String.length s <= n)%nat ->
  key_occurs "mmllmax" prev (out prev s) = true -> key_occurs "mmllmax" prev s = true.
Proof.
  induction n as [|n IH]; intros s prev Hn H.
  - destruct s; [rewrite out_nil in H; exact H|simpl in Hn; lia].
  - destruct s as [|c t]; [rewrite out_nil in H; exact H|].
    destruct (key_ok "mmll" prev (String c t)) eqn:Hok.
    + destruct (out_match prev _ Hok)
        as (pre & ws1 & ws2 & tail & Hs & Hlast & Hws1 & Hws2 & Hrest & Hlen & E).
      rewrite E in H. apply key_occurs_replaced in H; [|assumption..].
      rewrite Hs. apply key_occurs_suffix. rewrite Hlast.
      apply IH; [simpl in *; lia|exact H].
    + rewrite out_copy in H by exact Hok. rewrite key_occurs_cons in *.
      apply orb_true_iff in H as [H|H].
      * unfold key_ok in *. apply andb_true_iff in H as [Hb H]. rewrite Hb. simpl.
        rewrite (ok_ws0_out (String c t) prev); [reflexivity|].
        rewrite out_copy by (unfold key_ok; exact Hok). exact H.
      * rewrite (IH t (Some c)); [apply orb_true_r|simpl in Hn; lia|exact H].
Qed.

End Transfer.

(** The number [subn] returns is zero exactly when the key occurs
    nowhere. *)
Lemma sub_count name value :
  key_name name ->
  forall n s prev, (String.length s <= n)%nat ->
    (key_occurs name prev s = false -> sub name value prev 0 s = (s, 0%nat))
    /\ (key_occurs name prev s = true -> snd (sub name value prev 0 s) <> 0%nat).
Proof.
  intros Hname. induction n as [|n IH]; intros s prev Hn.
  - destruct s; [|simpl in Hn; lia]. rewrite key_occurs_nil.
    split; [intros _; apply (sub_nil name Hname)|discriminate].
  - destruct s as [|c t].
    { rewrite key_occurs_nil. split; [intros _; apply (sub_nil name Hname)|discriminate]. }
    rewrite key_occurs_cons. destruct (key_ok name prev (String c t)) eqn:Hok; simpl.
    + split; [discriminate|]. intros _.
      rewrite (sub_match name Hname value prev _ Hok). simpl. discriminate.
    + rewrite (sub_copy name Hname value c t prev Hok). simpl.
      destruct (IH t (Some c) ltac:(simpl in Hn; lia)) as [H0 H1].
      split.
      * intros H. rewrite (H0 H). reflexivity.
      * exact H1.
Qed.

(** ** The card editor *)

Lemma plain_update_run_card_eq mmin mmax text w :
  holds w ScanMll.TEMPLATE_CARD text ->
  ScanMll.update_run_card mmin mmax w
  = (let '(text1, nmin) :=
       subn (key_pattern "mmll") (key_repl (format_float 0 6 Pg mmin)) text in
     let '(text2, nmax) :=
       subn (key_pattern "mmllmax") (key_repl (format_float 0 6 Pg mmax)) text1 in
     if (nmin =? 0)%nat || (nmax =? 0)%nat
     then raise (RuntimeError (no_key_message ScanMll.TEMPLATE_CARD))
     else
       write_text ScanMll.RUN_CARD text2 ;;
       print ("  -> Updated run_card.dat: mmll=" +:+ float_str mmin
              +:+ ", mmllmax=" +:+ float_str mmax))
      (log_event (EvRead (resolve w ScanMll.TEMPLATE_CARD)) w).
Proof.
  intros H. unfold holds in H. unfold ScanMll.update_run_card, bind at 1, read_text.
  rewrite H. reflexivity.
Qed.

Lemma cxx_update_run_card_eq BASE_DIR mmin mmax text w :
  holds w (ScanMllCxx.TEMPLATE_CARD BASE_DIR) text ->
  ScanMllCxx.update_run_card BASE_DIR mmin mmax w
  = (let '(text1, nmin) :=
       subn (key_pattern "mmll") (key_repl (format_float 0 6 Pg mmin)) text in
     let '(text2, nmax) :=
       subn (key_pattern "mmllmax") (key_repl (format_float 0 6 Pg mmax)) text1 in
     if (nmin =? 0)%nat || (nmax =? 0)%nat
     then raise (RuntimeError (no_key_message (ScanMllCxx.TEMPLATE_CARD BASE_DIR)))
     else
       write_text (ScanMllCxx.RUN_CARD BASE_DIR) text2 ;;
       print ("  -> Updated run_card.dat: mmll=" +:+ float_str mmin
              +:+ ", mmllmax=" +:+ float_str mmax))
      (log_event (EvRead (resolve w (ScanMllCxx.TEMPLATE_CARD BASE_DIR))) w).
Proof.
  intros H. unfold holds in H. unfold ScanMllCxx.update_run_card, bind at 1, read_text.
  rewrite H. reflexivity.
Qed.

(** Without a line for one of the two keys, both counts cannot be
    positive. *)
Lemma counts_without_key vmin vmax text :
  plain_value vmin ->
  unmatched (key_pattern "mmll") text \/ unmatched (key_pattern "mmllmax") text ->
  let '(text1, nmin) := subn (key_pattern "mmll") (key_repl vmin) text in
  let '(_, nmax) := subn (key_pattern "mmllmax") (key_repl vmax) text1 in
  (nmin =? 0)%nat || (nmax =? 0)%nat = true.
Proof.
  intros Hvmin [Hmin | Hmax].
  - specialize (Hmin (key_repl vmin)).
    destruct (subn (key_pattern "mmll") (key_repl vmin) text) as [text1 nmin].
    destruct (subn (key_pattern "mmllmax") (key_repl vmax) text1) as [text2 nmax].
    simpl in Hmin. subst nmin. reflexivity.
  - specialize (Hmax (key_repl vmax)).
    change (subn (key_pattern "mmllmax") (key_repl vmax) text)
      with (sub "mmllmax" vmax None 0 text) in Hmax.
    assert (key_occurs "mmllmax" None text = false) as Hocc.
    { destruct (key_occurs "mmllmax" None text) eqn:E; [|reflexivity].
      exfalso.
      apply (proj2 (sub_count "mmllmax" vmax key_name_max _ text None (Nat.le_refl _)) E).
      exact Hmax. }
    change (subn (key_pattern "mmll") (key_repl vmin) text)
      with (sub "mmll" vmin None 0 text).
    destruct (sub "mmll" vmin None 0 text) as [text1 nmin] eqn:E1.
    assert (text1 = out_min vmin None text) as Htext1
      by (unfold out_min; rewrite E1; reflexivity).
    assert (key_occurs "mmllmax" None text1 = false) as Hocc1.
    { destruct (key_occurs "mmllmax" None text1) eqn:E; [|reflexivity].
      rewrite Htext1 in E.
      apply (key_occurs_out vmin Hvmin _ text None (Nat.le_refl _)) in E. congruence. }
    change (subn (key_pattern "mmllmax") (key_repl vmax) text1)
      with (sub "mmllmax" vmax None 0 text1).
    rewrite (proj1 (sub_count "mmllmax" vmax key_name_max _ text1 None (Nat.le_refl _)) Hocc1).
    apply orb_true_r.
Qed.


(** C4, where the code fails it.  No line of this run card template
    matches the key pattern for [mmll]: the value stands on a line of its own
    and [= mmll] on the next.  The claim, like the message of the error and
    the comment of the source, has [update_run_card] raise a [RuntimeError]
    and write nothing; but the blanks the pattern allows before [=] take in
    the end of the line, [re.subn] counts a match over the two lines, and
    [update_run_card] of either script returns, having written the working
    card.  [update_param_card] does the same on a parameter template of which
    no line carries the comment [# cuu]: the comment sign ends a line and the
    label stands on the next. *)
Theorem cards_written_without_key_line :
  Forall (fun line => matches_at (key_pattern "mmll") None line = false)
    (split_on nl Examples.card_split_key)
  /\ fst (ScanMll.update_run_card (float_of_int 15) (float_of_int 20)
            Examples.world_split_key) = Ok tt
  /\ files (snd (ScanMll.update_run_card (float_of_int 15) (float_of_int 20)
                   Examples.world_split_key)) !! Examples.run_card_key
     = Some ("# run card" +:+ Examples.NL +:+ " 15" +:+ Examples.NL
             +:+ "  = mmll  ! min" +:+ Examples.NL +:+ " 20 = mmllmax ! max" +:+ Examples.NL)
  /\ fst (ScanMllCxx.update_run_card Examples.proc_dir (float_of_int 15) (float_of_int 20)
            Examples.world_split_key) = Ok tt
  /\ files (snd (ScanMllCxx.update_run_card Examples.proc_dir (float_of_int 15)
                   (float_of_int 20) Examples.world_split_key)) !! Examples.run_card_key
     = Some ("# run card" +:+ Examples.NL +:+ " 15" +:+ Examples.NL
             +:+ "  = mmll  ! min" +:+ Examples.NL +:+ " 20 = mmllmax ! max" +:+ Examples.NL)
  /\ Forall (fun line => matches_at (cxx_pattern "cuu") None line = false)
       (split_on nl Examples.param_split_label)
  /\ Forall (fun line => contains "# cuu" line = false)
       (split_on nl Examples.param_split_label)
  /\ fst (ScanMllCxx.update_param_card Examples.proc_dir "cuu" (-100)
            Examples.world_split_key) = Ok tt
  /\ files (snd (ScanMllCxx.update_param_card Examples.proc_dir "cuu" (-100)
                   Examples.world_split_key)) !! Examples.param_card_key
     = Some ("Block dim6" +:+ Examples.NL +:+ "    1 -1.000000e+02 #" +:+ Examples.NL
             +:+ "cuu" +:+ Examples.NL).
Proof.
  split; [repeat constructor|].
  split; [vm_compute; reflexivity|].
  split; [vm_compute; reflexivity|].
  split; [vm_compute; reflexivity|].
  split; [vm_compute; reflexivity|].
  split; [repeat constructor|].
  split; [repeat constructor|].
  split; vm_compute; reflexivity.
Qed.

(** C2, as stated, fails: on the lines of this card, which are indented by
    two blanks as in the comment of the source, [update_run_card] of either
    script returns and the card it has written is not the template with
    only the numeric field of the two lines replaced: the blanks before the
    field are not kept, one blank takes their place. *)
Lemma update_run_card_changes_indent :
  let claimed :=
    join Examples.NL
      (List.map (fun line =>
                   edit_field_only "mmllmax" (format_float 0 6 Pg (float_of_int 20))
                     (edit_field_only "mmll" (format_float 0 6 Pg (float_of_int 15)) line))
         (split_on nl Examples.card_template)) in
  let written :=
    "# run card" +:+ Examples.NL +:+ " 15 = mmll  ! min" +:+ Examples.NL
    +:+ " 20 = mmllmax ! max" +:+ Examples.NL in
  claimed = "# run card" +:+ Examples.NL +:+ "  15 = mmll  ! min" +:+ Examples.NL
            +:+ "  20 = mmllmax ! max" +:+ Examples.NL
  /\ claimed <> written
  /\ ScanMll.update_run_card (float_of_int 15) (float_of_int 20) Examples.world_home
       = (Ok tt, snd (ScanMll.update_run_card (float_of_int 15) (float_of_int 20)
                        Examples.world_home))
  /\ files (snd (ScanMll.update_run_card (float_of_int 15) (float_of_int 20)
                   Examples.world_home)) !! Examples.run_card_key = Some written
  /\ files (snd (ScanMllCxx.update_run_card Examples.proc_dir (float_of_int 15)
                   (float_of_int 20) Examples.world_home)) !! Examples.run_card_key
     = Some written.
Proof.
  cbv zeta. split; [vm_compute; reflexivity|].
  split; [vm_compute; discriminate|].
  repeat split; vm_compute; reflexivity.
Qed.

(** On a card that is not tidy the pattern reaches over the ends of lines:
    here the empty line before the [mmll] line is taken into the match and
    is missing from the card written. *)
Lemma update_run_card_takes_blank_line :
  ~ tidy Examples.card_with_blank_line
  /\ files (snd (ScanMll.update_run_card (float_of_int 15) (float_of_int 20)
                   Examples.world_blank_line)) !! Examples.run_card_key
     = Some ("# run card" +:+ Examples.NL +:+ " 15 = mmll  ! min" +:+ Examples.NL
             +:+ " 20 = mmllmax ! max" +:+ Examples.NL).
Proof.
  split; [|vm_compute; reflexivity].
  unfold tidy. intros H.
  assert (open_line "" = false) as E; [|discriminate E].
  apply (proj1 (Forall_forall _ _) H). vm_compute. right. left.
Qed.

Lemma written_run_card text msg p w :
  files (snd ((write_text p text ;; print msg) w)) !! resolve w p = Some text.
Proof. unfold bind, write_text, print. simpl. apply lookup_insert_eq. Qed.

(** C2 (amended): on a tidy template, one in which no line but the last is
    blank or breaks off inside the [value =] part, [update_run_card] of
    either script writes the card line by line: a line that is blanks, a
    numeric field, the separator and the name [mmll] (or [mmllmax]) at a
    word boundary gets one blank and the formatted value in place of its
    blanks and numeric field and keeps everything from the separator on,
    comment included; every other line is copied as it is. *)
Theorem update_run_card_line_by_line BASE_DIR mmin mmax text w :
  tidy text ->
  holds w ScanMll.TEMPLATE_CARD text ->
  holds w (ScanMllCxx.TEMPLATE_CARD BASE_DIR) text ->
  fst (ScanMll.update_run_card mmin mmax w) = Ok tt ->
  fst (ScanMllCxx.update_run_card BASE_DIR mmin mmax w) = Ok tt ->
  let new_card :=
    join (String nl "")
      (List.map (fun line => edit_key "mmllmax" (format_float 0 6 Pg mmax)
                               (edit_key "mmll" (format_float 0 6 Pg mmin) line))
         (split_on nl text)) in
  files (snd (ScanMll.update_run_card mmin mmax w)) !! resolve w ScanMll.RUN_CARD
    = Some new_card
  /\ files (snd (ScanMllCxx.update_run_card BASE_DIR mmin mmax w))
       !! resolve w (ScanMllCxx.RUN_CARD BASE_DIR)
     = Some new_card.
Proof.
  intros Htidy Hplain Hcxx. cbv zeta.
  pose proof (update_text_lines (format_float 0 6 Pg mmin) (format_float 0 6 Pg mmax) text
                Htidy (plain_value_format 6 Pg mmin)) as Hlines. cbv zeta in Hlines.
  rewrite (plain_update_run_card_eq mmin mmax text w Hplain).
  rewrite (cxx_update_run_card_eq BASE_DIR mmin mmax text w Hcxx).
  destruct (subn _ _ text) as [text1 nmin].
  destruct (subn _ _ text1) as [text2 nmax].
  destruct Hlines as (-> & _ & _).
  destruct ((nmin =? 0)%nat || (nmax =? 0)%nat); [discriminate|].
  intros _ _. split.
  - exact (written_run_card _ _ ScanMll.RUN_CARD
             (log_event (EvRead (resolve w ScanMll.TEMPLATE_CARD)) w)).
  - exact (written_run_card _ _ (ScanMllCxx.RUN_CARD BASE_DIR)
             (log_event (EvRead (resolve w (ScanMllCxx.TEMPLATE_CARD BASE_DIR))) w)).
Qed.

Lemma update_run_card_line_by_line_witness :
  files (snd (ScanMll.update_run_card (float_of_int 15) (float_of_int 20)
                Examples.world_home)) !! resolve Examples.world_home ScanMll.RUN_CARD
    = Some (join (String nl "")
              (List.map (fun line => edit_key "mmllmax" (format_float 0 6 Pg (float_of_int 20))
                                       (edit_key "mmll" (format_float 0 6 Pg (float_of_int 15))
                                          line))
                 (split_on nl Examples.card_template)))
  /\ files (snd (ScanMllCxx.update_run_card Examples.proc_dir (float_of_int 15)
                   (float_of_int 20) Examples.world_home))
       !! resolve Examples.world_home (ScanMllCxx.RUN_CARD Examples.proc_dir)
     = Some (join (String nl "")
               (List.map (fun line => edit_key "mmllmax" (format_float 0 6 Pg (float_of_int 20))
                                        (edit_key "mmll" (format_float 0 6 Pg (float_of_int 15))
                                           line))
                  (split_on nl Examples.card_template))).
Proof.
  apply (update_run_card_line_by_line Examples.proc_dir (float_of_int 15) (float_of_int 20)
           Examples.card_template Examples.world_home).
  - unfold tidy. vm_compute. repeat constructor.
  - vm_compute; reflexivity.
  - vm_compute; reflexivity.
  - vm_compute; reflexivity.
  - vm_compute; reflexivity.
Defined.

(* ===================================================================== *)
(** * Further results *)
(* ===================================================================== *)

(** ** Checks by evaluation *)

Lemma Forall_check {A} (f : A -> bool) (ls : list A) :
  forallb (fun x => negb (f x)) ls = true -> Forall (fun x => f x = false) ls.
Proof.
  intros H. apply Forall_forall. intros x Hx.
  apply list_elem_of_In in Hx.
  apply negb_true_iff. exact (proj1 (forallb_forall _ ls) H x Hx).
Qed.

Lemma tidy_check text :
  forallb (fun l => negb (open_line l)) (removelast (split_on nl text)) = true ->
  tidy text.
Proof. apply Forall_check. Qed.

(** ** The two keys do not meet *)

Lemma ok_name_min_max s : ok_name "mmllmax" s = true -> ok_name "mmll" s = false.
Proof.
  unfold ok_name. intros H. apply andb_true_iff in H as [H _].
  rewrite (startswith_app _ _ H).
  change ("mmllmax" +:+ drop (String.length "mmllmax") s)
    with ("mmll" +:+ ("max" +:+ drop (String.length "mmllmax") s)).
  rewrite startswith_self, drop_app_length. reflexivity.
Qed.

Lemma ok_ws0_min_max s : ok_ws0 "mmllmax" s = true -> ok_ws0 "mmll" s = false.
Proof.
  unfold ok_ws0, ok_num. destruct (dropwhile isspace s) as [|c t]; [discriminate|].
  destruct (numch c); [|discriminate]. cbn [andb].
  unfold ok_numrun, ok_ws1, ok_eq.
  destruct (dropwhile isspace (dropwhile numch t)) as [|d u]; [discriminate|].
  destruct (Ascii.eqb d "="); [|discriminate]. cbn [andb].
  unfold ok_ws2. apply ok_name_min_max.
Qed.

Lemma key_ok_min_max prev s : key_ok "mmllmax" prev s = true -> key_ok "mmll" prev s = false.
Proof.
  unfold key_ok. intros H. apply andb_true_iff in H as [_ H].
  rewrite (ok_ws0_min_max s H). apply andb_false_r.
Qed.

Lemma matches_at_key name prev s :
  key_name name -> matches_at (key_pattern name) prev s = key_ok name prev s.
Proof.
  intros Hname. unfold matches_at. rewrite (match_at_key name Hname).
  destruct (key_ok name prev s); reflexivity.
Qed.

(** X2: at no position of any text do both key patterns match: the word
    boundary after the name keeps the pattern for [mmll] off the line of
    [mmllmax], and the longer name keeps the other pattern off the line of
    [mmll]. *)
Theorem key_patterns_apart prev s :
  matches_at (key_pattern ScanMll.PARAM_MIN) prev s = false
  \/ matches_at (key_pattern ScanMll.PARAM_MAX) prev s = false.
Proof.
  change ScanMll.PARAM_MIN with "mmll". change ScanMll.PARAM_MAX with "mmllmax".
  rewrite (matches_at_key "mmll" prev s key_name_min).
  rewrite (matches_at_key "mmllmax" prev s key_name_max).
  destruct (key_ok "mmllmax" prev s) eqn:E; [|right; reflexivity].
  left. apply key_ok_min_max. exact E.
Qed.

(** ** When [update_run_card] returns *)

Lemma matching_zero name ls :
  matching name ls = 0%nat <-> Forall (fun l => key_ok name None l = false) ls.
Proof.
  unfold matching. induction ls as [|l ls IH]; simpl.
  - split; [constructor|reflexivity].
  - destruct (key_ok name None l) eqn:E; simpl.
    + split; [discriminate|]. intros H. inversion H; congruence.
    + rewrite IH. split; [intros H; constructor; assumption|intros H; inversion H; assumption].
Qed.

Lemma key_ok_max_edit_min vmin l :
  plain_value vmin ->
  key_ok "mmllmax" None (edit_key "mmll" vmin l) = key_ok "mmllmax" None l.
Proof.
  intros Hvmin. unfold edit_key at 1.
  destruct (key_ok "mmll" None l) eqn:E; [|reflexivity].
  assert (key_ok "mmllmax" None l = false) as ->.
  { destruct (key_ok "mmllmax" None l) eqn:E'; [|reflexivity].
    apply key_ok_min_max in E'. congruence. }
  unfold key_ok in E. cbn [at_bol andb] in E.
  destruct (key_shape_of "mmll" l E) as (ws & num & ws1 & ws2 & tail & Hshape).
  destruct (key_shape_scan "mmll" key_name_min l ws num ws1 ws2 tail Hshape)
    as (_ & -> & _).
  destruct Hshape as (_ & _ & _ & _ & Hws1 & Hws2 & Htail).
  unfold key_ok. cbn [at_bol andb].
  exact (ok_ws0_replaced vmin Hvmin ws1 ws2 tail Hws1 Hws2 Htail).
Qed.

Lemma matching_max_edit_min vmin ls :
  plain_value vmin ->
  matching "mmllmax" (List.map (edit_key "mmll" vmin) ls) = matching "mmllmax" ls.
Proof.
  intros Hvmin. unfold matching. induction ls as [|l ls IH]; [reflexivity|].
  simpl. rewrite (key_ok_max_edit_min vmin l Hvmin).
  destruct (key_ok "mmllmax" None l); simpl; rewrite IH; reflexivity.
Qed.

(** The two counts of [update_run_card] on a tidy card: the lines of the
    template that match each key. *)
Lemma update_counts vmin vmax text :
  tidy text -> plain_value vmin ->
  let '(text1, nmin) := subn (key_pattern "mmll") (key_repl vmin) text in
  let '(text2, nmax) := subn (key_pattern "mmllmax") (key_repl vmax) text1 in
  nmin = matching "mmll" (split_on nl text)
  /\ nmax = matching "mmllmax" (split_on nl text).
Proof.
  intros Htidy Hvmin.
  pose proof (update_text_lines vmin vmax text Htidy Hvmin) as H. cbv zeta in H.
  destruct (subn _ _ text) as [text1 nmin].
  destruct (subn _ _ text1) as [text2 nmax].
  destruct H as (_ & -> & ->). split; [reflexivity|].
  apply matching_max_edit_min. exact Hvmin.
Qed.

Lemma matching_key_line name ls :
  key_name name ->
  (matching name ls =? 0)%nat = false <-> Exists (key_line name) ls.
Proof.
  intros Hname. unfold matching, key_line.
  induction ls as [|l ls IH]; simpl.
  - split; [discriminate|]. intros H. inversion H.
  - rewrite <- (matches_at_key name None l Hname).
    destruct (matches_at (key_pattern name) None l) eqn:E; simpl.
    + split; [|reflexivity]. intros _. apply Exists_cons_hd. exact E.
    + rewrite IH. split; [apply Exists_cons_tl|].
      intros H. inversion H; subst; [congruence|assumption].
Qed.

(** X1: on a tidy template [update_run_card] of either script returns
    exactly when some line matches the pattern for [mmll] and some line
    matches the pattern for [mmllmax]; otherwise it raises the
    [RuntimeError] that names the template. *)
Theorem update_run_card_returns_iff BASE_DIR mmin mmax text w :
  tidy text ->
  holds w ScanMll.TEMPLATE_CARD text ->
  holds w (ScanMllCxx.TEMPLATE_CARD BASE_DIR) text ->
  (Exists (key_line "mmll") (split_on nl text)
   /\ Exists (key_line "mmllmax") (split_on nl text) ->
     fst (ScanMll.update_run_card mmin mmax w) = Ok tt
     /\ fst (ScanMllCxx.update_run_card BASE_DIR mmin mmax w) = Ok tt)
  /\ (~ (Exists (key_line "mmll") (split_on nl text)
         /\ Exists (key_line "mmllmax") (split_on nl text)) ->
        fst (ScanMll.update_run_card mmin mmax w)
          = Raise (RuntimeError (no_key_message ScanMll.TEMPLATE_CARD))
        /\ fst (ScanMllCxx.update_run_card BASE_DIR mmin mmax w)
           = Raise (RuntimeError (no_key_message (ScanMllCxx.TEMPLATE_CARD BASE_DIR)))).
Proof.
  intros Htidy Hplain Hcxx.
  pose proof (update_counts (format_float 0 6 Pg mmin) (format_float 0 6 Pg mmax) text
                Htidy (plain_value_format 6 Pg mmin)) as Hcount.
  rewrite (plain_update_run_card_eq mmin mmax text w Hplain).
  rewrite (cxx_update_run_card_eq BASE_DIR mmin mmax text w Hcxx).
  destruct (subn _ _ text) as [text1 nmin].
  destruct (subn _ _ text1) as [text2 nmax].
  destruct Hcount as [-> ->].
  split.
  - intros [Hmin Hmax].
    apply (matching_key_line "mmll" _ key_name_min) in Hmin.
    apply (matching_key_line "mmllmax" _ key_name_max) in Hmax.
    rewrite Hmin, Hmax. split; reflexivity.
  - intros Hnot.
    destruct (matching "mmll" (split_on nl text) =? 0)%nat eqn:Emin; [split; reflexivity|].
    destruct (matching "mmllmax" (split_on nl text) =? 0)%nat eqn:Emax; [split; reflexivity|].
    exfalso. apply Hnot. split.
    + apply (matching_key_line "mmll" _ key_name_min). exact Emin.
    + apply (matching_key_line "mmllmax" _ key_name_max). exact Emax.
Qed.

Lemma update_run_card_returns_iff_witness :
  (Exists (key_line "mmll") (split_on nl Examples.card_template)
   /\ Exists (key_line "mmllmax") (split_on nl Examples.card_template) ->
     fst (ScanMll.update_run_card (float_of_int 15) (float_of_int 20) Examples.world_home)
       = Ok tt
     /\ fst (ScanMllCxx.update_run_card Examples.proc_dir (float_of_int 15)
               (float_of_int 20) Examples.world_home) = Ok tt)
  /\ (~ (Exists (key_line "mmll") (split_on nl Examples.card_template)
         /\ Exists (key_line "mmllmax") (split_on nl Examples.card_template)) ->
        fst (ScanMll.update_run_card (float_of_int 15) (float_of_int 20)
               Examples.world_home)
          = Raise (RuntimeError (no_key_message ScanMll.TEMPLATE_CARD))
        /\ fst (ScanMllCxx.update_run_card Examples.proc_dir (float_of_int 15)
                  (float_of_int 20) Examples.world_home)
           = Raise (RuntimeError
                      (no_key_message (ScanMllCxx.TEMPLATE_CARD Examples.proc_dir)))).
Proof.
  apply (update_run_card_returns_iff Examples.proc_dir (float_of_int 15) (float_of_int 20)
           Examples.card_template Examples.world_home).
  - apply tidy_check. vm_compute. reflexivity.
  - vm_compute; reflexivity.
  - vm_compute; reflexivity.
Defined.

(** ** What the substitutions leave alone *)

Lemma without_app p x y : without p (x +:+ y) = without p x +:+ without p y.
Proof.
  induction x as [|c x IH]; [rewrite !append_nil_l; reflexivity|].
  rewrite append_cons. simpl. destruct (p c); [exact IH|].
  rewrite append_cons, IH. reflexivity.
Qed.

Lemma without_all p x : all p x = true -> without p x = "".
Proof.
  induction x as [|c x IH]; [reflexivity|]. simpl.
  intros H. apply andb_true_iff in H as [-> H]. exact (IH H).
Qed.

Lemma length_drop n s : String.length (drop n s) = (String.length s - n)%nat.
Proof.
  revert s. induction n as [|n IH]; intros [|c s]; simpl; try reflexivity; try lia.
  apply IH.
Qed.

Lemma take_key_field s :
  take (key_field s) s = takewhile isspace s +:+ takewhile numch (dropwhile isspace s).
Proof.
  unfold key_field.
  pose proof (takewhile_dropwhile isspace s) as H1.
  pose proof (takewhile_dropwhile numch (dropwhile isspace s)) as H2.
  remember (takewhile isspace s) as tw eqn:Etw.
  remember (takewhile numch (dropwhile isspace s)) as tn eqn:Etn.
  remember (dropwhile numch (dropwhile isspace s)) as dn eqn:Edn.
  rewrite <- H2 in H1. clear Etw Etn Edn H2. subst s.
  rewrite <- append_assoc, <- length_append. apply take_app_length.
Qed.

Lemma all_key_field s : all blank_or_num (take (key_field s) s) = true.
Proof.
  rewrite take_key_field. apply all_append.
  - apply (all_impl isspace); [|apply all_takewhile].
    intros c H. unfold blank_or_num. rewrite H. reflexivity.
  - apply (all_impl numch); [|apply all_takewhile].
    intros c H. unfold blank_or_num. rewrite H. apply orb_true_r.
Qed.

Section NumericFormat.

Lemma num_string_of_uint d : all numch (NilEmpty.string_of_uint d) = true.
Proof. induction d; simpl; try reflexivity; exact IHd. Qed.

Lemma num_N_str n : all numch (N_str n) = true.
Proof.
  unfold N_str, NilZero.string_of_uint.
  destruct (N.to_uint n); try reflexivity; apply (num_string_of_uint (_ u)).
Qed.

Lemma num_zpad w s : all numch s = true -> all numch (zpad w s) = true.
Proof. intros H. apply all_append; [apply all_repeat_char; reflexivity|exact H]. Qed.

Lemma num_with_point n s : all numch s = true -> all numch (with_point n s) = true.
Proof.
  intros H. unfold with_point. destruct (drop n s) eqn:E; [exact H|].
  apply all_append; [apply all_take; exact H|].
  apply all_append; [reflexivity|]. rewrite <- E. apply all_drop. exact H.
Qed.

Lemma num_strip_zeros s : all numch s = true -> all numch (strip_zeros s) = true.
Proof.
  intros H. unfold strip_zeros. destruct (contains "." s); [|exact H].
  pose proof (all_dropwhile (Ascii.eqb "0") numch (String.rev s)) as Hd.
  rewrite all_rev in Hd. specialize (Hd H).
  destruct (dropwhile (Ascii.eqb "0") (String.rev s)) as [|c t]; [reflexivity|].
  simpl in Hd. apply andb_true_iff in Hd as [Hc Ht].
  destruct (Ascii.eqb c "."); rewrite all_rev; [exact Ht|].
  simpl. rewrite Hc, Ht. reflexivity.
Qed.

Lemma num_exp_str x : all numch (exp_str x) = true.
Proof.
  unfold exp_str. apply all_append; [reflexivity|].
  apply all_append; [destruct (x <? 0)%Z; reflexivity|].
  apply num_zpad, num_N_str.
Qed.

Lemma num_fixed m e p : all numch (fixed m e p) = true.
Proof. unfold fixed. apply num_with_point, num_zpad, num_N_str. Qed.

Lemma num_sci m e p : all numch (sci m e p) = true.
Proof.
  unfold sci. destruct (m =? 0)%N.
  - apply all_append; [|apply num_exp_str].
    apply num_with_point, all_repeat_char. reflexivity.
  - destruct (sci_parts m e p) as [v x].
    apply all_append; [apply num_with_point, num_N_str|apply num_exp_str].
Qed.

Lemma num_general m e prec : all numch (general m e prec) = true.
Proof.
  unfold general. destruct (m =? 0)%N; [reflexivity|].
  destruct (sci_parts m e (Nat.max 1 prec - 1)) as [v x].
  destruct ((-4 <=? x)%Z && (x <? Z.of_nat (Nat.max 1 prec))%Z).
  - apply num_strip_zeros, num_fixed.
  - apply all_append; [apply num_strip_zeros, num_with_point, num_N_str|apply num_exp_str].
Qed.

(** A number formatted without a field width is made of the characters
    of a numeric field. *)
Lemma num_format_float prec ty x :
  finite x -> all numch (format_float 0 prec ty x) = true.
Proof.
  unfold format_float. rewrite rjust_0. destruct x as [neg m e|neg|]; try contradiction.
  intros _. apply all_append; [destruct neg; reflexivity|].
  destruct ty; [apply num_sci|apply num_fixed|apply num_general].
Qed.

End NumericFormat.

Lemma sub_keeps name value :
  key_name name -> all numch value = true ->
  forall n s prev, (String.length s <= n)%nat ->
    without blank_or_num (fst (sub name value prev 0 s)) = without blank_or_num s.
Proof.
  intros Hname Hvalue. induction n as [|n IH]; intros s prev Hlen.
  - destruct s; [|simpl in Hlen; lia]. rewrite (sub_nil name Hname value). reflexivity.
  - destruct (key_ok name prev s) eqn:E.
    + rewrite (sub_match name Hname value prev _ E). cbn [fst].
      unfold key_ok in E. apply andb_true_iff in E as [_ E].
      destruct (key_end_split name _ E) as (Hle & _ & Hmax & Hmin).
      rewrite !without_app. rewrite IH.
      2:{ rewrite length_drop. lia. }
      rewrite (without_all blank_or_num " " eq_refl).
      rewrite (without_all blank_or_num value).
      2:{ apply (all_impl numch); [|exact Hvalue].
          intros d H. unfold blank_or_num. rewrite H. apply orb_true_r. }
      rewrite !append_nil_l.
      transitivity (without blank_or_num (take (key_field s) s +:+ drop (key_field s) s));
        [|rewrite take_drop; reflexivity].
      rewrite without_app, (without_all _ _ (all_key_field s)), append_nil_l.
      rewrite drop_key_field.
      transitivity (without blank_or_num
                      (take (key_end name s - key_field s)
                         (dropwhile numch (dropwhile isspace s))
                       +:+ drop (key_end name s - key_field s)
                             (dropwhile numch (dropwhile isspace s))));
        [|rewrite take_drop; reflexivity].
      rewrite without_app. f_equal. f_equal.
      rewrite <- drop_key_field, drop_drop. f_equal. lia.
    + destruct s as [|c t]; [rewrite (sub_nil name Hname value); reflexivity|].
      rewrite (sub_copy name Hname value c t prev E). cbn [fst]. simpl.
      rewrite (IH t (Some c)); [reflexivity|]. simpl in Hlen. lia.
Qed.

(** X3: whatever the template holds, the run card that [update_run_card]
    of either script writes for two numbers differs from it in blanks and
    in characters of numeric fields only: without the characters of these
    two classes the two texts are the same. *)
Theorem update_run_card_keeps_rest BASE_DIR mmin mmax text w :
  finite mmin -> finite mmax ->
  holds w ScanMll.TEMPLATE_CARD text ->
  holds w (ScanMllCxx.TEMPLATE_CARD BASE_DIR) text ->
  fst (ScanMll.update_run_card mmin mmax w) = Ok tt ->
  fst (ScanMllCxx.update_run_card BASE_DIR mmin mmax w) = Ok tt ->
  exists card,
    files (snd (ScanMll.update_run_card mmin mmax w)) !! resolve w ScanMll.RUN_CARD
      = Some card
    /\ files (snd (ScanMllCxx.update_run_card BASE_DIR mmin mmax w))
         !! resolve w (ScanMllCxx.RUN_CARD BASE_DIR) = Some card
    /\ without blank_or_num card = without blank_or_num text.
Proof.
  intros Hmin Hmax Hplain Hcxx.
  rewrite (plain_update_run_card_eq mmin mmax text w Hplain).
  rewrite (cxx_update_run_card_eq BASE_DIR mmin mmax text w Hcxx).
  pose proof (sub_keeps "mmll" (format_float 0 6 Pg mmin) key_name_min
                (num_format_float 6 Pg mmin Hmin) _ text None (Nat.le_refl _)) as H1.
  change (sub "mmll" (format_float 0 6 Pg mmin) None 0 text)
    with (subn (key_pattern "mmll") (key_repl (format_float 0 6 Pg mmin)) text) in H1.
  destruct (subn _ _ text) as [text1 nmin]. cbn [fst] in H1.
  pose proof (sub_keeps "mmllmax" (format_float 0 6 Pg mmax) key_name_max
                (num_format_float 6 Pg mmax Hmax) _ text1 None (Nat.le_refl _)) as H2.
  change (sub "mmllmax" (format_float 0 6 Pg mmax) None 0 text1)
    with (subn (key_pattern "mmllmax") (key_repl (format_float 0 6 Pg mmax)) text1) in H2.
  destruct (subn _ _ text1) as [text2 nmax]. cbn [fst] in H2.
  destruct ((nmin =? 0)%nat || (nmax =? 0)%nat); [discriminate|].
  intros _ _. exists text2. split; [|split].
  - exact (written_run_card _ _ ScanMll.RUN_CARD
             (log_event (EvRead (resolve w ScanMll.TEMPLATE_CARD)) w)).
  - exact (written_run_card _ _ (ScanMllCxx.RUN_CARD BASE_DIR)
             (log_event (EvRead (resolve w (ScanMllCxx.TEMPLATE_CARD BASE_DIR))) w)).
  - rewrite H2. exact H1.
Qed.

Lemma update_run_card_keeps_rest_witness :
  exists card,
    files (snd (ScanMll.update_run_card (float_of_int 15) (float_of_int 20)
                  Examples.world_blank_line))
      !! resolve Examples.world_blank_line ScanMll.RUN_CARD = Some card
    /\ files (snd (ScanMllCxx.update_run_card Examples.proc_dir (float_of_int 15)
                     (float_of_int 20) Examples.world_blank_line))
         !! resolve Examples.world_blank_line (ScanMllCxx.RUN_CARD Examples.proc_dir)
       = Some card
    /\ without blank_or_num card = without blank_or_num Examples.card_with_blank_line.
Proof.
  apply (update_run_card_keeps_rest Examples.proc_dir (float_of_int 15) (float_of_int 20)
           Examples.card_with_blank_line Examples.world_blank_line).
  - exact I.
  - exact I.
  - vm_compute; reflexivity.
  - vm_compute; reflexivity.
  - vm_compute; reflexivity.
  - vm_compute; reflexivity.
Defined.

(** ** The pattern of the parameter card *)

(** A greedy loop whose continuation cannot start with a character of
    the class takes the whole run. *)
Lemma run_star p ps marks :
  (forall prev pos c t, p c = true -> run ps prev pos marks (String c t) = None) ->
  forall prev pos s,
    run (Star p :: ps) prev pos marks s
    = run ps (last_char prev (takewhile p s)) (pos + String.length (takewhile p s))%nat
        marks (dropwhile p s).
Proof.
  intros Hk prev pos s.
  change (run (Star p :: ps) prev pos marks s)
    with (star p (fun prev' pos' s' => run ps prev' pos' marks s') prev pos s).
  apply (star_greedy p (fun prev' pos' s' => run ps prev' pos' marks s')). exact Hk.
Qed.

Lemma run_plus_class p ps marks :
  (forall prev pos c t, p c = true -> run ps prev pos marks (String c t) = None) ->
  forall prev pos s,
    run (Plus p :: ps) prev pos marks s
    = if head_in p s
      then run ps (last_char prev (takewhile p s)) (pos + String.length (takewhile p s))%nat
             marks (dropwhile p s)
      else None.
Proof.
  intros Hk prev pos [|c t]; [reflexivity|].
  change (run (Plus p :: ps) prev pos marks (String c t))
    with (if p c
          then star p (fun prev' pos' s' => run ps prev' pos' marks s') (Some c) (S pos) t
          else None).
  cbn [head_in takewhile dropwhile]. destruct (p c) eqn:Hc; [|reflexivity].
  rewrite (star_greedy p (fun prev' pos' s' => run ps prev' pos' marks s') Hk).
  cbn [last_char String.length]. f_equal. lia.
Qed.

(** An optional character of a class, before a loop over a larger class,
    makes no difference. *)
Lemma run_opt_class q p ps marks :
  (forall c, q c = true -> p c = true) ->
  (forall prev pos c t, p c = true -> run ps prev pos marks (String c t) = None) ->
  forall prev pos s,
    run (Opt q :: Plus p :: ps) prev pos marks s = run (Plus p :: ps) prev pos marks s.
Proof.
  intros Hqp Hk prev pos [|c t]; [reflexivity|].
  change (run (Opt q :: Plus p :: ps) prev pos marks (String c t))
    with (if q c
          then match run (Plus p :: ps) (Some c) (S pos) marks t with
               | Some r => Some r
               | None => run (Plus p :: ps) prev pos marks (String c t)
               end
          else run (Plus p :: ps) prev pos marks (String c t)).
  destruct (q c) eqn:Hq; [|reflexivity].
  rewrite !(run_plus_class p ps marks Hk).
  cbn [head_in takewhile dropwhile]. rewrite (Hqp c Hq).
  destruct (head_in p t) eqn:Ht; [|reflexivity].
  cbn [last_char String.length].
  replace (S pos + String.length (takewhile p t))%nat
    with (pos + S (String.length (takewhile p t)))%nat by lia.
  destruct (run ps _ _ marks (dropwhile p t)); reflexivity.
Qed.

Lemma head_in_false p c t : p c = false -> head_in p (String c t) = false.
Proof. intros H. exact H. Qed.

Section CxxMatcher.
Variable label : string.
Hypothesis Hlabel : key_name label.

Lemma run_hash prev pos marks s :
  run [Lit "#"; Star isspace; Lit label; WordB; GClose] prev pos marks s
  = if ok_hash label s
    then Some (List.rev ((pos + hash_end label s)%nat :: marks), (pos + hash_end label s)%nat)
    else None.
Proof.
  destruct s as [|c t]; [reflexivity|].
  change (run [Lit "#"; Star isspace; Lit label; WordB; GClose] prev pos marks (String c t))
    with (if Ascii.eqb "#" c && true
          then run [Star isspace; Lit label; WordB; GClose] (Some "#"%char) (pos + 1)
                 marks t
          else None).
  unfold ok_hash. rewrite (Ascii.eqb_sym "#"%char c), andb_true_r.
  destruct (Ascii.eqb c "#"); [|reflexivity]. cbn [andb].
  rewrite (run_ws2 label Hlabel). unfold hash_end. cbn [drop].
  destruct (ok_ws2 label t); [|reflexivity].
  replace (pos + 1 + String.length (takewhile isspace t) + String.length label)%nat
    with (pos + (1 + String.length (takewhile isspace t) + String.length label))%nat by lia.
  reflexivity.
Qed.

Lemma hash_not_space prev pos marks c t :
  isspace c = true ->
  run [Lit "#"; Star isspace; Lit label; WordB; GClose] prev pos marks (String c t) = None.
Proof.
  intros Hc. rewrite run_hash. unfold ok_hash.
  destruct (Ascii.eqb c "#") eqn:E; [|reflexivity].
  apply Ascii.eqb_eq in E. subst c. discriminate.
Qed.

Lemma run_gap prev pos marks s :
  run [Plus isspace; Lit "#"; Star isspace; Lit label; WordB; GClose] prev pos marks s
  = if ok_gap label s
    then let e := (pos + String.length (takewhile isspace s)
                   + hash_end label (dropwhile isspace s))%nat in
         Some (List.rev (e :: marks), e)
    else None.
Proof.
  rewrite (run_plus_class isspace _ marks (fun pr po c t => hash_not_space pr po marks c t)).
  unfold ok_gap. destruct (head_in isspace s); [|reflexivity]. cbn [andb].
  apply run_hash.
Qed.

Lemma gap_not_num prev pos marks c t :
  numch c = true ->
  run [GOpen; Plus isspace; Lit "#"; Star isspace; Lit label; WordB; GClose]
    prev pos marks (String c t) = None.
Proof.
  intros Hc.
  change (run (GOpen :: ?ps) prev pos marks ?s0) with (run ps prev pos (pos :: marks) s0).
  rewrite run_gap. unfold ok_gap. cbn [head_in].
  rewrite (num_not_space c Hc). reflexivity.
Qed.

Lemma run_value prev pos marks s :
  run [Opt signch; Plus numch; GOpen; Plus isspace; Lit "#"; Star isspace; Lit label;
       WordB; GClose] prev pos marks s
  = if ok_value label s
    then let b := (pos + String.length (takewhile numch s))%nat in
         let e := (b + String.length (takewhile isspace (dropwhile numch s))
                   + hash_end label (dropwhile isspace (dropwhile numch s)))%nat in
         Some (List.rev (e :: b :: marks), e)
    else None.
Proof.
  rewrite (run_opt_class signch numch _ marks sign_num
             (fun pr po c t => gap_not_num pr po marks c t)).
  rewrite (run_plus_class numch _ marks (fun pr po c t => gap_not_num pr po marks c t)).
  unfold ok_value. destruct (head_in numch s); [|reflexivity]. cbn [andb].
  change (run (GOpen :: ?ps) ?pr ?po marks ?s0) with (run ps pr po (po :: marks) s0).
  apply run_gap.
Qed.

Lemma value_not_space prev pos marks c t :
  isspace c = true ->
  run [GClose; Opt signch; Plus numch; GOpen; Plus isspace; Lit "#"; Star isspace;
       Lit label; WordB; GClose] prev pos marks (String c t) = None.
Proof.
  intros Hc.
  change (run (GClose :: ?ps) prev pos marks ?s0) with (run ps prev pos (pos :: marks) s0).
  rewrite run_value. unfold ok_value. cbn [head_in].
  rewrite (space_not_num c Hc). reflexivity.
Qed.

Lemma run_sep prev pos marks s :
  run [Plus isspace; GClose; Opt signch; Plus numch; GOpen; Plus isspace; Lit "#";
       Star isspace; Lit label; WordB; GClose] prev pos marks s
  = if ok_sep label s
    then let a := (pos + String.length (takewhile isspace s))%nat in
         let s3 := dropwhile isspace s in
         let b := (a + String.length (takewhile numch s3))%nat in
         let e := (b + String.length (takewhile isspace (dropwhile numch s3))
                   + hash_end label (dropwhile isspace (dropwhile numch s3)))%nat in
         Some (List.rev (e :: b :: a :: marks), e)
    else None.
Proof.
  rewrite (run_plus_class isspace _ marks (fun pr po c t => value_not_space pr po marks c t)).
  unfold ok_sep. destruct (head_in isspace s); [|reflexivity]. cbn [andb].
  change (run (GClose :: ?ps) ?pr ?po marks ?s0) with (run ps pr po (po :: marks) s0).
  apply run_value.
Qed.

Lemma digit_not_space c : isdigit c = true -> isspace c = false.
Proof. destruct c as [[] [] [] [] [] [] [] []]; vm_compute; congruence. Qed.

Lemma space_not_digit c : isspace c = true -> isdigit c = false.
Proof. destruct c as [[] [] [] [] [] [] [] []]; vm_compute; congruence. Qed.

Lemma sep_not_digit prev pos marks c t :
  isdigit c = true ->
  run [Plus isspace; GClose; Opt signch; Plus numch; GOpen; Plus isspace; Lit "#";
       Star isspace; Lit label; WordB; GClose] prev pos marks (String c t) = None.
Proof.
  intros Hc. rewrite run_sep. unfold ok_sep. cbn [head_in].
  rewrite (digit_not_space c Hc). reflexivity.
Qed.

Lemma run_index prev pos marks s :
  run [Plus isdigit; Plus isspace; GClose; Opt signch; Plus numch; GOpen; Plus isspace;
       Lit "#"; Star isspace; Lit label; WordB; GClose] prev pos marks s
  = if ok_index label s
    then let s2 := dropwhile isdigit s in
         let a := (pos + String.length (takewhile isdigit s)
                   + String.length (takewhile isspace s2))%nat in
         let s3 := dropwhile isspace s2 in
         let b := (a + String.length (takewhile numch s3))%nat in
         let e := (b + String.length (takewhile isspace (dropwhile numch s3))
                   + hash_end label (dropwhile isspace (dropwhile numch s3)))%nat in
         Some (List.rev (e :: b :: a :: marks), e)
    else None.
Proof.
  rewrite (run_plus_class isdigit _ marks (fun pr po c t => sep_not_digit pr po marks c t)).
  unfold ok_index. destruct (head_in isdigit s); [|reflexivity]. cbn [andb].
  apply run_sep.
Qed.

Lemma index_not_space prev pos marks c t :
  isspace c = true ->
  run [Plus isdigit; Plus isspace; GClose; Opt signch; Plus numch; GOpen; Plus isspace;
       Lit "#"; Star isspace; Lit label; WordB; GClose] prev pos marks (String c t) = None.
Proof.
  intros Hc. rewrite run_index. unfold ok_index. cbn [head_in].
  rewrite (space_not_digit c Hc). reflexivity.
Qed.

(** The backtracking matcher and the deterministic scan agree on the
    pattern of the parameter card. *)
Lemma match_at_cxx prev s :
  match_at (cxx_pattern label) prev s
  = if cxx_ok label prev s
    then Some ([0%nat; cxx_head s; cxx_mid s; cxx_end label s], cxx_end label s)
    else None.
Proof.
  unfold match_at, cxx_pattern, cxx_ok.
  change (run (Bol :: GOpen :: ?ps) prev 0 [] s)
    with (if at_bol prev then run ps prev 0 [0%nat] s else None).
  destruct (at_bol prev); [|reflexivity]. cbn [andb].
  rewrite (run_star isspace _ [0%nat] (fun pr po c t => index_not_space pr po [0%nat] c t)).
  rewrite run_index.
  destruct (ok_index label (dropwhile isspace s)); reflexivity.
Qed.

End CxxMatcher.

Lemma matches_at_cxx label prev s :
  key_name label -> matches_at (cxx_pattern label) prev s = cxx_ok label prev s.
Proof.
  intros Hlabel. unfold matches_at. rewrite (match_at_cxx label Hlabel).
  destruct (cxx_ok label prev s); reflexivity.
Qed.

(** ** [re.subn], one step at a time *)

Section Subn.
Variable ps : pattern.
Variable repl : string -> list nat -> string.

Lemma subn_go_nil prev skip :
  match_at ps prev "" = None -> subn_go ps repl prev skip "" = ("", 0%nat).
Proof. intros H. simpl. rewrite H. destruct skip; reflexivity. Qed.

Lemma subn_go_copy prev c t :
  match_at ps prev (String c t) = None ->
  subn_go ps repl prev 0 (String c t)
  = (String c (fst (subn_go ps repl (Some c) 0 t)), snd (subn_go ps repl (Some c) 0 t)).
Proof. intros H. simpl. rewrite H. destruct (subn_go _ _ _ _ t); reflexivity. Qed.

Lemma subn_go_skip prev n s :
  (n <= String.length s)%nat ->
  subn_go ps repl prev n s = subn_go ps repl (last_char prev (take n s)) 0 (drop n s).
Proof.
  revert prev s. induction n as [|n IH]; intros prev s Hn.
  - destruct s; reflexivity.
  - destruct s as [|c t]; simpl in Hn; [lia|].
    change (subn_go ps repl prev (S n) (String c t)) with (subn_go ps repl (Some c) n t).
    simpl. apply IH. lia.
Qed.

Lemma subn_go_match prev s marks e :
  match_at ps prev s = Some (marks, e) ->
  (1 <= e <= String.length s)%nat ->
  subn_go ps repl prev 0 s
  = (repl s marks
     +:+ fst (subn_go ps repl (last_char prev (take e s)) 0 (drop e s)),
     S (snd (subn_go ps repl (last_char prev (take e s)) 0 (drop e s)))).
Proof.
  intros H [Hpos Hlen].
  destruct s as [|c t]; [simpl in Hlen; lia|].
  simpl subn_go. rewrite H.
  destruct e as [|n]; [lia|].
  change (subn_go ps repl (Some c) n t) with (subn_go ps repl prev (S n) (String c t)).
  rewrite subn_go_skip by exact Hlen.
  destruct (subn_go _ _ _ 0 _) as [out cnt]. reflexivity.
Qed.

(** The number of substitutions does not depend on the replacement. *)
Lemma subn_go_count repl' : forall s prev skip,
  snd (subn_go ps repl prev skip s) = snd (subn_go ps repl' prev skip s).
Proof.
  induction s as [|c t IH]; intros prev skip.
  - simpl. destruct skip; [|reflexivity].
    destruct (match_at ps prev "") as [[marks e]|]; reflexivity.
  - simpl. destruct skip as [|k]; [|apply IH].
    destruct (match_at ps prev (String c t)) as [[marks [|n]]|].
    + specialize (IH (Some c) 0%nat).
      destruct (subn_go ps repl (Some c) 0 t), (subn_go ps repl' (Some c) 0 t).
      simpl in *. congruence.
    + specialize (IH (Some c) n).
      destruct (subn_go ps repl (Some c) n t), (subn_go ps repl' (Some c) n t).
      simpl in *. congruence.
    + specialize (IH (Some c) 0%nat).
      destruct (subn_go ps repl (Some c) 0 t), (subn_go ps repl' (Some c) 0 t).
      simpl in *. congruence.
Qed.

End Subn.

(** ** The parts of a match in the parameter card *)

Lemma take_length_takewhile p s : take (String.length (takewhile p s)) s = takewhile p s.
Proof.
  transitivity (take (String.length (takewhile p s)) (takewhile p s +:+ dropwhile p s)).
  - rewrite takewhile_dropwhile. reflexivity.
  - apply take_app_length.
Qed.

Lemma drop_cxx_head s : drop (cxx_head s) s = from_value s.
Proof.
  unfold cxx_head, from_value.
  rewrite <- !drop_drop, !drop_length_takewhile. reflexivity.
Qed.

Lemma drop_cxx_mid s : drop (cxx_mid s) s = past_value s.
Proof.
  unfold cxx_mid, past_value.
  rewrite <- drop_drop, drop_cxx_head, drop_length_takewhile. reflexivity.
Qed.

Lemma head_in_length p s : head_in p s = true -> (1 <= String.length (takewhile p s))%nat.
Proof. destruct s as [|c t]; [discriminate|]. simpl. intros ->. simpl. lia. Qed.

Lemma cxx_bounds label s :
  ok_index label (dropwhile isspace s) = true ->
  (1 <= cxx_head s <= cxx_mid s)%nat
  /\ (cxx_mid s <= cxx_end label s <= String.length s)%nat.
Proof.
  unfold ok_index, ok_sep, ok_value, ok_gap, ok_hash.
  intros H.
  apply andb_true_iff in H as [H1 H]. apply andb_true_iff in H as [H2 H].
  apply andb_true_iff in H as [H3 H]. apply andb_true_iff in H as [H4 H].
  unfold cxx_end, cxx_mid, cxx_head, past_value, from_value, hash_end.
  pose proof (head_in_length _ _ H1). pose proof (head_in_length _ _ H2).
  pose proof (length_takewhile_dropwhile isspace s).
  pose proof (length_takewhile_dropwhile isdigit (dropwhile isspace s)).
  pose proof (length_takewhile_dropwhile isspace (dropwhile isdigit (dropwhile isspace s))).
  set (s3 := dropwhile isspace (dropwhile isdigit (dropwhile isspace s))) in *.
  pose proof (length_takewhile_dropwhile numch s3).
  pose proof (length_takewhile_dropwhile isspace (dropwhile numch s3)).
  destruct (dropwhile isspace (dropwhile numch s3)) as [|c t] eqn:E5; [discriminate|].
  apply andb_true_iff in H as [_ H].
  unfold ok_ws2, ok_name in H. apply andb_true_iff in H as [H _].
  apply startswith_length in H.
  pose proof (length_takewhile_dropwhile isspace t).
  cbn [drop String.length] in *. lia.
Qed.

Lemma all_cxx_value s :
  all numch (take (cxx_mid s - cxx_head s) (drop (cxx_head s) s)) = true.
Proof.
  rewrite drop_cxx_head. unfold cxx_mid.
  replace (cxx_head s + String.length (takewhile numch (from_value s)) - cxx_head s)%nat
    with (String.length (takewhile numch (from_value s))) by lia.
  rewrite take_length_takewhile. apply all_takewhile.
Qed.

(** A text cut at three offsets. *)
Lemma cut3 a b e s :
  (a <= b)%nat -> (b <= e)%nat ->
  s = take a s +:+ take (b - a) (drop a s) +:+ take (e - b) (drop b s) +:+ drop e s.
Proof.
  intros Hab Hbe.
  rewrite <- (take_drop a s) at 1. f_equal.
  rewrite <- (take_drop (b - a) (drop a s)) at 1. f_equal.
  rewrite drop_drop. replace (a + (b - a))%nat with b by lia.
  rewrite <- (take_drop (e - b) (drop b s)) at 1. f_equal.
  rewrite drop_drop. f_equal. lia.
Qed.

Section CxxSub.
Variable label : string.
Hypothesis Hlabel : key_name label.
Variable value : string.

(** One match: group 1 and group 2 are kept, the numeric field between
    them is replaced, and the search resumes after the label. *)
Lemma cxx_sub_match prev s :
  cxx_ok label prev s = true ->
  subn_go (cxx_pattern label) (cxx_repl value) prev 0 s
  = (take (cxx_head s) s +:+ value
     +:+ take (cxx_end label s - cxx_mid s) (drop (cxx_mid s) s)
     +:+ fst (subn_go (cxx_pattern label) (cxx_repl value)
                (last_char prev (take (cxx_end label s) s)) 0 (drop (cxx_end label s) s)),
     S (snd (subn_go (cxx_pattern label) (cxx_repl value)
               (last_char prev (take (cxx_end label s) s)) 0 (drop (cxx_end label s) s)))).
Proof.
  intros H. pose proof H as H'. unfold cxx_ok in H'. apply andb_true_iff in H' as [_ H0].
  destruct (cxx_bounds label s H0) as [[H1 H2] [H3 H4]].
  rewrite (subn_go_match _ _ prev s [0%nat; cxx_head s; cxx_mid s; cxx_end label s]
             (cxx_end label s)).
  - unfold cxx_repl, group. cbn [nth Nat.mul Nat.sub Nat.add drop].
    rewrite Nat.sub_0_r, !append_assoc. reflexivity.
  - rewrite (match_at_cxx label Hlabel), H. reflexivity.
  - lia.
Qed.

End CxxSub.

(** ** [update_param_card] *)

Lemma update_param_card_eq BASE_DIR label cxx_value text w :
  holds w (ScanMllCxx.PARAM_CARD_TEMPLATE BASE_DIR) text ->
  ScanMllCxx.update_param_card BASE_DIR label cxx_value w
  = (let '(new_text, n) :=
       subn (cxx_pattern label)
         (cxx_repl (format_float 0 6 Pe (float_of_int cxx_value))) text in
     if (n =? 0)%nat
     then raise (RuntimeError
                   ("Could not find a line with '# " +:+ label +:+ "' in "
                    +:+ path_str (ScanMllCxx.PARAM_CARD_TEMPLATE BASE_DIR)))
     else
       write_text (ScanMllCxx.PARAM_CARD BASE_DIR) new_text ;;
       print ("  -> Updated param_card.dat: " +:+ label +:+ " = " +:+ int_str cxx_value))
      (log_event (EvRead (resolve w (ScanMllCxx.PARAM_CARD_TEMPLATE BASE_DIR))) w).
Proof.
  intros H. unfold holds in H. unfold ScanMllCxx.update_param_card, bind at 1, read_text.
  rewrite H. reflexivity.
Qed.

(** ** What a substitution in the parameter card keeps *)

Lemma patched_app value keep text card :
  patched value text card -> patched value (keep +:+ text) (keep +:+ card).
Proof.
  intros H. induction keep as [|c keep IH]; [rewrite !append_nil_l; exact H|].
  rewrite !append_cons. apply patched_keep. exact IH.
Qed.

Lemma last_char_blanks prev s :
  all isspace s = true -> s <> "" ->
  exists b, last_char prev s = Some b /\ isspace b = true.
Proof.
  revert prev. induction s as [|c t IH]; intros prev Hall Hne; [contradiction|].
  simpl in Hall. apply andb_true_iff in Hall as [Hc Ht]. simpl.
  destruct t as [|d u]; [exists c; auto|].
  apply IH; [exact Ht|discriminate].
Qed.

(** Group 1 of a match ends with a blank. *)
Lemma ends_blank_head s :
  head_in isspace (dropwhile isdigit (dropwhile isspace s)) = true ->
  ends_blank (take (cxx_head s) s) = true.
Proof.
  intros H. unfold ends_blank.
  set (s1 := dropwhile isspace s).
  set (s2 := dropwhile isdigit s1).
  assert (take (cxx_head s) s
          = takewhile isspace s +:+ takewhile isdigit s1 +:+ takewhile isspace s2) as ->.
  { transitivity (take (String.length (takewhile isspace s +:+ takewhile isdigit s1
                                       +:+ takewhile isspace s2))
                    ((takewhile isspace s +:+ takewhile isdigit s1 +:+ takewhile isspace s2)
                     +:+ dropwhile isspace s2)); [|apply take_app_length].
    f_equal.
    - unfold cxx_head. fold s1 s2. rewrite !length_append. lia.
    - rewrite !append_assoc. unfold s2, s1. rewrite !takewhile_dropwhile. reflexivity. }
  rewrite !last_char_app.
  destruct (last_char_blanks (last_char (last_char None (takewhile isspace s))
                                (takewhile isdigit s1)) (takewhile isspace s2))
    as (b & -> & Hb).
  - apply all_takewhile.
  - pose proof (head_in_length _ _ H) as Hlen.
    intros E. unfold s2, s1 in E. rewrite E in Hlen. simpl in Hlen. lia.
  - exact Hb.
Qed.

Section CxxPatch.
Variable label : string.
Hypothesis Hlabel : key_name label.
Variable value : string.

Lemma cxx_sub_patched :
  forall n s prev, (String.length s <= n)%nat ->
    patched value s (fst (subn_go (cxx_pattern label) (cxx_repl value) prev 0 s)).
Proof.
  induction n as [|n IH]; intros s prev Hlen.
  - destruct s; [|simpl in Hlen; lia].
    rewrite subn_go_nil; [constructor|].
    rewrite (match_at_cxx label Hlabel). unfold cxx_ok. rewrite andb_false_r. reflexivity.
  - destruct (cxx_ok label prev s) eqn:E.
    + rewrite (cxx_sub_match label Hlabel value prev s E). cbn [fst].
      unfold cxx_ok in E. apply andb_true_iff in E as [_ E].
      destruct (cxx_bounds label s E) as [[H1 H2] [H3 H4]].
      pose proof (IH (drop (cxx_end label s) s)
                    (last_char prev (take (cxx_end label s) s))
                    ltac:(rewrite length_drop; lia)) as Hrest.
      pose proof (all_cxx_value s) as Hnum.
      pose proof (cut3 (cxx_head s) (cxx_mid s) (cxx_end label s) s H2 H3) as Hcut.
      assert (take (cxx_end label s - cxx_mid s) (drop (cxx_mid s) s)
              +:+ drop (cxx_end label s) s = past_value s) as Htail.
      { replace (cxx_end label s) with (cxx_mid s + (cxx_end label s - cxx_mid s))%nat at 2
          by lia.
        rewrite <- drop_drop, take_drop. apply drop_cxx_mid. }
      assert (take (cxx_mid s - cxx_head s) (drop (cxx_head s) s) <> ""
              /\ head_in isspace (dropwhile isdigit (dropwhile isspace s)) = true
              /\ head_in isspace (past_value s) = true
              /\ startswith "#" (dropwhile isspace (past_value s)) = true)
        as (Hne & Hsep & Hgap & Hhash).
      { unfold ok_index, ok_sep, ok_value, ok_gap in E.
        apply andb_true_iff in E as [_ E]. apply andb_true_iff in E as [Hsep E].
        apply andb_true_iff in E as [Hval E]. apply andb_true_iff in E as [Hgap E].
        fold (from_value s) in Hval, E. fold (past_value s) in Hgap, E.
        split; [|split; [exact Hsep|split; [exact Hgap|]]].
        - rewrite drop_cxx_head. unfold cxx_mid.
          replace (cxx_head s + String.length (takewhile numch (from_value s)) - cxx_head s)%nat
            with (String.length (takewhile numch (from_value s))) by lia.
          rewrite take_length_takewhile.
          pose proof (head_in_length _ _ Hval) as Hl.
          destruct (takewhile numch (from_value s)); [simpl in Hl; lia|discriminate].
        - unfold ok_hash in E. destruct (dropwhile isspace (past_value s)) as [|h u];
            [discriminate|].
          apply andb_true_iff in E as [E _]. apply Ascii.eqb_eq in E. subst h. reflexivity. }
      set (before := take (cxx_head s) s) in *.
      set (field := take (cxx_mid s - cxx_head s) (drop (cxx_head s) s)) in *.
      set (comment := take (cxx_end label s - cxx_mid s) (drop (cxx_mid s) s)) in *.
      set (rest := drop (cxx_end label s) s) in *.
      set (out := fst (subn_go _ _ _ 0 rest)) in *.
      assert (patched value (before +:+ field +:+ comment +:+ rest)
                (before +:+ value +:+ comment +:+ out)) as Hp.
      { apply patched_field.
        - apply ends_blank_head. exact Hsep.
        - exact Hne.
        - exact Hnum.
        - rewrite Htail. exact Hgap.
        - rewrite Htail. exact Hhash.
        - apply patched_app. exact Hrest. }
      rewrite <- Hcut in Hp. exact Hp.
    + destruct s as [|c t].
      * rewrite subn_go_nil; [constructor|].
        rewrite (match_at_cxx label Hlabel), E. reflexivity.
      * rewrite subn_go_copy by (rewrite (match_at_cxx label Hlabel), E; reflexivity).
        cbn [fst]. apply patched_keep. apply IH. simpl in Hlen. lia.
Qed.

End CxxPatch.

(** X4: whatever the template holds, the parameter card that
    [update_param_card] writes for a label of word characters is the text it
    read with some numeric fields replaced by the formatted value and every
    other character kept where it was; a field that is replaced is a run of
    characters of [[0-9.eE+-]], not empty, that stands after a blank and
    before blanks and a comment sign. *)
Theorem update_param_card_keeps_rest BASE_DIR label cxx_value text w :
  key_name label ->
  holds w (ScanMllCxx.PARAM_CARD_TEMPLATE BASE_DIR) text ->
  fst (ScanMllCxx.update_param_card BASE_DIR label cxx_value w) = Ok tt ->
  exists card,
    files (snd (ScanMllCxx.update_param_card BASE_DIR label cxx_value w))
      !! resolve w (ScanMllCxx.PARAM_CARD BASE_DIR) = Some card
    /\ patched (format_float 0 6 Pe (float_of_int cxx_value)) text card.
Proof.
  intros Hlabel Hholds.
  rewrite (update_param_card_eq BASE_DIR label cxx_value text w Hholds).
  pose proof (cxx_sub_patched label Hlabel (format_float 0 6 Pe (float_of_int cxx_value))
                _ text None (Nat.le_refl _)) as H.
  change (subn_go (cxx_pattern label) ?r None 0 text)
    with (subn (cxx_pattern label) r text) in H.
  destruct (subn _ _ text) as [new_text n]. cbn [fst] in H.
  destruct (n =? 0)%nat; [discriminate|].
  intros _. exists new_text. split; [|exact H].
  exact (written_run_card _ _ (ScanMllCxx.PARAM_CARD BASE_DIR)
           (log_event (EvRead (resolve w (ScanMllCxx.PARAM_CARD_TEMPLATE BASE_DIR))) w)).
Qed.

Lemma update_param_card_keeps_rest_witness :
  exists card,
    files (snd (ScanMllCxx.update_param_card Examples.proc_dir "cuu" (-100)
                  Examples.world_without_max))
      !! resolve Examples.world_without_max (ScanMllCxx.PARAM_CARD Examples.proc_dir)
      = Some card
    /\ patched (format_float 0 6 Pe (float_of_int (-100))) Examples.param_template card.
Proof.
  apply (update_param_card_keeps_rest Examples.proc_dir "cuu" (-100)%Z
           Examples.param_template Examples.world_without_max).
  - split; [discriminate|reflexivity].
  - vm_compute; reflexivity.
  - vm_compute; reflexivity.
Defined.

(** ** The parameter card, line by line *)

Lemma head_in_app p x y : x <> "" -> head_in p (x +:+ y) = head_in p x.
Proof. destruct x; [contradiction|reflexivity]. Qed.

Lemma is_empty_false s : is_empty s = false -> s <> "".
Proof. destruct s; [discriminate|discriminate]. Qed.

Lemma head_in_nonempty p s : head_in p s = true -> s <> "".
Proof. destruct s; [discriminate|discriminate]. Qed.

Lemma takewhile_app p x y : dropwhile p x <> "" -> takewhile p (x +:+ y) = takewhile p x.
Proof.
  induction x as [|c x IH]; [contradiction|].
  rewrite append_cons. simpl. destruct (p c); [|reflexivity].
  intros H. rewrite (IH H). reflexivity.
Qed.

Lemma takewhile_all_app p w r : all p w = true -> takewhile p (w +:+ r) = w +:+ takewhile p r.
Proof.
  induction w as [|c w IH]; [rewrite !append_nil_l; reflexivity|].
  simpl. intros H. apply andb_true_iff in H as [Hc Hw].
  rewrite !append_cons. simpl. rewrite Hc, (IH Hw). reflexivity.
Qed.

Lemma dropwhile_all_app p w r : all p w = true -> dropwhile p (w +:+ r) = dropwhile p r.
Proof.
  induction w as [|c w IH]; [rewrite !append_nil_l; reflexivity|].
  intros H. simpl in H. apply andb_true_iff in H as [Hc Hw].
  rewrite append_cons. simpl. rewrite Hc. exact (IH Hw).
Qed.

Lemma take_app_le n x y : (n <= String.length x)%nat -> take n (x +:+ y) = take n x.
Proof.
  revert x. induction n as [|n IH]; intros x H; [reflexivity|].
  destruct x as [|c x]; simpl in H; [lia|].
  rewrite append_cons. simpl. rewrite IH by lia. reflexivity.
Qed.

Lemma take_app_ge n x y : take (String.length x + n) (x +:+ y) = x +:+ take n y.
Proof.
  induction x as [|c x IH]; [rewrite !append_nil_l; reflexivity|].
  rewrite !append_cons. simpl. rewrite IH. reflexivity.
Qed.

Lemma drop_app_ge n x y : drop (String.length x + n) (x +:+ y) = drop n y.
Proof.
  induction x as [|c x IH]; [rewrite !append_nil_l; reflexivity|].
  rewrite !append_cons. simpl. exact IH.
Qed.

Section CxxLocal.
Variable label : string.
Hypothesis Hlabel : key_name label.
Variable r : string.

Local Abbreviation rest := (String nl r).

Lemma ok_hash_local s : off_hash s = false -> ok_hash label (s +:+ rest) = ok_hash label s.
Proof.
  destruct s as [|c t]; [discriminate|]. rewrite append_cons. unfold off_hash, ok_hash.
  destruct (Ascii.eqb c "#"); [|reflexivity]. cbn [andb]. intros H.
  apply is_empty_false in H. unfold ok_ws2.
  rewrite (dropwhile_app isspace t rest H).
  apply ok_name_app_nl. exact (proj2 Hlabel).
Qed.

Lemma off_hash_nonempty s : off_hash s = false -> s <> "".
Proof. destruct s; [discriminate|discriminate]. Qed.

Lemma ok_gap_local s : off_gap s = false -> ok_gap label (s +:+ rest) = ok_gap label s.
Proof.
  unfold off_gap, ok_gap. intros H. apply orb_false_iff in H as [Hne H].
  apply is_empty_false in Hne. rewrite (head_in_app isspace s rest Hne).
  destruct (head_in isspace s); [|reflexivity]. cbn [andb] in *.
  rewrite (dropwhile_app isspace s rest (off_hash_nonempty _ H)).
  apply ok_hash_local. exact H.
Qed.

Lemma off_gap_nonempty s : off_gap s = false -> s <> "".
Proof. destruct s; [discriminate|discriminate]. Qed.

Lemma ok_value_local s :
  s <> "" -> off_value s = false -> ok_value label (s +:+ rest) = ok_value label s.
Proof.
  unfold off_value, ok_value. intros Hne H. rewrite (head_in_app numch s rest Hne).
  destruct (head_in numch s); [|reflexivity]. cbn [andb] in *.
  rewrite (dropwhile_app numch s rest (off_gap_nonempty _ H)).
  apply ok_gap_local. exact H.
Qed.

Lemma ok_sep_local s : off_sep s = false -> ok_sep label (s +:+ rest) = ok_sep label s.
Proof.
  unfold off_sep, ok_sep. intros H. apply orb_false_iff in H as [Hne H].
  apply is_empty_false in Hne. rewrite (head_in_app isspace s rest Hne).
  destruct (head_in isspace s); [|reflexivity]. cbn [andb] in *.
  apply orb_false_iff in H as [Hne' H]. apply is_empty_false in Hne'.
  rewrite (dropwhile_app isspace s rest Hne').
  apply ok_value_local; assumption.
Qed.

(** On a line that is neither blank nor dangling the scan does not see
    what follows the line. *)
Lemma cxx_ok_local prev l :
  dropwhile isspace l <> "" -> dangling l = false ->
  cxx_ok label prev (l +:+ rest) = cxx_ok label prev l.
Proof.
  intros Hne Hd. unfold cxx_ok. f_equal.
  rewrite (dropwhile_app isspace l rest Hne).
  unfold dangling in Hd. unfold ok_index.
  rewrite (head_in_app isdigit _ rest Hne).
  destruct (head_in isdigit (dropwhile isspace l)); [|reflexivity]. cbn [andb] in *.
  assert (dropwhile isdigit (dropwhile isspace l) <> "") as Hne2.
  { intros E. rewrite E in Hd. discriminate. }
  rewrite (dropwhile_app isdigit _ rest Hne2).
  apply ok_sep_local. exact Hd.
Qed.

End CxxLocal.

(** Where the pattern matches, the offsets of the match do not depend on
    the text after the label. *)
Lemma cxx_offsets_local label s y :
  key_name label ->
  ok_index label (dropwhile isspace s) = true ->
  cxx_head (s +:+ y) = cxx_head s
  /\ cxx_mid (s +:+ y) = cxx_mid s
  /\ cxx_end label (s +:+ y) = cxx_end label s.
Proof.
  unfold ok_index, ok_sep, ok_value, ok_gap. intros Hlabel H.
  apply andb_true_iff in H as [H1 H]. apply andb_true_iff in H as [H2 H].
  apply andb_true_iff in H as [H3 H]. apply andb_true_iff in H as [H4 H].
  pose proof (head_in_nonempty _ _ H1) as N1.
  pose proof (head_in_nonempty _ _ H2) as N2.
  pose proof (head_in_nonempty _ _ H3) as N3.
  pose proof (head_in_nonempty _ _ H4) as N4.
  unfold cxx_end, cxx_mid, cxx_head, past_value, from_value, hash_end.
  rewrite (takewhile_app isspace s y N1), (dropwhile_app isspace s y N1).
  rewrite (takewhile_app isdigit _ y N2), (dropwhile_app isdigit _ y N2).
  rewrite (takewhile_app isspace _ y N3), (dropwhile_app isspace _ y N3).
  rewrite (takewhile_app numch _ y N4), (dropwhile_app numch _ y N4).
  set (s4 := dropwhile numch (dropwhile isspace (dropwhile isdigit (dropwhile isspace s)))) in *.
  unfold ok_hash in H.
  destruct (dropwhile isspace s4) as [|c t] eqn:E5; [discriminate|].
  assert (dropwhile isspace s4 <> "") as N5 by (rewrite E5; discriminate).
  rewrite (takewhile_app isspace s4 y N5), (dropwhile_app isspace s4 y N5).
  rewrite E5, append_cons. cbn [drop].
  apply andb_true_iff in H as [_ H]. unfold ok_ws2, ok_name in H.
  apply andb_true_iff in H as [H _].
  assert (dropwhile isspace t <> "") as N6.
  { intros E. rewrite E in H. destruct Hlabel as [Hne _].
    destruct label; [contradiction|discriminate]. }
  rewrite (takewhile_app isspace t y N6). repeat split; reflexivity.
Qed.

(** The offsets of a match that starts with the blanks [w]. *)
Lemma cxx_offsets_blank label w r :
  all isspace w = true ->
  cxx_head (w +:+ r) = (String.length w + cxx_head r)%nat
  /\ cxx_mid (w +:+ r) = (String.length w + cxx_mid r)%nat
  /\ cxx_end label (w +:+ r) = (String.length w + cxx_end label r)%nat
  /\ dropwhile isspace (w +:+ r) = dropwhile isspace r.
Proof.
  intros Hw.
  unfold cxx_end, cxx_mid, cxx_head, past_value, from_value.
  rewrite (takewhile_all_app isspace w r Hw), (dropwhile_all_app isspace w r Hw).
  rewrite length_append. repeat split; lia.
Qed.

Lemma last_char_no_nl prev x :
  x <> "" -> no_nl x = true -> at_bol (last_char prev x) = false.
Proof.
  revert prev. induction x as [|c x IH]; intros prev Hne Hx; [contradiction|].
  unfold no_nl in Hx. simpl in Hx. apply andb_true_iff in Hx as [Hc Hx].
  simpl. destruct x as [|d x]; [simpl; apply negb_true_iff; exact Hc|].
  apply IH; [discriminate|exact Hx].
Qed.

Lemma take_nonempty n s : (1 <= n)%nat -> (1 <= String.length s)%nat -> take n s <> "".
Proof. destruct n; [lia|]. destruct s; simpl; [lia|discriminate]. Qed.

Section CxxLines.
Variable label : string.
Hypothesis Hlabel : key_name label.
Variable value : string.

Local Abbreviation csub := (subn_go (cxx_pattern label) (cxx_repl value)).

Lemma cxx_not_bol prev s :
  at_bol prev = false -> match_at (cxx_pattern label) prev s = None.
Proof.
  intros H. rewrite (match_at_cxx label Hlabel). unfold cxx_ok. rewrite H. reflexivity.
Qed.

Lemma cxx_no_match prev s :
  cxx_ok label prev s = false -> match_at (cxx_pattern label) prev s = None.
Proof. intros H. rewrite (match_at_cxx label Hlabel), H. reflexivity. Qed.

Lemma cxx_ok_at_bol prev s : at_bol prev = true -> cxx_ok label prev s = cxx_ok label None s.
Proof. intros H. unfold cxx_ok. rewrite H. reflexivity. Qed.

Lemma csub_through_end u prev :
  at_bol prev = false -> no_nl u = true -> csub prev 0 u = (u, 0%nat).
Proof.
  revert prev. induction u as [|c u IH]; intros prev Hp Hu.
  - apply subn_go_nil. apply cxx_not_bol. exact Hp.
  - rewrite subn_go_copy by (apply cxx_not_bol; exact Hp).
    unfold no_nl in Hu. simpl in Hu. apply andb_true_iff in Hu as [Hc Hu].
    rewrite IH; [reflexivity| |exact Hu]. simpl. apply negb_true_iff. exact Hc.
Qed.

Lemma csub_through u prev r :
  at_bol prev = false -> no_nl u = true ->
  csub prev 0 (u +:+ String nl r)
  = (u +:+ String nl (fst (csub (Some nl) 0 r)), snd (csub (Some nl) 0 r)).
Proof.
  revert prev. induction u as [|c u IH]; intros prev Hp Hu.
  - rewrite append_nil_l.
    rewrite subn_go_copy by (apply cxx_not_bol; exact Hp). reflexivity.
  - rewrite append_cons.
    rewrite subn_go_copy by (apply cxx_not_bol; exact Hp).
    unfold no_nl in Hu. simpl in Hu. apply andb_true_iff in Hu as [Hc Hu].
    rewrite IH; [reflexivity| |exact Hu]. simpl. apply negb_true_iff. exact Hc.
Qed.

(** A line that matches stays a match when a line end follows it. *)
Lemma ok_index_ext s r :
  ok_index label s = true -> ok_index label (s +:+ String nl r) = true.
Proof.
  unfold ok_index, ok_sep, ok_value, ok_gap. intros H.
  apply andb_true_iff in H as [H1 H]. apply andb_true_iff in H as [H2 H].
  apply andb_true_iff in H as [H3 H]. apply andb_true_iff in H as [H4 H].
  rewrite (head_in_app isdigit s _ (head_in_nonempty _ _ H1)), H1.
  rewrite (dropwhile_app isdigit s _ (head_in_nonempty _ _ H2)).
  rewrite (head_in_app isspace _ _ (head_in_nonempty _ _ H2)), H2.
  rewrite (dropwhile_app isspace _ _ (head_in_nonempty _ _ H3)).
  rewrite (head_in_app numch _ _ (head_in_nonempty _ _ H3)), H3.
  rewrite (dropwhile_app numch _ _ (head_in_nonempty _ _ H4)).
  rewrite (head_in_app isspace _ _ (head_in_nonempty _ _ H4)), H4.
  cbn [andb].
  set (s4 := dropwhile numch (dropwhile isspace (dropwhile isdigit s))) in *.
  unfold ok_hash in *.
  destruct (dropwhile isspace s4) as [|c t] eqn:E5; [discriminate|].
  rewrite (dropwhile_app isspace s4) by (rewrite E5; discriminate).
  rewrite E5, append_cons.
  apply andb_true_iff in H as [Hc H]. rewrite Hc. cbn [andb].
  unfold ok_ws2 in *.
  assert (dropwhile isspace t <> "") as N6.
  { intros E. rewrite E in H. unfold ok_name in H. destruct Hlabel as [Hne _].
    destruct label; [contradiction|discriminate]. }
  rewrite (dropwhile_app isspace t _ N6).
  rewrite (ok_name_app_nl label _ r (proj2 Hlabel)). exact H.
Qed.

Lemma cxx_ok_ext prev l r :
  cxx_ok label prev l = true -> cxx_ok label prev (l +:+ String nl r) = true.
Proof.
  unfold cxx_ok. intros H. apply andb_true_iff in H as [-> H]. cbn [andb].
  rewrite (dropwhile_app isspace l) by (apply (head_in_nonempty isdigit);
    unfold ok_index in H; apply andb_true_iff in H as [H _]; exact H).
  apply ok_index_ext. exact H.
Qed.

Lemma edit_cxx_eq l :
  edit_cxx label value l
  = if cxx_ok label None l
    then take (cxx_head l) l +:+ value +:+ past_value l
    else l.
Proof. unfold edit_cxx. rewrite (matches_at_cxx label None l Hlabel). reflexivity. Qed.

Lemma edit_cxx_match l :
  cxx_ok label None l = true ->
  edit_cxx label value l
  = take (cxx_head l) l +:+ value
    +:+ take (cxx_end label l - cxx_mid l) (drop (cxx_mid l) l)
    +:+ drop (cxx_end label l) l.
Proof.
  intros H. rewrite edit_cxx_eq. rewrite H.
  unfold cxx_ok in H. cbn [at_bol andb] in H.
  destruct (cxx_bounds label l H) as [[H1 H2] [H3 H4]].
  do 2 f_equal. rewrite <- drop_cxx_mid.
  rewrite <- (take_drop (cxx_end label l - cxx_mid l) (drop (cxx_mid l) l)) at 1.
  f_equal. rewrite drop_drop. f_equal. lia.
Qed.

(** A match on the line [l], with [y] after the line. *)
Lemma csub_match_line prev l y :
  at_bol prev = true ->
  cxx_ok label None l = true -> cxx_ok label None (l +:+ y) = true ->
  csub prev 0 (l +:+ y)
  = (take (cxx_head l) l +:+ value
     +:+ take (cxx_end label l - cxx_mid l) (drop (cxx_mid l) l)
     +:+ fst (csub (last_char None (take (cxx_end label l) l)) 0
                (drop (cxx_end label l) l +:+ y)),
     S (snd (csub (last_char None (take (cxx_end label l) l)) 0
               (drop (cxx_end label l) l +:+ y)))).
Proof.
  intros Hbol Hl Hly.
  rewrite (cxx_sub_match label Hlabel value prev (l +:+ y))
    by (rewrite cxx_ok_at_bol by exact Hbol; exact Hly).
  unfold cxx_ok in Hl. cbn [at_bol andb] in Hl.
  destruct (cxx_offsets_local label l y Hlabel Hl) as (-> & -> & ->).
  destruct (cxx_bounds label l Hl) as [[H1 H2] [H3 H4]].
  rewrite (take_app_le (cxx_head l) l y) by lia.
  rewrite (drop_app_le (cxx_mid l) l y) by lia.
  rewrite (take_app_le (cxx_end label l - cxx_mid l) (drop (cxx_mid l) l) y)
    by (rewrite length_drop; lia).
  rewrite (take_app_le (cxx_end label l) l y) by lia.
  rewrite (drop_app_le (cxx_end label l) l y) by lia.
  rewrite (last_char_indep prev None (take (cxx_end label l) l))
    by (apply take_nonempty; lia).
  reflexivity.
Qed.

Lemma after_match_not_bol l :
  no_nl l = true -> ok_index label (dropwhile isspace l) = true ->
  at_bol (last_char None (take (cxx_end label l) l)) = false.
Proof.
  intros Hl H. destruct (cxx_bounds label l H) as [[H1 H2] [H3 H4]].
  apply last_char_no_nl; [apply take_nonempty; lia|].
  apply all_take. exact Hl.
Qed.

(** The last line. *)
Lemma csub_last_line prev l :
  at_bol prev = true -> no_nl l = true ->
  csub prev 0 l
  = (edit_cxx label value l, if cxx_ok label None l then 1%nat else 0%nat).
Proof.
  intros Hbol Hl. destruct (cxx_ok label None l) eqn:Hok.
  - pose proof (csub_match_line prev l "" Hbol Hok) as H.
    rewrite !append_nil_r in H. rewrite (H Hok).
    pose proof Hok as H0. unfold cxx_ok in H0. cbn [at_bol andb] in H0.
    rewrite csub_through_end;
      [|apply after_match_not_bol; assumption|apply all_drop; exact Hl].
    rewrite (edit_cxx_match l Hok). reflexivity.
  - rewrite edit_cxx_eq. rewrite Hok.
    destruct l as [|c l].
    + apply subn_go_nil. apply cxx_no_match. rewrite cxx_ok_at_bol by exact Hbol. exact Hok.
    + rewrite subn_go_copy
        by (apply cxx_no_match; rewrite cxx_ok_at_bol by exact Hbol; exact Hok).
      unfold no_nl in Hl. simpl in Hl. apply andb_true_iff in Hl as [Hc Hl].
      rewrite csub_through_end; [reflexivity|simpl; apply negb_true_iff; exact Hc|exact Hl].
Qed.

(** A blank line: it is copied, also when a match starts on it. *)
Lemma csub_blank_line prev l r :
  at_bol prev = true -> no_nl l = true -> all isspace l = true ->
  csub prev 0 (l +:+ String nl r)
  = (l +:+ String nl (fst (csub (Some nl) 0 r)), snd (csub (Some nl) 0 r)).
Proof.
  intros Hbol Hl Hblank.
  assert (all isspace (l +:+ String nl "") = true) as Hw
    by (apply all_append; [exact Hblank|reflexivity]).
  assert (l +:+ String nl r = (l +:+ String nl "") +:+ r) as Hs
    by (rewrite append_assoc, append_cons, append_nil_l; reflexivity).
  destruct (cxx_ok label prev (l +:+ String nl r)) eqn:Hok.
  - rewrite (cxx_sub_match label Hlabel value prev _ Hok).
    assert (cxx_ok label (Some nl) r = true) as Hr.
    { unfold cxx_ok in *. apply andb_true_iff in Hok as [_ Hok]. cbn [at_bol andb].
      rewrite Hs, (dropwhile_all_app isspace _ r Hw) in Hok. exact Hok. }
    rewrite (cxx_sub_match label Hlabel value (Some nl) r Hr).
    unfold cxx_ok in Hr. cbn [at_bol andb] in Hr.
    destruct (cxx_bounds label r Hr) as [[H1 H2] [H3 H4]].
    rewrite Hs.
    destruct (cxx_offsets_blank label (l +:+ String nl "") r Hw) as (-> & -> & -> & _).
    rewrite !take_app_ge, !drop_app_ge.
    replace (String.length (l +:+ String nl "") + cxx_end label r
             - (String.length (l +:+ String nl "") + cxx_mid r))%nat
      with (cxx_end label r - cxx_mid r)%nat by lia.
    rewrite last_char_app.
    rewrite (last_char_indep _ (Some nl) (take (cxx_end label r) r))
      by (apply take_nonempty; lia).
    cbn [fst snd]. rewrite !append_assoc, append_cons, append_nil_l. reflexivity.
  - destruct l as [|c l].
    + rewrite append_nil_l in *.
      rewrite subn_go_copy by (apply cxx_no_match; exact Hok). reflexivity.
    + rewrite append_cons in *.
      rewrite subn_go_copy by (apply cxx_no_match; exact Hok).
      unfold no_nl in Hl. simpl in Hl. apply andb_true_iff in Hl as [Hc Hl].
      rewrite csub_through; [reflexivity|simpl; apply negb_true_iff; exact Hc|exact Hl].
Qed.

Lemma blank_or_not s : all isspace s = true \/ dropwhile isspace s <> "".
Proof.
  induction s as [|c s IH]; [left; reflexivity|]. simpl.
  destruct (isspace c); [exact IH|right; discriminate].
Qed.

Lemma blank_not_ok prev l : all isspace l = true -> cxx_ok label prev l = false.
Proof.
  intros H. unfold cxx_ok.
  rewrite <- (append_nil_r l), (dropwhile_all_app isspace l "" H). apply andb_false_r.
Qed.

(** A line that is not the last one. *)
Lemma csub_line prev l r :
  at_bol prev = true -> no_nl l = true -> dangling l = false ->
  csub prev 0 (l +:+ String nl r)
  = (edit_cxx label value l +:+ String nl (fst (csub (Some nl) 0 r)),
     ((if cxx_ok label None l then 1 else 0) + snd (csub (Some nl) 0 r))%nat).
Proof.
  intros Hbol Hl Hd. destruct (cxx_ok label None l) eqn:Hok.
  - rewrite (csub_match_line prev l (String nl r) Hbol Hok (cxx_ok_ext None l r Hok)).
    pose proof Hok as H0. unfold cxx_ok in H0. cbn [at_bol andb] in H0.
    rewrite csub_through;
      [|apply after_match_not_bol; assumption|apply all_drop; exact Hl].
    rewrite (edit_cxx_match l Hok). cbn [fst snd]. rewrite !append_assoc. reflexivity.
  - destruct (blank_or_not l) as [Hblank | Hne].
    + rewrite (csub_blank_line prev l r Hbol Hl Hblank).
      rewrite edit_cxx_eq. rewrite Hok. reflexivity.
    + rewrite edit_cxx_eq. rewrite Hok.
      destruct l as [|c l]; [contradiction|].
      rewrite append_cons.
      rewrite subn_go_copy.
      2:{ apply cxx_no_match. rewrite cxx_ok_at_bol by exact Hbol.
          rewrite <- append_cons.
          rewrite (cxx_ok_local label Hlabel r None _ Hne Hd). exact Hok. }
      unfold no_nl in Hl. simpl in Hl. apply andb_true_iff in Hl as [Hc Hl].
      rewrite csub_through; [|simpl; apply negb_true_iff; exact Hc|exact Hl].
      rewrite append_cons. reflexivity.
Qed.

(** A card that is the lines [ls] joined by newlines. *)
Lemma csub_lines prev ls :
  at_bol prev = true -> ls <> [] ->
  Forall (fun l => no_nl l = true) ls ->
  Forall (fun l => dangling l = false) (removelast ls) ->
  csub prev 0 (join (String nl "") ls)
  = (join (String nl "") (List.map (edit_cxx label value) ls),
     List.length (List.filter (cxx_ok label None) ls)).
Proof.
  revert prev. induction ls as [|l ls IH]; intros prev Hbol Hne Hnl Hopen; [contradiction|].
  apply Forall_cons in Hnl as [Hl Hnl].
  destruct ls as [|l2 ls].
  - simpl. rewrite (csub_last_line prev l Hbol Hl).
    destruct (cxx_ok label None l); reflexivity.
  - change (removelast (l :: l2 :: ls)) with (l :: removelast (l2 :: ls)) in Hopen.
    apply Forall_cons in Hopen as [Ho Hopen].
    rewrite (join_cons _ l (l2 :: ls)) by discriminate.
    rewrite append_cons, append_nil_l.
    rewrite (csub_line prev l _ Hbol Hl Ho).
    rewrite (IH (Some nl) eq_refl ltac:(discriminate) Hnl Hopen).
    cbn [fst snd].
    change (List.map (edit_cxx label value) (l :: l2 :: ls))
      with (edit_cxx label value l :: List.map (edit_cxx label value) (l2 :: ls)).
    rewrite (join_cons _ (edit_cxx label value l)) by (simpl; discriminate).
    rewrite append_cons, append_nil_l. f_equal.
    simpl. destruct (cxx_ok label None l); reflexivity.
Qed.

Lemma subn_cxx_lines text :
  settled text ->
  subn (cxx_pattern label) (cxx_repl value) text
  = (join (String nl "") (List.map (edit_cxx label value) (split_on nl text)),
     List.length (List.filter (cxx_ok label None) (split_on nl text))).
Proof.
  intros Hs. unfold subn.
  rewrite <- (join_split_on text) at 1.
  apply csub_lines; [reflexivity|apply split_on_nonempty|apply no_nl_split_on|exact Hs].
Qed.

End CxxLines.


Lemma filter_count_exists {A} (f g : A -> bool) (ls : list A) :
  (forall x, g x = f x) ->
  (List.length (List.filter f ls) =? 0)%nat = false <-> Exists (fun x => g x = true) ls.
Proof.
  intros Hfg. induction ls as [|l ls IH]; simpl.
  - split; [discriminate|]. intros H. inversion H.
  - rewrite <- (Hfg l). destruct (g l) eqn:E; simpl.
    + split; [|reflexivity]. intros _. apply Exists_cons_hd. exact E.
    + rewrite IH. split; [apply Exists_cons_tl|].
      intros H. inversion H; subst; [congruence|assumption].
Qed.

Lemma settled_check text :
  forallb (fun l => negb (dangling l)) (removelast (split_on nl text)) = true ->
  settled text.
Proof. apply Forall_check. Qed.

(** X5: on a parameter card in which no line but the last breaks off
    after its index, [update_param_card] for a label of word characters
    works line by line.  If some line is blanks, an index, blanks, a numeric
    field, blanks, [#], blanks and the label at a word boundary, it returns
    and the card written has, on every such line, the value in the format
    [.6e] in place of the numeric field and everything before and after the
    field as it was; every other line, blank ones included, is copied.  If no
    line is of that form it raises the [RuntimeError] that names the label
    and the template. *)
Theorem update_param_card_line_by_line BASE_DIR label cxx_value text w :
  key_name label ->
  settled text ->
  holds w (ScanMllCxx.PARAM_CARD_TEMPLATE BASE_DIR) text ->
  (Exists (fun line => matches_at (cxx_pattern label) None line = true) (split_on nl text) ->
     fst (ScanMllCxx.update_param_card BASE_DIR label cxx_value w) = Ok tt
     /\ files (snd (ScanMllCxx.update_param_card BASE_DIR label cxx_value w))
          !! resolve w (ScanMllCxx.PARAM_CARD BASE_DIR)
        = Some (join (String nl "")
                  (List.map (edit_cxx label (format_float 0 6 Pe (float_of_int cxx_value)))
                     (split_on nl text))))
  /\ (~ Exists (fun line => matches_at (cxx_pattern label) None line = true)
          (split_on nl text) ->
        fst (ScanMllCxx.update_param_card BASE_DIR label cxx_value w)
        = Raise (RuntimeError
                   ("Could not find a line with '# " +:+ label +:+ "' in "
                    +:+ path_str (ScanMllCxx.PARAM_CARD_TEMPLATE BASE_DIR)))).
Proof.
  intros Hlabel Hsettled Hholds.
  rewrite (update_param_card_eq BASE_DIR label cxx_value text w Hholds).
  rewrite (subn_cxx_lines label Hlabel _ text Hsettled).
  pose proof (filter_count_exists (cxx_ok label None)
                (matches_at (cxx_pattern label) None) (split_on nl text)
                (fun l => matches_at_cxx label None l Hlabel)) as Hcount.
  destruct (List.length (List.filter (cxx_ok label None) (split_on nl text)) =? 0)%nat.
  - split; [|reflexivity].
    intros Hfound. apply Hcount in Hfound. discriminate.
  - split.
    + intros _. split; [reflexivity|].
      exact (written_run_card _ _ (ScanMllCxx.PARAM_CARD BASE_DIR)
               (log_event (EvRead (resolve w (ScanMllCxx.PARAM_CARD_TEMPLATE BASE_DIR))) w)).
    + intros Hnot. exfalso. apply Hnot. apply Hcount. reflexivity.
Qed.

Lemma update_param_card_line_by_line_witness :
  (Exists (fun line => matches_at (cxx_pattern "cuu") None line = true)
     (split_on nl Examples.param_template) ->
     fst (ScanMllCxx.update_param_card Examples.proc_dir "cuu" (-100)
            Examples.world_without_max) = Ok tt
     /\ files (snd (ScanMllCxx.update_param_card Examples.proc_dir "cuu" (-100)
                      Examples.world_without_max))
          !! resolve Examples.world_without_max (ScanMllCxx.PARAM_CARD Examples.proc_dir)
        = Some (join (String nl "")
                  (List.map (edit_cxx "cuu" (format_float 0 6 Pe (float_of_int (-100))))
                     (split_on nl Examples.param_template))))
  /\ (~ Exists (fun line => matches_at (cxx_pattern "cuu") None line = true)
          (split_on nl Examples.param_template) ->
        fst (ScanMllCxx.update_param_card Examples.proc_dir "cuu" (-100)
               Examples.world_without_max)
        = Raise (RuntimeError
                   ("Could not find a line with '# " +:+ "cuu" +:+ "' in "
                    +:+ path_str (ScanMllCxx.PARAM_CARD_TEMPLATE Examples.proc_dir)))).
Proof.
  apply (update_param_card_line_by_line Examples.proc_dir "cuu" (-100)%Z
           Examples.param_template Examples.world_without_max).
  - split; [discriminate|reflexivity].
  - apply settled_check. vm_compute. reflexivity.
  - vm_compute; reflexivity.
Defined.

(** ** The parser leaves the world as it is *)

(** X6: [parse_cross_section] of either script changes no file, prints
    nothing and keeps the working directory, however it ends; when there
    is no file at the path it raises [FileNotFoundError] with the message
    that names the path and has not tried to read; otherwise the read of
    the log is the one operation it performs. *)
Theorem parse_cross_section_reads_only p w :
  (cwd (snd (ScanMll.parse_cross_section p w)) = cwd w
   /\ files (snd (ScanMll.parse_cross_section p w)) = files w
   /\ stdout (snd (ScanMll.parse_cross_section p w)) = stdout w)
  /\ (files w !! resolve w p = None ->
      ScanMll.parse_cross_section p w
      = (Raise (FileNotFoundError ("Log file not found: " +:+ path_str p)), w))
  /\ (is_Some (files w !! resolve w p) ->
      trace (snd (ScanMll.parse_cross_section p w)) = trace w ++ [EvRead (resolve w p)])
  /\ ScanMllCxx.parse_cross_section p w = ScanMll.parse_cross_section p w.
Proof.
  assert (files w !! resolve w p = None ->
          ScanMll.parse_cross_section p w
          = (Raise (FileNotFoundError ("Log file not found: " +:+ path_str p)), w)) as Hnone.
  { intros E. unfold ScanMll.parse_cross_section, bind, exists_. rewrite E. reflexivity. }
  refine (conj _ (conj Hnone (conj _ (parse_cross_section_same p w)))).
  - destruct (files w !! resolve w p) as [text|] eqn:E.
    + rewrite (parse_cross_section_holds w p text E). repeat split.
    + rewrite (Hnone eq_refl). repeat split.
  - intros [text E]. rewrite (parse_cross_section_holds w p text E). reflexivity.
Qed.

(** ** Rows can be read back *)

Lemma split_go_blank cur w s :
  all isspace w = true -> w <> "" ->
  split_go cur (w +:+ s)
  = match cur with
    | EmptyString => split_go EmptyString s
    | _ => String.rev cur :: split_go EmptyString s
    end.
Proof.
  revert cur. induction w as [|c w IH]; intros cur Hw Hne; [contradiction|].
  simpl in Hw. apply andb_true_iff in Hw as [Hc Hw].
  rewrite append_cons. simpl. rewrite Hc.
  destruct w as [|d w].
  - rewrite append_nil_l. reflexivity.
  - rewrite (IH EmptyString Hw) by discriminate. reflexivity.
Qed.

Lemma split_go_blanks w s :
  all isspace w = true -> split_go EmptyString (w +:+ s) = split_go EmptyString s.
Proof.
  intros Hw. destruct w as [|c w]; [rewrite append_nil_l; reflexivity|].
  apply (split_go_blank EmptyString (String c w) s Hw). discriminate.
Qed.

Lemma split_go_word cur t s :
  all (fun c => negb (isspace c)) t = true ->
  split_go cur (t +:+ s) = split_go (String.rev t +:+ cur) s.
Proof.
  revert cur. induction t as [|c t IH]; intros cur Ht.
  - rewrite !append_nil_l. reflexivity.
  - simpl in Ht. apply andb_true_iff in Ht as [Hc Ht].
    rewrite append_cons. simpl. apply negb_true_iff in Hc. rewrite Hc.
    rewrite (IH (String c cur) Ht). rewrite rev_cons, append_assoc. reflexivity.
Qed.

(** A token between blanks is the first piece of the split. *)
Lemma split_token w t c r :
  all isspace w = true -> token t -> isspace c = true ->
  split (w +:+ t +:+ String c r) = t :: split r.
Proof.
  intros Hw [Hne Ht] Hc. unfold split.
  rewrite (split_go_blanks w _ Hw), (split_go_word EmptyString t _ Ht), append_nil_r.
  simpl. rewrite Hc.
  destruct (String.rev t) eqn:E.
  - exfalso. apply Hne. rewrite <- (rev_rev t), E. reflexivity.
  - rewrite <- E, rev_rev. reflexivity.
Qed.

Lemma split_go_tokens s : forall cur,
  all (fun c => negb (isspace c)) cur = true -> Forall token (split_go cur s).
Proof.
  assert (forall cur, cur <> "" -> all (fun c => negb (isspace c)) cur = true ->
                      token (String.rev cur)) as Htok.
  { intros cur Hne Hcur. split; [|rewrite all_rev; exact Hcur].
    intros E. apply Hne. rewrite <- (rev_rev cur), E. reflexivity. }
  induction s as [|c s IH]; intros cur Hcur; simpl.
  - destruct cur; [constructor|]. constructor; [|constructor].
    apply Htok; [discriminate|exact Hcur].
  - destruct (isspace c) eqn:Hc.
    + destruct cur; [apply IH; reflexivity|].
      constructor; [apply Htok; [discriminate|exact Hcur]|apply IH; reflexivity].
    + apply IH. simpl. rewrite Hc. exact Hcur.
Qed.

Lemma split_tokens s : Forall token (split s).
Proof. apply split_go_tokens. reflexivity. Qed.

Lemma fields_unit parts x e u :
  ScanMll.fields parts = Some (x, e, u) -> parts !! 5%nat = Some u.
Proof.
  unfold ScanMll.fields. intros H.
  destruct (parts !! 2%nat ≫= float_of_string) as [x'|]; [|discriminate].
  destruct (parts !! 4%nat ≫= float_of_string) as [e'|]; [|discriminate].
  destruct (parts !! 5%nat) as [u'|]; [|discriminate].
  cbn in H. congruence.
Qed.

Lemma scan_log_some ls t :
  ScanMll.scan_log ls = Ok (Some t) -> exists line, ScanMll.fields (split line) = Some t.
Proof.
  induction ls as [|line ls IH]; simpl; [discriminate|].
  destruct (contains "Cross-section :" line); [|exact IH].
  destruct (ScanMll.fields (split line)) as [t'|] eqn:E; [|discriminate].
  intros H. exists line. congruence.
Qed.

(** The unit that [parse_cross_section] returns is a token of the log. *)
Lemma parsed_unit p w x e u :
  fst (ScanMll.parse_cross_section p w) = Ok (x, e, u) -> token u.
Proof.
  destruct (files w !! resolve w p) as [text|] eqn:E.
  - rewrite (parse_cross_section_holds w p text E). cbn [fst].
    destruct (ScanMll.scan_log (lines text)) as [[t|]|] eqn:Hs; try discriminate.
    intros H. destruct (scan_log_some _ _ Hs) as (line & Hf).
    assert (t = (x, e, u)) as -> by congruence.
    apply fields_unit in Hf.
    apply (proj1 (Forall_forall _ _) (split_tokens line)).
    apply list_elem_of_lookup. eauto.
  - unfold ScanMll.parse_cross_section, bind, exists_. rewrite E. discriminate.
Qed.

Lemma fchar_not_space c : fchar c = true -> negb (isspace c) = true.
Proof. destruct c as [[] [] [] [] [] [] [] []]; vm_compute; congruence. Qed.

Lemma length_repeat_char c n : String.length (repeat_char c n) = n.
Proof. induction n as [|n IH]; simpl; [reflexivity|]. rewrite IH. reflexivity. Qed.

Lemma with_point_nonempty n s : s <> "" -> with_point n s <> "".
Proof.
  intros Hs. unfold with_point. destruct (drop n s) eqn:E; [exact Hs|].
  destruct (take n s); discriminate.
Qed.

Lemma append_nonempty_l s t : s <> "" -> s +:+ t <> "".
Proof. destruct s; [contradiction|discriminate]. Qed.

Lemma append_nonempty_r s t : t <> "" -> s +:+ t <> "".
Proof. destruct s; [rewrite append_nil_l; auto|discriminate]. Qed.

Lemma zpad_nonempty w s : (1 <= w)%nat -> zpad w s <> "".
Proof.
  intros Hw E. apply (f_equal String.length) in E.
  unfold zpad in E. rewrite length_append, length_repeat_char in E. simpl in E. lia.
Qed.

(** A float in fixed or exponent notation, without a field width, is a
    token. *)
Lemma format_token prec ty x : ty <> Pg -> token (format_float 0 prec ty x).
Proof.
  intros Hty. split.
  - unfold format_float. rewrite rjust_0. destruct x as [neg m e|neg|].
    + apply append_nonempty_r. destruct ty; [| |contradiction].
      * unfold sci. destruct (m =? 0)%N; [apply append_nonempty_r; discriminate|].
        destruct (sci_parts m e prec). apply append_nonempty_r. discriminate.
      * unfold fixed. apply with_point_nonempty, zpad_nonempty. lia.
    + apply append_nonempty_r. discriminate.
    + discriminate.
  - apply (all_impl fchar _ _ fchar_not_space), all_format_float.
Qed.

Lemma format_rjust width prec ty x :
  format_float width prec ty x
  = repeat_char " " (width - String.length (format_float 0 prec ty x))
    +:+ format_float 0 prec ty x.
Proof. reflexivity. Qed.

Lemma split_unit u : token u -> split (u +:+ String nl "") = [u].
Proof.
  intros Hu. rewrite <- (append_nil_l (u +:+ String nl "")).
  rewrite (split_token "" u nl "" eq_refl Hu eq_refl). reflexivity.
Qed.

Lemma split_column width prec ty x r :
  ty <> Pg ->
  split (format_float width prec ty x +:+ " " +:+ r) = format_float 0 prec ty x :: split r.
Proof.
  intros Hty. rewrite format_rjust, append_assoc.
  apply split_token; [apply all_repeat_char; reflexivity|apply format_token; exact Hty|].
  reflexivity.
Qed.

(** X7: a row of either table, written for what [parse_cross_section]
    returned, splits at blanks into exactly its fields: the bounds of the
    mass bin (and the coupling value), the cross-section, its error and the
    unit, the numbers as formatted without their padding. *)
Theorem rows_split_into_fields p w mmin mmax cxx xsec err unit :
  fst (ScanMll.parse_cross_section p w) = Ok (xsec, err, unit) ->
  split (ScanMll.row mmin mmax xsec err unit)
  = [format_float 0 3 Pf mmin; format_float 0 3 Pf mmax;
     format_float 0 6 Pe xsec; format_float 0 6 Pe err; unit]
  /\ split (ScanMllCxx.row mmin mmax cxx xsec err unit)
     = [format_float 0 3 Pf mmin; format_float 0 3 Pf mmax;
        format_float 0 3 Pf (float_of_int cxx);
        format_float 0 6 Pe xsec; format_float 0 6 Pe err; unit].
Proof.
  intros H. apply parsed_unit in H.
  unfold ScanMll.row, ScanMllCxx.row.
  rewrite !split_column by discriminate. rewrite (split_unit unit H).
  split; reflexivity.
Qed.

Lemma rows_split_into_fields_witness :
  split (ScanMll.row (float_of_int 15) (float_of_int 20) Examples.good_xsec
           Examples.good_err "pb")
  = [format_float 0 3 Pf (float_of_int 15); format_float 0 3 Pf (float_of_int 20);
     format_float 0 6 Pe Examples.good_xsec;
     format_float 0 6 Pe Examples.good_err; "pb"]
  /\ split (ScanMllCxx.row (float_of_int 15) (float_of_int 20) (-100)
              Examples.good_xsec Examples.good_err "pb")
     = [format_float 0 3 Pf (float_of_int 15); format_float 0 3 Pf (float_of_int 20);
        format_float 0 3 Pf (float_of_int (-100));
        format_float 0 6 Pe Examples.good_xsec;
        format_float 0 6 Pe Examples.good_err; "pb"].
Proof.
  apply (rows_split_into_fields Examples.log_path Examples.world_good).
  vm_compute. reflexivity.
Defined.

(** ** Run names *)

Lemma N_to_uint_nonnil n : N.to_uint n <> Decimal.Nil.
Proof.
  destruct n as [|p]; [discriminate|]. simpl.
  apply DecimalPos.Unsigned.to_uint_nonnil.
Qed.

Lemma N_str_inj n m : N_str n = N_str m -> n = m.
Proof.
  unfold N_str. intros H. apply DecimalN.Unsigned.to_uint_inj.
  pose proof (NilZero.usu _ (N_to_uint_nonnil n)) as Hn.
  pose proof (NilZero.usu _ (N_to_uint_nonnil m)) as Hm.
  rewrite H in Hn. congruence.
Qed.

Lemma digits_string_of_uint d : all isdigit (NilEmpty.string_of_uint d) = true.
Proof. induction d; simpl; try reflexivity; exact IHd. Qed.

Lemma digits_N_str n : all isdigit (N_str n) = true.
Proof.
  unfold N_str, NilZero.string_of_uint.
  destruct (N.to_uint n); try reflexivity; apply (digits_string_of_uint (_ u)).
Qed.

Lemma N_str_head n : exists c t, N_str n = String c t /\ isdigit c = true.
Proof.
  pose proof (digits_N_str n) as H.
  destruct (N_str n) as [|c t] eqn:E.
  - exfalso. unfold N_str, NilZero.string_of_uint in E.
    pose proof (N_to_uint_nonnil n) as Hn.
    destruct (N.to_uint n); try discriminate E; contradiction.
  - simpl in H. apply andb_true_iff in H as [Hc _]. eauto.
Qed.

Lemma signed_inj (sign : string) (a b : Z) c :
  sign = String c "" -> isdigit c = false ->
  (if (a <? 0)%Z then sign +:+ N_str (Z.abs_N a) else N_str (Z.abs_N a))
  = (if (b <? 0)%Z then sign +:+ N_str (Z.abs_N b) else N_str (Z.abs_N b)) ->
  a = b.
Proof.
  intros -> Hc.
  destruct (N_str_head (Z.abs_N a)) as (ca & ta & Ea & Hca).
  destruct (N_str_head (Z.abs_N b)) as (cb & tb & Eb & Hcb).
  destruct (a <? 0)%Z eqn:Ha, (b <? 0)%Z eqn:Hb; intros H.
  - rewrite !append_cons, !append_nil_l in H. injection H as H.
    apply N_str_inj in H. apply Z.ltb_lt in Ha, Hb. lia.
  - rewrite append_cons, Eb in H. injection H as H _. congruence.
  - rewrite append_cons, Ea in H. injection H as H _. congruence.
  - apply N_str_inj in H. apply Z.ltb_ge in Ha, Hb. lia.
Qed.

Lemma int_str_inj a b : int_str a = int_str b -> a = b.
Proof. unfold int_str. apply (signed_inj "-" a b "-"); reflexivity. Qed.

(** [str.replace] with a one-character pattern. *)
Lemma replace_absent o new s :
  all (fun c => negb (Ascii.eqb o c)) s = true -> replace (String o "") new s = s.
Proof.
  unfold replace. induction s as [|c s IH]; [reflexivity|].
  simpl. intros H. apply andb_true_iff in H as [Hc Hs]. apply negb_true_iff in Hc.
  rewrite Hc. simpl. rewrite (IH Hs). reflexivity.
Qed.

Lemma replace_head o new s :
  replace (String o "") new (String o s) = new +:+ replace (String o "") new s.
Proof. unfold replace. simpl. rewrite Ascii.eqb_refl. reflexivity. Qed.

Lemma digit_not c o : isdigit c = true -> isdigit o = false -> negb (Ascii.eqb o c) = true.
Proof.
  intros Hc Ho. apply negb_true_iff. destruct (Ascii.eqb o c) eqn:E; [|reflexivity].
  apply Ascii.eqb_eq in E. congruence.
Qed.

Lemma digits_without o s :
  isdigit o = false -> all isdigit s = true -> all (fun c => negb (Ascii.eqb o c)) s = true.
Proof.
  intros Ho. apply all_impl. intros c Hc. apply digit_not; assumption.
Qed.

Lemma all_cons_true (p : ascii -> bool) c s :
  p c = true -> all p s = true -> all p (String c s) = true.
Proof. intros Hc Hs. simpl. rewrite Hc, Hs. reflexivity. Qed.

(** The tag of a coupling value: its decimal numeral with [m] for the
    minus sign. *)
Lemma cxx_tag_eq z :
  replace "-" "m" (replace "." "p" (int_str z))
  = if (z <? 0)%Z then "m" +:+ N_str (Z.abs_N z) else N_str (Z.abs_N z).
Proof.
  pose proof (digits_N_str (Z.abs_N z)) as Hd.
  unfold int_str. destruct (z <? 0)%Z.
  - rewrite (replace_absent "." "p").
    2:{ rewrite append_cons, append_nil_l.
        apply all_cons_true; [reflexivity|apply digits_without; [reflexivity|exact Hd]]. }
    rewrite append_cons, append_nil_l, replace_head.
    rewrite (replace_absent "-" "m") by (apply digits_without; [reflexivity|exact Hd]).
    reflexivity.
  - rewrite (replace_absent "." "p") by (apply digits_without; [reflexivity|exact Hd]).
    apply replace_absent. apply digits_without; [reflexivity|exact Hd].
Qed.

Lemma cxx_tag_inj a b :
  replace "-" "m" (replace "." "p" (int_str a)) = replace "-" "m" (replace "." "p" (int_str b)) ->
  a = b.
Proof. rewrite !cxx_tag_eq. apply (signed_inj "m" a b "m"); reflexivity. Qed.

Lemma int_str_no_sep z : all (fun c => negb (Ascii.eqb "_" c)) (int_str z) = true.
Proof.
  pose proof (digits_without "_" _ eq_refl (digits_N_str (Z.abs_N z))) as H.
  unfold int_str. destruct (z <? 0)%Z; [|exact H].
  rewrite append_cons, append_nil_l. apply all_cons_true; [reflexivity|exact H].
Qed.

(** Two texts cut at their first underscore. *)
Lemma sep_inj x x' y y' :
  all (fun c => negb (Ascii.eqb "_" c)) x = true ->
  all (fun c => negb (Ascii.eqb "_" c)) x' = true ->
  x +:+ String "_" y = x' +:+ String "_" y' -> x = x' /\ y = y'.
Proof.
  revert x'. induction x as [|c x IH]; intros [|c' x'] Hx Hx' H.
  - rewrite !append_nil_l in H. injection H as H. auto.
  - rewrite append_nil_l, append_cons in H. injection H as Hc _. subst c'.
    simpl in Hx'. discriminate.
  - rewrite append_nil_l, append_cons in H. injection H as Hc _. subst c.
    simpl in Hx. discriminate.
  - rewrite !append_cons in H. injection H as Hc H. subst c'.
    simpl in Hx, Hx'. apply andb_true_iff in Hx as [_ Hx]. apply andb_true_iff in Hx' as [_ Hx'].
    destruct (IH x' Hx Hx' H) as [-> ->]. auto.
Qed.

Lemma append_inj_l s t u : s +:+ t = s +:+ u -> t = u.
Proof.
  induction s as [|c s IH]; [rewrite !append_nil_l; auto|].
  rewrite !append_cons. intros H. injection H as H. exact (IH H).
Qed.

Lemma plain_name_inj a b a' b' :
  "mll_" +:+ int_str a +:+ "_" +:+ int_str b = "mll_" +:+ int_str a' +:+ "_" +:+ int_str b' ->
  a = a' /\ b = b'.
Proof.
  intros H. apply append_inj_l in H.
  apply sep_inj in H as [Ha Hb]; [|apply int_str_no_sep|apply int_str_no_sep].
  apply int_str_inj in Ha, Hb. auto.
Qed.

Lemma cxx_name_inj a b c a' b' c' :
  "mll_" +:+ int_str a +:+ "_" +:+ int_str b +:+ "_cxx_"
    +:+ replace "-" "m" (replace "." "p" (int_str c))
  = "mll_" +:+ int_str a' +:+ "_" +:+ int_str b' +:+ "_cxx_"
    +:+ replace "-" "m" (replace "." "p" (int_str c')) ->
  a = a' /\ b = b' /\ c = c'.
Proof.
  intros H. apply append_inj_l in H.
  apply sep_inj in H as [Ha H]; [|apply int_str_no_sep|apply int_str_no_sep].
  change ("_cxx_" +:+ ?t) with (String "_" ("cxx_" +:+ t)) in H.
  apply sep_inj in H as [Hb H]; [|apply int_str_no_sep|apply int_str_no_sep].
  apply append_inj_l in H.
  apply int_str_inj in Ha, Hb. apply cxx_tag_inj in H. auto.
Qed.

(** X8: the run name of a mass bin depends on the integer parts of its
    bounds and on nothing else, and the run name of the cxx script also on
    the coupling value: for a bin with numbers as bounds, two runs have the
    same name, and so the same log file, exactly when [int()] agrees on
    both bounds (and the coupling values are equal). *)
Theorem run_names_by_integer_parts b1 b2 c1 c2 :
  finite (fst b1) -> finite (snd b1) ->
  (plain_run_name b1 = plain_run_name b2
   <-> int_of_float (fst b1) = int_of_float (fst b2)
       /\ int_of_float (snd b1) = int_of_float (snd b2))
  /\ (cxx_run_name (b1, c1) = cxx_run_name (b2, c2)
      <-> int_of_float (fst b1) = int_of_float (fst b2)
          /\ int_of_float (snd b1) = int_of_float (snd b2)
          /\ c1 = c2).
Proof.
  destruct b1 as [a b], b2 as [a' b']. cbn [fst snd]. intros Ha Hb.
  unfold plain_run_name, cxx_run_name. cbn [fst snd].
  destruct a as [na ma ea| |]; [|contradiction|contradiction].
  destruct b as [nb mb eb| |]; [|contradiction|contradiction].
  destruct (int_of_float (Finite na ma ea)) as [ia|] eqn:Eia; [|discriminate].
  destruct (int_of_float (Finite nb mb eb)) as [ib|] eqn:Eib; [|discriminate].
  destruct (int_of_float a') as [ia'|], (int_of_float b') as [ib'|]; cbn.
  - split; split.
    + intros H. apply (inj Some) in H. apply plain_name_inj in H as [-> ->]. auto.
    + intros [H1 H2]. congruence.
    + intros H. apply (inj Some) in H. apply cxx_name_inj in H as (-> & -> & ->). auto.
    + intros (H1 & H2 & ->). congruence.
  - split; split; try discriminate; intros H; destruct H as (_ & H & _) || destruct H as (_ & H);
      discriminate.
  - split; split; try discriminate; intros H; destruct H as (H & _); discriminate.
  - split; split; try discriminate; intros H; destruct H as (H & _); discriminate.
Qed.

Lemma run_names_by_integer_parts_witness :
  (plain_run_name (Finite false 152 (-1), float_of_int 20)
   = plain_run_name (Finite false 157 (-1), float_of_int 20)
   <-> int_of_float (Finite false 152 (-1)) = int_of_float (Finite false 157 (-1))
       /\ int_of_float (float_of_int 20) = int_of_float (float_of_int 20))
  /\ (cxx_run_name ((Finite false 152 (-1), float_of_int 20), (-5)%Z)
      = cxx_run_name ((Finite false 157 (-1), float_of_int 20), 5%Z)
      <-> int_of_float (Finite false 152 (-1)) = int_of_float (Finite false 157 (-1))
          /\ int_of_float (float_of_int 20) = int_of_float (float_of_int 20)
          /\ (-5)%Z = 5%Z).
Proof.
  apply (run_names_by_integer_parts (Finite false 152 (-1), float_of_int 20)
           (Finite false 157 (-1), float_of_int 20) (-5)%Z 5%Z).
  - exact I.
  - exact I.
Defined.

(** ** Runs that return *)

Lemma wp_bind {A B} (m : M A) (k : A -> M B) Q w :
  wp m (fun a w' => wp (k a) Q w') w -> wp (bind m k) Q w.
Proof.
  intros (a & Ha & b & Hb & HQ). unfold wp, bind.
  destruct (m w) as [r w1]. cbn [fst snd] in *. subst r. eauto.
Qed.

Lemma wp_ret {A} (a : A) (Q : A -> world -> Prop) w : Q a w -> wp (ret a) Q w.
Proof. intros H. exists a. split; [reflexivity|exact H]. Qed.

Lemma wp_or_raise {A} e (o : option A) (a : A) (Q : A -> world -> Prop) w :
  o = Some a -> Q a w -> wp (or_raise e o) Q w.
Proof. intros -> H. exists a. split; [reflexivity|exact H]. Qed.

Lemma wp_print s (Q : unit -> world -> Prop) w :
  (forall w', cwd w' = cwd w -> files w' = files w -> Q tt w') -> wp (print s) Q w.
Proof. intros H. exists tt. split; [reflexivity|]. apply H; reflexivity. Qed.

Lemma wp_write_text p text (Q : unit -> world -> Prop) w :
  (forall w', cwd w' = cwd w -> files w' = <[resolve w p := text]> (files w) -> Q tt w') ->
  wp (write_text p text) Q w.
Proof. intros H. exists tt. split; [reflexivity|]. apply H; reflexivity. Qed.

Lemma wp_append_text p text (Q : unit -> world -> Prop) w :
  (forall w', cwd w' = cwd w ->
     files w' = <[resolve w p := default "" (files w !! resolve w p) +:+ text]> (files w) ->
     Q tt w') ->
  wp (append_text p text) Q w.
Proof. intros H. exists tt. split; [reflexivity|]. apply H; reflexivity. Qed.

Lemma wp_parse_cross_section p text r (Q : float * float * string -> world -> Prop) w :
  files w !! resolve w p = Some text ->
  ScanMll.scan_log (lines text) = Ok (Some r) ->
  (forall w', cwd w' = cwd w -> files w' = files w -> Q r w') ->
  wp (ScanMll.parse_cross_section p) Q w.
Proof.
  intros Hf Hs H. exists r. rewrite (parse_cross_section_holds w p text Hf), Hs.
  split; [reflexivity|]. apply H; reflexivity.
Qed.

Lemma wp_for_each {A} (I : list A -> world -> Prop) (body : A -> M unit) xs :
  (forall done x w, (exists rest, xs = done ++ x :: rest) -> I done w ->
     wp (body x) (fun _ => I (done ++ [x])) w) ->
  forall w, I [] w -> wp (for_each xs body) (fun _ => I xs) w.
Proof.
  intros Hbody.
  assert (forall rest done w, xs = done ++ rest -> I done w ->
            wp (for_each rest body) (fun _ => I xs) w) as H.
  { induction rest as [|x rest IH]; intros done w Hxs Hw.
    - rewrite app_nil_r in Hxs. subst done. apply wp_ret. exact Hw.
    - cbn [for_each]. apply wp_bind.
      destruct (Hbody done x w (ex_intro _ rest Hxs) Hw) as ([] & Hok & Hpost).
      exists tt. split; [exact Hok|].
      apply (IH (done ++ [x])); [rewrite <- app_assoc; exact Hxs|exact Hpost]. }
  intros w Hw. apply (H xs [] w); [reflexivity|exact Hw].
Qed.

Lemma concat_rows_snoc rows r : concat_rows (rows ++ [r]) = concat_rows rows +:+ r.
Proof.
  unfold concat_rows. induction rows as [|x rows IH]; simpl.
  - rewrite append_nil_l, append_nil_r. reflexivity.
  - rewrite IH, append_assoc. reflexivity.
Qed.

Lemma map_snd_enumerate {A} start (xs : list A) : List.map snd (enumerate start xs) = xs.
Proof.
  revert start. induction xs as [|x xs IH]; intros start; [reflexivity|].
  simpl. rewrite IH. reflexivity.
Qed.

(** [update_run_card] on a tidy template with both keys: it returns and
    has written the run card. *)
Lemma wp_plain_update_run_card mmin mmax text (Q : unit -> world -> Prop) w :
  tidy text ->
  Exists (key_line "mmll") (split_on nl text) ->
  Exists (key_line "mmllmax") (split_on nl text) ->
  holds w ScanMll.TEMPLATE_CARD text ->
  (forall w' card, cwd w' = cwd w ->
     files w' = <[resolve w ScanMll.RUN_CARD := card]> (files w) -> Q tt w') ->
  wp (ScanMll.update_run_card mmin mmax) Q w.
Proof.
  intros Htidy Hmin Hmax Hholds H. unfold wp.
  rewrite (plain_update_run_card_eq mmin mmax text w Hholds).
  pose proof (update_counts (format_float 0 6 Pg mmin) (format_float 0 6 Pg mmax) text
                Htidy (plain_value_format 6 Pg mmin)) as Hcount.
  destruct (subn _ _ text) as [text1 nmin].
  destruct (subn _ _ text1) as [text2 nmax].
  destruct Hcount as [-> ->].
  apply (matching_key_line "mmll" _ key_name_min) in Hmin.
  apply (matching_key_line "mmllmax" _ key_name_max) in Hmax.
  rewrite Hmin, Hmax. exists tt. split; [reflexivity|].
  apply (H _ text2); reflexivity.
Qed.

Lemma wp_cxx_update_run_card BASE_DIR mmin mmax text (Q : unit -> world -> Prop) w :
  tidy text ->
  Exists (key_line "mmll") (split_on nl text) ->
  Exists (key_line "mmllmax") (split_on nl text) ->
  holds w (ScanMllCxx.TEMPLATE_CARD BASE_DIR) text ->
  (forall w' card, cwd w' = cwd w ->
     files w' = <[resolve w (ScanMllCxx.RUN_CARD BASE_DIR) := card]> (files w) -> Q tt w') ->
  wp (ScanMllCxx.update_run_card BASE_DIR mmin mmax) Q w.
Proof.
  intros Htidy Hmin Hmax Hholds H. unfold wp.
  rewrite (cxx_update_run_card_eq BASE_DIR mmin mmax text w Hholds).
  pose proof (update_counts (format_float 0 6 Pg mmin) (format_float 0 6 Pg mmax) text
                Htidy (plain_value_format 6 Pg mmin)) as Hcount.
  destruct (subn _ _ text) as [text1 nmin].
  destruct (subn _ _ text1) as [text2 nmax].
  destruct Hcount as [-> ->].
  apply (matching_key_line "mmll" _ key_name_min) in Hmin.
  apply (matching_key_line "mmllmax" _ key_name_max) in Hmax.
  rewrite Hmin, Hmax. exists tt. split; [reflexivity|].
  apply (H _ text2); reflexivity.
Qed.

Lemma wp_update_param_card BASE_DIR label cxx_value ptext (Q : unit -> world -> Prop) w :
  ~ unmatched (cxx_pattern label) ptext ->
  holds w (ScanMllCxx.PARAM_CARD_TEMPLATE BASE_DIR) ptext ->
  (forall w' card, cwd w' = cwd w ->
     files w' = <[resolve w (ScanMllCxx.PARAM_CARD BASE_DIR) := card]> (files w) -> Q tt w') ->
  wp (ScanMllCxx.update_param_card BASE_DIR label cxx_value) Q w.
Proof.
  intros Hmatch Hholds H. unfold wp.
  rewrite (update_param_card_eq BASE_DIR label cxx_value ptext w Hholds).
  destruct (subn _ _ ptext) as [new_text n] eqn:E.
  destruct (n =? 0)%nat eqn:En.
  - exfalso. apply Hmatch. intros repl. unfold subn in *.
    rewrite (subn_go_count (cxx_pattern label) repl
               (cxx_repl (format_float 0 6 Pe (float_of_int cxx_value))) ptext None 0%nat), E.
    apply Nat.eqb_eq. exact En.
  - exists tt. split; [reflexivity|]. apply (H _ new_text); reflexivity.
Qed.

(** [run_madgraph] with a generator that reports: it returns the path of
    a log that holds what the generator printed. *)
Lemma wp_run_madgraph execute result_of gen log_dir run_name (Q : Path -> world -> Prop) w :
  reports execute result_of ->
  (forall w' text, cwd w' = cwd w ->
     files w' = <[resolve w (joinpath log_dir (run_name +:+ ".log")) := text]> (files w) ->
     ScanMll.scan_log (lines text) = Ok (Some (result_of [path_str gen; run_name; "-f"])) ->
     Q (joinpath log_dir (run_name +:+ ".log")) w') ->
  wp (print ("  -> Running: " +:+ join " " [path_str gen; run_name; "-f"]) ;;
      open_w (joinpath log_dir (run_name +:+ ".log")) ;;
      subprocess_run execute [path_str gen; run_name; "-f"]
        (joinpath log_dir (run_name +:+ ".log")) ;;
      ret (joinpath log_dir (run_name +:+ ".log"))) Q w.
Proof.
  intros Hrep H.
  set (log := joinpath log_dir (run_name +:+ ".log")) in *.
  set (cmd := [path_str gen; run_name; "-f"]) in *.
  unfold wp, bind, print, open_w, write_text, subprocess_run. cbn [fst snd].
  match goal with |- context [execute ?w0 cmd] => destruct (Hrep w0 cmd) as (c & -> & Hc & Hs) end.
  rewrite Hc. cbn [Z.eqb fst snd ret].
  exists log. split; [reflexivity|].
  apply (H _ (all_output c)); [reflexivity| |exact Hs].
  cbn. apply insert_insert_eq.
Qed.

(** ** The scan when every run succeeds *)

Lemma last_differ {A} (l1 l2 : list A) a b : l1 ++ [a] = l2 ++ [b] -> a = b.
Proof. intros H. apply app_inj_tail in H as [_ H]. exact H. Qed.

Lemma log_name_differ name rest c0 other :
  name = String "m" rest -> c0 <> "m"%char -> name +:+ ".log" <> String c0 other.
Proof. intros -> Hc. rewrite append_cons. intros H. injection H as H _. congruence. Qed.

Section PlainScan.
Variable BASE_DIR : Path.
Variable execute : world -> list string -> option completed.
Variable result_of : list string -> float * float * string.
Variable text : string.
Hypothesis Htidy : tidy text.
Hypothesis Hmin : Exists (key_line "mmll") (split_on nl text).
Hypothesis Hmax : Exists (key_line "mmllmax") (split_on nl text).
Hypothesis Hrep : reports execute result_of.
Variable c : list string.

Local Abbreviation tkey := (resolve_in c ScanMll.TEMPLATE_CARD).
Local Abbreviation okey := (resolve_in c ScanMll.OUTPUT_FILE).
Local Abbreviation ckey := (resolve_in c ScanMll.RUN_CARD).

Lemma plain_card_keys : ckey <> tkey /\ ckey <> okey /\ okey <> tkey.
Proof.
  change (c ++ ["Cards"; "run_card.dat"] <> c ++ ["Cards"; "run_card_template.dat"]
          /\ c ++ ["Cards"; "run_card.dat"] <> c ++ ["xsec_vs_mll.txt"]
          /\ c ++ ["xsec_vs_mll.txt"] <> c ++ ["Cards"; "run_card_template.dat"]).
  repeat split; intros E; apply app_inv_head in E; discriminate.
Qed.

Lemma plain_log_keys bin name :
  plain_run_name bin = Some name -> plain_name name = true ->
  resolve_in c (joinpath (ScanMll.LOG_DIR BASE_DIR) (name +:+ ".log")) <> tkey
  /\ resolve_in c (joinpath (ScanMll.LOG_DIR BASE_DIR) (name +:+ ".log")) <> okey.
Proof.
  intros Hn Hp. rewrite (log_key_plain _ _ _ Hp).
  destruct (plain_run_name_prefix _ _ Hn) as (rest & Hrest).
  assert (tkey = (c ++ ["Cards"]) ++ ["run_card_template.dat"]) as ->
    by (rewrite <- app_assoc; reflexivity).
  change okey with (c ++ ["xsec_vs_mll.txt"]).
  split; intros E; apply last_differ in E;
    revert E; apply (log_name_differ name rest _ _ Hrest); discriminate.
Qed.

Lemma plain_step_wp i bin name table w :
  plain_run_name bin = Some name -> plain_name name = true ->
  scanning c tkey text okey table w ->
  wp (ScanMll.step BASE_DIR execute (i, bin))
    (fun _ => scanning c tkey text okey (table +:+ plain_result_row result_of bin)) w.
Proof.
  destruct bin as [mmin mmax]. intros Hn Hp (Hc & Ht & Ho).
  destruct (plain_log_keys _ _ Hn Hp) as [Hlt Hlo].
  destruct plain_card_keys as (Hct & Hco & Hot).
  unfold plain_result_row. rewrite Hn. cbn [fst snd].
  unfold plain_run_name in Hn. cbn [fst snd] in Hn.
  destruct (int_of_float mmin) as [imin|] eqn:Eimin; [|discriminate].
  destruct (int_of_float mmax) as [imax|] eqn:Eimax; [|discriminate].
  cbn in Hn. apply (inj Some) in Hn.
  unfold ScanMll.step.
  apply wp_bind, wp_print. intros w1 Hc1 Hf1.
  apply wp_bind.
  apply (wp_plain_update_run_card mmin mmax text _ w1 Htidy Hmin Hmax).
  { unfold holds. rewrite resolve_resolve_in, Hc1, Hc, Hf1. exact Ht. }
  intros w2 card Hc2 Hf2. rewrite resolve_resolve_in, Hc1, Hc in Hf2.
  apply wp_bind. rewrite Eimin. apply (wp_or_raise _ _ imin); [reflexivity|].
  apply wp_bind. rewrite Eimax. apply (wp_or_raise _ _ imax); [reflexivity|].
  rewrite Hn.
  apply wp_bind. unfold ScanMll.run_madgraph.
  apply (wp_run_madgraph execute result_of _ _ _ _ _ Hrep).
  intros w3 ltext Hc3 Hf3 Hs.
  rewrite resolve_resolve_in, Hc2, Hc1, Hc in Hf3.
  destruct (result_of [path_str ScanMll.GENERATE_EVENTS; name; "-f"]) as [[xsec err] unit].
  apply wp_bind.
  apply (wp_parse_cross_section _ ltext (xsec, err, unit)); [|exact Hs|].
  { rewrite resolve_resolve_in, Hc3, Hc2, Hc1, Hc, Hf3. apply lookup_insert_eq. }
  intros w4 Hc4 Hf4.
  apply wp_bind, wp_print. intros w5 Hc5 Hf5.
  apply wp_append_text. intros w6 Hc6 Hf6.
  assert (cwd w5 = c) as Hc5' by congruence.
  rewrite resolve_resolve_in, Hc5' in Hf6.
  assert (forall k, k <> ckey ->
            k <> resolve_in c (joinpath (ScanMll.LOG_DIR BASE_DIR) (name +:+ ".log")) ->
            files w5 !! k = files w !! k) as Hframe.
  { intros k Hk1 Hk2. rewrite Hf5, Hf4, Hf3, lookup_insert_ne by congruence.
    rewrite Hf2, lookup_insert_ne by congruence. rewrite Hf1. reflexivity. }
  split; [congruence|]. split.
  - rewrite Hf6, lookup_insert_ne by exact Hot.
    rewrite Hframe by congruence. exact Ht.
  - rewrite Hf6, lookup_insert_eq. rewrite Hframe by congruence.
    rewrite Ho. reflexivity.
Qed.

Lemma plain_bins_named :
  forallb (fun bin => match plain_run_name bin with
                      | Some name => plain_name name
                      | None => false
                      end) ScanMll.MASS_BINS = true.
Proof. vm_compute. reflexivity. Qed.

Lemma plain_main_wp w :
  cwd w = c -> files w !! tkey = Some text ->
  wp (ScanMll.main BASE_DIR execute)
    (fun _ =>
       scanning c tkey text okey
         (ScanMll.header
          +:+ concat_rows (List.map (plain_result_row result_of) ScanMll.MASS_BINS))) w.
Proof.
  intros Hc Ht. destruct plain_card_keys as (_ & _ & Hot).
  unfold ScanMll.main.
  apply wp_bind, wp_write_text. intros w1 Hc1 Hf1.
  rewrite resolve_resolve_in, Hc in Hf1.
  apply wp_bind.
  pose (I := fun (done : list (Z * (float * float))) =>
               scanning c tkey text okey
                 (ScanMll.header
                  +:+ concat_rows (List.map (fun it => plain_result_row result_of (snd it))
                                     done))).
  assert (wp (for_each (enumerate 1 ScanMll.MASS_BINS) (ScanMll.step BASE_DIR execute))
            (fun _ => I (enumerate 1 ScanMll.MASS_BINS)) w1) as (u & Hok & Hpost).
  { apply (wp_for_each I).
    - intros done [i bin] w0 (rest & Hxs) Hw0.
      assert (bin ∈ ScanMll.MASS_BINS) as Hbin.
      { rewrite <- (map_snd_enumerate 1 ScanMll.MASS_BINS), Hxs.
        rewrite List.map_app. apply list_elem_of_In, in_or_app. right. left. reflexivity. }
      pose proof (proj1 (forallb_forall _ _) plain_bins_named bin
                    (proj1 (list_elem_of_In _ _) Hbin)) as Hnamed.
      cbv beta in Hnamed.
      destruct (plain_run_name bin) as [name|] eqn:Hn; [|discriminate].
      destruct (plain_step_wp i bin name _ w0 Hn Hnamed Hw0) as (u & Hok & Hpost).
      exists u. split; [exact Hok|].
      unfold I. rewrite List.map_app. cbn [List.map snd].
      rewrite concat_rows_snoc, <- append_assoc. exact Hpost.
    - unfold I, scanning. cbn [List.map concat_rows fold_right].
      rewrite append_nil_r. split; [congruence|]. split.
      + rewrite Hf1, lookup_insert_ne by exact Hot. exact Ht.
      + rewrite Hf1. apply lookup_insert_eq. }
  exists u. split; [exact Hok|].
  apply wp_print. intros w2 Hc2 Hf2.
  unfold I in Hpost. rewrite <- List.map_map, map_snd_enumerate in Hpost.
  destruct Hpost as (Hc' & Ht' & Ho'). split; [congruence|]. rewrite Hf2. auto.
Qed.

End PlainScan.

Lemma wp_cxx_parse_cross_section p text r (Q : float * float * string -> world -> Prop) w :
  files w !! resolve w p = Some text ->
  ScanMll.scan_log (lines text) = Ok (Some r) ->
  (forall w', cwd w' = cwd w -> files w' = files w -> Q r w') ->
  wp (ScanMllCxx.parse_cross_section p) Q w.
Proof.
  intros Hf Hs H. unfold wp. rewrite parse_cross_section_same.
  apply (wp_parse_cross_section p text r Q w Hf Hs H).
Qed.

Lemma map_prod_enumerate {A B C} (f : A * B -> C) start (xs : list A) (ys : list B) :
  List.map (fun p => f (snd (fst p), snd p)) (list_prod (enumerate start xs) ys)
  = List.map f (list_prod xs ys).
Proof.
  revert start. induction xs as [|x xs IH]; intros start; [reflexivity|].
  simpl. rewrite !List.map_app, IH, !List.map_map. reflexivity.
Qed.

Lemma in_prod_enumerate {A B} start (xs : list A) (ys : list B) i x y :
  In ((i, x), y) (list_prod (enumerate start xs) ys) -> In (x, y) (list_prod xs ys).
Proof.
  intros H. apply in_prod_iff in H as [Hx Hy]. apply in_prod_iff. split; [|exact Hy].
  rewrite <- (map_snd_enumerate start xs). apply (in_map snd _ _ Hx).
Qed.

Section CxxScan.
Variable BASE_DIR : Path.
Variable execute : world -> list string -> option completed.
Variable label : string.
Variable result_of : list string -> float * float * string.
Variables text ptext : string.
Hypothesis Htidy : tidy text.
Hypothesis Hmin : Exists (key_line "mmll") (split_on nl text).
Hypothesis Hmax : Exists (key_line "mmllmax") (split_on nl text).
Hypothesis Hparam : ~ unmatched (cxx_pattern label) ptext.
Hypothesis Hrep : reports execute result_of.
Variable c : list string.

Local Abbreviation base := (resolve_in c BASE_DIR).
Local Abbreviation tkey := (resolve_in c (ScanMllCxx.TEMPLATE_CARD BASE_DIR)).
Local Abbreviation pkey := (resolve_in c (ScanMllCxx.PARAM_CARD_TEMPLATE BASE_DIR)).
Local Abbreviation okey := (resolve_in c (ScanMllCxx.OUTPUT_FILE BASE_DIR)).
Local Abbreviation ckey := (resolve_in c (ScanMllCxx.RUN_CARD BASE_DIR)).
Local Abbreviation qkey := (resolve_in c (ScanMllCxx.PARAM_CARD BASE_DIR)).

Lemma cxx_keys :
  tkey = (base ++ ["Cards"]) ++ ["run_card_template.dat"]
  /\ pkey = (base ++ ["Cards"]) ++ ["param_card_template.dat"]
  /\ ckey = (base ++ ["Cards"]) ++ ["run_card.dat"]
  /\ qkey = (base ++ ["Cards"]) ++ ["param_card.dat"]
  /\ okey = base ++ ["xsec_vs_mll_cxx.txt"].
Proof.
  repeat split; try (apply cxx_card_key; reflexivity). apply cxx_out_key.
Qed.

Lemma cxx_card_keys :
  ckey <> tkey /\ ckey <> pkey /\ ckey <> okey
  /\ qkey <> tkey /\ qkey <> pkey /\ qkey <> okey
  /\ okey <> tkey /\ okey <> pkey.
Proof.
  destruct cxx_keys as (-> & -> & -> & -> & ->).
  repeat split; intros E; apply last_differ in E; discriminate.
Qed.

Lemma cxx_log_keys run name :
  cxx_run_name run = Some name -> plain_name name = true ->
  resolve_in c (joinpath (ScanMllCxx.LOG_DIR BASE_DIR) (name +:+ ".log")) <> tkey
  /\ resolve_in c (joinpath (ScanMllCxx.LOG_DIR BASE_DIR) (name +:+ ".log")) <> pkey
  /\ resolve_in c (joinpath (ScanMllCxx.LOG_DIR BASE_DIR) (name +:+ ".log")) <> okey.
Proof.
  intros Hn Hp. rewrite (log_key_plain _ _ _ Hp).
  destruct (cxx_run_name_prefix _ _ Hn) as (rest & Hrest).
  destruct cxx_keys as (-> & -> & _ & _ & ->).
  repeat split; intros E; apply last_differ in E;
    revert E; apply (log_name_differ name rest _ _ Hrest); discriminate.
Qed.

Lemma cxx_step_wp i bin cxx name table w :
  cxx_run_name (bin, cxx) = Some name -> plain_name name = true ->
  scanning c tkey text okey table w -> files w !! pkey = Some ptext ->
  wp (ScanMllCxx.step BASE_DIR execute label (i, bin) cxx)
    (fun _ w' =>
       scanning c tkey text okey
         (table +:+ cxx_result_row BASE_DIR result_of (bin, cxx)) w'
       /\ files w' !! pkey = Some ptext) w.
Proof.
  destruct bin as [mmin mmax]. intros Hn Hp (Hc & Ht & Ho) Hpt.
  destruct (cxx_log_keys _ _ Hn Hp) as (Hlt & Hlp & Hlo).
  destruct cxx_card_keys as (Hct & Hcp & Hco & Hqt & Hqp & Hqo & Hot & Hop).
  unfold cxx_result_row. rewrite Hn. cbn [fst snd].
  unfold cxx_run_name in Hn. cbn [fst snd] in Hn.
  destruct (int_of_float mmin) as [imin|] eqn:Eimin; [|discriminate].
  destruct (int_of_float mmax) as [imax|] eqn:Eimax; [|discriminate].
  cbn in Hn. apply (inj Some) in Hn.
  unfold ScanMllCxx.step.
  apply wp_bind, wp_print. intros w1 Hc1 Hf1.
  apply wp_bind.
  apply (wp_cxx_update_run_card BASE_DIR mmin mmax text _ w1 Htidy Hmin Hmax).
  { unfold holds. rewrite resolve_resolve_in, Hc1, Hc, Hf1. exact Ht. }
  intros w2 card Hc2 Hf2. rewrite resolve_resolve_in, Hc1, Hc in Hf2.
  assert (cwd w2 = c) as Hc2' by congruence.
  apply wp_bind.
  apply (wp_update_param_card BASE_DIR label cxx ptext _ w2 Hparam).
  { unfold holds. rewrite resolve_resolve_in, Hc2', Hf2, lookup_insert_ne by exact Hcp.
    rewrite Hf1. exact Hpt. }
  intros w3 pcard Hc3 Hf3. rewrite resolve_resolve_in, Hc2' in Hf3.
  assert (cwd w3 = c) as Hc3' by congruence.
  cbv zeta.
  apply wp_bind. rewrite Eimin. apply (wp_or_raise _ _ imin); [reflexivity|].
  apply wp_bind. rewrite Eimax. apply (wp_or_raise _ _ imax); [reflexivity|].
  rewrite Hn.
  apply wp_bind. unfold ScanMllCxx.run_madgraph.
  apply (wp_run_madgraph execute result_of _ _ _ _ _ Hrep).
  intros w4 ltext Hc4 Hf4 Hs.
  rewrite resolve_resolve_in, Hc3' in Hf4.
  assert (cwd w4 = c) as Hc4' by congruence.
  destruct (result_of [path_str (ScanMllCxx.GENERATE_EVENTS BASE_DIR); name; "-f"])
    as [[xsec err] unit].
  apply wp_bind.
  apply (wp_cxx_parse_cross_section _ ltext (xsec, err, unit)); [|exact Hs|].
  { rewrite resolve_resolve_in, Hc4', Hf4. apply lookup_insert_eq. }
  intros w5 Hc5 Hf5.
  apply wp_bind, wp_print. intros w6 Hc6 Hf6.
  apply wp_append_text. intros w7 Hc7 Hf7.
  assert (cwd w6 = c) as Hc6' by congruence.
  rewrite resolve_resolve_in, Hc6' in Hf7.
  assert (forall k, k <> ckey -> k <> qkey ->
            k <> resolve_in c (joinpath (ScanMllCxx.LOG_DIR BASE_DIR) (name +:+ ".log")) ->
            files w6 !! k = files w !! k) as Hframe.
  { intros k Hk1 Hk2 Hk3. rewrite Hf6, Hf5, Hf4, lookup_insert_ne by congruence.
    rewrite Hf3, lookup_insert_ne by congruence.
    rewrite Hf2, lookup_insert_ne by congruence. rewrite Hf1. reflexivity. }
  split; [split; [congruence|split]|].
  - rewrite Hf7, lookup_insert_ne by exact Hot.
    rewrite Hframe by congruence. exact Ht.
  - rewrite Hf7, lookup_insert_eq. rewrite Hframe by congruence.
    rewrite Ho. reflexivity.
  - rewrite Hf7, lookup_insert_ne by exact Hop.
    rewrite Hframe by congruence. exact Hpt.
Qed.

Lemma cxx_runs_named :
  forallb (fun run => match cxx_run_name run with
                      | Some name => plain_name name
                      | None => false
                      end) (list_prod ScanMllCxx.MASS_BINS ScanMllCxx.CXX_VALUES) = true.
Proof. vm_compute. reflexivity. Qed.

Lemma cxx_main_wp w :
  cwd w = c -> files w !! tkey = Some text -> files w !! pkey = Some ptext ->
  wp (ScanMllCxx.main BASE_DIR execute label)
    (fun _ =>
       scanning c tkey text okey
         (ScanMllCxx.header
          +:+ concat_rows (List.map (cxx_result_row BASE_DIR result_of)
                             (list_prod ScanMllCxx.MASS_BINS ScanMllCxx.CXX_VALUES)))) w.
Proof.
  intros Hc Ht Hpt. destruct cxx_card_keys as (_ & _ & _ & _ & _ & _ & Hot & Hop).
  unfold ScanMllCxx.main.
  apply wp_bind, wp_write_text. intros w1 Hc1 Hf1.
  rewrite resolve_resolve_in, Hc in Hf1.
  apply wp_bind.
  pose (I := fun (done : list (Z * (float * float) * Z)) (w' : world) =>
               scanning c tkey text okey
                 (ScanMllCxx.header
                  +:+ concat_rows
                        (List.map (fun p => cxx_result_row BASE_DIR result_of
                                              (snd (fst p), snd p)) done)) w'
               /\ files w' !! pkey = Some ptext).
  assert (wp (for_each (list_prod (enumerate 1 ScanMllCxx.MASS_BINS) ScanMllCxx.CXX_VALUES)
                (fun p => ScanMllCxx.step BASE_DIR execute label (fst p) (snd p)))
            (fun _ => I (list_prod (enumerate 1 ScanMllCxx.MASS_BINS) ScanMllCxx.CXX_VALUES))
            w1) as (u & Hok & Hpost).
  { apply (wp_for_each I).
    - intros done [[i bin] cxx] w0 (rest & Hxs) [Hw0 Hp0].
      assert (In (bin, cxx) (list_prod ScanMllCxx.MASS_BINS ScanMllCxx.CXX_VALUES)) as Hrun.
      { apply (in_prod_enumerate 1 _ _ i). rewrite Hxs.
        apply in_or_app. right. left. reflexivity. }
      pose proof (proj1 (forallb_forall _ _) cxx_runs_named (bin, cxx) Hrun) as Hnamed.
      cbv beta in Hnamed.
      destruct (cxx_run_name (bin, cxx)) as [name|] eqn:Hn; [|discriminate].
      destruct (cxx_step_wp i bin cxx name _ w0 Hn Hnamed Hw0 Hp0) as (u & Hok & Hpost).
      exists u. split; [exact Hok|].
      unfold I. rewrite List.map_app. cbn [List.map fst snd].
      rewrite concat_rows_snoc, <- append_assoc. exact Hpost.
    - unfold I, scanning. cbn [List.map concat_rows fold_right].
      rewrite append_nil_r. split; [split; [congruence|split]|].
      + rewrite Hf1, lookup_insert_ne by exact Hot. exact Ht.
      + rewrite Hf1. apply lookup_insert_eq.
      + rewrite Hf1, lookup_insert_ne by exact Hop. exact Hpt. }
  exists u. split.
  - rewrite for_each_nested. exact Hok.
  - rewrite for_each_nested.
    apply wp_print. intros w2 Hc2 Hf2.
    unfold I in Hpost. rewrite map_prod_enumerate in Hpost.
    destruct Hpost as ((Hc' & Ht' & Ho') & _). split; [congruence|]. rewrite Hf2. auto.
Qed.

End CxxScan.


Lemma Exists_check {A} (f : A -> bool) (ls : list A) :
  existsb f ls = true -> Exists (fun x => f x = true) ls.
Proof.
  intros H. apply existsb_exists in H as (x & Hx & Hf).
  apply Exists_exists. exists x. split; [apply list_elem_of_In; exact Hx|exact Hf].
Qed.


(** ** The scan when a stage fails *)

Lemma fails_bind_l {A B} (m : M A) (k : A -> M B) e Q w :
  fails m e Q w -> fails (bind m k) e Q w.
Proof.
  intros [He HQ]. unfold fails, bind.
  destruct (m w) as [r w1]. cbn [fst snd] in *. subst r. auto.
Qed.

Lemma fails_bind_r {A B} (m : M A) (k : A -> M B) e Q w :
  wp m (fun a w' => fails (k a) e Q w') w -> fails (bind m k) e Q w.
Proof.
  intros (a & Ha & He & HQ). unfold fails, bind.
  destruct (m w) as [r w1]. cbn [fst snd] in *. subst r. auto.
Qed.

Lemma fails_read_text p (Q : world -> Prop) w :
  files w !! resolve w p = None -> Q w ->
  fails (read_text p) (FileNotFoundError (path_str p)) Q w.
Proof. intros H HQ. unfold fails, read_text. rewrite H. auto. Qed.

Lemma plain_bins_head :
  exists rest, enumerate 1 ScanMll.MASS_BINS = (1%Z, first_bin) :: rest.
Proof. eexists. reflexivity. Qed.

Lemma cxx_runs_head :
  exists rest,
    list_prod (enumerate 1 ScanMllCxx.MASS_BINS) ScanMllCxx.CXX_VALUES
    = ((1%Z, first_bin), (-100)%Z) :: rest.
Proof. eexists. reflexivity. Qed.

(** X10: when the run card template is missing, [main] of either script
    raises [FileNotFoundError] in the first pass of its loop; by then it
    has replaced the table by the header, and it has changed no other
    file. *)
Theorem main_without_template BASE_DIR execute label w :
  files w !! resolve w ScanMll.TEMPLATE_CARD = None ->
  files w !! resolve w (ScanMllCxx.TEMPLATE_CARD BASE_DIR) = None ->
  (exists msg,
     fst (ScanMll.main BASE_DIR execute w) = Raise (FileNotFoundError msg)
     /\ files (snd (ScanMll.main BASE_DIR execute w))
        = <[resolve w ScanMll.OUTPUT_FILE := ScanMll.header]> (files w))
  /\ (exists msg,
        fst (ScanMllCxx.main BASE_DIR execute label w) = Raise (FileNotFoundError msg)
        /\ files (snd (ScanMllCxx.main BASE_DIR execute label w))
           = <[resolve w (ScanMllCxx.OUTPUT_FILE BASE_DIR) := ScanMllCxx.header]> (files w)).
Proof.
  intros Hplain Hcxx. split.
  - exists (path_str ScanMll.TEMPLATE_CARD).
    change (fails (ScanMll.main BASE_DIR execute)
              (FileNotFoundError (path_str ScanMll.TEMPLATE_CARD))
              (fun w' => files w'
                         = <[resolve w ScanMll.OUTPUT_FILE := ScanMll.header]> (files w)) w).
    unfold ScanMll.main.
    apply fails_bind_r, wp_write_text. intros w1 Hc1 Hf1.
    apply fails_bind_l. destruct plain_bins_head as (rest & ->).
    cbn [for_each]. apply fails_bind_l. unfold ScanMll.step, first_bin.
    apply fails_bind_r, wp_print. intros w2 Hc2 Hf2.
    apply fails_bind_l. unfold ScanMll.update_run_card.
    apply fails_bind_l, fails_read_text; [|congruence].
    rewrite !resolve_resolve_in in *. rewrite Hc2, Hc1, Hf2, Hf1.
    rewrite lookup_insert_ne; [exact Hplain|].
    exact (proj2 (proj2 (plain_card_keys (cwd w)))).
  - exists (path_str (ScanMllCxx.TEMPLATE_CARD BASE_DIR)).
    change (fails (ScanMllCxx.main BASE_DIR execute label)
              (FileNotFoundError (path_str (ScanMllCxx.TEMPLATE_CARD BASE_DIR)))
              (fun w' => files w'
                         = <[resolve w (ScanMllCxx.OUTPUT_FILE BASE_DIR)
                               := ScanMllCxx.header]> (files w)) w).
    unfold ScanMllCxx.main.
    apply fails_bind_r, wp_write_text. intros w1 Hc1 Hf1.
    apply fails_bind_l. unfold fails. rewrite for_each_nested.
    destruct cxx_runs_head as (rest & ->).
    cbn [for_each fst snd].
    lazymatch goal with
    | |- fst (?m ?w0) = Raise ?e /\ files (snd (?m ?w0)) = ?f =>
        change (fails m e (fun w' => files w' = f) w0)
    end.
    apply fails_bind_l. cbn [fst snd]. unfold ScanMllCxx.step, first_bin.
    apply fails_bind_r, wp_print. intros w2 Hc2 Hf2.
    apply fails_bind_l. unfold ScanMllCxx.update_run_card.
    apply fails_bind_l, fails_read_text; [|congruence].
    rewrite !resolve_resolve_in in *. rewrite Hc2, Hc1, Hf2, Hf1.
    rewrite lookup_insert_ne; [exact Hcxx|].
    destruct (cxx_card_keys BASE_DIR (cwd w)) as (_ & _ & _ & _ & _ & _ & H & _). exact H.
Qed.

Lemma main_without_template_witness :
  (exists msg,
     fst (ScanMll.main Examples.proc_dir Examples.generator_ok Examples.world_good)
       = Raise (FileNotFoundError msg)
     /\ files (snd (ScanMll.main Examples.proc_dir Examples.generator_ok
                      Examples.world_good))
        = <[resolve Examples.world_good ScanMll.OUTPUT_FILE := ScanMll.header]>
            (files Examples.world_good))
  /\ (exists msg,
        fst (ScanMllCxx.main Examples.proc_dir Examples.generator_ok "cuu"
               Examples.world_good) = Raise (FileNotFoundError msg)
        /\ files (snd (ScanMllCxx.main Examples.proc_dir Examples.generator_ok "cuu"
                         Examples.world_good))
           = <[resolve Examples.world_good (ScanMllCxx.OUTPUT_FILE Examples.proc_dir)
                 := ScanMllCxx.header]> (files Examples.world_good)).
Proof.
  apply (main_without_template Examples.proc_dir Examples.generator_ok "cuu"
           Examples.world_good).
  - vm_compute; reflexivity.
  - vm_compute; reflexivity.
Defined.

(** [run_madgraph] with a generator that ends with another status than
    0: it raises, and the log holds what the generator printed. *)
Lemma fails_run_madgraph execute gen log_dir run_name c (Q : world -> Prop) w :
  (forall w', execute w' [path_str gen; run_name; "-f"] = Some c) ->
  returncode c <> 0%Z ->
  (forall w', cwd w' = cwd w ->
     files w' = <[resolve w (joinpath log_dir (run_name +:+ ".log")) := all_output c]>
                  (files w) ->
     Q w') ->
  fails (print ("  -> Running: " +:+ join " " [path_str gen; run_name; "-f"]) ;;
         open_w (joinpath log_dir (run_name +:+ ".log")) ;;
         subprocess_run execute [path_str gen; run_name; "-f"]
           (joinpath log_dir (run_name +:+ ".log")) ;;
         ret (joinpath log_dir (run_name +:+ ".log")))
    (CalledProcessError (returncode c) [path_str gen; run_name; "-f"]) Q w.
Proof.
  intros Hexec Hc H.
  unfold fails, bind, print, open_w, write_text, subprocess_run. cbn [fst snd].
  rewrite Hexec. apply Z.eqb_neq in Hc. rewrite Hc. cbn [fst snd].
  split; [reflexivity|]. apply H; [reflexivity|]. cbn. apply insert_insert_eq.
Qed.

(** X11: on a tidy run card template with a line for each key (and, for
    the cxx script, with a label of word characters whose pattern matches in
    the parameter template), when the first run of the generator ends with
    another status than 0, [main] of either script raises the
    [CalledProcessError] of that run; the table then holds the header and no
    row, and the log of the run holds what the generator printed. *)
Theorem scan_stops_at_failed_run BASE_DIR execute label text ptext c1 c2 w :
  tidy text ->
  Exists (key_line "mmll") (split_on nl text) ->
  Exists (key_line "mmllmax") (split_on nl text) ->
  key_name label ->
  ~ unmatched (cxx_pattern label) ptext ->
  holds w ScanMll.TEMPLATE_CARD text ->
  holds w (ScanMllCxx.TEMPLATE_CARD BASE_DIR) text ->
  holds w (ScanMllCxx.PARAM_CARD_TEMPLATE BASE_DIR) ptext ->
  (forall w', execute w' [path_str ScanMll.GENERATE_EVENTS; first_plain_run; "-f"]
              = Some c1) ->
  returncode c1 <> 0%Z ->
  (forall w', execute w' [path_str (ScanMllCxx.GENERATE_EVENTS BASE_DIR); first_cxx_run; "-f"]
              = Some c2) ->
  returncode c2 <> 0%Z ->
  (fst (ScanMll.main BASE_DIR execute w)
   = Raise (CalledProcessError (returncode c1)
              [path_str ScanMll.GENERATE_EVENTS; first_plain_run; "-f"])
   /\ files (snd (ScanMll.main BASE_DIR execute w)) !! resolve w ScanMll.OUTPUT_FILE
      = Some ScanMll.header
   /\ files (snd (ScanMll.main BASE_DIR execute w))
        !! log_file w (ScanMll.LOG_DIR BASE_DIR) first_plain_run
      = Some (all_output c1))
  /\ (fst (ScanMllCxx.main BASE_DIR execute label w)
      = Raise (CalledProcessError (returncode c2)
                 [path_str (ScanMllCxx.GENERATE_EVENTS BASE_DIR); first_cxx_run; "-f"])
      /\ files (snd (ScanMllCxx.main BASE_DIR execute label w))
           !! resolve w (ScanMllCxx.OUTPUT_FILE BASE_DIR)
         = Some ScanMllCxx.header
      /\ files (snd (ScanMllCxx.main BASE_DIR execute label w))
           !! log_file w (ScanMllCxx.LOG_DIR BASE_DIR) first_cxx_run
         = Some (all_output c2)).
Proof.
  intros Htidy Hmin Hmax Hlabel Hparam Hplain Hcxx Hptext Hex1 Hrc1 Hex2 Hrc2.
  unfold holds, log_file in *. rewrite !resolve_resolve_in in *.
  set (c := cwd w) in *. split.
  - destruct (plain_log_keys BASE_DIR c first_bin first_plain_run eq_refl eq_refl)
      as [Hlt Hlo].
    destruct (plain_card_keys c) as (Hct & Hco & Hot).
    lazymatch goal with
    | |- fst (?m ?w0) = Raise ?e /\ files (snd (?m ?w0)) !! ?k1 = ?v1
                                    /\ files (snd (?m ?w0)) !! ?k2 = ?v2 =>
        change (fails m e (fun w' => files w' !! k1 = v1 /\ files w' !! k2 = v2) w0)
    end.
    unfold ScanMll.main.
    apply fails_bind_r, wp_write_text. intros w1 Hc1 Hf1.
    rewrite resolve_resolve_in in Hf1. fold c in Hf1.
    apply fails_bind_l. destruct plain_bins_head as (rest & ->).
    cbn [for_each]. apply fails_bind_l. unfold ScanMll.step, first_bin.
    apply fails_bind_r, wp_print. intros w2 Hc2 Hf2.
    apply fails_bind_r.
    apply (wp_plain_update_run_card _ _ text _ w2 Htidy Hmin Hmax).
    { unfold holds. rewrite resolve_resolve_in, Hc2, Hc1, Hf2, Hf1. fold c.
      rewrite lookup_insert_ne by exact Hot. exact Hplain. }
    intros w3 card Hc3 Hf3. rewrite resolve_resolve_in, Hc2, Hc1 in Hf3. fold c in Hf3.
    apply fails_bind_r. apply (wp_or_raise _ _ 15%Z); [reflexivity|].
    apply fails_bind_r. apply (wp_or_raise _ _ 20%Z); [reflexivity|].
    change ("mll_" +:+ int_str 15 +:+ "_" +:+ int_str 20) with first_plain_run.
    apply fails_bind_l. unfold ScanMll.run_madgraph.
    apply (fails_run_madgraph execute _ _ _ c1 _ w3 Hex1 Hrc1).
    intros w4 Hc4 Hf4. rewrite resolve_resolve_in, Hc3, Hc2, Hc1 in Hf4. fold c in Hf4.
    rewrite Hf4. split.
    + rewrite lookup_insert_ne by congruence.
      rewrite Hf3, lookup_insert_ne by congruence.
      rewrite Hf2, Hf1. apply lookup_insert_eq.
    + apply lookup_insert_eq.
  - destruct (cxx_log_keys BASE_DIR c (first_bin, (-100)%Z) first_cxx_run eq_refl eq_refl)
      as (Hlt & Hlp & Hlo).
    destruct (cxx_card_keys BASE_DIR c) as (Hct & Hcp & Hco & Hqt & Hqp & Hqo & Hot & Hop).
    lazymatch goal with
    | |- fst (?m ?w0) = Raise ?e /\ files (snd (?m ?w0)) !! ?k1 = ?v1
                                    /\ files (snd (?m ?w0)) !! ?k2 = ?v2 =>
        change (fails m e (fun w' => files w' !! k1 = v1 /\ files w' !! k2 = v2) w0)
    end.
    unfold ScanMllCxx.main.
    apply fails_bind_r, wp_write_text. intros w1 Hc1 Hf1.
    rewrite resolve_resolve_in in Hf1. fold c in Hf1.
    apply fails_bind_l. unfold fails. rewrite for_each_nested.
    destruct cxx_runs_head as (rest & ->).
    cbn [for_each fst snd].
    lazymatch goal with
    | |- fst (?m ?w0) = Raise ?e /\ files (snd (?m ?w0)) !! ?k1 = ?v1
                                    /\ files (snd (?m ?w0)) !! ?k2 = ?v2 =>
        change (fails m e (fun w' => files w' !! k1 = v1 /\ files w' !! k2 = v2) w0)
    end.
    apply fails_bind_l. unfold ScanMllCxx.step, first_bin.
    apply fails_bind_r, wp_print. intros w2 Hc2 Hf2.
    apply fails_bind_r.
    apply (wp_cxx_update_run_card BASE_DIR _ _ text _ w2 Htidy Hmin Hmax).
    { unfold holds. rewrite resolve_resolve_in, Hc2, Hc1, Hf2, Hf1. fold c.
      rewrite lookup_insert_ne by exact Hot. exact Hcxx. }
    intros w3 card Hc3 Hf3. rewrite resolve_resolve_in, Hc2, Hc1 in Hf3. fold c in Hf3.
    assert (cwd w3 = c) as Hc3' by (unfold c; congruence).
    apply fails_bind_r.
    apply (wp_update_param_card BASE_DIR label _ ptext _ w3 Hparam).
    { unfold holds. rewrite resolve_resolve_in, Hc3', Hf3.
      rewrite lookup_insert_ne by exact Hcp.
      rewrite Hf2, Hf1, lookup_insert_ne by exact Hop. exact Hptext. }
    intros w4 pcard Hc4 Hf4. rewrite resolve_resolve_in, Hc3' in Hf4.
    assert (cwd w4 = c) as Hc4' by congruence.
    cbv zeta.
    apply fails_bind_r. apply (wp_or_raise _ _ 15%Z); [reflexivity|].
    apply fails_bind_r. apply (wp_or_raise _ _ 20%Z); [reflexivity|].
    change ("mll_" +:+ int_str 15 +:+ "_" +:+ int_str 20 +:+ "_cxx_"
            +:+ replace "-" "m" (replace "." "p" (int_str (-100)))) with first_cxx_run.
    apply fails_bind_l. unfold ScanMllCxx.run_madgraph.
    apply (fails_run_madgraph execute _ _ _ c2 _ w4 Hex2 Hrc2).
    intros w5 Hc5 Hf5. rewrite resolve_resolve_in, Hc4' in Hf5.
    rewrite Hf5. split.
    + rewrite lookup_insert_ne by congruence.
      rewrite Hf4, lookup_insert_ne by congruence.
      rewrite Hf3, lookup_insert_ne by congruence.
      rewrite Hf2, Hf1. apply lookup_insert_eq.
    + apply lookup_insert_eq.
Qed.

Lemma scan_stops_at_failed_run_witness :
  (fst (ScanMll.main Examples.proc_dir Examples.generator_fail Examples.world_cards)
   = Raise (CalledProcessError 2 [path_str ScanMll.GENERATE_EVENTS; first_plain_run; "-f"])
   /\ files (snd (ScanMll.main Examples.proc_dir Examples.generator_fail
                    Examples.world_cards))
        !! resolve Examples.world_cards ScanMll.OUTPUT_FILE
      = Some ScanMll.header
   /\ files (snd (ScanMll.main Examples.proc_dir Examples.generator_fail
                    Examples.world_cards))
        !! log_file Examples.world_cards (ScanMll.LOG_DIR Examples.proc_dir) first_plain_run
      = Some ("fatal" +:+ Examples.NL))
  /\ (fst (ScanMllCxx.main Examples.proc_dir Examples.generator_fail "cuu"
             Examples.world_cards)
      = Raise (CalledProcessError 2
                 [path_str (ScanMllCxx.GENERATE_EVENTS Examples.proc_dir);
                  first_cxx_run; "-f"])
      /\ files (snd (ScanMllCxx.main Examples.proc_dir Examples.generator_fail "cuu"
                       Examples.world_cards))
           !! resolve Examples.world_cards (ScanMllCxx.OUTPUT_FILE Examples.proc_dir)
         = Some ScanMllCxx.header
      /\ files (snd (ScanMllCxx.main Examples.proc_dir Examples.generator_fail "cuu"
                       Examples.world_cards))
           !! log_file Examples.world_cards (ScanMllCxx.LOG_DIR Examples.proc_dir)
                first_cxx_run
         = Some ("fatal" +:+ Examples.NL)).
Proof.
  apply (scan_stops_at_failed_run Examples.proc_dir Examples.generator_fail "cuu"
           Examples.card_template Examples.param_template
           {| returncode := 2; written := [ (Stderr, "fatal" +:+ Examples.NL) ] |}
           {| returncode := 2; written := [ (Stderr, "fatal" +:+ Examples.NL) ] |}
           Examples.world_cards).
  - apply tidy_check. vm_compute. reflexivity.
  - apply (Exists_check (matches_at (key_pattern "mmll") None)). vm_compute. reflexivity.
  - apply (Exists_check (matches_at (key_pattern "mmllmax") None)). vm_compute. reflexivity.
  - split; [discriminate|reflexivity].
  - intros H. specialize (H (fun _ _ => "")). vm_compute in H. discriminate.
  - vm_compute; reflexivity.
  - vm_compute; reflexivity.
  - vm_compute; reflexivity.
  - intros w'. reflexivity.
  - discriminate.
  - intros w'. reflexivity.
  - discriminate.
Defined.

(** ** A generator that cannot be started *)

(** X12: when the generator cannot be started, [run_madgraph] of either
    script raises the [OSError] of the failed start; the log of the run has
    been opened for writing before, so it is left empty, whatever it held,
    and no other file has changed. *)
Theorem run_madgraph_cannot_start BASE_DIR execute run_name w :
  (forall w' cmd, execute w' cmd = None) ->
  (fst (ScanMll.run_madgraph BASE_DIR execute run_name w) = Raise OSError
   /\ files (snd (ScanMll.run_madgraph BASE_DIR execute run_name w))
      = <[log_file w (ScanMll.LOG_DIR BASE_DIR) run_name := ""]> (files w))
  /\ (fst (ScanMllCxx.run_madgraph BASE_DIR execute run_name w) = Raise OSError
      /\ files (snd (ScanMllCxx.run_madgraph BASE_DIR execute run_name w))
         = <[log_file w (ScanMllCxx.LOG_DIR BASE_DIR) run_name := ""]> (files w)).
Proof.
  intros Hnone.
  unfold ScanMll.run_madgraph, ScanMllCxx.run_madgraph, log_file.
  unfold bind, print, open_w, write_text, subprocess_run. cbn [fst snd].
  rewrite !Hnone. cbn [fst snd]. repeat split.
Qed.

Lemma run_madgraph_cannot_start_witness :
  (fst (ScanMll.run_madgraph Examples.proc_dir Examples.generator_missing "mll_15_20"
          Examples.world_good) = Raise OSError
   /\ files (snd (ScanMll.run_madgraph Examples.proc_dir Examples.generator_missing
                    "mll_15_20" Examples.world_good))
      = <[log_file Examples.world_good (ScanMll.LOG_DIR Examples.proc_dir) "mll_15_20" := ""]>
          (files Examples.world_good))
  /\ (fst (ScanMllCxx.run_madgraph Examples.proc_dir Examples.generator_missing "mll_15_20"
             Examples.world_good) = Raise OSError
      /\ files (snd (ScanMllCxx.run_madgraph Examples.proc_dir Examples.generator_missing
                       "mll_15_20" Examples.world_good))
         = <[log_file Examples.world_good (ScanMllCxx.LOG_DIR Examples.proc_dir)
               "mll_15_20" := ""]> (files Examples.world_good)).
Proof.
  apply (run_madgraph_cannot_start Examples.proc_dir Examples.generator_missing "mll_15_20"
           Examples.world_good).
  intros w' cmd. reflexivity.
Defined.

(** ** The files the scan writes *)

Lemma elem_of_enumerate {A} start (xs : list A) i x :
  (i, x) ∈ enumerate start xs -> x ∈ xs.
Proof.
  intros H. rewrite <- (map_snd_enumerate start xs).
  apply list_elem_of_In. apply list_elem_of_In in H. apply (in_map snd _ _ H).
Qed.

Lemma traced_plain_main_touch BASE_DIR execute c (touch : list string -> Prop) :
  touch (resolve_in c ScanMll.RUN_CARD) ->
  touch (resolve_in c ScanMll.OUTPUT_FILE) ->
  (forall bin name, bin ∈ ScanMll.MASS_BINS -> plain_run_name bin = Some name ->
     touch (resolve_in c (joinpath (ScanMll.LOG_DIR BASE_DIR) (name +:+ ".log")))) ->
  traced c
    (EvWrite (resolve_in c ScanMll.OUTPUT_FILE)
     :: flat_map (plain_events c BASE_DIR) ScanMll.MASS_BINS)
    touch (fun _ => True) (ScanMll.main BASE_DIR execute).
Proof.
  intros Hcard Hout Hlog. unfold ScanMll.main.
  eapply traced_bind; [|apply traced_write_text; exact Hout|]; [reflexivity|]. intros _ _.
  eapply traced_bind; [| |intros _ _; apply traced_print]; [symmetry; apply app_nil_r|].
  rewrite <- (flat_map_enumerate (plain_events c BASE_DIR) 1).
  apply traced_for_each. intros [i bin] Hin. apply traced_plain_step; auto.
  intros name Hn. apply (Hlog bin name); [|exact Hn].
  apply (elem_of_enumerate 1 _ i). exact Hin.
Qed.

Lemma traced_cxx_main_touch BASE_DIR execute label c (touch : list string -> Prop) :
  touch (resolve_in c (ScanMllCxx.RUN_CARD BASE_DIR)) ->
  touch (resolve_in c (ScanMllCxx.PARAM_CARD BASE_DIR)) ->
  touch (resolve_in c (ScanMllCxx.OUTPUT_FILE BASE_DIR)) ->
  (forall run name,
     run ∈ list_prod ScanMllCxx.MASS_BINS ScanMllCxx.CXX_VALUES ->
     cxx_run_name run = Some name ->
     touch (resolve_in c (joinpath (ScanMllCxx.LOG_DIR BASE_DIR) (name +:+ ".log")))) ->
  traced c
    (EvWrite (resolve_in c (ScanMllCxx.OUTPUT_FILE BASE_DIR))
     :: flat_map (cxx_events c BASE_DIR)
          (list_prod ScanMllCxx.MASS_BINS ScanMllCxx.CXX_VALUES))
    touch (fun _ => True) (ScanMllCxx.main BASE_DIR execute label).
Proof.
  intros Hcard Hpcard Hout Hlog. unfold ScanMllCxx.main.
  eapply traced_bind; [|apply traced_write_text; exact Hout|]; [reflexivity|]. intros _ _.
  eapply traced_bind; [| |intros _ _; apply traced_print]; [symmetry; apply app_nil_r|].
  rewrite <- (flat_map_prod_enumerate (cxx_events c BASE_DIR) 1).
  intros w Hw. rewrite for_each_nested. revert w Hw.
  apply (traced_for_each c touch
           (fun p => cxx_events c BASE_DIR (snd (fst p), snd p))
           (fun p => ScanMllCxx.step BASE_DIR execute label (fst p) (snd p))).
  intros [[i bin] cxx] Hin. cbn [fst snd]. apply traced_cxx_step; auto.
  intros name Hn. apply (Hlog (bin, cxx) name); [|exact Hn].
  apply list_elem_of_In. apply list_elem_of_In in Hin.
  apply (in_prod_enumerate 1 _ _ i). exact Hin.
Qed.

(** X13: however [main] of either script ends, the only files that can
    differ afterwards are the table, the working cards and the logs of the
    runs of the scan: every other file, the templates among them, is as it
    was. *)
Theorem scan_writes_only_its_files BASE_DIR execute label w k :
  k <> resolve w ScanMll.OUTPUT_FILE ->
  k <> resolve w ScanMll.RUN_CARD ->
  (forall bin name, bin ∈ ScanMll.MASS_BINS -> plain_run_name bin = Some name ->
     k <> log_file w (ScanMll.LOG_DIR BASE_DIR) name) ->
  k <> resolve w (ScanMllCxx.OUTPUT_FILE BASE_DIR) ->
  k <> resolve w (ScanMllCxx.RUN_CARD BASE_DIR) ->
  k <> resolve w (ScanMllCxx.PARAM_CARD BASE_DIR) ->
  (forall run name,
     run ∈ list_prod ScanMllCxx.MASS_BINS ScanMllCxx.CXX_VALUES ->
     cxx_run_name run = Some name ->
     k <> log_file w (ScanMllCxx.LOG_DIR BASE_DIR) name) ->
  files (snd (ScanMll.main BASE_DIR execute w)) !! k = files w !! k
  /\ files (snd (ScanMllCxx.main BASE_DIR execute label w)) !! k = files w !! k.
Proof.
  unfold log_file. rewrite !resolve_resolve_in.
  intros Ho Hc Hl Ho' Hc' Hq' Hl'.
  assert (~ (fun k' : list string => k' <> k) k) as Hk by (intros H; apply H; reflexivity).
  split.
  - destruct (traced_plain_main_touch BASE_DIR execute (cwd w) (fun k' => k' <> k)) with (w := w)
      as (_ & Hframe & _); auto.
    intros bin name Hb Hn. specialize (Hl bin name Hb Hn).
    rewrite resolve_resolve_in in Hl. auto.
  - destruct (traced_cxx_main_touch BASE_DIR execute label (cwd w) (fun k' => k' <> k))
      with (w := w) as (_ & Hframe & _); auto.
    intros run name Hr Hn. specialize (Hl' run name Hr Hn).
    rewrite resolve_resolve_in in Hl'. auto.
Qed.

Lemma scan_writes_only_its_files_witness :
  files (snd (ScanMll.main Examples.proc_dir Examples.generator_ok Examples.world_cards))
    !! ["home"; "user"; "proc"; "Cards"; "run_card_template.dat"]
  = files Examples.world_cards !! ["home"; "user"; "proc"; "Cards"; "run_card_template.dat"]
  /\ files (snd (ScanMllCxx.main Examples.proc_dir Examples.generator_ok "cuu"
                   Examples.world_cards))
       !! ["home"; "user"; "proc"; "Cards"; "run_card_template.dat"]
     = files Examples.world_cards
         !! ["home"; "user"; "proc"; "Cards"; "run_card_template.dat"].
Proof.
  apply (scan_writes_only_its_files Examples.proc_dir Examples.generator_ok "cuu"
           Examples.world_cards ["home"; "user"; "proc"; "Cards"; "run_card_template.dat"]).
  - vm_compute. discriminate.
  - vm_compute. discriminate.
  - intros bin name Hb Hn.
    destruct (plain_run_name_prefix _ _ Hn) as (rest & ->).
    pose proof (plain_names_spec plain_run_name _ bin _ plain_names_plain Hb Hn) as Hp.
    unfold log_file. rewrite resolve_resolve_in, (log_key_plain _ _ _ Hp).
    intros E. apply (last_differ ["home"; "user"; "proc"; "Cards"]) in E.
    rewrite append_cons in E. discriminate.
  - vm_compute. discriminate.
  - vm_compute. discriminate.
  - vm_compute. discriminate.
  - intros run name Hr Hn.
    destruct (cxx_run_name_prefix _ _ Hn) as (rest & ->).
    pose proof (plain_names_spec cxx_run_name _ run _ cxx_names_plain Hr Hn) as Hp.
    unfold log_file. rewrite resolve_resolve_in, (log_key_plain _ _ _ Hp).
    intros E. apply (last_differ ["home"; "user"; "proc"; "Cards"]) in E.
    rewrite append_cons in E. discriminate.
Defined.

(** ** Run cards with blank lines *)

Lemma blank_all l : blank l = true -> all isspace l = true.
Proof.
  unfold blank. intros H. destruct (blank_or_not l) as [Ha | Hn]; [exact Ha|].
  destruct (dropwhile isspace l); [contradiction|discriminate].
Qed.

Lemma not_blank l : blank l = false -> dropwhile isspace l <> "".
Proof. unfold blank. destruct (dropwhile isspace l); [discriminate|discriminate]. Qed.

Lemma unbroken_line l : broken l = false -> blank l = true \/ open_line l = false.
Proof.
  unfold broken. destruct (blank l); [left; reflexivity|].
  rewrite andb_true_r. right. assumption.
Qed.

Section GapLines.
Variable name : string.
Hypothesis Hname : key_name name.
Variable value : string.

Local Abbreviation sub := (sub name value).
Local Abbreviation squeeze := (squeeze name value).

Lemma key_offsets_blank w r :
  all isspace w = true ->
  key_field (w +:+ r) = (String.length w + key_field r)%nat
  /\ key_end name (w +:+ r) = (String.length w + key_end name r)%nat
  /\ dropwhile isspace (w +:+ r) = dropwhile isspace r.
Proof.
  intros Hw. unfold key_end, key_field.
  rewrite (takewhile_all_app isspace w r Hw), (dropwhile_all_app isspace w r Hw).
  rewrite length_append. repeat split; lia.
Qed.

Lemma key_ok_blank_prefix prev w r :
  all isspace w = true -> key_ok name prev (w +:+ r) = at_bol prev && ok_ws0 name r.
Proof.
  intros Hw. unfold key_ok, ok_ws0. rewrite (dropwhile_all_app isspace w r Hw). reflexivity.
Qed.

Lemma blank_not_key prev l : all isspace l = true -> key_ok name prev l = false.
Proof.
  intros H. rewrite <- (append_nil_r l), (key_ok_blank_prefix prev l "" H).
  apply andb_false_r.
Qed.

(** A blank line: when the text after it begins, blank lines apart, with
    a line for the key, the match takes the blank line with it; otherwise
    the blank line is copied. *)
Lemma sub_blank_line prev l r :
  at_bol prev = true -> no_nl l = true -> all isspace l = true ->
  sub prev 0 (l +:+ String nl r)
  = if key_ok name None r
    then sub (Some nl) 0 r
    else (l +:+ String nl (fst (sub (Some nl) 0 r)), snd (sub (Some nl) 0 r)).
Proof.
  intros Hbol Hl Hblank.
  assert (all isspace (l +:+ String nl "") = true) as Hw
    by (apply all_append; [exact Hblank|reflexivity]).
  assert (l +:+ String nl r = (l +:+ String nl "") +:+ r) as Hs
    by (rewrite append_assoc, append_cons, append_nil_l; reflexivity).
  assert (key_ok name prev (l +:+ String nl r) = key_ok name None r) as Hok.
  { rewrite Hs, (key_ok_blank_prefix prev _ r Hw), Hbol. reflexivity. }
  destruct (key_ok name None r) eqn:Hr.
  - rewrite (sub_match name Hname value prev _ Hok).
    assert (key_ok name (Some nl) r = true) as Hr' by exact Hr.
    rewrite (sub_match name Hname value (Some nl) r Hr').
    unfold key_ok in Hr. cbn [at_bol andb] in Hr.
    destruct (key_end_split name r Hr) as (H1 & _ & H2 & H3).
    rewrite Hs.
    destruct (key_offsets_blank (l +:+ String nl "") r Hw) as (-> & -> & ->).
    rewrite take_app_ge, drop_app_ge.
    replace (String.length (l +:+ String nl "") + key_end name r
             - (String.length (l +:+ String nl "") + key_field r))%nat
      with (key_end name r - key_field r)%nat by lia.
    rewrite last_char_app.
    rewrite (last_char_indep _ (Some nl) (take (key_end name r) r))
      by (apply take_nonempty; lia).
    reflexivity.
  - destruct l as [|c l].
    + rewrite append_nil_l in *.
      rewrite (sub_copy name Hname value nl r prev Hok). reflexivity.
    + rewrite append_cons in *.
      rewrite (sub_copy name Hname value c _ prev Hok).
      unfold no_nl in Hl. simpl in Hl. apply andb_true_iff in Hl as [Hc Hl].
      rewrite (sub_through name Hname value);
        [reflexivity|simpl; apply negb_true_iff; exact Hc|exact Hl].
Qed.

(** Whether a match starts at the head of a card, read off its lines. *)
Lemma key_ok_ahead ls :
  ls <> [] ->
  Forall (fun l => broken l = false) (removelast ls) ->
  key_ok name None (join (String nl "") ls) = ahead name ls.
Proof.
  induction ls as [|l ls IH]; intros Hne Hun; [contradiction|].
  destruct ls as [|l2 ls].
  - simpl. destruct (blank l) eqn:Hb; [|reflexivity].
    apply blank_not_key, blank_all. exact Hb.
  - change (removelast (l :: l2 :: ls)) with (l :: removelast (l2 :: ls)) in Hun.
    apply Forall_cons in Hun as [Hl Hun].
    rewrite (join_cons _ l (l2 :: ls)) by discriminate.
    cbn [ahead]. destruct (blank l) eqn:Hb.
    + assert (all isspace (l +:+ String nl "") = true) as Hw
        by (apply all_append; [apply blank_all; exact Hb|reflexivity]).
      rewrite <- append_assoc, (key_ok_blank_prefix None _ _ Hw). cbn [at_bol andb].
      apply (IH ltac:(discriminate) Hun).
    + destruct (unbroken_line l Hl) as [Hb' | Hopen]; [congruence|].
      rewrite append_cons, append_nil_l. unfold key_ok. cbn [at_bol andb].
      apply ok_ws0_local; [exact (proj2 Hname)|exact Hopen].
Qed.

Lemma squeeze_nonempty ls : ls <> [] -> squeeze ls <> [].
Proof.
  induction ls as [|l ls IH]; intros Hne; [contradiction|].
  cbn [Spec.squeeze]. destruct (blank l && ahead name ls) eqn:E; [|discriminate].
  apply IH. intros ->. rewrite andb_false_r in E. discriminate.
Qed.

Lemma matching_cons l ls :
  matching name (l :: ls) = ((if key_ok name None l then 1 else 0) + matching name ls)%nat.
Proof. unfold matching. simpl. destruct (key_ok name None l); reflexivity. Qed.

(** A card that is the lines [ls] joined by newlines, blank lines among
    them. *)
Lemma sub_gap_lines ls : forall prev,
  at_bol prev = true -> ls <> [] ->
  Forall (fun l => no_nl l = true) ls ->
  Forall (fun l => broken l = false) (removelast ls) ->
  sub prev 0 (join (String nl "") ls) = (join (String nl "") (squeeze ls), matching name ls).
Proof.
  induction ls as [|l ls IH]; intros prev Hbol Hne Hnl Hun; [contradiction|].
  apply Forall_cons in Hnl as [Hl Hnl].
  destruct ls as [|l2 ls].
  - cbn [Spec.squeeze ahead]. rewrite andb_false_r. simpl join.
    rewrite (sub_last_line name Hname value prev l Hbol Hl).
    rewrite matching_cons. unfold matching. simpl.
    destruct (key_ok name None l); reflexivity.
  - change (removelast (l :: l2 :: ls)) with (l :: removelast (l2 :: ls)) in Hun.
    apply Forall_cons in Hun as [Hun1 Hun].
    rewrite (join_cons _ l (l2 :: ls)) by discriminate.
    rewrite append_cons, append_nil_l.
    specialize (IH (Some nl) eq_refl ltac:(discriminate) Hnl Hun).
    pose proof (squeeze_nonempty (l2 :: ls) ltac:(discriminate)) as Hsq.
    rewrite matching_cons.
    cbn [Spec.squeeze]. destruct (blank l) eqn:Hb.
    + rewrite (sub_blank_line prev l _ Hbol Hl (blank_all l Hb)).
      rewrite (key_ok_ahead (l2 :: ls) ltac:(discriminate) Hun).
      rewrite (blank_not_key None l (blank_all l Hb)).
      cbn [andb]. destruct (ahead name (l2 :: ls)).
      * rewrite IH. reflexivity.
      * rewrite IH. cbn [fst snd].
        assert (edit_key name value l = l) as ->
          by (unfold edit_key; rewrite (blank_not_key None l (blank_all l Hb)); reflexivity).
        rewrite (join_cons _ l _ Hsq), append_cons, append_nil_l. reflexivity.
    + destruct (unbroken_line l Hun1) as [Hb' | Hopen]; [congruence|].
      cbn [andb].
      rewrite (sub_line name Hname value prev l _ Hbol Hl Hopen), IH. cbn [fst snd].
      rewrite (join_cons _ (edit_key name value l) _ Hsq), append_cons, append_nil_l.
      reflexivity.
Qed.

Lemma matching_squeeze_blank l : blank l = true -> key_ok name None l = false.
Proof. intros H. apply blank_not_key, blank_all. exact H. Qed.

End GapLines.

Section GapCards.
Variable name : string.
Hypothesis Hname : key_name name.
Variable value : string.
Hypothesis Hvalue : plain_value value.

Local Abbreviation squeeze := (squeeze name value).

Lemma squeeze_no_nl ls :
  Forall (fun l => no_nl l = true) ls -> Forall (fun l => no_nl l = true) (squeeze ls).
Proof.
  induction ls as [|l ls IH]; intros H; [constructor|].
  apply Forall_cons in H as [Hl H]. cbn [Spec.squeeze].
  destruct (blank l && ahead name ls); [exact (IH H)|].
  constructor; [apply (edit_key_no_nl name value Hvalue); exact Hl|exact (IH H)].
Qed.

Lemma edit_key_unbroken l : broken l = false -> broken (edit_key name value l) = false.
Proof.
  intros H. destruct (unbroken_line l H) as [Hb | Hopen].
  - unfold edit_key. rewrite (blank_not_key name None l (blank_all l Hb)). exact H.
  - unfold broken. rewrite (edit_key_closed name Hname value Hvalue l Hopen). reflexivity.
Qed.

Lemma squeeze_unbroken ls :
  Forall (fun l => broken l = false) (removelast ls) ->
  Forall (fun l => broken l = false) (removelast (squeeze ls)).
Proof.
  induction ls as [|l ls IH]; intros H; [constructor|].
  destruct ls as [|l2 ls].
  - cbn [Spec.squeeze ahead]. rewrite andb_false_r. constructor.
  - change (removelast (l :: l2 :: ls)) with (l :: removelast (l2 :: ls)) in H.
    apply Forall_cons in H as [Hl H]. specialize (IH H).
    cbn [Spec.squeeze] in *. destruct (blank l && ahead name (l2 :: ls)); [exact IH|].
    pose proof (squeeze_nonempty name value (l2 :: ls) ltac:(discriminate)) as Hsq.
    cbn [Spec.squeeze] in Hsq.
    destruct (if blank l2 && ahead name ls
              then squeeze ls
              else edit_key name value l2 :: squeeze ls) as [|x xs] eqn:E;
      [contradiction|].
    change (removelast (edit_key name value l :: x :: xs))
      with (edit_key name value l :: removelast (x :: xs)).
    constructor; [apply edit_key_unbroken; exact Hl|exact IH].
Qed.

End GapCards.

Lemma matching_max_squeeze_min vmin ls :
  plain_value vmin ->
  matching "mmllmax" (squeeze "mmll" vmin ls) = matching "mmllmax" ls.
Proof.
  intros Hvmin. induction ls as [|l ls IH]; [reflexivity|].
  cbn [squeeze]. rewrite (matching_cons "mmllmax" l ls).
  destruct (blank l && ahead "mmll" ls) eqn:E.
  - apply andb_true_iff in E as [Hb _].
    rewrite (blank_not_key "mmllmax" None l (blank_all l Hb)). exact IH.
  - rewrite (matching_cons "mmllmax"), (key_ok_max_edit_min vmin l Hvmin), IH. reflexivity.
Qed.

(** The two substitutions of [update_run_card] on a card with blank
    lines. *)
Lemma update_text_gaps vmin vmax text :
  unbroken text -> plain_value vmin ->
  let '(text1, nmin) := subn (key_pattern "mmll") (key_repl vmin) text in
  let '(text2, nmax) := subn (key_pattern "mmllmax") (key_repl vmax) text1 in
  text2 = join (String nl "")
            (squeeze "mmllmax" vmax (squeeze "mmll" vmin (split_on nl text)))
  /\ nmin = matching "mmll" (split_on nl text)
  /\ nmax = matching "mmllmax" (split_on nl text).
Proof.
  intros Hun Hvmin.
  assert (subn (key_pattern "mmll") (key_repl vmin) text
          = (join (String nl "") (squeeze "mmll" vmin (split_on nl text)),
             matching "mmll" (split_on nl text))) as ->.
  { unfold subn. rewrite <- (join_split_on text) at 1.
    apply (sub_gap_lines "mmll" key_name_min vmin (split_on nl text) None eq_refl
             (split_on_nonempty text) (no_nl_split_on text) Hun). }
  assert (subn (key_pattern "mmllmax") (key_repl vmax)
            (join (String nl "") (squeeze "mmll" vmin (split_on nl text)))
          = (join (String nl "")
               (squeeze "mmllmax" vmax (squeeze "mmll" vmin (split_on nl text))),
             matching "mmllmax" (squeeze "mmll" vmin (split_on nl text)))) as ->.
  { apply (sub_gap_lines "mmllmax" key_name_max vmax _ None eq_refl).
    - apply squeeze_nonempty, split_on_nonempty.
    - apply (squeeze_no_nl "mmll" vmin Hvmin), no_nl_split_on.
    - apply (squeeze_unbroken "mmll" key_name_min vmin Hvmin). exact Hun. }
  rewrite (matching_max_squeeze_min vmin _ Hvmin). auto.
Qed.

Lemma unbroken_check text :
  forallb (fun l => negb (broken l)) (removelast (split_on nl text)) = true ->
  unbroken text.
Proof. apply Forall_check. Qed.

(** X14: on a run card template in which no line but the last breaks off
    inside its [value =] part, blank lines allowed anywhere, the card that
    [update_run_card] of either script writes is the template after two
    passes over its lines, one for [mmll] and then one for [mmllmax]: a
    pass deletes the blank lines that stand right before a line for its key,
    puts one blank and the formatted value in place of the blanks and the
    numeric field of that line, and keeps every other line, blank ones
    included. *)
Theorem update_run_card_with_blank_lines BASE_DIR mmin mmax text w :
  unbroken text ->
  holds w ScanMll.TEMPLATE_CARD text ->
  holds w (ScanMllCxx.TEMPLATE_CARD BASE_DIR) text ->
  fst (ScanMll.update_run_card mmin mmax w) = Ok tt ->
  fst (ScanMllCxx.update_run_card BASE_DIR mmin mmax w) = Ok tt ->
  files (snd (ScanMll.update_run_card mmin mmax w)) !! resolve w ScanMll.RUN_CARD
    = Some (join (String nl "")
              (squeeze "mmllmax" (format_float 0 6 Pg mmax)
                 (squeeze "mmll" (format_float 0 6 Pg mmin) (split_on nl text))))
  /\ files (snd (ScanMllCxx.update_run_card BASE_DIR mmin mmax w))
       !! resolve w (ScanMllCxx.RUN_CARD BASE_DIR)
     = Some (join (String nl "")
               (squeeze "mmllmax" (format_float 0 6 Pg mmax)
                  (squeeze "mmll" (format_float 0 6 Pg mmin) (split_on nl text)))).
Proof.
  intros Hun Hplain Hcxx.
  pose proof (update_text_gaps (format_float 0 6 Pg mmin) (format_float 0 6 Pg mmax) text
                Hun (plain_value_format 6 Pg mmin)) as Hlines.
  rewrite (plain_update_run_card_eq mmin mmax text w Hplain).
  rewrite (cxx_update_run_card_eq BASE_DIR mmin mmax text w Hcxx).
  destruct (subn _ _ text) as [text1 nmin].
  destruct (subn _ _ text1) as [text2 nmax].
  destruct Hlines as (-> & _ & _).
  destruct ((nmin =? 0)%nat || (nmax =? 0)%nat); [discriminate|].
  intros _ _. split.
  - exact (written_run_card _ _ ScanMll.RUN_CARD
             (log_event (EvRead (resolve w ScanMll.TEMPLATE_CARD)) w)).
  - exact (written_run_card _ _ (ScanMllCxx.RUN_CARD BASE_DIR)
             (log_event (EvRead (resolve w (ScanMllCxx.TEMPLATE_CARD BASE_DIR))) w)).
Qed.

Lemma update_run_card_with_blank_lines_witness :
  files (snd (ScanMll.update_run_card (float_of_int 15) (float_of_int 20)
                Examples.world_gaps)) !! resolve Examples.world_gaps ScanMll.RUN_CARD
    = Some (join (String nl "")
              (squeeze "mmllmax" (format_float 0 6 Pg (float_of_int 20))
                 (squeeze "mmll" (format_float 0 6 Pg (float_of_int 15))
                    (split_on nl Examples.card_with_gaps))))
  /\ files (snd (ScanMllCxx.update_run_card Examples.proc_dir (float_of_int 15)
                   (float_of_int 20) Examples.world_gaps))
       !! resolve Examples.world_gaps (ScanMllCxx.RUN_CARD Examples.proc_dir)
     = Some (join (String nl "")
               (squeeze "mmllmax" (format_float 0 6 Pg (float_of_int 20))
                  (squeeze "mmll" (format_float 0 6 Pg (float_of_int 15))
                     (split_on nl Examples.card_with_gaps)))).
Proof.
  apply (update_run_card_with_blank_lines Examples.proc_dir (float_of_int 15)
           (float_of_int 20) Examples.card_with_gaps Examples.world_gaps).
  - apply unbroken_check. vm_compute. reflexivity.
  - vm_compute; reflexivity.
  - vm_compute; reflexivity.
  - vm_compute; reflexivity.
  - vm_compute; reflexivity.
Defined.

(** The card of the example: the blank line after the title stays, the
    two blank lines before the line of the lower bound are gone. *)
Lemma squeeze_example :
  join (String nl "")
    (squeeze "mmllmax" (format_float 0 6 Pg (float_of_int 20))
       (squeeze "mmll" (format_float 0 6 Pg (float_of_int 15))
          (split_on nl Examples.card_with_gaps)))
  = "# run card" +:+ Examples.NL +:+ Examples.NL +:+ "# cuts" +:+ Examples.NL
    +:+ " 15 = mmll  ! min" +:+ Examples.NL +:+ " 20 = mmllmax ! max" +:+ Examples.NL.
Proof. vm_compute. reflexivity. Qed.

(** ** Where a scan stops *)

Lemma for_each_stops {A} c touch (events : A -> list event) (body : A -> M unit) xs :
  (forall x, x ∈ xs -> traced c (events x) touch (fun _ => True) (body x)) ->
  forall w1 e, cwd w1 = c ->
    fst (for_each xs body w1) = Raise e ->
    exists evs,
      trace (snd (for_each xs body w1)) = trace w1 ++ evs
      /\ stops_at xs body events w1 e evs.
Proof.
  induction xs as [|x xs IH]; intros Hbody w1 e Hc Hr; [discriminate|].
  cbn [for_each] in *. unfold bind in *.
  destruct (Hbody x ltac:(left) w1 Hc) as (Hc2 & _ & evs1 & Ht1 & Hp1 & Hok1).
  destruct (body x w1) as [[[]|e1] w2] eqn:Hx; cbn [fst snd] in *.
  - destruct (Hok1 tt eq_refl) as [-> _].
    destruct (IH (fun y Hy => Hbody y ltac:(right; exact Hy)) w2 e Hc2 Hr)
      as (evs2 & Ht2 & pre & y & post & evs' & Hxs & Hpre & Hy & Hp & He).
    exists (events x ++ evs2). split.
    + rewrite Ht2, Ht1, <- app_assoc. reflexivity.
    + exists (x :: pre), y, post, evs'.
      split; [rewrite Hxs; reflexivity|].
      cbn [for_each]. unfold bind. rewrite Hx.
      split; [exact Hpre|]. split; [exact Hy|]. split; [exact Hp|].
      rewrite He. cbn [flat_map]. rewrite <- app_assoc. reflexivity.
  - exists evs1. split; [exact Ht1|].
    exists [], x, xs, evs1. cbn [for_each ret fst snd flat_map app].
    rewrite Hx. cbn [fst]. auto.
Qed.

Lemma for_each_returns {A} c touch (events : A -> list event) (body : A -> M unit) xs :
  (forall x, x ∈ xs -> traced c (events x) touch (fun _ => True) (body x)) ->
  forall w1, cwd w1 = c ->
    exists evs,
      trace (snd (for_each xs body w1)) = trace w1 ++ evs
      /\ evs `prefix_of` flat_map events xs
      /\ (fst (for_each xs body w1) = Ok tt -> evs = flat_map events xs).
Proof.
  intros Hbody w1 Hc.
  destruct (traced_for_each c touch events body xs Hbody w1 Hc) as (_ & _ & evs & Ht & Hp & Hok).
  exists evs. split; [exact Ht|]. split; [exact Hp|].
  intros H. apply (Hok tt H).
Qed.

Lemma flat_map_snd_enumerate {A B} (f : A -> list B) start (xs : list A) :
  flat_map (fun it => f (snd it)) (enumerate start xs) = flat_map f xs.
Proof. apply flat_map_enumerate. Qed.

(** ** The header is written once *)

Lemma Forall_prefix {A} (P : A -> Prop) (l1 l2 : list A) :
  l1 `prefix_of` l2 -> Forall P l2 -> Forall P l1.
Proof. intros (k & ->) H. apply Forall_app in H as [H _]. exact H. Qed.

(** No operation of a pass of the plain script writes the table anew. *)
Lemma plain_events_keep_header BASE_DIR c bin :
  bin ∈ ScanMll.MASS_BINS ->
  Forall (fun ev => ev <> EvWrite (resolve_in c ScanMll.OUTPUT_FILE))
    (plain_events c BASE_DIR bin).
Proof.
  intros Hbin. destruct (plain_card_keys c) as (_ & Hco & _).
  pose proof (proj1 (forallb_forall _ _) plain_bins_named bin
                (proj1 (list_elem_of_In _ _) Hbin)) as Hnamed.
  cbv beta in Hnamed. unfold plain_events.
  destruct (plain_run_name bin) as [name|] eqn:Hn; [|discriminate].
  destruct (plain_log_keys BASE_DIR c bin name Hn Hnamed) as [_ Hlo].
  repeat constructor; try discriminate; intros [= E]; contradiction.
Qed.

(** Nor does one of the cxx script. *)
Lemma cxx_events_keep_header BASE_DIR c run :
  run ∈ list_prod ScanMllCxx.MASS_BINS ScanMllCxx.CXX_VALUES ->
  Forall (fun ev => ev <> EvWrite (resolve_in c (ScanMllCxx.OUTPUT_FILE BASE_DIR)))
    (cxx_events c BASE_DIR run).
Proof.
  intros Hrun. destruct (cxx_card_keys BASE_DIR c) as (_ & _ & Hco & _ & _ & Hqo & _).
  pose proof (proj1 (forallb_forall _ _) cxx_runs_named run
                (proj1 (list_elem_of_In _ _) Hrun)) as Hnamed.
  cbv beta in Hnamed. unfold cxx_events.
  destruct (cxx_run_name run) as [name|] eqn:Hn; [|discriminate].
  destruct (cxx_log_keys BASE_DIR c run name Hn Hnamed) as (_ & _ & Hlo).
  repeat constructor; try discriminate; intros [= E]; contradiction.
Qed.

Lemma Forall_flat_map_in {A B} (P : B -> Prop) (f : A -> list B) (xs : list A) :
  (forall x, x ∈ xs -> Forall P (f x)) -> Forall P (flat_map f xs).
Proof.
  induction xs as [|x xs IH]; intros H; simpl; [constructor|].
  apply Forall_app. split; [apply H; left|].
  apply IH. intros y Hy. apply H. right. exact Hy.
Qed.

(** The operations of [main] of the plain script: the write of the header,
    then operations of the passes, none of which writes the table anew. *)
Lemma plain_header_once BASE_DIR execute w :
  exists evs,
    trace (snd (ScanMll.main BASE_DIR execute w))
      = trace w ++ EvWrite (resolve w ScanMll.OUTPUT_FILE) :: evs
    /\ Forall (fun ev => ev <> EvWrite (resolve w ScanMll.OUTPUT_FILE)) evs.
Proof.
  set (w1 := snd (write_text ScanMll.OUTPUT_FILE ScanMll.header w)).
  assert (forall it, it ∈ enumerate 1 ScanMll.MASS_BINS ->
            traced (cwd w) (plain_events (cwd w) BASE_DIR (snd it)) (fun _ => True)
              (fun _ => True) (ScanMll.step BASE_DIR execute it)) as Hbody.
  { intros [i bin] _. apply traced_plain_step; auto. }
  destruct (for_each_returns _ _ _ _ _ Hbody w1 eq_refl) as (evs & Ht & Hp & _).
  rewrite flat_map_snd_enumerate in Hp.
  exists evs. split.
  - change (ScanMll.main BASE_DIR execute w)
      with (bind (for_each (enumerate 1 ScanMll.MASS_BINS) (ScanMll.step BASE_DIR execute))
              (fun _ => print (String nl "All done. Results in "
                               +:+ path_str ScanMll.OUTPUT_FILE)) w1).
    unfold bind.
    destruct (for_each (enumerate 1 ScanMll.MASS_BINS) (ScanMll.step BASE_DIR execute) w1)
      as [[[]|e0] w2]; cbn [fst snd trace print] in *;
      rewrite Ht; unfold w1; cbn; rewrite <- app_assoc; reflexivity.
  - apply (Forall_prefix _ _ _ Hp). apply Forall_flat_map_in.
    intros bin Hbin. rewrite resolve_resolve_in. apply plain_events_keep_header. exact Hbin.
Qed.

Lemma cxx_header_once BASE_DIR execute CXX_LABEL w :
  exists evs,
    trace (snd (ScanMllCxx.main BASE_DIR execute CXX_LABEL w))
      = trace w ++ EvWrite (resolve w (ScanMllCxx.OUTPUT_FILE BASE_DIR)) :: evs
    /\ Forall (fun ev => ev <> EvWrite (resolve w (ScanMllCxx.OUTPUT_FILE BASE_DIR))) evs.
Proof.
  set (w1 := snd (write_text (ScanMllCxx.OUTPUT_FILE BASE_DIR) ScanMllCxx.header w)).
  set (runs := list_prod (enumerate 1 ScanMllCxx.MASS_BINS) ScanMllCxx.CXX_VALUES).
  set (body := fun p : Z * (float * float) * Z =>
                 ScanMllCxx.step BASE_DIR execute CXX_LABEL (fst p) (snd p)).
  assert (forall p, p ∈ runs ->
            traced (cwd w) (cxx_events (cwd w) BASE_DIR (snd (fst p), snd p))
              (fun _ => True) (fun _ => True) (body p)) as Hbody.
  { intros [[i bin] cxx] _. apply traced_cxx_step; auto. }
  assert (ScanMllCxx.main BASE_DIR execute CXX_LABEL w
          = bind (for_each runs body)
              (fun _ => print (String nl "All done. Results in "
                               +:+ path_str (ScanMllCxx.OUTPUT_FILE BASE_DIR))) w1) as Hmain.
  { unfold ScanMllCxx.main, bind at 1. change (write_text _ _ w) with (Ok tt, w1).
    cbv iota beta. unfold bind. rewrite for_each_nested. reflexivity. }
  destruct (for_each_returns _ _ _ _ _ Hbody w1 eq_refl) as (evs & Ht & Hp & _).
  unfold runs in Hp.
  rewrite (flat_map_prod_enumerate (cxx_events (cwd w) BASE_DIR) 1) in Hp.
  exists evs. split.
  - rewrite Hmain. unfold bind.
    destruct (for_each runs body w1) as [[[]|e0] w2]; cbn [fst snd trace print] in *;
      rewrite Ht; unfold w1; cbn; rewrite <- app_assoc; reflexivity.
  - apply (Forall_prefix _ _ _ Hp). apply Forall_flat_map_in.
    intros run Hrun. rewrite resolve_resolve_in. apply cxx_events_keep_header. exact Hrun.
Qed.



